(* ===== verification/_CoqProject ===== *)
-Q . S2P
Prelude.v
Html.v
Selector.v
Dom.v
DomFacts.v
Queries.v
Subtree.v
EventLoop.v
Format.v
Page.v
Samples.v
Guard.v
Bindings.v
Activation.v
Machine.v
Invariants.v
Kinds.v
Loading.v
Clicks.v
Timers.v
GuardTable.v
Refinement.v
Alerts.v
Order.v
Quiescence.v
Served.v
Settled.v
Bisim.v
