(* ===== verification/Prelude.v ===== *)
(** * Verification of [static/js/main.js], the page behaviours of the
    Smart Classroom Timetable Scheduler

    ** The program

    [src/static/js/main.js] is the client-side script of a server-rendered
    page.  It has three parts:

    - a [DOMContentLoaded] listener (lines 2-46) that, once the document is
      parsed, (a) creates one [bootstrap.Tooltip] per element matching
      [[data-bs-toggle="tooltip"]], (b) registers a [submit] listener on every
      [form], which puts the form's first [button[type="submit"]] into a
      disabled "Processing..." state and schedules its restoration after
      30000 ms, (c) schedules for every [.alert] a callback that clicks the
      alert's [.btn-close] after 5000 ms, (d) registers a [click] listener on
      every [.btn-danger[data-action="delete"]] that asks for confirmation
      and cancels the event when the user declines;
    - [showLoading] (lines 49-63), which overwrites the content of the first
      [.container] with a spinner;
    - [formatDateTime] (lines 65-68), which joins the host's locale date and
      locale time of a parsed date with one space.

    The script has no data of its own: its state is the DOM, the listener
    registry and the timer queue of the browser.  The development therefore
    models that host state explicitly and the script as programs over it.

    ** Files

    - [Prelude] (this file): the state-passing monad [state S A] in which the
      script is written, its notation ([x <- c ;; k]), the loops [forEach],
      [mapM] and [foldM], exceptions as values ([outcome], [x <-? c ;; k],
      [mapE]), a small Hoare logic ([hoare P c Q], [preserves]) with its
      rules ([foldM_cost] bounds what a loop adds to a measure), its
      relational counterpart ([respects R c]: the program cannot tell
      states related by [R] apart; the tactic [respect] and the database
      [respects]; [sequence_Permutation]: programs that commute run in
      any order), and the list lemmas the components share.
    - [Html]: HTML fragments as trees ([hnode]); a string of markup is
      represented by the fragment it parses to.  [render] prints a fragment
      back to text so that the literals of the script can be compared with
      the source.  Attribute lists with [attr_get], [attr_set],
      [attr_remove].
    - [Selector]: the compound selectors the script uses (type, class and
      attribute-equality tests), [matches] and their concrete syntax.
    - [Dom]: the document as a forest of element trees with identities
      ([tree], [dom]): the attached document and the detached subtrees that
      closures may still hold.  [instantiate] creates nodes from a fragment,
      [serialize] reads them back ([innerHTML]), the three query calls
      search in document order, [set_innerHTML] and [set_disabled] mutate
      the node with a given identity.  [wf_dom]: identities are unique and
      below the allocator.
    - [DomFacts]: the lemmas on [Dom]: the round trip of [instantiate] and
      [serialize], what each mutation does to the node it names (and, with
      unique identities, that it leaves the tag and the attributes of
      every other node alone), that the guard followed by the fallback
      leaves the markup of the document as it was, that [wf_dom] is
      preserved, that writing to a detached element leaves the document
      alone, and that the propagation path of an event visits no element
      twice.
    - [Queries]: what a query returns: an element returned by a query
      passes the test of the selector ([matches_at]), and
      [querySelectorAll] returns all the elements of the document that
      pass it, in document order ([document_querySelectorAll_filter]).
    - [Subtree]: what a write to one element leaves of the content of
      another: the subtree of [c] is as it was unless the element
      written to is [c] or below [c]
      ([kids_of_set_innerHTML_outside], [kids_of_set_disabled_outside]);
      the number of elements that a query finds below an element is
      read from its markup ([hcount], [select_forest_length]);
      [changes_only b d d'] says that from [d] to [d'] nothing but the
      element [b] was written.
    - [EventLoop]: the timer queue ([loop]): [setTimeout], [next_timer]
      (least due time, registration order among equals), [take_timer];
      [wf_loop] (unique handles), [punctual] (no timer is overdue),
      [within] (every timer is due within the delay of its callback) and
      [in_set_order] (the queue is in the order in which the timers were
      set); the timer that fires is the first of the least due time
      ([take_timer_split]) and overtakes only timers set with a longer
      delay ([take_timer_oldest]).
    - [Format]: [formatDateTime] over the interface [DateHost] of the
      host's [Date] object (a type class with its laws), with the instance
      [en_US_host] used for the examples.
    - [Page]: the script itself.  [world] collects the DOM, the timer queue,
      the listener registry, the log of what the page showed, whether the
      global [bootstrap] is defined and the forms that have an invalid
      field; the closures of the script are the
      constructors of [callback] and [listener]; each function of the
      script is one definition ([initTooltips], [submitListener],
      [restoreButton], [bindForms], [hideAlert], [bindAlerts],
      [confirmListener], [bindDeleteButtons], [onDOMContentLoaded], [main],
      [showLoading]); [dispatch] delivers an event along the bubbling
      path, [fire_click] is a click with its default action (a submit
      button that is not disabled submits the form that owns it, if its
      fields are valid: [submitted_by]), [js_click] is [el.click()],
      [run_callback] and [run_timer] fire timers.
    - [Samples]: a page of the application on which the theorems are tried.
    - [Guard]: theorems on the submit guard: what one submit does on each
      branch, that the fallback restores the content and the markup of the
      button exactly, that the listener never cancels the submission.
    - [Bindings]: theorems on initialisation: one tooltip per trigger (or
      the exception when the library is missing, which stops the whole
      listener), one listener per form and per delete button, one timer
      per alert; the alert callback and the delete confirmation.
    - [Activation]: one click followed from the listeners to the default
      action: the click on the delete button of a form shows the dialog
      and, only if the user accepts, submits the form and starts its
      guard.
    - [Machine]: the page as a labelled transition system ([step]) whose
      labels are what the browser and the user may do; its executable form
      ([enabled], [perform], [run]); reachability; the class [Stable] of
      predicates that every effect of the script preserves, and the proof
      that a stable predicate holds on every reachable page; what loading
      a page sets up, in terms of the elements of the document
      ([page_setup]).
    - [Invariants]: the instances of [Stable]: [wf_world] (the
      representation invariant of the host model: unique identities and
      handles; the other proofs rely on it, it says nothing of the
      script), [guarded] (for each button at most one pending fallback,
      and a button with a pending fallback is disabled), [typed] (only
      the bindings of the script are registered), [on_time], [due_soon],
      [prompts_logged]; and the theorems that state them of every
      reachable page.
    - [Kinds]: the elements that the closures hold are of the kind their
      selector says, on every reachable page ([kinded]); hence a button
      with a pending fallback cannot be clicked and submits nothing.
    - [Loading]: [showLoading] on both branches
      ([showLoading_replaces]), and together with the rest of the script:
      the element that shows the placeholder ([frozen]) shows it after
      every move that follows ([loading_persists]), because the script
      writes to submit buttons and containers only and the placeholder
      has neither.
    - [Clicks]: induction on a dispatch on a page with a typed registry
      ([invoke_fold]); a click reaches delete confirmations only, leaves
      the page as it is but for the dialogs, and is cancelled exactly
      when the user declined one of them; a declined click on a delete
      button submits nothing.
    - [Timers]: through its default action a click reaches the submit
      guards: what the guard, the dialog and the log preserve, every
      click and every alert callback preserves ([fire_click_event],
      [hideAlert_event]); an event sets at most one timer per binding
      ([dispatch_cost]); [drain] with [drain_fuel] units of fuel empties
      the queue, and every guarded button is enabled again.
    - [GuardTable]: the guards of the whole page as an abstract machine:
      the time and a finite map ([gmap]) from the buttons that wait to the
      content and the time of their restoration ([guards],
      [guards_step]); its invariant [guards_wf], proved of the machine
      alone; the table of a page ([guards_of]) and the proof that every
      move of a reachable page is a move of the table
      ([page_refinement]), so that the invariants of the table hold of
      the page ([table_invariant]).
    - [Refinement]: the guard of one button as an abstract machine
      ([phase], [guard_step]); the table refines it for each of its
      buttons ([table_refines_button]), hence so does the page
      ([guard_refinement]).
    - [Alerts]: the history of the callbacks that fired along a run, and
      the proof that an alert is dismissed at most once when the script is
      evaluated once and the load event fires once.
    - [Order]: the order in which timers fire: the queue is in set order
      on every reachable page ([set_order]), a move only adds timers
      behind the pending ones ([grows]), so alerts are dismissed and
      buttons restored in the order in which their timers were set
      ([timers_fire_in_order]); when the load event fires once, the
      alerts dismissed and the alerts pending are the alerts of the
      served document in document order ([alerts_in_document_order]);
      the alert timers as an abstract queue ([alerts_step]) that every
      move of the page follows ([alerts_queue]).
    - [Quiescence]: letting the timers fire is a run of timer moves
      ([drain_run]); from every reachable page such a run leads to a
      page without pending timers, on which every alert that was
      pending has had its callback and every button that was waiting is
      enabled ([page_comes_to_rest]).
    - [Served]: what the script leaves of the served elements on every
      reachable page: their tags and their attributes, but for
      [disabled] on the buttons whose fallback waits ([as_served],
      [served_attributes]).
    - [Settled]: what the script leaves of the served document: [undo]
      is the markup of the document with the pending fallbacks carried
      out, read from the table of guards; as long as [showLoading] has
      not run it is the served page after every move, so the document
      is the served page again once the timers have fired
      ([document_as_served]).  The served page must have no submit
      button inside a submit button ([flat]); [sample_nested_stuck]
      shows what happens when it has.
    - [Bisim]: pages that differ in the order of the registry between
      different targets and events ([same_registry]) are bisimilar: every
      call of the browser and every function of the script respects the
      equivalence; hence the four blocks of the load listener ([block],
      [run_block], [load_in_order]) can run in any order where the
      tooltips can be created, and where they cannot, the blocks before
      the tooltips run and no block after them ([binding_order]).

    ** Correspondence with the code

    A value of [state world A] is a piece of JavaScript that runs to
    completion on the single-threaded event loop: it takes the host state
    and returns a result and the new host state.  Local [const]s are bound
    variables; a DOM element reference is the identity ([nat]) of the node,
    so that two closures holding the same element alias the same node, and
    a node removed from the document stays reachable through [d_detached].
    An arrow function is defunctionalised: its constructor carries the
    variables it closes over ([RestoreButton submitBtn originalText],
    [HideAlert alert]).  The only expression of the script that can throw is
    [new bootstrap.Tooltip(el)] (line 6), when the Bootstrap bundle was not
    evaluated: [js_new_Tooltip] returns an [outcome], and the statements
    that follow it in the listener are sequenced with [<-?].  The answers
    of the user to [confirm] are a function [user : nat -> bool] from the
    number of the dialog to the answer, so every run is determined by the
    initial page, [user] and the sequence of labels.  Whether the fields
    of a form are valid is an input too: the label [LInput form ok]
    records it in [w_invalid], and a click submits only a valid form.

    The labels of [Machine.step] are the moves of the environment:
    [LBootstrap] and [LScript] evaluate the two script files,
    [LContentLoaded] fires the load event, [LSubmit form] fires [submit]
    at a form (a script calling [requestSubmit], or another control),
    [LClick el] is a click of the user with its default action, [LInput]
    an edit of a field, [LTimer] the firing of the next timer, [LWait] the
    passing of time and [LShowLoading] a call of [showLoading] by another
    script of the page.

    ** What the theorems show

    - Functional behaviour of every function of the script on each of its
      branches ([Guard], [Bindings], [Loading], [Format]), with the
      literals checked against the source text through [render] and
      [show_selector] ([Page]), and of the two features that meet on a
      delete form ([Activation]): confirmation first, loading state only
      after it.
    - Invariants of all interleavings ([Invariants]): the properties that
      the specification names ("at most one pending re-enable timer per
      submit button") and those the proofs need (typed registry, punctual
      timers, and the unique identities of the host model); the kinds of
      the elements that closures
      hold ([Kinds]); the bounds of the due times and of the number of
      timers that a move sets ([Invariants], [Timers]).
    - Refinement, in two steps ([GuardTable], [Refinement]): the page
      implements the table of guards (entries are added by the moves that
      can submit a form, removed one at a time by the fallback that is
      due first, at its due time), and the table implements the guard of
      each button: idle, busy with the recorded content, idle again.  The
      invariant of the table is proved on the table and transported to
      the page.  The alert timers refine a first-in first-out queue in
      the same way ([Order]).
    - Completeness of the set-up ([Queries], [Machine]): after the load
      event every form of the document has the guard, every alert its
      timer, every delete button the confirmation and every trigger its
      tooltip, once each, in document order, and nothing else has.
    - Ordering ([Order]): timers of one kind fire in the order in which
      they were set; an alert timer can overtake a fallback, never the
      other way round; alerts go in document order.
    - Independence ([Bisim], [Guard]): the order of the four blocks of
      the load listener is immaterial up to a bisimulation, but for the
      exception of the tooltips, which keeps the blocks after them from
      running; the fallback of a button that has left the document
      leaves the document alone.
    - Composition of [showLoading] with the bindings ([Loading],
      [Subtree]): the placeholder is never overwritten by a fallback, a
      guard or a timer, unless the container is itself a submit button
      (Example [sample_button_container]).
    - What the script leaves alone ([Guard], [Served], [Settled]): one
      guard writes to its button only ([changes_only]); along every
      run no served element changes its tag or an attribute other
      than [disabled], which is there exactly while the fallback
      waits; and as long as [showLoading] has not run, the document
      is, as markup, the served page whenever no fallback is pending.
    - Termination and liveness ([Timers], [Quiescence]): the timers all
      fire within [drain_fuel] moves, each pending alert has its
      callback, and each guarded button is enabled once they have.
    - A property of whole runs ([Alerts]): "each alert is dismissed at most
      once", and the hypotheses under which it holds.

    ** Bounds and fuel

    Times are in milliseconds, in [N]; identities and timer handles are
    [nat]; nothing is bounded.  Every traversal of the DOM is structural.
    The only fuel is that of [drain]: one unit per timer fired.  A
    fallback sets no timer, but the callback of an alert clicks the close
    control, and the default action of that click may submit a form and
    start its guards: at most one new fallback per binding of the
    registry ([dispatch_cost]), and no new alert timer.  The theorems
    take [drain_fuel w] as fuel: the number of pending timers plus, for
    each pending alert, the number of bindings; [fire_fuel] shows that
    each firing uses up at least one unit, so that fuel is enough.  The
    table of guards is a finite map with no bound on its size.  The
    delays of the script (30000 and 5000) are below [2 ^ 31], the
    range in which [setTimeout] keeps a delay as it is
    ([timer_due_bounds]).

    ** Not modelled

    The HTML parser and serialiser of the browser (a string of markup is
    identified with its fragment; [render] is only used to relate the
    literals to the source text), CSS and rendering, the behaviour of
    [bootstrap.Tooltip] beyond "one instance per call, or an exception",
    the exceptions of line 6 other than the [ReferenceError] for an
    undefined [bootstrap] (a bundle without [Tooltip], an exception
    inside the constructor), the navigation that follows a submit (the
    page stays, as when the response is a download or the request is
    slow), lateness of timers (a timer fires exactly when it is due,
    and time is not bounded), the default actions
    other than that of a submit button (links, labels, reset buttons),
    Bootstrap's own dismiss handler (the log records the click and
    whether it was cancelled), the [form] attribute of a control (the
    owner of a button is the nearest [form] around it), constraint
    validation itself (its verdict is an input), the capture phase and
    [stopPropagation] (the script uses neither), listeners registered by
    other scripts, locale data ([DateHost] is an interface),
    case-insensitive matching of attribute values, disabling through
    an ancestor [fieldset], and the clamping of nested timers (the
    callbacks of the script set no timer of their own on the same
    level).  The source has no other code: what is left of the browser
    cannot be modelled from it. *)

From Stdlib Require Import Ascii String.
From stdpp Require Import base strings option numbers list.

(** ** State-passing programs *)

Definition state (S A : Type) : Type := S → A * S.

Definition ret {S A} (a : A) : state S A := λ s, (a, s).

Definition bind {S A B} (c : state S A) (k : A → state S B) : state S B :=
  λ s, k (c s).1 (c s).2.

Definition get {S} : state S S := λ s, (s, s).

Definition gets {S A} (f : S → A) : state S A := λ s, (f s, s).

Definition modify {S} (f : S → S) : state S unit := λ s, (tt, f s).

Definition exec {S A} (c : state S A) (s : S) : S := (c s).2.

Definition eval {S A} (c : state S A) (s : S) : A := (c s).1.

Declare Scope prog_scope.
Delimit Scope prog_scope with prog.
Notation "x <- c ;; k" := (bind c (λ x, k))
  (at level 100, c at next level, right associativity) : prog_scope.
Notation "c ;; k" := (bind c (λ _, k))
  (at level 100, right associativity) : prog_scope.
Open Scope prog_scope.

(** [forEach l f] is [l.forEach(f)]; [mapM f l] is [l.map(f)] for a
    callback with effects: both visit the elements from first to last. *)
Fixpoint forEach {S A} (l : list A) (f : A → state S unit) : state S unit :=
  match l with
  | [] => ret tt
  | x :: l' => f x ;; forEach l' f
  end.

Fixpoint mapM {S A B} (f : A → state S B) (l : list A) : state S (list B) :=
  match l with
  | [] => ret []
  | x :: l' => y <- f x ;; ys <- mapM f l' ;; ret (y :: ys)
  end.

(** [foldM f b l] threads an accumulator through the visits. *)
Fixpoint foldM {S A B} (f : B → A → state S B) (b : B) (l : list A) : state S B :=
  match l with
  | [] => ret b
  | x :: l' => b' <- f b x ;; foldM f b' l'
  end.

(** ** Exceptions

    A call that may throw returns an [outcome].  [x <-? c ;; k] runs [k]
    when [c] completes normally and propagates the exception otherwise;
    [lift c] is a program that cannot throw; [mapE f l] is [l.map(f)] for
    an [f] that may throw: the first exception ends the loop. *)
Inductive outcome (E A : Type) : Type :=
| Normal (a : A)
| Throw (e : E).

Arguments Normal {E A} a.
Arguments Throw {E A} e.

Definition try_bind {S E A B} (c : state S (outcome E A))
    (k : A → state S (outcome E B)) : state S (outcome E B) :=
  r <- c ;;
  match r with
  | Normal a => k a
  | Throw e => ret (Throw e)
  end.

Notation "x <-? c ;; k" := (try_bind c (λ x, k))
  (at level 100, c at next level, right associativity) : prog_scope.

Definition lift {S E A} (c : state S A) : state S (outcome E A) :=
  a <- c ;; ret (Normal a).

Fixpoint mapE {S E A B} (f : A → state S (outcome E B)) (l : list A) :
    state S (outcome E (list B)) :=
  match l with
  | [] => ret (Normal [])
  | x :: l' => y <-? f x ;; ys <-? mapE f l' ;; ret (Normal (y :: ys))
  end.

(** [find_map f l]: the first result that [f] gives on [l]. *)
Definition find_map {A B} (f : A → option B) : list A → option B :=
  fix go l :=
    match l with
    | [] => None
    | x :: l' => match f x with Some y => Some y | None => go l' end
    end.

(** ** A Hoare logic for state-passing programs *)

Definition hoare {S A} (P : S → Prop) (c : state S A) (Q : A → S → Prop) : Prop :=
  ∀ s, P s → Q (c s).1 (c s).2.

Definition preserves {S A} (I : S → Prop) (c : state S A) : Prop :=
  hoare I c (λ _, I).

(** A program that does not change the state. *)
Definition readonly {S A} (c : state S A) : Prop := ∀ s, (c s).2 = s.

(** ** Tactics *)

(** Unfold the monad down to pairs and projections. *)
Ltac prog_unfold :=
  unfold exec, eval, bind, ret, get, gets, modify in *; simpl in *.

(** Case analysis on the scrutinee of the first [match] or [if] of the goal. *)
Ltac case_scrut :=
  match goal with
  | |- context [match ?x with _ => _ end] =>
      let E := fresh "E" in destruct x eqn:E
  end.

Create HintDb prog discriminated.
Create Rewrite HintDb page_rw.

Section StateLaws.
Context {S : Type}.
Implicit Types s : S.

Lemma bind_ret_l {A B} (a : A) (k : A → state S B) s : (x <- ret a ;; k x) s = k a s.
Proof. reflexivity. Qed.

Lemma bind_ret_r {A} (c : state S A) s : (x <- c ;; ret x) s = c s.
Proof. unfold bind, ret; simpl. by destruct (c s). Qed.

Lemma bind_assoc {A B C} (c : state S A) (k : A → state S B) (h : B → state S C) s :
  (y <- (x <- c ;; k x) ;; h y) s = (x <- c ;; y <- k x ;; h y) s.
Proof. reflexivity. Qed.

Lemma exec_bind {A B} (c : state S A) (k : A → state S B) s :
  exec (x <- c ;; k x) s = exec (k (eval c s)) (exec c s).
Proof. reflexivity. Qed.

Lemma eval_bind {A B} (c : state S A) (k : A → state S B) s :
  eval (x <- c ;; k x) s = eval (k (eval c s)) (exec c s).
Proof. reflexivity. Qed.

Lemma forEach_app {A} (l1 l2 : list A) (f : A → state S unit) s :
  forEach (l1 ++ l2) f s = (forEach l1 f ;; forEach l2 f) s.
Proof.
  revert s; induction l1 as [|x l1 IH]; intros s; simpl; [done|].
  unfold bind at 1 3; simpl. by rewrite IH.
Qed.

Lemma mapM_length {A B} (f : A → state S B) (l : list A) s :
  length (eval (mapM f l) s) = length l.
Proof.
  revert s; induction l as [|x l IH]; intros s; simpl; [done|].
  unfold eval, bind, ret in *; simpl. by rewrite IH.
Qed.

(** *** Rules of the Hoare logic *)

Lemma hoare_ret {A} (P : S → Prop) (a : A) (Q : A → S → Prop) :
  (∀ s, P s → Q a s) → hoare P (ret a) Q.
Proof. intros H s Hs; by apply H. Qed.

Lemma hoare_bind {A B} (P : S → Prop) (R : A → S → Prop) (Q : B → S → Prop)
    (c : state S A) (k : A → state S B) :
  hoare P c R → (∀ a, hoare (R a) (k a) Q) → hoare P (x <- c ;; k x) Q.
Proof. intros Hc Hk s Hs. unfold bind. by apply Hk, Hc. Qed.

Lemma hoare_conseq {A} (P P' : S → Prop) (Q Q' : A → S → Prop) (c : state S A) :
  hoare P' c Q' → (∀ s, P s → P' s) → (∀ a s, Q' a s → Q a s) → hoare P c Q.
Proof. intros Hc HP HQ s Hs. by apply HQ, Hc, HP. Qed.

Lemma hoare_gets {A} (P : S → Prop) (f : S → A) (Q : A → S → Prop) :
  (∀ s, P s → Q (f s) s) → hoare P (gets f) Q.
Proof. intros H s Hs; by apply H. Qed.

Lemma hoare_modify (P : S → Prop) (f : S → S) (Q : unit → S → Prop) :
  (∀ s, P s → Q tt (f s)) → hoare P (modify f) Q.
Proof. intros H s Hs; by apply H. Qed.

Lemma hoare_if {A} (b : bool) (P : S → Prop) (c1 c2 : state S A) Q :
  (b = true → hoare P c1 Q) → (b = false → hoare P c2 Q) →
  hoare P (if b then c1 else c2) Q.
Proof. destruct b; auto. Qed.

Lemma hoare_option {A B} (o : option A) (P : S → Prop) (c1 : A → state S B) c2 Q :
  (∀ a, o = Some a → hoare P (c1 a) Q) → (o = None → hoare P c2 Q) →
  hoare P (match o with Some a => c1 a | None => c2 end) Q.
Proof. destruct o; auto. Qed.

(** A loop preserves what each of its iterations preserves. *)
Lemma preserves_forEach {A} (I : S → Prop) (l : list A) (f : A → state S unit) :
  (∀ x, x ∈ l → preserves I (f x)) → preserves I (forEach l f).
Proof.
  induction l as [|x l IH]; intros Hf; [by apply hoare_ret|].
  apply hoare_bind with (R := λ _, I); [apply Hf; left|].
  intros _. apply IH. intros y Hy. apply Hf. by right.
Qed.

Lemma preserves_mapM {A B} (I : S → Prop) (l : list A) (f : A → state S B) :
  (∀ x, x ∈ l → preserves I (f x)) → preserves I (mapM f l).
Proof.
  induction l as [|x l IH]; intros Hf; [by apply hoare_ret|].
  apply hoare_bind with (R := λ _, I); [apply Hf; left|]. intros y.
  apply hoare_bind with (R := λ _, I); [|intros ys; by apply hoare_ret].
  apply IH. intros z Hz. apply Hf. by right.
Qed.

Lemma preserves_foldM {A B} (I : S → Prop) (l : list A) (f : B → A → state S B) b :
  (∀ b x, x ∈ l → preserves I (f b x)) → preserves I (foldM f b l).
Proof.
  revert b; induction l as [|x l IH]; intros b Hf; [by apply hoare_ret|].
  apply hoare_bind with (R := λ _, I); [apply Hf; left|].
  intros b'. apply IH. intros b'' y Hy. apply Hf. by right.
Qed.

(** The same with an invariant that speaks of the accumulator. *)
Lemma hoare_foldM {A B} (I : B → S → Prop) (l : list A) (f : B → A → state S B) b :
  (∀ b x, x ∈ l → hoare (I b) (f b x) I) → hoare (I b) (foldM f b l) I.
Proof.
  revert b; induction l as [|x l IH]; intros b Hf; [by apply hoare_ret|].
  apply hoare_bind with (R := I); [apply Hf; left|].
  intros b'. apply IH. intros b'' y Hy. apply Hf. by right.
Qed.

(** The same with a cost: if the step for [x] raises the measure [m] by
    at most [c x], the fold raises it by at most the sum of the costs. *)
Lemma foldM_cost {A B} (I : B → S → Prop) (m : S → nat) (c : A → nat)
    (f : B → A → state S B) (l : list A) b s :
  (∀ b x s, x ∈ l → I b s → I (f b x s).1 (f b x s).2 ∧ m (f b x s).2 ≤ m s + c x) →
  I b s →
  I (foldM f b l s).1 (foldM f b l s).2 ∧ m (foldM f b l s).2 ≤ m s + sum_list (c <$> l).
Proof.
  revert b s; induction l as [|x l IH]; intros b s Hf Hb; [simpl; split; [done|lia]|].
  destruct (Hf b x s) as [H1 H2]; [left|done|]. cbn [foldM]. unfold bind.
  destruct (f b x s) as [b1 s1]; simpl in H1, H2.
  destruct (IH b1 s1) as [H3 H4]; [intros b' y s' Hy; apply Hf; by right|done|].
  split; [done|]. rewrite fmap_cons. simpl; lia.
Qed.

Lemma preserves_bind {A B} (I : S → Prop) (c : state S A) (k : A → state S B) :
  preserves I c → (∀ a, preserves I (k a)) → preserves I (x <- c ;; k x).
Proof. intros Hc Hk. by apply hoare_bind with (R := λ _, I). Qed.

Lemma preserves_ret {A} (I : S → Prop) (a : A) : preserves I (ret a).
Proof. by apply hoare_ret. Qed.

Lemma preserves_readonly {A} (I : S → Prop) (c : state S A) :
  readonly c → preserves I c.
Proof. intros Hc s Hs. by rewrite Hc. Qed.

Lemma preserves_exec {A} (I : S → Prop) (c : state S A) s :
  preserves I c → I s → I (exec c s).
Proof. intros Hc Hs. by apply Hc. Qed.

Lemma preserves_try_bind {E A B} (I : S → Prop) (c : state S (outcome E A))
    (k : A → state S (outcome E B)) :
  preserves I c → (∀ a, preserves I (k a)) → preserves I (x <-? c ;; k x).
Proof.
  intros Hc Hk. apply preserves_bind; [done|]. intros [a|e]; [apply Hk|apply preserves_ret].
Qed.

Lemma preserves_lift {E A} (I : S → Prop) (c : state S A) :
  preserves I c → preserves I (lift (E := E) c).
Proof. intros Hc. apply preserves_bind; [done|]. intros a. apply preserves_ret. Qed.

Lemma preserves_mapE {E A B} (I : S → Prop) (l : list A) (f : A → state S (outcome E B)) :
  (∀ x, x ∈ l → preserves I (f x)) → preserves I (mapE f l).
Proof.
  induction l as [|x l IH]; intros Hf; [by apply hoare_ret|].
  apply preserves_try_bind; [apply Hf; left|]. intros y.
  apply preserves_try_bind; [|intros ys; by apply hoare_ret].
  apply IH. intros z Hz. apply Hf. by right.
Qed.

(** A loop whose body never throws visits every element. *)
Lemma mapE_normal {E A B} (f : A → state S (outcome E B)) (g : A → state S B) l s :
  (∀ x s', x ∈ l → f x s' = (Normal (g x s').1, (g x s').2)) →
  mapE f l s = (Normal (mapM g l s).1, (mapM g l s).2).
Proof.
  revert s; induction l as [|x l IH]; intros s Hf; [done|]. simpl.
  unfold try_bind, bind. rewrite Hf by left. simpl.
  rewrite IH by (intros y s' Hy; apply Hf; by right). done.
Qed.

(** A loop whose body throws at the first element does nothing else. *)
Lemma mapE_throw {E A B} (f : A → state S (outcome E B)) x l s e :
  f x s = (Throw e, s) → mapE f (x :: l) s = (Throw e, s).
Proof. intros H. simpl. unfold try_bind, bind. by rewrite H. Qed.

End StateLaws.

(** ** Two runs of one program

    [respects R c]: from states related by [R] the program [c] returns
    the same value and ends in states related by [R].  When [R] is an
    equivalence this says that [c] cannot tell equivalent states apart.
    The lemmas follow the structure of programs; [respect] applies them,
    with the database [respects] for the calls at the leaves. *)

Definition respects {S A} (R : relation S) (c : state S A) : Prop :=
  ∀ s1 s2, R s1 s2 → (c s1).1 = (c s2).1 ∧ R (c s1).2 (c s2).2.

Create HintDb respects discriminated.

Section Respects.
Context {S : Type} (R : relation S).

Lemma respects_ret {A} (a : A) : respects R (ret a).
Proof. by intros s1 s2 HR. Qed.

Lemma respects_bind {A B} (c : state S A) (k : A → state S B) :
  respects R c → (∀ a, respects R (k a)) → respects R (x <- c ;; k x).
Proof.
  intros Hc Hk s1 s2 HR. unfold bind. destruct (Hc s1 s2 HR) as [-> HR']. by apply Hk.
Qed.

Lemma respects_gets {A} (f : S → A) :
  (∀ s1 s2, R s1 s2 → f s1 = f s2) → respects R (gets f).
Proof. intros Hf s1 s2 HR. split; [by apply Hf|done]. Qed.

Lemma respects_modify (f : S → S) :
  (∀ s1 s2, R s1 s2 → R (f s1) (f s2)) → respects R (modify f).
Proof. intros Hf s1 s2 HR. split; [done|by apply Hf]. Qed.

Lemma respects_forEach {A} (l : list A) (f : A → state S unit) :
  (∀ x, respects R (f x)) → respects R (forEach l f).
Proof.
  intros Hf. induction l as [|x l IH]; [apply respects_ret|].
  apply respects_bind; [apply Hf|by intros _].
Qed.

Lemma respects_foldM {A B} (f : B → A → state S B) b (l : list A) :
  (∀ b x, respects R (f b x)) → respects R (foldM f b l).
Proof.
  intros Hf. revert b; induction l as [|x l IH]; intros b; [apply respects_ret|].
  apply respects_bind; [apply Hf|apply IH].
Qed.

Lemma respects_try_bind {E A B} (c : state S (outcome E A)) (k : A → state S (outcome E B)) :
  respects R c → (∀ a, respects R (k a)) → respects R (x <-? c ;; k x).
Proof.
  intros Hc Hk. apply respects_bind; [done|]. intros [a|e]; [apply Hk|apply respects_ret].
Qed.

Lemma respects_lift {E A} (c : state S A) : respects R c → respects R (lift (E := E) c).
Proof. intros Hc. apply respects_bind; [done|]. intros a. apply respects_ret. Qed.

Lemma respects_mapE {E A B} (f : A → state S (outcome E B)) (l : list A) :
  (∀ x, respects R (f x)) → respects R (mapE f l).
Proof.
  intros Hf. induction l as [|x l IH]; [apply respects_ret|].
  apply respects_try_bind; [apply Hf|]. intros y.
  apply respects_try_bind; [apply IH|]. intros ys. apply respects_ret.
Qed.

Lemma respects_exec {A} (c : state S A) s1 s2 :
  respects R c → R s1 s2 → R (exec c s1) (exec c s2).
Proof. intros Hc HR. by apply Hc. Qed.

Lemma respects_eval {A} (c : state S A) s1 s2 :
  respects R c → R s1 s2 → eval c s1 = eval c s2.
Proof. intros Hc HR. by apply Hc. Qed.

(** Two programs that can be swapped: in either order they end in
    related states. *)
Definition commute (c1 c2 : state S unit) : Prop :=
  ∀ s, R (exec (c1 ;; c2) s) (exec (c2 ;; c1) s).

Lemma respects_sequence (l : list (state S unit)) :
  Forall (respects R) l → respects R (forEach l id).
Proof.
  induction 1 as [|c l Hc _ IH]; [apply respects_ret|].
  apply respects_bind; [done|by intros _].
Qed.

Lemma commute_refl `{!Reflexive R} c : commute c c.
Proof. by intros s. Qed.

Lemma commute_sym `{!Symmetric R} c1 c2 : commute c1 c2 → commute c2 c1.
Proof. intros H s. symmetry. apply H. Qed.

(** Programs that respect [R] and commute pairwise can run in any
    order. *)
Lemma sequence_Permutation `{!Equivalence R} (l l' : list (state S unit)) :
  l ≡ₚ l' → Forall (respects R) l →
  (∀ c1 c2, c1 ∈ l → c2 ∈ l → commute c1 c2) →
  ∀ s1 s2, R s1 s2 → R (exec (forEach l id) s1) (exec (forEach l' id) s2).
Proof.
  induction 1 as [|c l l' Hp IH|c1 c2 l|l l' l'' Hp1 IH1 Hp2 IH2]; intros Hl Hc s1 s2 HR.
  - done.
  - apply Forall_cons in Hl as [Hc1 Hl]. apply (IH Hl).
    + intros ????. apply Hc; by right.
    + by apply Hc1.
  - apply Forall_cons in Hl as [H2 [H1 Hl]%Forall_cons].
    apply (respects_sequence l Hl). transitivity (exec c2 (exec c1 s1)).
    + apply (Hc c2 c1); [left|right; left].
    + by apply H2, H1.
  - transitivity (exec (forEach l' id) s1).
    + by apply IH1.
    + apply IH2; [by rewrite <-Hp1| |done]. intros c1 c2 H1 H2.
      apply Hc; by rewrite Hp1.
Qed.

End Respects.

#[export] Hint Resolve respects_ret : respects.

(** Decompose a program along its binds, loops and case distinctions. *)
Ltac respect :=
  repeat first
    [ progress intros
    | solve [eauto with respects]
    | match goal with
      | |- respects _ (match ?x with _ => _ end) => destruct x
      | |- respects _ (bind _ _) => apply respects_bind
      | |- respects _ (try_bind _ _) => apply respects_try_bind
      | |- respects _ (lift _) => apply respects_lift
      | |- respects _ (forEach _ _) => apply respects_forEach
      | |- respects _ (foldM _ _ _) => apply respects_foldM
      | |- respects _ (mapE _ _) => apply respects_mapE
      end ].

#[export] Hint Resolve preserves_ret preserves_bind preserves_forEach
  preserves_mapM preserves_readonly : prog.

(** ** Lists *)

Section Lists.
Context {A : Type}.
Implicit Types l k : list A.

Lemma find_map_app {B} (f : A → option B) l k :
  find_map f (l ++ k) = match find_map f l with Some y => Some y | None => find_map f k end.
Proof. induction l as [|x l IH]; simpl; [done|]. by destruct (f x). Qed.

Lemma find_map_app_l {B} (f : A → option B) l k y :
  find_map f l = Some y → find_map f (l ++ k) = Some y.
Proof. intros H. by rewrite find_map_app, H. Qed.

Lemma find_map_Some {B} (f : A → option B) l y :
  find_map f l = Some y → ∃ x, x ∈ l ∧ f x = Some y.
Proof.
  induction l as [|x l IH]; simpl; [done|]. destruct (f x) as [z|] eqn:E.
  - intros [= ->]. exists x. split; [left|done].
  - intros [x' [Hin Hx']]%IH. exists x'. split; [by right|done].
Qed.

Lemma find_map_None {B} (f : A → option B) l :
  find_map f l = None ↔ Forall (λ x, f x = None) l.
Proof.
  induction l as [|x l IH]; simpl; [by split; [constructor|]|].
  destruct (f x) eqn:E.
  - split; [done|]. inversion 1; congruence.
  - rewrite IH. split; [by constructor|]. by inversion 1.
Qed.

Lemma find_map_fmap {B C} (g : C → A) (f : A → option B) (l : list C) :
  find_map f (g <$> l) = find_map (f ∘ g) l.
Proof.
  induction l as [|x l IH]; [done|]. rewrite fmap_cons. simpl.
  destruct (f (g x)); [done|exact IH].
Qed.

Lemma find_map_fmap_commute {B C D} (f : B → option C) (f' : A → option D)
    (g : A → B) (h : D → C) (l : list A) :
  Forall (λ x, f (g x) = h <$> f' x) l → find_map f (g <$> l) = h <$> find_map f' l.
Proof.
  induction 1 as [|x l Hx _ IH]; [done|]. rewrite fmap_cons. simpl.
  rewrite Hx. destruct (f' x); [done|exact IH].
Qed.

Lemma find_map_post {B C D} (f : B → option C) (f' : A → option C)
    (g : A → B) (h : C → D) (l : list A) :
  Forall (λ x, h <$> f (g x) = h <$> f' x) l →
  h <$> find_map f (g <$> l) = h <$> find_map f' l.
Proof.
  induction 1 as [|x l Hx _ IH]; [done|]. rewrite fmap_cons. simpl.
  destruct (f (g x)) as [y|] eqn:E1, (f' x) as [y'|] eqn:E2; simpl in *; try done.
Qed.

Lemma find_map_ext_in {B} (f g : A → option B) l :
  Forall (λ x, f x = g x) l → find_map f l = find_map g l.
Proof. induction 1 as [|x l Hx _ IH]; simpl; [done|]. by rewrite Hx, IH. Qed.

Lemma filter_all (P : A → Prop) `{!∀ x, Decision (P x)} l :
  Forall P l → filter P l = l.
Proof.
  induction 1 as [|x l Hx _ IH]; [done|]. by rewrite filter_cons_True, IH.
Qed.

Lemma NoDup_remove_middle (x : A) l1 l2 :
  NoDup (l1 ++ x :: l2) → NoDup (l1 ++ l2) ∧ x ∉ l1 ++ l2.
Proof.
  rewrite !NoDup_app, NoDup_cons, not_elem_of_app.
  intros (H1 & H12 & Hx & H2). split_and!; try done.
  - intros y Hy Hy2. apply (H12 y Hy). by right.
  - intros Hx1. apply (H12 x Hx1). left.
Qed.

(** If the images under a partial map are distinct, at most one element
    of the list has a given image. *)
Lemma NoDup_omap_filter {B} `{!EqDecision B} (f : A → option B) l y :
  NoDup (omap f l) →
  length (filter (λ x, f x = Some y) l) ≤ 1 ∧
  (y ∉ omap f l → filter (λ x, f x = Some y) l = []).
Proof.
  induction l as [|x l IH]; [intros _; split; [simpl; lia|done]|].
  simpl. rewrite filter_cons. destruct (f x) as [y'|] eqn:E.
  - rewrite NoDup_cons, not_elem_of_cons. intros [Hy' [Hlen Hnil]%IH].
    destruct (decide (Some y' = Some y)) as [[= ->]|Hne].
    + rewrite Hnil by done. split; [simpl; lia|]. by intros [? _].
    + split; [done|]. intros [_ H]. by apply Hnil.
  - intros [Hlen Hnil]%IH. by rewrite decide_False.
Qed.

Lemma filter_none (P : A → Prop) `{!∀ x, Decision (P x)} l :
  Forall (λ x, ¬ P x) l → filter P l = [].
Proof.
  induction 1 as [|x l Hx _ IH]; [done|]. by rewrite filter_cons_False, IH.
Qed.

Lemma NoDup_fmap_filter {B} (f : A → B) (P : A → Prop) `{!∀ x, Decision (P x)} l :
  NoDup (f <$> l) → NoDup (f <$> filter P l).
Proof.
  induction l as [|x l IH]; [done|]. rewrite fmap_cons, NoDup_cons.
  intros [Hx Hl]. rewrite filter_cons. case_decide; [|by apply IH].
  rewrite fmap_cons, NoDup_cons. split; [|by apply IH].
  intros (y & Hy & Hin)%list_elem_of_fmap. apply Hx, list_elem_of_fmap.
  exists y. split; [done|]. by apply list_elem_of_filter in Hin as [_ ?].
Qed.

Lemma filter_key_other {B} `{!EqDecision B} (key : A → B) l b b' :
  b' ≠ b → filter (λ x, key x = b') (filter (λ x, ¬ key x = b) l) = filter (λ x, key x = b') l.
Proof.
  intros Hne. rewrite list_filter_filter. apply list_filter_iff. intros x.
  split; [by intros [? _]|]. intros Hx. split; [done|]. congruence.
Qed.

(** The elements of [l] that [key] sends to distinct places are counted
    once each. *)
Lemma sum_filter_key {B} `{!EqDecision B} (key : A → B) (bs : list B) l :
  NoDup bs → sum_list ((λ b, length (filter (λ x, key x = b) l)) <$> bs) ≤ length l.
Proof.
  intros Hnd. revert l; induction Hnd as [|b bs Hb _ IH]; intros l; [simpl; lia|].
  pose proof (filter_app_complement (λ x, key x = b) l) as Hp.
  apply Permutation_length in Hp. rewrite length_app in Hp.
  specialize (IH (filter (λ x, ¬ key x = b) l)).
  rewrite fmap_cons. change (sum_list (?x :: ?l)) with (x + sum_list l).
  assert ((λ b', length (filter (λ x, key x = b') (filter (λ x, ¬ key x = b) l))) <$> bs =
          (λ b', length (filter (λ x, key x = b') l)) <$> bs) as E; [|rewrite E in IH; lia].
  apply list_fmap_ext. intros i b' Hb'%list_elem_of_lookup_2.
  rewrite filter_key_other; [done|]. by intros ->.
Qed.

Lemma filter_ext_elem (P Q : A → Prop) `{!∀ x, Decision (P x), !∀ x, Decision (Q x)} l :
  (∀ x, x ∈ l → P x ↔ Q x) → filter P l = filter Q l.
Proof.
  induction l as [|x l IH]; intros HPQ; [done|]. rewrite !filter_cons.
  rewrite IH by (intros y Hy; apply HPQ; by right).
  destruct (decide (P x)) as [Hp|Hp], (decide (Q x)) as [Hq|Hq]; try done.
  - destruct Hq. apply HPQ; [left|done].
  - destruct Hp. apply HPQ; [left|done].
Qed.

Lemma omap_none {B} (f : A → option B) l : Forall (λ x, f x = None) l → omap f l = [].
Proof. induction 1 as [|x xs Hx _ IH]; [done|]. simpl. by rewrite Hx. Qed.

Lemma head_app_Some l k x : head l = Some x → head (l ++ k) = Some x.
Proof. by destruct l. Qed.

Lemma head_elem_of l x : head l = Some x → x ∈ l.
Proof. destruct l; intros [= ->]. left. Qed.

Lemma head_None_nil l : head l = None → l = [].
Proof. by destruct l. Qed.

End Lists.
