(* ===== verification/Html.v ===== *)
(** * HTML fragments

    The markup that the script reads from and assigns to [innerHTML] is a
    string.  The development represents such a string by the fragment it
    parses to: a list of [hnode]s.  [render] is the serialisation of a
    fragment back to text (the HTML fragment serialisation algorithm
    restricted to text and elements); it relates the fragments of the
    development to the string literals of the source. *)

From Stdlib Require Import Ascii String.
From stdpp Require Import base strings option numbers list.
From S2P Require Import Prelude.

Local Open Scope string_scope.
Local Open Scope list_scope.

(** An attribute list keeps the order of the markup; the first binding of
    a name is the one the DOM sees. *)
Abbreviation attrs := (list (string * string)).

#[local] Unset Elimination Schemes.
Inductive hnode : Type :=
| HText (s : string)
| HElem (tag : string) (a : attrs) (kids : list hnode).
#[local] Set Elimination Schemes.

Abbreviation html := (list hnode).

(** The characters the source text cannot hold inside a Rocq string. *)
Definition dq : string := String (ascii_of_nat 34) EmptyString.
Definition nl : string := String (ascii_of_nat 10) EmptyString.

(** ** Structural recursion and induction *)

Section hnode_rect.
Variable P : hnode → Type.
Variable Q : list hnode → Type.
Hypothesis Ptext : ∀ s, P (HText s).
Hypothesis Pelem : ∀ tag a kids, Q kids → P (HElem tag a kids).
Hypothesis Qnil : Q [].
Hypothesis Qcons : ∀ n ns, P n → Q ns → Q (n :: ns).

Fixpoint hnode_rect (n : hnode) : P n :=
  match n with
  | HText s => Ptext s
  | HElem tag a kids =>
      Pelem tag a kids
        ((fix go (ns : list hnode) : Q ns :=
            match ns with
            | [] => Qnil
            | n' :: ns' => Qcons n' ns' (hnode_rect n') (go ns')
            end) kids)
  end.
End hnode_rect.

Definition hnode_ind (P : hnode → Prop)
    (Htext : ∀ s, P (HText s))
    (Helem : ∀ tag a kids, Forall P kids → P (HElem tag a kids)) :
    ∀ n, P n :=
  hnode_rect P (Forall P) Htext Helem (List.Forall_nil P)
    (λ n ns Hn Hns, List.Forall_cons P n ns Hn Hns).

(** Number of elements of a fragment: the identities it consumes. *)
Fixpoint helems (n : hnode) : nat :=
  match n with
  | HText _ => 0
  | HElem _ _ kids => S (sum_list (helems <$> kids))
  end.

Definition helems_list (h : html) : nat := sum_list (helems <$> h).

(** ** Attribute lists

    [attr_get], [attr_set] and [attr_remove] are [getAttribute],
    [setAttribute] and [removeAttribute] on the attribute list of one
    element.  Names are compared exactly: the parser has already put the
    names of an HTML document in lower case. *)

Fixpoint attr_get (name : string) (a : attrs) : option string :=
  match a with
  | [] => None
  | (k, v) :: a' => if bool_decide (k = name) then Some v else attr_get name a'
  end.

Definition attr_has (name : string) (a : attrs) : bool :=
  bool_decide (is_Some (attr_get name a)).

(** An existing attribute keeps its place; a new one goes last. *)
Fixpoint attr_set (name value : string) (a : attrs) : attrs :=
  match a with
  | [] => [(name, value)]
  | (k, v) :: a' =>
      if bool_decide (k = name) then (k, value) :: a'
      else (k, v) :: attr_set name value a'
  end.

Definition attr_remove (name : string) (a : attrs) : attrs :=
  filter (λ kv, kv.1 ≠ name) a.

(** ** Boolean equality *)

Fixpoint hnode_eqb (x y : hnode) : bool :=
  match x, y with
  | HText s, HText t => bool_decide (s = t)
  | HElem t1 a1 k1, HElem t2 a2 k2 =>
      bool_decide (t1 = t2) && bool_decide (a1 = a2) &&
      (fix go (l1 l2 : list hnode) : bool :=
         match l1, l2 with
         | [], [] => true
         | n1 :: l1', n2 :: l2' => hnode_eqb n1 n2 && go l1' l2'
         | _, _ => false
         end) k1 k2
  | _, _ => false
  end.

(** ** Serialisation to text *)

Definition sconcat (l : list string) : string := foldr String.append "" l.

Definition escape_char (in_attr : bool) (c : ascii) : string :=
  if bool_decide (c = ascii_of_nat 38) then "&amp;"
  else if in_attr then
    (if bool_decide (c = ascii_of_nat 34) then "&quot;" else String c "")
  else if bool_decide (c = ascii_of_nat 60) then "&lt;"
  else if bool_decide (c = ascii_of_nat 62) then "&gt;"
  else String c "".

Fixpoint escape (in_attr : bool) (s : string) : string :=
  match s with
  | EmptyString => ""
  | String c s' => escape_char in_attr c +:+ escape in_attr s'
  end.

Definition render_attr (kv : string * string) : string :=
  " " +:+ kv.1 +:+ "=" +:+ dq +:+ escape true kv.2 +:+ dq.

Definition render_attrs (a : attrs) : string :=
  sconcat (render_attr <$> a).

(** Elements that have no end tag and no content. *)
Definition is_void (tag : string) : bool :=
  bool_decide (tag ∈ ["area"; "base"; "br"; "col"; "embed"; "hr"; "img";
                      "input"; "link"; "meta"; "source"; "track"; "wbr"]).

Fixpoint render_node (n : hnode) : string :=
  match n with
  | HText s => escape false s
  | HElem tag a kids =>
      "<" +:+ tag +:+ render_attrs a +:+ ">" +:+
      (if is_void tag then ""
       else sconcat (render_node <$> kids) +:+ "</" +:+ tag +:+ ">")
  end.

Definition render (h : html) : string :=
  sconcat (render_node <$> h).

(** ** Lemmas *)

Lemma hnode_eqb_spec (x y : hnode) : hnode_eqb x y = true ↔ x = y.
Proof.
  revert y; induction x as [s|t1 a1 k1 IH] using hnode_ind; intros [t|t2 a2 k2]; simpl;
    try (split; [done|discriminate]).
  - rewrite bool_decide_eq_true. split; congruence.
  - rewrite !andb_true_iff, !bool_decide_eq_true.
    assert ((fix go (l1 l2 : list hnode) : bool :=
               match l1, l2 with
               | [], [] => true
               | n1 :: l1', n2 :: l2' => hnode_eqb n1 n2 && go l1' l2'
               | _, _ => false
               end) k1 k2 = true ↔ k1 = k2) as ->.
    { revert k2; induction IH as [|n ns Hn _ IHns]; intros [|m ms];
        try (split; [done|discriminate]); [done|].
      rewrite andb_true_iff, Hn, IHns. split; [intros [-> ->]|intros [= -> ->]]; done. }
    split; [intros [[-> ->] ->]|intros [= -> -> ->]]; done.
Qed.

#[export] Instance hnode_eq_dec : EqDecision hnode.
Proof.
  intros x y. destruct (hnode_eqb x y) eqn:E.
  - left. by apply hnode_eqb_spec.
  - right. intros H%hnode_eqb_spec. congruence.
Defined.

Lemma helems_list_app h1 h2 : helems_list (h1 ++ h2) = helems_list h1 + helems_list h2.
Proof. unfold helems_list. by rewrite fmap_app, sum_list_with_app. Qed.

(** *** Attribute lists *)

Section Attrs.
Implicit Types (a : attrs) (n m v : string).

Lemma attr_get_set_eq n v a : attr_get n (attr_set n v a) = Some v.
Proof.
  induction a as [|[k w] a IH]; simpl; [by rewrite bool_decide_eq_true_2|].
  case_bool_decide as E; simpl; [by rewrite bool_decide_eq_true_2|].
  by rewrite bool_decide_eq_false_2.
Qed.

Lemma attr_get_set_ne n m v a : n ≠ m → attr_get m (attr_set n v a) = attr_get m a.
Proof.
  intros Hne. induction a as [|[k w] a IH]; simpl.
  - by rewrite bool_decide_eq_false_2.
  - case_bool_decide as E; simpl; [subst k|by rewrite IH].
    by rewrite !bool_decide_eq_false_2.
Qed.

Lemma attr_get_remove_eq n a : attr_get n (attr_remove n a) = None.
Proof.
  unfold attr_remove. induction a as [|[k w] a IH]; [done|].
  rewrite filter_cons; simpl. case_decide as E; [|done].
  simpl. by rewrite bool_decide_eq_false_2.
Qed.

Lemma attr_get_remove_ne n m a : n ≠ m → attr_get m (attr_remove n a) = attr_get m a.
Proof.
  intros Hne. unfold attr_remove. induction a as [|[k w] a IH]; [done|].
  rewrite filter_cons; simpl. case_decide as E; simpl; [by rewrite IH|].
  rewrite IH. simpl in E. subst k. by rewrite bool_decide_eq_false_2.
Qed.

Lemma attr_remove_absent n a : attr_get n a = None → attr_remove n a = a.
Proof.
  unfold attr_remove. induction a as [|[k w] a IH]; [done|]; simpl.
  case_bool_decide as E; [done|]. intros H.
  rewrite filter_cons_True by done. by rewrite IH.
Qed.

(** Setting an attribute that was absent and removing it again gives the
    list back: disabling and re-enabling a button leaves no trace. *)
Lemma attr_remove_set_absent n v a :
  attr_get n a = None → attr_remove n (attr_set n v a) = a.
Proof.
  unfold attr_remove. induction a as [|[k w] a IH]; simpl.
  - intros _. by rewrite filter_cons_False, filter_nil by (simpl; auto).
  - case_bool_decide as E; [done|]. intros H.
    rewrite filter_cons_True by done. by rewrite IH.
Qed.

(** Removing an attribute forgets that it was set, and removing it twice
    is removing it once. *)
Lemma attr_remove_set n v a : attr_remove n (attr_set n v a) = attr_remove n a.
Proof.
  unfold attr_remove. induction a as [|[k w] a IH]; simpl.
  - by rewrite filter_cons_False, filter_nil by (simpl; auto).
  - case_bool_decide as E.
    + by rewrite !filter_cons_False by (simpl; auto).
    + by rewrite !filter_cons_True, IH by done.
Qed.

Lemma attr_remove_idemp n a : attr_remove n (attr_remove n a) = attr_remove n a.
Proof. apply attr_remove_absent, attr_get_remove_eq. Qed.

Lemma attr_has_set n v a : attr_has n (attr_set n v a) = true.
Proof. unfold attr_has. rewrite attr_get_set_eq. by apply bool_decide_eq_true_2. Qed.

Lemma attr_has_remove n a : attr_has n (attr_remove n a) = false.
Proof.
  unfold attr_has. rewrite attr_get_remove_eq.
  apply bool_decide_eq_false_2. by intros [? ?].
Qed.

Lemma attr_has_false n a : attr_has n a = false ↔ attr_get n a = None.
Proof.
  unfold attr_has. rewrite bool_decide_eq_false, <-eq_None_not_Some. done.
Qed.

End Attrs.

#[export] Hint Rewrite attr_get_set_eq attr_get_remove_eq attr_has_set
  attr_has_remove : page_rw.
