(* ===== verification/Selector.v ===== *)
(** * Selectors

    The script passes seven selector strings to [querySelectorAll] and
    [querySelector].  Each is a compound selector: a conjunction of type,
    class and attribute-equality tests on one element.  [matches] decides
    whether an element (its tag and attribute list) satisfies a selector;
    [show_selector] is its concrete syntax. *)

From Stdlib Require Import Ascii String.
From stdpp Require Import base strings option numbers list.
From S2P Require Import Prelude Html.

Local Open Scope string_scope.
Local Open Scope list_scope.

Inductive simple : Type :=
| SType (tag : string)
| SClass (c : string)
| SAttrEq (name value : string).

Abbreviation selector := (list simple).

#[export] Instance simple_eq_dec : EqDecision simple.
Proof. solve_decision. Defined.

(** ASCII whitespace of the HTML standard: tab, line feed, form feed,
    carriage return and space. *)
Definition is_ws (c : ascii) : bool :=
  bool_decide (nat_of_ascii c ∈ [9; 10; 12; 13; 32]).

(** The set of space-separated tokens of an attribute value, in order.
    [cur] is the token being read. *)
Fixpoint split_ws (cur : string) (s : string) : list string :=
  match s with
  | EmptyString => if bool_decide (cur = "") then [] else [cur]
  | String c s' =>
      if is_ws c then
        (if bool_decide (cur = "") then split_ws "" s'
         else cur :: split_ws "" s')
      else split_ws (cur +:+ String c "") s'
  end.

(** [element.classList]: the tokens of the [class] attribute. *)
Definition classList (a : attrs) : list string :=
  match attr_get "class" a with
  | Some v => split_ws "" v
  | None => []
  end.

Definition matches_simple (tag : string) (a : attrs) (s : simple) : bool :=
  match s with
  | SType t => bool_decide (tag = t)
  | SClass c => bool_decide (c ∈ classList a)
  | SAttrEq n v => bool_decide (attr_get n a = Some v)
  end.

Definition matches (sel : selector) (tag : string) (a : attrs) : bool :=
  forallb (matches_simple tag a) sel.

Definition show_simple (s : simple) : string :=
  match s with
  | SType t => t
  | SClass c => "." +:+ c
  | SAttrEq n v => "[" +:+ n +:+ "=" +:+ dq +:+ v +:+ dq +:+ "]"
  end.

Definition show_selector (sel : selector) : string :=
  sconcat (show_simple <$> sel).

(** [mentions n s]: the test [s] reads the attribute [n]. *)
Definition mentions (n : string) (s : simple) : bool :=
  match s with
  | SType _ => false
  | SClass _ => bool_decide (n = "class")
  | SAttrEq m _ => bool_decide (n = m)
  end.

Definition reads (n : string) (sel : selector) : bool :=
  existsb (mentions n) sel.

(** ** Lemmas *)

Section Matches.
Implicit Types (sel : selector) (tag : string) (a : attrs).

Lemma matches_app sel1 sel2 tag a :
  matches (sel1 ++ sel2) tag a = matches sel1 tag a && matches sel2 tag a.
Proof. apply forallb_app. Qed.

Lemma matches_type t sel tag a : matches (SType t :: sel) tag a = true → tag = t.
Proof. simpl. intros [H _]%andb_true_iff. by apply bool_decide_eq_true in H. Qed.

Lemma matches_attr n v sel tag a :
  matches (SAttrEq n v :: sel) tag a = true → attr_get n a = Some v.
Proof. simpl. intros [H _]%andb_true_iff. by apply bool_decide_eq_true in H. Qed.

Lemma matches_tail s sel tag a : matches (s :: sel) tag a = true → matches sel tag a = true.
Proof. simpl. by intros [_ H]%andb_true_iff. Qed.

(** A selector that names an attribute with a value fails on an element
    without that attribute: [button[type="submit"]] does not match a
    [button] whose type is left to its default. *)
Lemma matches_attr_absent n v sel tag a :
  attr_get n a = None → SAttrEq n v ∈ sel → matches sel tag a = false.
Proof.
  intros Hn Hin. apply not_true_is_false. unfold matches.
  rewrite forallb_forall. intros H.
  specialize (H (SAttrEq n v)). simpl in H.
  rewrite Hn in H. apply list_elem_of_In, H, bool_decide_eq_true in Hin. done.
Qed.

(** Attributes that a selector does not look at do not change whether it
    matches an element. *)
Lemma matches_simple_irrelevant n tag a a' s :
  mentions n s = false → (∀ m, m ≠ n → attr_get m a' = attr_get m a) →
  matches_simple tag a' s = matches_simple tag a s.
Proof.
  intros Hm Ha. destruct s as [t|c|m v]; simpl in *; [done| |].
  - apply bool_decide_eq_false in Hm. unfold classList. by rewrite Ha.
  - apply bool_decide_eq_false in Hm. by rewrite Ha.
Qed.

Lemma matches_irrelevant n sel tag a a' :
  reads n sel = false →
  (∀ m, m ≠ n → attr_get m a' = attr_get m a) →
  matches sel tag a' = matches sel tag a.
Proof.
  intros Hm Ha. unfold matches, reads in *.
  induction sel as [|s sel IH]; simpl in *; [done|].
  apply orb_false_iff in Hm as [Hs Hm].
  by rewrite IH, (matches_simple_irrelevant n tag a a' s).
Qed.

End Matches.
