(* ===== verification/Dom.v ===== *)
(** * The document

    The DOM that the script queries and mutates.  A node is a [tree]: a
    text node or an element carrying an identity.  An element reference
    held by the script is that identity.  The state [dom] has the trees of
    the document, the trees that were removed from it (a closure may still
    hold a reference into them) and the next free identity.

    - [instantiate] is what assigning to [innerHTML] does with the parsed
      fragment: it creates new nodes; [serialize] is what reading
      [innerHTML] returns.
    - [select] lists the elements of a tree that match a selector, in
      document order; [document_querySelectorAll], [document_querySelector]
      and [element_querySelector] are the three query calls of the script.
    - [set_innerHTML], [set_disabled] mutate the element with a given
      identity, wherever it is; [get_innerHTML], [get_disabled] read it.
      [disabled] reflects the content attribute of the same name (the
      script only uses it on [button] elements, which have that property).
    - [event_path] is the propagation path of an event: the target and its
      ancestors up to the root of its tree. *)

From Stdlib Require Import Ascii String.
From stdpp Require Import base strings option numbers list.
From S2P Require Import Prelude Html Selector.

Local Open Scope string_scope.
Local Open Scope list_scope.

#[local] Unset Elimination Schemes.
Inductive tree : Type :=
| TText (s : string)
| TElem (id : nat) (tag : string) (a : attrs) (kids : list tree).
#[local] Set Elimination Schemes.

Abbreviation forest := (list tree).

Section tree_rect.
Variable P : tree → Type.
Variable Q : forest → Type.
Hypothesis Ptext : ∀ s, P (TText s).
Hypothesis Pelem : ∀ i tag a kids, Q kids → P (TElem i tag a kids).
Hypothesis Qnil : Q [].
Hypothesis Qcons : ∀ t ts, P t → Q ts → Q (t :: ts).

Fixpoint tree_rect (t : tree) : P t :=
  match t with
  | TText s => Ptext s
  | TElem i tag a kids =>
      Pelem i tag a kids
        ((fix go (ts : forest) : Q ts :=
            match ts with
            | [] => Qnil
            | t' :: ts' => Qcons t' ts' (tree_rect t') (go ts')
            end) kids)
  end.
End tree_rect.

Definition tree_ind (P : tree → Prop)
    (Htext : ∀ s, P (TText s))
    (Helem : ∀ i tag a kids, Forall P kids → P (TElem i tag a kids)) :
    ∀ t, P t :=
  tree_rect P (Forall P) Htext Helem (List.Forall_nil P)
    (λ t ts Ht Hts, List.Forall_cons P t ts Ht Hts).

(** ** Trees *)

(** The identities of the elements of a tree, in document order. *)
Fixpoint ids (t : tree) : list nat :=
  match t with
  | TText _ => []
  | TElem i _ _ kids => i :: (kids ≫= ids)
  end.

Definition forest_ids (f : forest) : list nat := f ≫= ids.

(** The fragment that a tree serialises to. *)
Fixpoint erase (t : tree) : hnode :=
  match t with
  | TText s => HText s
  | TElem _ tag a kids => HElem tag a (erase <$> kids)
  end.

Definition serialize (f : forest) : html := erase <$> f.

(** New nodes for a fragment; the elements take the identities from [n]
    on, in document order. *)
Fixpoint inst (n : nat) (h : hnode) : tree :=
  match h with
  | HText s => TText s
  | HElem tag a kids =>
      TElem n tag a
        ((fix go (m : nat) (hs : list hnode) : forest :=
            match hs with
            | [] => []
            | h' :: hs' => inst m h' :: go (m + helems h') hs'
            end) (S n) kids)
  end.

Fixpoint instantiate (n : nat) (h : html) : forest :=
  match h with
  | [] => []
  | x :: h' => inst n x :: instantiate (n + helems x) h'
  end.

(** The subtree rooted at the element [i]: the first in document order. *)
Fixpoint find_node (i : nat) (t : tree) : option tree :=
  match t with
  | TText _ => None
  | TElem j _ _ kids =>
      if bool_decide (j = i) then Some t else find_map (find_node i) kids
  end.

Definition find_forest (i : nat) (f : forest) : option tree :=
  find_map (find_node i) f.

(** Change the attributes and the children of the element [i]. *)
Fixpoint alter_at (i : nat) (fa : attrs → attrs) (fk : forest → forest)
    (t : tree) : tree :=
  match t with
  | TText s => TText s
  | TElem j tag a kids =>
      if bool_decide (j = i) then TElem j tag (fa a) (fk kids)
      else TElem j tag a (alter_at i fa fk <$> kids)
  end.

(** The elements of [t] that match [sel], [t] included, in document order. *)
Fixpoint select (sel : selector) (t : tree) : list nat :=
  match t with
  | TText _ => []
  | TElem i tag a kids =>
      (if matches sel tag a then [i] else []) ++ (kids ≫= select sel)
  end.

(** The path from the element [i] up to the root of [t]. *)
Fixpoint path_to (i : nat) (t : tree) : option (list nat) :=
  match t with
  | TText _ => None
  | TElem j _ _ kids =>
      if bool_decide (j = i) then Some [j]
      else (λ p, p ++ [j]) <$> find_map (path_to i) kids
  end.

Definition node_tag (t : tree) : string :=
  match t with TText _ => "" | TElem _ tag _ _ => tag end.

Definition node_attrs (t : tree) : attrs :=
  match t with TText _ => [] | TElem _ _ a _ => a end.

Definition node_kids (t : tree) : forest :=
  match t with TText _ => [] | TElem _ _ _ kids => kids end.

(** ** The state of the document *)

Record dom : Type := Dom {
  d_doc : forest;
  d_detached : forest;
  d_next : nat
}.

Definition all_trees (d : dom) : forest := d_doc d ++ d_detached d.

Definition lookup (i : nat) (d : dom) : option tree :=
  find_forest i (all_trees d).

Definition tag_of (i : nat) (d : dom) : string :=
  from_option node_tag "" (lookup i d).

Definition attrs_of (i : nat) (d : dom) : attrs :=
  from_option node_attrs [] (lookup i d).

Definition kids_of (i : nat) (d : dom) : forest :=
  from_option node_kids [] (lookup i d).

Definition attached (i : nat) (d : dom) : bool :=
  bool_decide (i ∈ forest_ids (d_doc d)).

Definition alter_dom (i : nat) (fa : attrs → attrs) (fk : forest → forest)
    (d : dom) : dom :=
  {| d_doc := alter_at i fa fk <$> d_doc d;
     d_detached := alter_at i fa fk <$> d_detached d;
     d_next := d_next d |}.

(** [el.disabled] and [el.disabled = b]. *)
Definition get_disabled (i : nat) (d : dom) : bool :=
  attr_has "disabled" (attrs_of i d).

Definition set_disabled (i : nat) (b : bool) (d : dom) : dom :=
  alter_dom i (if b then attr_set "disabled" "" else attr_remove "disabled") id d.

(** [el.innerHTML] and [el.innerHTML = h].  The old children leave the
    element and stay in the heap as detached trees. *)
Definition get_innerHTML (i : nat) (d : dom) : html :=
  serialize (kids_of i d).

Definition set_innerHTML (i : nat) (h : html) (d : dom) : dom :=
  match lookup i d with
  | Some (TElem _ _ _ old) =>
      let fresh := instantiate (d_next d) h in
      {| d_doc := alter_at i id (λ _, fresh) <$> d_doc d;
         d_detached := (alter_at i id (λ _, fresh) <$> d_detached d) ++ old;
         d_next := d_next d + helems_list h |}
  | _ => d
  end.

(** [document.querySelectorAll(sel)], [document.querySelector(sel)] and
    [el.querySelector(sel)]; the last one searches the descendants of
    [el], not [el] itself. *)
Definition document_querySelectorAll (sel : selector) (d : dom) : list nat :=
  d_doc d ≫= select sel.

Definition document_querySelector (sel : selector) (d : dom) : option nat :=
  head (document_querySelectorAll sel d).

Definition element_querySelector (sel : selector) (i : nat) (d : dom) : option nat :=
  head (kids_of i d ≫= select sel).

Definition event_path (i : nat) (d : dom) : list nat :=
  default [] (find_map (path_to i) (all_trees d)).

(** ** Well-formedness *)

Definition wf_dom (d : dom) : Prop :=
  NoDup (forest_ids (all_trees d)) ∧
  Forall (λ i, i < d_next d) (forest_ids (all_trees d)).

(** A server-rendered page: the document that a fragment parses to. *)
Definition load_document (h : html) : dom :=
  {| d_doc := instantiate 0 h; d_detached := []; d_next := helems_list h |}.
