(* ===== verification/DomFacts.v ===== *)
(** * Facts on the document

    The lemmas on [Dom]: the round trip of [instantiate] and [serialize],
    where [find_node] finds an element and what [alter_at] does to it, the
    identities that each operation keeps or creates, reading after
    writing, preservation of [wf_dom], the nodes that leave the document
    and the propagation path of an event.  What the queries return is in
    [Queries]. *)

From Stdlib Require Import Ascii String.
From stdpp Require Import base strings option numbers list.
From S2P Require Import Prelude Html Selector Dom.
Local Open Scope string_scope.
Local Open Scope list_scope.
(** ** Lemmas on trees *)

Definition alter_root (fa : attrs → attrs) (fk : forest → forest) (t : tree) : tree :=
  match t with
  | TText s => TText s
  | TElem j tag a kids => TElem j tag (fa a) (fk kids)
  end.

Section Trees.
Implicit Types (t : tree) (f : forest) (i j n : nat) (h : html).

Lemma inst_elem n tag a kids :
  inst n (HElem tag a kids) = TElem n tag a (instantiate (S n) kids).
Proof. reflexivity. Qed.

Lemma forest_ids_cons t f : forest_ids (t :: f) = ids t ++ forest_ids f.
Proof. reflexivity. Qed.

Lemma forest_ids_app f1 f2 : forest_ids (f1 ++ f2) = forest_ids f1 ++ forest_ids f2.
Proof. apply bind_app. Qed.

Lemma ids_elem i tag a kids : ids (TElem i tag a kids) = i :: forest_ids kids.
Proof. reflexivity. Qed.

(** Reading back what was instantiated gives the fragment. *)
Lemma erase_inst n (x : hnode) : erase (inst n x) = x.
Proof.
  revert n; induction x as [s|tag a kids IH] using hnode_ind; intros n; [done|].
  rewrite inst_elem; simpl. f_equal.
  generalize (S n). induction IH as [|k ks Hk _ IHks]; intros m; simpl; [done|].
  by rewrite Hk, IHks.
Qed.

Lemma serialize_instantiate n h : serialize (instantiate n h) = h.
Proof.
  revert n; induction h as [|x h IH]; intros n; simpl; [done|].
  by rewrite erase_inst, IH.
Qed.

(** The new elements take the identities [n], [n+1], ... *)
Lemma ids_inst n (x : hnode) : ids (inst n x) = seq n (helems x).
Proof.
  revert n; induction x as [s|tag a kids IH] using hnode_ind; intros n; [done|].
  rewrite inst_elem, ids_elem. cbn [helems seq]. f_equal.
  generalize (S n). induction IH as [|k ks Hk _ IHks]; intros m; [done|].
  cbn [instantiate]. rewrite forest_ids_cons, Hk, IHks, fmap_cons.
  cbn [sum_list_with]. by rewrite seq_app.
Qed.

Lemma forest_ids_instantiate n h : forest_ids (instantiate n h) = seq n (helems_list h).
Proof.
  revert n; induction h as [|x h IH]; intros n; [done|].
  cbn [instantiate]. rewrite forest_ids_cons, ids_inst, IH.
  unfold helems_list. rewrite fmap_cons. cbn [sum_list_with]. by rewrite seq_app.
Qed.

Lemma find_node_root i t t' :
  find_node i t = Some t' → ∃ tag a kids, t' = TElem i tag a kids.
Proof.
  revert t'; induction t as [s|j tag a kids IH] using tree_ind; intros t'; simpl; [done|].
  case_bool_decide as E; [intros [= <-]; subst; eauto|].
  intros (k & Hk & Hf)%find_map_Some.
  rewrite Forall_forall in IH. by eapply IH.
Qed.

Lemma find_forest_root i f t' :
  find_forest i f = Some t' → ∃ tag a kids, t' = TElem i tag a kids.
Proof. intros (t & _ & Ht)%find_map_Some. by apply find_node_root in Ht. Qed.

Lemma find_forest_cons i t f :
  find_forest i (t :: f) =
  match find_node i t with Some t' => Some t' | None => find_forest i f end.
Proof. reflexivity. Qed.

Lemma find_node_elem i j tag a kids :
  find_node i (TElem j tag a kids) =
  if bool_decide (j = i) then Some (TElem j tag a kids) else find_forest i kids.
Proof. reflexivity. Qed.

(** An identity is found exactly when it occurs. *)
Lemma find_node_is_Some i t : is_Some (find_node i t) ↔ i ∈ ids t.
Proof.
  induction t as [s|j tag a kids IH] using tree_ind; simpl.
  - split; [by intros [? ?]|by intros ?%elem_of_nil].
  - rewrite elem_of_cons. case_bool_decide as E; [subst; split; eauto|].
    rewrite list_elem_of_bind. split.
    + intros [t' (k & Hk & Hf)%find_map_Some]. right. exists k. split; [|done].
      rewrite Forall_forall in IH. apply IH; eauto.
    + intros [->|(k & Hi & Hk)]; [done|].
      destruct (find_map (find_node i) kids) eqn:Hm; [eauto|].
      rewrite find_map_None, Forall_forall in Hm. rewrite Forall_forall in IH.
      apply IH in Hi; [|done]. rewrite Hm in Hi by done. by destruct Hi.
Qed.

Lemma find_forest_is_Some i f : is_Some (find_forest i f) ↔ i ∈ forest_ids f.
Proof.
  unfold forest_ids. rewrite list_elem_of_bind. split.
  - intros [t' (t & Ht & Hf)%find_map_Some]. exists t. split; [|done].
    apply find_node_is_Some. eauto.
  - intros (t & Hi & Ht). destruct (find_forest i f) eqn:Hm; [eauto|].
    apply find_map_None in Hm. rewrite Forall_forall in Hm.
    apply find_node_is_Some in Hi. rewrite Hm in Hi by done. by destruct Hi.
Qed.


Lemma alter_at_elem i fa fk j tag a kids :
  alter_at i fa fk (TElem j tag a kids) =
  if bool_decide (j = i) then TElem j tag (fa a) (fk kids)
  else TElem j tag a (alter_at i fa fk <$> kids).
Proof. reflexivity. Qed.

(** The altered element is found where the element was. *)
Lemma find_node_alter_same i fa fk t :
  find_node i (alter_at i fa fk t) = alter_root fa fk <$> find_node i t.
Proof.
  induction t as [s|j tag a kids IH] using tree_ind; [done|].
  rewrite alter_at_elem, find_node_elem. case_bool_decide as E.
  - rewrite find_node_elem, bool_decide_eq_true_2 by done. done.
  - rewrite find_node_elem, bool_decide_eq_false_2 by done.
    by apply find_map_fmap_commute.
Qed.

Lemma find_forest_alter_same i fa fk f :
  find_forest i (alter_at i fa fk <$> f) = alter_root fa fk <$> find_forest i f.
Proof.
  apply find_map_fmap_commute, Forall_forall. intros t _.
  apply find_node_alter_same.
Qed.

(** Two changes of the same element compose. *)
Lemma alter_at_compose i fa1 fk1 fa2 fk2 t :
  alter_at i fa2 fk2 (alter_at i fa1 fk1 t) = alter_at i (fa2 ∘ fa1) (fk2 ∘ fk1) t.
Proof.
  induction t as [s|j tag a kids IH] using tree_ind; [done|].
  rewrite !alter_at_elem. case_bool_decide as E.
  - by rewrite alter_at_elem, bool_decide_eq_true_2.
  - rewrite alter_at_elem, bool_decide_eq_false_2 by done. f_equal.
    rewrite <-list_fmap_compose. apply Forall_fmap_ext_1.
    eapply Forall_impl; [exact IH|]. done.
Qed.

(** A change that keeps the markup of the element keeps the markup of
    every tree. *)
Lemma erase_alter_at i fa fk t :
  (∀ a, fa a = a) → (∀ ks, serialize (fk ks) = serialize ks) →
  erase (alter_at i fa fk t) = erase t.
Proof.
  intros Ha Hk. induction t as [s|j tag a kids IH] using tree_ind; [done|].
  rewrite alter_at_elem. case_bool_decide as E; simpl.
  - rewrite Ha. f_equal. apply Hk.
  - f_equal. rewrite <-list_fmap_compose. by apply Forall_fmap_ext_1.
Qed.

(** A change of attributes keeps the identities. *)
Lemma ids_alter_attrs i fa t : ids (alter_at i fa id t) = ids t.
Proof.
  induction t as [s|j tag a kids IH] using tree_ind; [done|].
  rewrite alter_at_elem. case_bool_decide as E; [done|].
  rewrite !ids_elem. f_equal. unfold forest_ids.
  induction IH as [|k ks Hk _ IHks]; [done|].
  rewrite fmap_cons, !bind_cons. by rewrite Hk, IHks.
Qed.

Lemma forest_ids_alter_attrs i fa f :
  forest_ids (alter_at i fa id <$> f) = forest_ids f.
Proof.
  unfold forest_ids. induction f as [|t f IH]; [done|].
  rewrite fmap_cons, !bind_cons. by rewrite ids_alter_attrs, IH.
Qed.

(** The selected elements are elements of the tree, in its order. *)
Lemma select_sublist sel t : select sel t `sublist_of` ids t.
Proof.
  induction t as [s|j tag a kids IH] using tree_ind; [done|].
  cbn [select ids].
  assert (kids ≫= select sel `sublist_of` kids ≫= ids) as Hk.
  { induction IH as [|k ks Hk _ IHks]; [done|].
    rewrite !bind_cons. by apply sublist_app. }
  destruct (matches sel tag a); simpl; [by apply sublist_skip|by apply sublist_cons].
Qed.

Lemma select_forest_sublist sel f : f ≫= select sel `sublist_of` forest_ids f.
Proof.
  unfold forest_ids. induction f as [|t f IH]; [done|].
  rewrite !bind_cons. apply sublist_app; [apply select_sublist|done].
Qed.

(** A change of an attribute that the selector does not read, on any
    element, keeps the selection. *)
Lemma select_alter_attrs sel (nm : string) i fa t :
  reads nm sel = false → (∀ a m, m ≠ nm → attr_get m (fa a) = attr_get m a) →
  select sel (alter_at i fa id t) = select sel t.
Proof.
  intros Hr Hfa. induction t as [s|j tag a kids IH] using tree_ind; [done|].
  rewrite alter_at_elem. case_bool_decide as E; cbn [select].
  - by rewrite (matches_irrelevant nm sel tag a (fa a)) by auto.
  - f_equal. induction IH as [|k ks Hk _ IHks]; [done|].
    rewrite fmap_cons, !bind_cons. by rewrite Hk, IHks.
Qed.

End Trees.

Section Identities.
Implicit Types (t : tree) (f : forest) (i j n : nat).

Lemma alter_at_absent i fa fk t : i ∉ ids t → alter_at i fa fk t = t.
Proof.
  induction t as [s|j tag a kids IH] using tree_ind; [done|].
  rewrite ids_elem, not_elem_of_cons. intros [Hne Hk].
  rewrite alter_at_elem, bool_decide_eq_false_2 by done. f_equal.
  unfold forest_ids in Hk. induction IH as [|k ks Hk' _ IHks]; [done|].
  rewrite bind_cons, not_elem_of_app in Hk. destruct Hk as [H1 H2].
  rewrite fmap_cons. by rewrite Hk', IHks.
Qed.

Lemma alter_forest_absent i fa fk f : i ∉ forest_ids f → alter_at i fa fk <$> f = f.
Proof.
  unfold forest_ids. induction f as [|t f IH]; [done|].
  rewrite bind_cons, not_elem_of_app. intros [H1 H2].
  rewrite fmap_cons. by rewrite alter_at_absent, IH.
Qed.

(** The identities of a subtree are identities of the tree. *)
Lemma find_node_ids i t t' : find_node i t = Some t' → ids t' ⊆ ids t.
Proof.
  revert t'; induction t as [s|j tag a kids IH] using tree_ind; intros t'; [done|].
  rewrite find_node_elem. case_bool_decide as E; [by intros [= <-]|].
  intros (k & Hk & Hf)%find_map_Some. rewrite Forall_forall in IH.
  intros x Hx. rewrite ids_elem. right. apply list_elem_of_bind.
  exists k. split; [|done]. by eapply IH.
Qed.

Lemma find_forest_ids i f t' : find_forest i f = Some t' → ids t' ⊆ forest_ids f.
Proof.
  intros (t & Ht & Hf)%find_map_Some x Hx. apply list_elem_of_bind.
  exists t. split; [|done]. by eapply find_node_ids.
Qed.

(** Replacing the children of the element [i] by [fresh] trades the
    identities of the old children for those of the new ones. *)
Definition replaced (i : nat) (fresh : forest) (t : tree) : Prop :=
  NoDup (ids t) → ∀ tag a old, find_node i t = Some (TElem i tag a old) →
  ids (alter_at i id (λ _, fresh) t) ++ forest_ids old ≡ₚ ids t ++ forest_ids fresh.

Lemma replaced_forest i fresh f :
  Forall (replaced i fresh) f → NoDup (forest_ids f) →
  ∀ tag a old, find_forest i f = Some (TElem i tag a old) →
  forest_ids (alter_at i id (λ _, fresh) <$> f) ++ forest_ids old
    ≡ₚ forest_ids f ++ forest_ids fresh.
Proof.
  induction 1 as [|t f Ht _ IH]; [done|]. intros Hnd tag a old.
  rewrite forest_ids_cons in Hnd. apply NoDup_app in Hnd as (Hn1 & Hdisj & Hn2).
  rewrite find_forest_cons, fmap_cons, !forest_ids_cons.
  destruct (find_node i t) as [t'|] eqn:Hf.
  - intros [= ->]. rewrite alter_forest_absent.
    + rewrite <-(assoc_L (++)), (comm (++) (forest_ids f)), (assoc_L (++)).
      rewrite (Ht Hn1 _ _ _ Hf). by rewrite <-!(assoc_L (++)), (comm (++) (forest_ids f)).
    + apply Hdisj, find_node_is_Some. eauto.
  - intros Hf'. rewrite alter_at_absent.
    + rewrite <-!(assoc_L (++)). f_equiv. by eapply IH.
    + rewrite <-find_node_is_Some, Hf. by intros [? ?].
Qed.

Lemma replaced_tree i fresh t : replaced i fresh t.
Proof.
  induction t as [s|j tag a kids IH] using tree_ind; [done|].
  intros Hnd tag' a' old. rewrite ids_elem in Hnd. apply NoDup_cons in Hnd as [Hj Hnd].
  rewrite find_node_elem, alter_at_elem. case_bool_decide as E.
  - intros [= ? ? ?]; subst. rewrite !ids_elem. simpl. f_equiv. apply (comm (++)).
  - intros Hf. rewrite !ids_elem. simpl. f_equiv. by eapply replaced_forest.
Qed.

Lemma forest_ids_replace i fresh f tag a old :
  NoDup (forest_ids f) → find_forest i f = Some (TElem i tag a old) →
  forest_ids (alter_at i id (λ _, fresh) <$> f) ++ forest_ids old
    ≡ₚ forest_ids f ++ forest_ids fresh.
Proof.
  intros. eapply replaced_forest; [|done..].
  apply Forall_forall. intros t _. apply replaced_tree.
Qed.

End Identities.

(** ** Lemmas on the document *)

Section DomOps.
Implicit Types (d : dom) (i j : nat) (h : html) (b : bool).

Lemma all_trees_alter_dom i fa fk d :
  all_trees (alter_dom i fa fk d) = alter_at i fa fk <$> all_trees d.
Proof. unfold all_trees, alter_dom; simpl. by rewrite fmap_app. Qed.

Lemma lookup_is_Some i d : is_Some (lookup i d) ↔ i ∈ forest_ids (all_trees d).
Proof. apply find_forest_is_Some. Qed.

Lemma lookup_elem i d t : lookup i d = Some t → ∃ tag a kids, t = TElem i tag a kids.
Proof. apply find_forest_root. Qed.

Lemma lookup_alter_dom_same i fa fk d :
  lookup i (alter_dom i fa fk d) = alter_root fa fk <$> lookup i d.
Proof. unfold lookup. by rewrite all_trees_alter_dom, find_forest_alter_same. Qed.

Lemma lookup_set_innerHTML_same i h d tag a old :
  lookup i d = Some (TElem i tag a old) →
  lookup i (set_innerHTML i h d) = Some (TElem i tag a (instantiate (d_next d) h)).
Proof.
  intros H. unfold set_innerHTML. rewrite H. unfold lookup, all_trees in *; simpl.
  rewrite (assoc_L (++)), <-fmap_app. apply find_map_app_l.
  fold (find_forest i (alter_at i id (λ _, instantiate (d_next d) h) <$> (d_doc d ++ d_detached d))).
  rewrite find_forest_alter_same. by rewrite H.
Qed.

(** *** Reading after writing *)

Lemma get_innerHTML_set_innerHTML i h d :
  is_Some (lookup i d) → get_innerHTML i (set_innerHTML i h d) = h.
Proof.
  intros [t Ht]. destruct (lookup_elem _ _ _ Ht) as (tag & a & old & ->).
  unfold get_innerHTML, kids_of. rewrite (lookup_set_innerHTML_same _ _ _ _ _ _ Ht).
  apply serialize_instantiate.
Qed.

Lemma attrs_of_set_innerHTML i h d : attrs_of i (set_innerHTML i h d) = attrs_of i d.
Proof.
  unfold attrs_of. destruct (lookup i d) as [t|] eqn:Ht.
  - destruct (lookup_elem _ _ _ Ht) as (tag & a & old & ->).
    by rewrite (lookup_set_innerHTML_same _ _ _ _ _ _ Ht).
  - unfold set_innerHTML. by rewrite Ht, Ht.
Qed.

Lemma get_disabled_set_innerHTML i h d :
  get_disabled i (set_innerHTML i h d) = get_disabled i d.
Proof. unfold get_disabled. by rewrite attrs_of_set_innerHTML. Qed.

Lemma attrs_of_alter_dom i fa d :
  is_Some (lookup i d) → attrs_of i (alter_dom i fa id d) = fa (attrs_of i d).
Proof.
  intros [t Ht]. destruct (lookup_elem _ _ _ Ht) as (tag & a & old & ->).
  unfold attrs_of. by rewrite lookup_alter_dom_same, Ht.
Qed.

Lemma kids_of_alter_dom i fa d : kids_of i (alter_dom i fa id d) = kids_of i d.
Proof.
  unfold kids_of. rewrite lookup_alter_dom_same.
  by destruct (lookup i d) as [[]|].
Qed.

Lemma get_disabled_set_disabled i b d :
  is_Some (lookup i d) → get_disabled i (set_disabled i b d) = b.
Proof.
  intros H. unfold get_disabled, set_disabled. rewrite attrs_of_alter_dom by done.
  destruct b; [apply attr_has_set|apply attr_has_remove].
Qed.

Lemma get_innerHTML_set_disabled i b d :
  get_innerHTML i (set_disabled i b d) = get_innerHTML i d.
Proof. unfold get_innerHTML, set_disabled. by rewrite kids_of_alter_dom. Qed.

Lemma lookup_set_disabled_is_Some i j b d :
  is_Some (lookup j (set_disabled i b d)) ↔ is_Some (lookup j d).
Proof.
  rewrite !lookup_is_Some. unfold set_disabled.
  by rewrite all_trees_alter_dom, forest_ids_alter_attrs.
Qed.

(** *** Well-formedness *)

Lemma wf_load_document h : wf_dom (load_document h).
Proof.
  unfold wf_dom, load_document, all_trees; simpl.
  rewrite app_nil_r, forest_ids_instantiate. split; [apply NoDup_seq|].
  apply Forall_forall. intros i Hi%elem_of_seq. lia.
Qed.

Lemma wf_alter_attrs i fa d : wf_dom d → wf_dom (alter_dom i fa id d).
Proof.
  unfold wf_dom. by rewrite all_trees_alter_dom, forest_ids_alter_attrs.
Qed.

Lemma wf_set_disabled i b d : wf_dom d → wf_dom (set_disabled i b d).
Proof. apply wf_alter_attrs. Qed.

(** The identities after [set_innerHTML]: those of before and the fresh
    ones. *)
Lemma forest_ids_set_innerHTML i h d :
  wf_dom d → is_Some (lookup i d) →
  forest_ids (all_trees (set_innerHTML i h d))
    ≡ₚ forest_ids (all_trees d) ++ seq (d_next d) (helems_list h).
Proof.
  intros [Hnd _] [t Ht]. destruct (lookup_elem _ _ _ Ht) as (tag & a & old & ->).
  unfold set_innerHTML. rewrite Ht. unfold all_trees at 1; simpl.
  rewrite (assoc_L (++)), <-fmap_app, forest_ids_app.
  rewrite <-(forest_ids_instantiate (d_next d) h).
  by eapply forest_ids_replace.
Qed.

Lemma wf_set_innerHTML i h d : wf_dom d → wf_dom (set_innerHTML i h d).
Proof.
  intros Hwf. destruct (lookup i d) as [t|] eqn:Ht;
    [|unfold set_innerHTML; by rewrite Ht].
  pose proof (forest_ids_set_innerHTML i h d Hwf) as Hp.
  rewrite Ht in Hp. specialize (Hp (mk_is_Some _ _ eq_refl)).
  destruct Hwf as [Hnd Hlt]. rewrite Forall_forall in Hlt. split.
  - rewrite Hp. apply NoDup_app. split_and!; [done| |apply NoDup_seq].
    intros x Hx%Hlt Hx'%elem_of_seq. lia.
  - rewrite Hp. assert (d_next (set_innerHTML i h d) = d_next d + helems_list h) as ->.
    { unfold set_innerHTML. rewrite Ht.
      by destruct (lookup_elem _ _ _ Ht) as (tag & a & old & ->). }
    apply Forall_app. split; apply Forall_forall.
    + intros x Hx%Hlt. lia.
    + intros x Hx%elem_of_seq. lia.
Qed.

(** *** Queries *)

Lemma document_querySelectorAll_attached sel d i :
  i ∈ document_querySelectorAll sel d → i ∈ forest_ids (d_doc d).
Proof. apply sublist_subseteq, select_forest_sublist. Qed.

Lemma document_querySelectorAll_lookup sel d i :
  i ∈ document_querySelectorAll sel d → is_Some (lookup i d).
Proof.
  intros H%document_querySelectorAll_attached. apply lookup_is_Some.
  unfold all_trees. rewrite forest_ids_app. apply elem_of_app. by left.
Qed.

Lemma document_querySelectorAll_NoDup sel d :
  wf_dom d → NoDup (document_querySelectorAll sel d).
Proof.
  intros [Hnd _]. unfold all_trees in Hnd. rewrite forest_ids_app in Hnd.
  apply NoDup_app in Hnd as [Hnd _].
  eapply sublist_NoDup; [exact Hnd|apply select_forest_sublist].
Qed.

Lemma kids_of_ids i d : forest_ids (kids_of i d) ⊆ forest_ids (all_trees d).
Proof.
  unfold kids_of, lookup. destruct (find_forest i (all_trees d)) as [t|] eqn:Ht; simpl.
  - destruct (find_forest_root _ _ _ Ht) as (tag & a & old & ->). simpl.
    intros x Hx. apply (find_forest_ids _ _ _ Ht). rewrite ids_elem. by right.
  - intros x Hx. by apply elem_of_nil in Hx.
Qed.

Lemma element_querySelector_lookup sel i d j :
  element_querySelector sel i d = Some j → is_Some (lookup j d).
Proof.
  intros H%head_elem_of. apply lookup_is_Some, (kids_of_ids i).
  eapply sublist_subseteq; [apply select_forest_sublist|done].
Qed.

Lemma document_querySelector_lookup sel d j :
  document_querySelector sel d = Some j → is_Some (lookup j d).
Proof. intros H%head_elem_of. by eapply document_querySelectorAll_lookup. Qed.

End DomOps.

(** ** Markup *)

Section Markup.
Implicit Types (t n : tree) (f : forest) (i j : nat) (d : dom) (h : html).

(** With unique identities, what is found in a tree of a forest is what
    is found in the forest. *)
Lemma find_forest_NoDup i f t n :
  NoDup (forest_ids f) → t ∈ f → find_node i t = Some n → find_forest i f = Some n.
Proof.
  induction f as [|u f IH]; [by intros _ ?%elem_of_nil|].
  rewrite forest_ids_cons, NoDup_app. intros (_ & Hdisj & Hnd) Ht Hf.
  rewrite find_forest_cons. apply elem_of_cons in Ht as [->|Ht]; [by rewrite Hf|].
  destruct (find_node i u) as [n'|] eqn:Hu; [|by apply IH].
  exfalso. apply (Hdisj i).
  - apply find_node_is_Some. eauto.
  - apply list_elem_of_bind. exists t. split; [|done]. apply find_node_is_Some. eauto.
Qed.

Lemma NoDup_forest_ids_elem f t : NoDup (forest_ids f) → t ∈ f → NoDup (ids t).
Proof.
  induction f as [|u f IH]; [by intros _ ?%elem_of_nil|].
  rewrite forest_ids_cons, NoDup_app. intros (Hu & _ & Hnd) [->|Ht]%elem_of_cons; auto.
Qed.

(** A change that keeps the markup of the one element [i] keeps the
    markup of the tree. *)
Lemma erase_alter_at_node i fa fk t :
  NoDup (ids t) →
  (∀ n, find_node i t = Some n → erase (alter_root fa fk n) = erase n) →
  erase (alter_at i fa fk t) = erase t.
Proof.
  induction t as [s|j tag a kids IH] using tree_ind; [done|].
  rewrite ids_elem, NoDup_cons. intros [_ Hnd] Hn.
  rewrite alter_at_elem. rewrite find_node_elem in Hn. case_bool_decide as E.
  - by apply (Hn (TElem j tag a kids)).
  - simpl. f_equal. rewrite <-list_fmap_compose. apply Forall_fmap_ext_1.
    rewrite Forall_forall in IH. apply Forall_forall. intros k Hk. simpl.
    apply IH; [done|by eapply NoDup_forest_ids_elem|].
    intros n Hf. apply Hn. by eapply find_forest_NoDup.
Qed.

Lemma serialize_alter_forest i fa fk f :
  NoDup (forest_ids f) →
  (∀ n, find_forest i f = Some n → erase (alter_root fa fk n) = erase n) →
  serialize (alter_at i fa fk <$> f) = serialize f.
Proof.
  intros Hnd Hn. unfold serialize. rewrite <-list_fmap_compose.
  apply Forall_fmap_ext_1, Forall_forall. intros t Ht. simpl.
  apply erase_alter_at_node; [by eapply NoDup_forest_ids_elem|].
  intros n Hf. apply Hn. by eapply find_forest_NoDup.
Qed.

Lemma set_innerHTML_unfold i h d :
  is_Some (lookup i d) →
  set_innerHTML i h d =
  {| d_doc := alter_at i id (λ _, instantiate (d_next d) h) <$> d_doc d;
     d_detached := (alter_at i id (λ _, instantiate (d_next d) h) <$> d_detached d)
                   ++ kids_of i d;
     d_next := d_next d + helems_list h |}.
Proof.
  intros [t Ht]. destruct (lookup_elem _ _ _ Ht) as (tag & a & old & ->).
  unfold set_innerHTML, kids_of. by rewrite Ht.
Qed.

Lemma set_innerHTML_absent i h d : lookup i d = None → set_innerHTML i h d = d.
Proof. intros H. unfold set_innerHTML. by rewrite H. Qed.

Lemma lookup_set_innerHTML_is_Some i h d :
  is_Some (lookup i d) → is_Some (lookup i (set_innerHTML i h d)).
Proof.
  intros [t Ht]. destruct (lookup_elem _ _ _ Ht) as (tag & a & old & ->).
  rewrite (lookup_set_innerHTML_same _ _ _ _ _ _ Ht). eauto.
Qed.


Lemma alter_forest_compose i fa1 fk1 fa2 fk2 f :
  alter_at i fa2 fk2 <$> (alter_at i fa1 fk1 <$> f) =
  alter_at i (fa2 ∘ fa1) (fk2 ∘ fk1) <$> f.
Proof.
  rewrite <-list_fmap_compose. apply list_fmap_ext. intros _ t _. simpl.
  apply alter_at_compose.
Qed.

Lemma wf_dom_doc d : wf_dom d → NoDup (forest_ids (d_doc d)).
Proof.
  intros [Hnd _]. unfold all_trees in Hnd. rewrite forest_ids_app in Hnd.
  by apply NoDup_app in Hnd as [? _].
Qed.

Lemma lookup_doc i d n : find_forest i (d_doc d) = Some n → lookup i d = Some n.
Proof. intros H. unfold lookup, all_trees. by apply find_map_app_l. Qed.

(** Disabling an enabled element, replacing its content twice and
    enabling it again leaves the markup of the document as it was, when
    the last content reads as the first. *)
Lemma serialize_guard_restore i h1 h2 d :
  wf_dom d → is_Some (lookup i d) → get_disabled i d = false →
  h2 = get_innerHTML i d →
  serialize (d_doc (set_disabled i false (set_innerHTML i h2
              (set_disabled i true (set_innerHTML i h1 d))))) =
  serialize (d_doc d).
Proof.
  intros Hwf Hl Hd ->.
  assert (is_Some (lookup i (set_disabled i true (set_innerHTML i h1 d)))) as Hl2.
  { apply lookup_set_disabled_is_Some. by apply lookup_set_innerHTML_is_Some. }
  rewrite (set_innerHTML_unfold i _ _ Hl2). unfold set_disabled at 1 2, alter_dom; simpl.
  rewrite (set_innerHTML_unfold i h1 d Hl); simpl.
  rewrite !alter_forest_compose.
  apply serialize_alter_forest; [by apply wf_dom_doc|].
  intros n Hn. apply lookup_doc in Hn. unfold get_disabled, get_innerHTML, attrs_of, kids_of in *.
  rewrite Hn in *. destruct (lookup_elem _ _ _ Hn) as (tag & a & kids & ->); simpl in *.
  rewrite attr_remove_set_absent by by apply attr_has_false.
  f_equal. apply serialize_instantiate.
Qed.

End Markup.

(** ** Frame: what a change of one element leaves alone *)

Section Frame.
Implicit Types (t n : tree) (f : forest) (i j : nat) (d : dom) (h : html).

(** The identities below the element [i] of a tree. *)
Definition below (i : nat) (t : tree) : list nat :=
  from_option (λ n, forest_ids (node_kids n)) [] (find_node i t).

Definition below_forest (i : nat) (f : forest) : list nat :=
  from_option (λ n, forest_ids (node_kids n)) [] (find_forest i f).

(** With unique identities, an element of a subtree is found in the
    tree where it is found in the subtree. *)
Definition trans_at (i j : nat) (t : tree) : Prop :=
  ∀ n, NoDup (ids t) → find_node i t = Some n → j ∈ ids n →
  find_node j t = find_node j n.

Lemma find_node_Some_self j n : j ∈ ids n → is_Some (find_node j n).
Proof. apply find_node_is_Some. Qed.

Lemma find_forest_trans_aux i j f :
  Forall (trans_at i j) f →
  ∀ n, NoDup (forest_ids f) → find_forest i f = Some n → j ∈ ids n →
  find_forest j f = find_node j n.
Proof.
  induction 1 as [|u f Hu _ IH]; [done|]. intros n.
  rewrite forest_ids_cons, NoDup_app. intros (Hnu & Hdisj & Hnd).
  rewrite !find_forest_cons. destruct (find_node i u) as [n'|] eqn:Hiu.
  - intros [= ->] Hj. rewrite (Hu n) by done.
    by destruct (find_node_Some_self j n Hj) as [x ->].
  - intros Hf Hj. assert (j ∈ forest_ids f) as Hjf by (by eapply find_forest_ids).
    destruct (find_node j u) eqn:Hju; [|by apply IH].
    exfalso. apply (Hdisj j); [|done]. apply find_node_is_Some. eauto.
Qed.

Lemma find_node_trans i j t : trans_at i j t.
Proof.
  induction t as [s|k tag a kids IH] using tree_ind; intros n; [done|].
  rewrite ids_elem, NoDup_cons. intros [Hk Hnd]. rewrite find_node_elem.
  case_bool_decide as E; [by intros [= <-]|]. intros Hf Hj.
  pose proof (find_forest_ids _ _ _ Hf _ Hj) as Hjk.
  rewrite find_node_elem, bool_decide_eq_false_2 by (intros ->; done).
  by apply (find_forest_trans_aux i).
Qed.

Lemma find_forest_trans i j f n :
  NoDup (forest_ids f) → find_forest i f = Some n → j ∈ ids n →
  find_forest j f = find_node j n.
Proof.
  apply find_forest_trans_aux, Forall_forall. intros t _. apply find_node_trans.
Qed.

(** *** Other elements keep their tag and their attributes *)

(** What an element is by itself: its tag and its attributes. *)
Definition node_label (t : tree) : string * attrs := (node_tag t, node_attrs t).


Lemma find_node_alter_attrs_other i j fa t :
  j ≠ i →
  node_label <$> find_node j (alter_at i fa id t) = node_label <$> find_node j t.
Proof.
  intros Hne. induction t as [s|k tag a kids IH] using tree_ind; [done|].
  rewrite alter_at_elem. case_bool_decide as E.
  - subst k. by rewrite !find_node_elem, !bool_decide_eq_false_2 by done.
  - rewrite !find_node_elem. case_bool_decide; [done|]. by apply find_map_post.
Qed.

Lemma find_forest_alter_attrs_other i j fa f :
  j ≠ i →
  node_label <$> find_forest j (alter_at i fa id <$> f) = node_label <$> find_forest j f.
Proof.
  intros Hne. apply find_map_post, Forall_forall. intros t _.
  by apply find_node_alter_attrs_other.
Qed.

(** Replacing the children of [i] keeps the attributes of every element
    that is neither below [i] nor among the new children. *)
Definition keeps_attrs (i j : nat) (fa : attrs → attrs) (fresh : forest) (t : tree) : Prop :=
  NoDup (ids t) → j ∉ below i t →
  node_label <$> find_node j (alter_at i fa (λ _, fresh) t) = node_label <$> find_node j t.

Lemma below_elem i f t n :
  NoDup (forest_ids f) → t ∈ f → find_node i t = Some n → below i t = below_forest i f.
Proof.
  intros Hnd Ht Hn. unfold below, below_forest.
  by rewrite Hn, (find_forest_NoDup i f t n).
Qed.

Lemma below_absent i t : find_node i t = None → below i t = [].
Proof. intros H. unfold below. by rewrite H. Qed.

Lemma keeps_attrs_forest i j fa fresh f :
  Forall (keeps_attrs i j fa fresh) f →
  NoDup (forest_ids f) → j ∉ below_forest i f →
  node_label <$> find_forest j (alter_at i fa (λ _, fresh) <$> f)
    = node_label <$> find_forest j f.
Proof.
  intros Hf Hnd Hj. apply find_map_post. rewrite Forall_forall in Hf.
  apply Forall_forall. intros t Ht. apply (Hf t Ht).
  - by eapply NoDup_forest_ids_elem.
  - destruct (find_node i t) as [n|] eqn:Hn.
    + by rewrite (below_elem i f t n).
    + rewrite below_absent by done. apply not_elem_of_nil.
Qed.

Lemma keeps_attrs_tree i j fa fresh t :
  j ≠ i → j ∉ forest_ids fresh → keeps_attrs i j fa fresh t.
Proof.
  intros Hne Hfresh. induction t as [s|k tag a kids IH] using tree_ind; [done|].
  intros Hnd Hj. rewrite ids_elem, NoDup_cons in Hnd. destruct Hnd as [Hk Hnd].
  unfold below in Hj. rewrite find_node_elem in Hj. rewrite alter_at_elem.
  case_bool_decide as E.
  - subst k. simpl in Hj. rewrite !find_node_elem, !bool_decide_eq_false_2 by done.
    destruct (find_forest j fresh) eqn:E1.
    { exfalso. apply Hfresh, find_forest_is_Some. eauto. }
    destruct (find_forest j kids) eqn:E2; [|done].
    exfalso. apply Hj, find_forest_is_Some. eauto.
  - rewrite !find_node_elem. case_bool_decide; [done|].
    by apply keeps_attrs_forest.
Qed.

Lemma find_forest_replace_other i j fa fresh f :
  j ≠ i → j ∉ forest_ids fresh → NoDup (forest_ids f) → j ∉ below_forest i f →
  node_label <$> find_forest j (alter_at i fa (λ _, fresh) <$> f)
    = node_label <$> find_forest j f.
Proof.
  intros. apply keeps_attrs_forest; [|done..].
  apply Forall_forall. intros t _. by apply keeps_attrs_tree.
Qed.

End Frame.

Section FrameDom.
Implicit Types (i j : nat) (d : dom) (h : html) (b : bool).

(** The tag and the attributes of the element [j], if it exists. *)
Definition label_of (j : nat) (d : dom) : option (string * attrs) :=
  node_label <$> lookup j d.

Lemma attrs_of_label j d : attrs_of j d = from_option snd [] (label_of j d).
Proof. unfold attrs_of, label_of. by destruct (lookup j d). Qed.

Lemma tag_of_label j d : tag_of j d = from_option fst EmptyString (label_of j d).
Proof. unfold tag_of, label_of. by destruct (lookup j d). Qed.

Lemma label_of_alter_dom_other i j fa d :
  j ≠ i → label_of j (alter_dom i fa id d) = label_of j d.
Proof.
  intros Hne. unfold label_of, lookup.
  by rewrite all_trees_alter_dom, find_forest_alter_attrs_other.
Qed.

Lemma attrs_of_alter_dom_other i j fa d :
  j ≠ i → attrs_of j (alter_dom i fa id d) = attrs_of j d.
Proof. intros Hne. by rewrite !attrs_of_label, label_of_alter_dom_other. Qed.

Lemma tag_of_alter_dom i j fa d : tag_of j (alter_dom i fa id d) = tag_of j d.
Proof.
  destruct (decide (j = i)) as [->|Hne]; [|by rewrite !tag_of_label, label_of_alter_dom_other].
  unfold tag_of. rewrite lookup_alter_dom_same. by destruct (lookup i d) as [[]|].
Qed.

Lemma tag_of_set_disabled i j b d : tag_of j (set_disabled i b d) = tag_of j d.
Proof. apply tag_of_alter_dom. Qed.

Lemma get_disabled_set_disabled_other i j b d :
  j ≠ i → get_disabled j (set_disabled i b d) = get_disabled j d.
Proof. intros Hne. unfold get_disabled, set_disabled. by rewrite attrs_of_alter_dom_other. Qed.

Lemma fresh_ids_above h d j : j < d_next d → j ∉ forest_ids (instantiate (d_next d) h).
Proof. rewrite forest_ids_instantiate, elem_of_seq. lia. Qed.

(** Assigning to the [innerHTML] of one element leaves the attributes of
    every other existing element as they were, wherever that element is:
    in the document, in a detached tree, or among the children that the
    assignment removes. *)
Lemma label_of_set_innerHTML_other i j h d :
  wf_dom d → j ≠ i → j < d_next d → label_of j (set_innerHTML i h d) = label_of j d.
Proof.
  intros Hwf Hne Hlt. destruct (lookup i d) as [n|] eqn:Hi;
    [|by rewrite set_innerHTML_absent].
  destruct (lookup_elem _ _ _ Hi) as (tag & a & old & ->).
  pose proof (fresh_ids_above h d j Hlt) as Hfresh.
  pose proof Hwf as [Hnd _].
  rewrite set_innerHTML_unfold by eauto. unfold label_of.
  unfold lookup at 1. unfold all_trees at 1; simpl.
  unfold kids_of. rewrite Hi; simpl.
  rewrite (assoc_L (++)), <-fmap_app. fold (all_trees d).
  unfold find_forest at 1. rewrite find_map_app.
  fold (find_forest j (alter_at i id (λ _, instantiate (d_next d) h) <$> all_trees d)).
  fold (find_forest j old).
  destruct (decide (j ∈ forest_ids old)) as [Hold|Hold].
  - assert (find_forest j (alter_at i id (λ _, instantiate (d_next d) h) <$> all_trees d)
            = None) as ->.
    { apply eq_None_not_Some. intros Hs%find_forest_is_Some.
      pose proof (forest_ids_replace i (instantiate (d_next d) h) _ _ _ _ Hnd Hi) as Hp.
      assert (NoDup (forest_ids (all_trees d) ++ forest_ids (instantiate (d_next d) h))) as Hn.
      { apply NoDup_app. split_and!; [done| |].
        - destruct Hwf as [_ Hall]. rewrite Forall_forall in Hall.
          intros x Hx%Hall. by apply fresh_ids_above.
        - rewrite forest_ids_instantiate. apply NoDup_seq. }
      rewrite <-Hp in Hn. apply NoDup_app in Hn as (_ & Hdisj & _). by apply (Hdisj j). }
    unfold lookup. rewrite (find_forest_trans i j _ _ Hnd Hi) by (rewrite ids_elem; by right).
    by rewrite find_node_elem, bool_decide_eq_false_2.
  - assert (find_forest j old = None) as ->.
    { apply eq_None_not_Some. by rewrite find_forest_is_Some. }
    transitivity (node_label <$> find_forest j
                    (alter_at i id (λ _, instantiate (d_next d) h) <$> all_trees d)).
    { by destruct (find_forest j _). }
    apply find_forest_replace_other; try done.
    unfold below_forest. unfold lookup in Hi. by rewrite Hi.
Qed.

Lemma attrs_of_set_innerHTML_other i j h d :
  wf_dom d → j ≠ i → j < d_next d → attrs_of j (set_innerHTML i h d) = attrs_of j d.
Proof. intros. by rewrite !attrs_of_label, label_of_set_innerHTML_other. Qed.

(** An assignment to [innerHTML] changes the tag of no existing element. *)
Lemma tag_of_set_innerHTML i j h d :
  wf_dom d → j < d_next d → tag_of j (set_innerHTML i h d) = tag_of j d.
Proof.
  intros Hwf Hlt.
  destruct (decide (j = i)) as [->|Hne];
    [|by rewrite !tag_of_label, label_of_set_innerHTML_other].
  unfold tag_of. destruct (lookup i d) as [t|] eqn:Ht.
  - destruct (lookup_elem _ _ _ Ht) as (tag & a & old & ->).
    by rewrite (lookup_set_innerHTML_same _ _ _ _ _ _ Ht).
  - by rewrite set_innerHTML_absent, Ht.
Qed.

Lemma attrs_of_set_innerHTML_any i j h d :
  wf_dom d → j < d_next d → attrs_of j (set_innerHTML i h d) = attrs_of j d.
Proof.
  intros Hwf Hlt. destruct (decide (j = i)) as [->|Hne].
  - apply attrs_of_set_innerHTML.
  - by apply attrs_of_set_innerHTML_other.
Qed.

Lemma get_disabled_set_innerHTML_other i j h d :
  wf_dom d → j ≠ i → j < d_next d →
  get_disabled j (set_innerHTML i h d) = get_disabled j d.
Proof. intros. unfold get_disabled. by rewrite attrs_of_set_innerHTML_other. Qed.

(** Including the element itself: [innerHTML] never touches attributes
    of existing elements. *)
Lemma get_disabled_set_innerHTML_any i j h d :
  wf_dom d → j < d_next d → get_disabled j (set_innerHTML i h d) = get_disabled j d.
Proof.
  intros Hwf Hlt. destruct (decide (j = i)) as [->|Hne].
  - apply get_disabled_set_innerHTML.
  - by apply get_disabled_set_innerHTML_other.
Qed.

Lemma d_next_set_innerHTML i h d : (d_next d ≤ d_next (set_innerHTML i h d))%nat.
Proof.
  unfold set_innerHTML. destruct (lookup i d) as [[]|]; simpl; lia.
Qed.

Lemma d_next_set_disabled i b d : d_next (set_disabled i b d) = d_next d.
Proof. reflexivity. Qed.

Lemma lookup_lt i d : wf_dom d → is_Some (lookup i d) → i < d_next d.
Proof.
  intros [_ Hall] Hi%lookup_is_Some. rewrite Forall_forall in Hall. by apply Hall.
Qed.

End FrameDom.

(** ** Nodes that leave the document

    Assigning to [innerHTML] detaches the old children for good: the
    new children are new nodes, even when the markup is the same. *)

Section Detach.
Implicit Types (d : dom) (i x : nat) (h : html).

Lemma kids_of_lookup i d x : x ∈ forest_ids (kids_of i d) → is_Some (lookup i d).
Proof.
  unfold kids_of. destruct (lookup i d); [by eauto|]. by intros ?%elem_of_nil.
Qed.

Lemma set_innerHTML_detaches i h d x :
  wf_dom d → x ∈ forest_ids (kids_of i d) → attached x (set_innerHTML i h d) = false.
Proof.
  intros Hwf Hx. pose proof (kids_of_lookup _ _ _ Hx) as Hl.
  pose proof (wf_set_innerHTML i h d Hwf) as [Hnd _].
  rewrite set_innerHTML_unfold in * by done. unfold all_trees in Hnd. simpl in Hnd.
  rewrite !forest_ids_app in Hnd. apply NoDup_app in Hnd as (_ & Hdisj & _).
  apply bool_decide_eq_false_2. intros Hin. apply (Hdisj x Hin), elem_of_app. by right.
Qed.

(** The elements of the document after [innerHTML] was assigned are
    elements of the document of before or new ones. *)
Lemma doc_ids_set_innerHTML i h d x :
  wf_dom d → x ∈ forest_ids (d_doc (set_innerHTML i h d)) →
  x ∈ forest_ids (d_doc d) ∨ (d_next d ≤ x)%nat.
Proof.
  intros Hwf. destruct (lookup i d) as [t|] eqn:Hl;
    [|rewrite set_innerHTML_absent by done; by left].
  rewrite set_innerHTML_unfold by by eexists. simpl.
  destruct (decide (i ∈ forest_ids (d_doc d))) as [Hi|Hi];
    [|rewrite alter_forest_absent by done; by left].
  apply find_forest_is_Some in Hi as [t' Ht'].
  destruct (find_forest_root _ _ _ Ht') as (tag & a & old & ->). intros Hx.
  assert (x ∈ forest_ids (d_doc d) ++ forest_ids (instantiate (d_next d) h)) as Hin.
  { rewrite <-(forest_ids_replace i _ _ tag a old (wf_dom_doc d Hwf) Ht').
    apply elem_of_app. by left. }
  apply elem_of_app in Hin as [?|Hin]; [by left|right].
  rewrite forest_ids_instantiate in Hin. apply elem_of_seq in Hin. lia.
Qed.

Lemma detached_set_innerHTML i h d x :
  wf_dom d → (x < d_next d)%nat → attached x d = false →
  attached x (set_innerHTML i h d) = false.
Proof.
  intros Hwf Hlt Hx%bool_decide_eq_false. apply bool_decide_eq_false_2.
  intros [?|?]%doc_ids_set_innerHTML; [done|lia|done].
Qed.

(** Writing to an element that is not in the document leaves the
    document as it is. *)
Lemma doc_set_innerHTML_detached i h d :
  attached i d = false → d_doc (set_innerHTML i h d) = d_doc d.
Proof.
  intros Hi%bool_decide_eq_false. destruct (lookup i d) as [t|] eqn:Hl;
    [|by rewrite set_innerHTML_absent].
  rewrite set_innerHTML_unfold by by eexists. simpl. by apply alter_forest_absent.
Qed.

Lemma doc_set_disabled_detached i b d :
  attached i d = false → d_doc (set_disabled i b d) = d_doc d.
Proof. intros Hi%bool_decide_eq_false. by apply alter_forest_absent. Qed.

Lemma attached_set_disabled i b d x : attached x (set_disabled i b d) = attached x d.
Proof. unfold attached, set_disabled. simpl. by rewrite forest_ids_alter_attrs. Qed.

End Detach.

(** ** The propagation path

    The path of an event has the target first, holds elements of the
    document or of a detached tree only, and visits no element twice. *)

Section Path.
Implicit Types (t : tree) (f : forest) (d : dom) (i : nat) (p : list nat).

Lemma path_to_elem i j tag a kids :
  path_to i (TElem j tag a kids) =
  if bool_decide (j = i) then Some [j] else (λ p, p ++ [j]) <$> find_map (path_to i) kids.
Proof. reflexivity. Qed.

Lemma path_to_ids i t p : path_to i t = Some p → p ⊆ ids t.
Proof.
  revert p; induction t as [s|j tag a kids IH] using tree_ind; intros p; [done|].
  rewrite path_to_elem, ids_elem. case_bool_decide; [intros [= <-] x ->%list_elem_of_singleton; left|].
  intros (p' & (k & Hk & Hp')%find_map_Some & ->)%fmap_Some. rewrite Forall_forall in IH.
  intros x [Hx| ->%list_elem_of_singleton]%elem_of_app; [right|left].
  apply list_elem_of_bind. exists k. split; [|done]. by apply (IH k Hk p').
Qed.

Lemma path_to_head i t p : path_to i t = Some p → head p = Some i.
Proof.
  revert p; induction t as [s|j tag a kids IH] using tree_ind; intros p; [done|].
  rewrite path_to_elem. case_bool_decide as E; [by intros [= <-]; rewrite E|].
  intros (p' & (k & Hk & Hp')%find_map_Some & ->)%fmap_Some. rewrite Forall_forall in IH.
  by apply head_app_Some, (IH k Hk).
Qed.

Lemma path_to_NoDup i t p : NoDup (ids t) → path_to i t = Some p → NoDup p.
Proof.
  revert p; induction t as [s|j tag a kids IH] using tree_ind; intros p; [done|].
  rewrite path_to_elem, ids_elem, NoDup_cons. intros [Hj Hnd].
  case_bool_decide; [intros [= <-]; apply NoDup_singleton|].
  intros (p' & (k & Hk & Hp')%find_map_Some & ->)%fmap_Some. rewrite Forall_forall in IH.
  apply NoDup_app. split_and!; [|intros x Hx ->%list_elem_of_singleton|apply NoDup_singleton].
  - apply (IH k Hk); [|done]. by apply (NoDup_forest_ids_elem kids).
  - apply Hj, list_elem_of_bind. exists k. split; [|done]. by apply (path_to_ids i k p').
Qed.

Lemma path_to_is_Some i t : i ∈ ids t → is_Some (path_to i t).
Proof.
  induction t as [s|j tag a kids IH] using tree_ind; [by intros ?%elem_of_nil|].
  rewrite ids_elem, path_to_elem. case_bool_decide as E; [by eauto|].
  intros [->|(k & Hi & Hk)%list_elem_of_bind]%elem_of_cons; [done|].
  rewrite Forall_forall in IH. apply fmap_is_Some, not_eq_None_Some.
  intros Hn%find_map_None. rewrite Forall_forall in Hn.
  destruct (IH k Hk Hi) as [p Hp]. specialize (Hn k Hk). congruence.
Qed.

Lemma event_path_Some i d :
  event_path i d ≠ [] → ∃ t, t ∈ all_trees d ∧ path_to i t = Some (event_path i d).
Proof.
  unfold event_path. destruct (find_map (path_to i) (all_trees d)) as [p|] eqn:E; [|done].
  apply find_map_Some in E as (t & Ht & Hp). by exists t.
Qed.

Lemma event_path_lookup i d x : x ∈ event_path i d → is_Some (lookup x d).
Proof.
  intros Hx. destruct (event_path_Some i d) as (t & Ht & Hp); [intros E; rewrite E in Hx; by apply elem_of_nil in Hx|].
  apply lookup_is_Some, list_elem_of_bind. exists t. split; [|done].
  by apply (path_to_ids i t _ Hp).
Qed.

Lemma event_path_NoDup i d : wf_dom d → NoDup (event_path i d).
Proof.
  intros [Hnd _]. destruct (decide (event_path i d = [])) as [->|Hne]; [constructor|].
  destruct (event_path_Some i d Hne) as (t & Ht & Hp).
  apply (path_to_NoDup i t); [|done]. by apply (NoDup_forest_ids_elem (all_trees d)).
Qed.

Lemma event_path_head i d : event_path i d ≠ [] → head (event_path i d) = Some i.
Proof. intros (t & _ & Hp)%event_path_Some. by apply (path_to_head i t). Qed.

(** The path of an event at an element that exists starts there. *)
Lemma event_path_cons i d : is_Some (lookup i d) → ∃ rest, event_path i d = i :: rest.
Proof.
  intros (t & Hi%path_to_is_Some & Ht)%lookup_is_Some%list_elem_of_bind.
  assert (event_path i d ≠ []) as Hne.
  { unfold event_path. destruct (find_map (path_to i) (all_trees d)) as [p|] eqn:E.
    - apply find_map_Some in E as (u & _ & Hp). simpl. intros ->.
      by apply path_to_head in Hp.
    - apply find_map_None in E. rewrite Forall_forall in E. specialize (E t Ht).
      destruct Hi as [p Hp]. congruence. }
  pose proof (event_path_head i d Hne) as Hh.
  destruct (event_path i d) as [|x rest]; [done|]. injection Hh as ->. by exists rest.
Qed.

End Path.
