(* ===== verification/Queries.v ===== *)
(** * What a query returns

    The three query calls of the script against the document.  With
    unique identities an element that a query returns is the element
    that [lookup] finds under its identity, and it passes the test of
    the selector ([matches_at]); conversely [querySelectorAll] returns
    every element of the document that passes the test, in document
    order: it is the filter of the identities of the document by the
    test ([document_querySelectorAll_filter]), and [querySelector] on
    an element is the first descendant that passes it. *)

From Stdlib Require Import Ascii String.
From stdpp Require Import base strings option numbers list.
From S2P Require Import Prelude Html Selector Dom DomFacts.
Local Open Scope string_scope.
Local Open Scope list_scope.

(** ** Soundness *)

Section Selected.
Implicit Types (t n : tree) (f : forest) (d : dom) (i j x : nat) (sel : selector).

Lemma find_node_sub_NoDup x t n : NoDup (ids t) → find_node x t = Some n → NoDup (ids n).
Proof.
  revert n; induction t as [s|j tag a kids IH] using tree_ind; intros n Hnd; [done|].
  rewrite find_node_elem. case_bool_decide; [by intros [= <-]|].
  intros (k & Hk & Hn)%find_map_Some. rewrite Forall_forall in IH.
  rewrite ids_elem, NoDup_cons in Hnd. destruct Hnd as [_ Hnd].
  apply (IH k Hk); [|done]. by apply (NoDup_forest_ids_elem kids).
Qed.

Lemma lookup_NoDup i d n : wf_dom d → lookup i d = Some n → NoDup (ids n).
Proof.
  intros [Hnd _] (t & Ht & Hn)%find_map_Some.
  apply (find_node_sub_NoDup i t); [|done]. by apply (NoDup_forest_ids_elem (all_trees d)).
Qed.

Lemma find_forest_singleton x t : find_forest x [t] = find_node x t.
Proof. rewrite find_forest_cons. by destruct (find_node x t). Qed.

(** The element [x] is in [f] with a tag and attributes that match. *)
Definition found_matching (sel : selector) (x : nat) (f : forest) : Prop :=
  ∃ tag a kids, find_forest x f = Some (TElem x tag a kids) ∧ matches sel tag a = true.

Lemma select_forest_found sel f x :
  Forall (λ t, NoDup (ids t) → x ∈ select sel t → found_matching sel x [t]) f →
  NoDup (forest_ids f) → x ∈ f ≫= select sel → found_matching sel x f.
Proof.
  intros IH Hnd (k & Hx & Hk)%list_elem_of_bind. rewrite Forall_forall in IH.
  destruct (IH k Hk) as (tag & a & kids & Hf & Hm); [by eapply NoDup_forest_ids_elem|done|].
  exists tag, a, kids. split; [|done]. apply (find_forest_NoDup x f k); [done..|].
  by rewrite <-find_forest_singleton.
Qed.

Lemma select_found sel t x : NoDup (ids t) → x ∈ select sel t → found_matching sel x [t].
Proof.
  induction t as [s|j tag a kids IH] using tree_ind; [by intros _ ?%elem_of_nil|].
  rewrite ids_elem, NoDup_cons. intros [Hj Hnd]. cbn [select]. rewrite elem_of_app.
  unfold found_matching. rewrite find_forest_singleton, find_node_elem.
  intros [Hx|Hx].
  - destruct (matches sel tag a) eqn:Hm; [|by apply elem_of_nil in Hx].
    apply list_elem_of_singleton in Hx as ->. exists tag, a, kids.
    by rewrite bool_decide_eq_true_2.
  - destruct (select_forest_found sel kids x IH Hnd Hx) as (tag' & a' & kids' & Hf & Hm).
    exists tag', a', kids'. split; [|done]. rewrite bool_decide_eq_false_2.
    + fold (find_forest x kids). by rewrite Hf.
    + intros ->. apply Hj, find_forest_is_Some. eauto.
Qed.

Lemma select_forest_matching sel f x :
  NoDup (forest_ids f) → x ∈ f ≫= select sel → found_matching sel x f.
Proof.
  apply select_forest_found, Forall_forall. intros t _. apply select_found.
Qed.

(** [matches] at the element [x] of the document. *)
Definition matches_at (sel : selector) (x : nat) (d : dom) : bool :=
  matches sel (tag_of x d) (attrs_of x d).

Lemma matches_at_lookup sel x d tag a kids :
  lookup x d = Some (TElem x tag a kids) → matches_at sel x d = matches sel tag a.
Proof. intros H. unfold matches_at, tag_of, attrs_of. by rewrite H. Qed.

Lemma document_querySelectorAll_matches sel d x :
  wf_dom d → x ∈ document_querySelectorAll sel d → matches_at sel x d = true.
Proof.
  intros Hwf Hx.
  destruct (select_forest_matching sel (d_doc d) x) as (tag & a & kids & Hf & Hm);
    [by apply wf_dom_doc|done|].
  by rewrite (matches_at_lookup sel x d tag a kids) by by apply lookup_doc.
Qed.

Lemma document_querySelector_matches sel d x :
  wf_dom d → document_querySelector sel d = Some x → matches_at sel x d = true.
Proof. intros Hwf H%head_elem_of. by apply document_querySelectorAll_matches. Qed.

Lemma element_querySelector_matches sel i d x :
  wf_dom d → element_querySelector sel i d = Some x → matches_at sel x d = true.
Proof.
  intros Hwf Hx%head_elem_of. unfold kids_of in Hx.
  destruct (lookup i d) as [n|] eqn:Hi; [|by apply elem_of_nil in Hx].
  destruct (lookup_elem _ _ _ Hi) as (tag & a & kids & ->). simpl in Hx.
  pose proof (lookup_NoDup i d _ Hwf Hi) as Hnd. rewrite ids_elem, NoDup_cons in Hnd.
  destruct Hnd as [Hi' Hnd].
  destruct (select_forest_matching sel kids x Hnd Hx) as (tag' & a' & kids' & Hf & Hm).
  assert (x ∈ forest_ids kids) as Hin by (apply find_forest_is_Some; eauto).
  rewrite (matches_at_lookup sel x d tag' a' kids'); [done|]. destruct Hwf as [Hall _].
  unfold lookup. rewrite (find_forest_trans i x _ _ Hall Hi) by (rewrite ids_elem; by right).
  rewrite find_node_elem, bool_decide_eq_false_2; [done|]. by intros ->.
Qed.

(** The tests of a selector do not depend on the children of any
    element, nor on [disabled] unless the selector reads it. *)
Lemma matches_at_set_innerHTML sel i x h d :
  wf_dom d → x < d_next d → matches_at sel x (set_innerHTML i h d) = matches_at sel x d.
Proof.
  intros Hwf Hlt. unfold matches_at.
  by rewrite tag_of_set_innerHTML, attrs_of_set_innerHTML_any.
Qed.

Lemma matches_at_set_disabled sel i x b d :
  reads "disabled" sel = false →
  matches_at sel x (set_disabled i b d) = matches_at sel x d.
Proof.
  intros Hr. unfold matches_at. rewrite tag_of_set_disabled.
  destruct (decide (x = i)) as [->|Hne];
    [|unfold set_disabled; by rewrite attrs_of_alter_dom_other].
  destruct (lookup i d) as [n|] eqn:Hi.
  - unfold set_disabled. rewrite attrs_of_alter_dom by eauto.
    apply (matches_irrelevant "disabled"); [done|]. intros m Hm.
    destruct b; [by apply attr_get_set_ne|by apply attr_get_remove_ne].
  - unfold attrs_of, set_disabled. rewrite lookup_alter_dom_same. by rewrite Hi.
Qed.

End Selected.

(** ** Completeness

    A query returns the elements that pass the test of the selector, all
    of them, in document order. *)

Section Complete.
Implicit Types (t n : tree) (f : forest) (d : dom) (i j x : nat) (sel : selector).

(** The test of [sel] at a node that was found. *)
Definition node_matches (sel : selector) (o : option tree) : bool :=
  match o with
  | Some (TElem _ tag a _) => matches sel tag a
  | _ => false
  end.

Lemma select_forest_filter sel f :
  Forall (λ t, NoDup (ids t) →
    select sel t = filter (λ x, node_matches sel (find_node x t) = true) (ids t)) f →
  NoDup (forest_ids f) →
  f ≫= select sel = filter (λ x, node_matches sel (find_forest x f) = true) (forest_ids f).
Proof.
  induction 1 as [|k f Hk _ IH]; [done|].
  rewrite forest_ids_cons, NoDup_app. intros (Hndk & Hdisj & Hnd).
  rewrite bind_cons, filter_app, Hk, IH by done. f_equal; apply filter_ext_elem; intros x Hx.
  - rewrite find_forest_cons. apply find_node_is_Some in Hx as [n Hn]. by rewrite Hn.
  - rewrite find_forest_cons. destruct (find_node x k) as [n|] eqn:Hn; [|done].
    destruct (Hdisj x); [apply find_node_is_Some; eauto|done].
Qed.

(** [select] is the filter of the identities by the test. *)
Lemma select_filter sel t :
  NoDup (ids t) →
  select sel t = filter (λ x, node_matches sel (find_node x t) = true) (ids t).
Proof.
  induction t as [s|j tag a kids IH] using tree_ind; [done|].
  rewrite ids_elem, NoDup_cons. intros [Hj Hnd]. cbn [select].
  rewrite filter_cons, find_node_elem, bool_decide_eq_true_2 by done. simpl.
  rewrite (select_forest_filter sel kids IH Hnd).
  rewrite (filter_ext_elem (λ x, node_matches sel (find_node x (TElem j tag a kids)) = true)
             (λ x, node_matches sel (find_forest x kids) = true)).
  - by destruct (matches sel tag a).
  - intros x Hx. rewrite find_node_elem, bool_decide_eq_false_2; [done|]. by intros ->.
Qed.

Lemma node_matches_doc sel d x :
  x ∈ forest_ids (d_doc d) →
  node_matches sel (find_forest x (d_doc d)) = matches_at sel x d.
Proof.
  intros [n Hn]%find_forest_is_Some. rewrite Hn.
  destruct (find_forest_root _ _ _ Hn) as (tag & a & kids & ->).
  by rewrite (matches_at_lookup sel x d tag a kids) by by apply lookup_doc.
Qed.

(** [document.querySelectorAll(sel)] is the list of the elements of the
    document that pass the test of [sel], in document order. *)
Lemma document_querySelectorAll_filter sel d :
  wf_dom d →
  document_querySelectorAll sel d =
  filter (λ x, matches_at sel x d = true) (forest_ids (d_doc d)).
Proof.
  intros Hwf. unfold document_querySelectorAll.
  rewrite select_forest_filter; [|apply Forall_forall; intros t _; apply select_filter|
                                  by apply wf_dom_doc].
  apply filter_ext_elem. intros x Hx. by rewrite node_matches_doc.
Qed.

Lemma document_querySelectorAll_spec sel d x :
  wf_dom d →
  x ∈ document_querySelectorAll sel d ↔ attached x d = true ∧ matches_at sel x d = true.
Proof.
  intros Hwf. rewrite document_querySelectorAll_filter, list_elem_of_filter by done.
  unfold attached. rewrite bool_decide_eq_true. tauto.
Qed.

(** [document.querySelector(sel)] is the first of them. *)
Lemma document_querySelector_first sel d :
  wf_dom d →
  document_querySelector sel d =
  head (filter (λ x, matches_at sel x d = true) (forest_ids (d_doc d))).
Proof. intros Hwf. unfold document_querySelector. by rewrite document_querySelectorAll_filter. Qed.

(** The descendants of [el] that [sel] selects are those that pass the
    test, in document order. *)
Lemma element_select_filter sel i d :
  wf_dom d →
  kids_of i d ≫= select sel =
  filter (λ x, matches_at sel x d = true) (forest_ids (kids_of i d)).
Proof.
  intros Hwf. unfold kids_of.
  destruct (lookup i d) as [n|] eqn:Hi; [|done].
  destruct (lookup_elem _ _ _ Hi) as (tag & a & kids & ->). simpl.
  pose proof (lookup_NoDup i d _ Hwf Hi) as Hnd. rewrite ids_elem, NoDup_cons in Hnd.
  destruct Hnd as [Hi' Hnd].
  rewrite select_forest_filter; [|apply Forall_forall; intros t _; apply select_filter|done].
  apply filter_ext_elem. intros x Hx. destruct Hwf as [Hall _].
  pose proof Hx as [n Hn]%find_forest_is_Some. rewrite Hn.
  destruct (find_forest_root _ _ _ Hn) as (tag' & a' & kids' & ->).
  rewrite (matches_at_lookup sel x d tag' a' kids'); [done|]. unfold lookup.
  rewrite (find_forest_trans i x _ _ Hall Hi) by (rewrite ids_elem; by right).
  rewrite find_node_elem, bool_decide_eq_false_2; [done|]. by intros ->.
Qed.

(** [el.querySelector(sel)] is the first descendant of [el] that passes
    the test. *)
Lemma element_querySelector_first sel i d :
  wf_dom d →
  element_querySelector sel i d =
  head (filter (λ x, matches_at sel x d = true) (forest_ids (kids_of i d))).
Proof. intros Hwf. unfold element_querySelector. by rewrite element_select_filter. Qed.

End Complete.
