(* ===== verification/Subtree.v ===== *)
(** * What a change of one element leaves of another

    The content of an element is its subtree.  A change of the element
    [b] ([innerHTML] or [disabled]) leaves the subtree of the element [c]
    as it is when [b] is neither [c] nor below [c]: also when [c] is
    below [b] and leaves the document with the old children of [b]
    ([kids_of_set_innerHTML_outside], [kids_of_set_disabled_outside]).
    [changes_only] collects what a write to [b] leaves alone: the tags
    and attributes of the other elements and the children of those
    that do not contain [b].

    Which elements are below [c] can be read from the markup: the
    number of elements that a query finds below [c] is the number of
    elements of [c.innerHTML] that pass the test of the selector
    ([hcount], [select_forest_length]); where the markup has none, no
    element below [c] passes it ([no_match_below]). *)

From Stdlib Require Import Ascii String.
From stdpp Require Import base strings option numbers list.
From S2P Require Import Prelude Html Selector Dom DomFacts Queries.

Local Open Scope string_scope.
Local Open Scope list_scope.

(** The number of elements of a fragment that pass the test of [sel]. *)
Fixpoint hcount (sel : selector) (n : hnode) : nat :=
  match n with
  | HText _ => 0
  | HElem tag a kids =>
      (if matches sel tag a then 1 else 0) + sum_list (hcount sel <$> kids)
  end.

Definition hmatches (sel : selector) (h : html) : nat := sum_list (hcount sel <$> h).

(** ** Changes of attributes *)

Section Attributes.
Implicit Types (t n : tree) (f : forest) (b c x : nat) (d : dom) (fa : attrs → attrs).

(** A change of attributes moves no element: what is found under [c]
    is what was there, with the change. *)
Lemma find_node_alter_attrs c b fa t :
  NoDup (ids t) →
  find_node c (alter_at b fa id t) = alter_at b fa id <$> find_node c t.
Proof.
  induction t as [s|j tag a kids IH] using tree_ind; [done|].
  rewrite ids_elem, NoDup_cons. intros [Hj Hnd].
  rewrite alter_at_elem, (find_node_elem c j tag a kids).
  destruct (decide (j = c)) as [->|Hc].
  - rewrite (bool_decide_eq_true_2 (c = c)) by done. simpl.
    case_bool_decide; by rewrite find_node_elem, bool_decide_eq_true_2.
  - rewrite (bool_decide_eq_false_2 (j = c)) by done. case_bool_decide as Eb.
    + subst j. rewrite find_node_elem, bool_decide_eq_false_2 by done. simpl.
      fold (find_forest c kids). destruct (find_forest c kids) as [n|] eqn:Hn; [|done].
      simpl. rewrite alter_at_absent; [done|]. intros Hin. apply Hj.
      by eapply find_forest_ids.
    + rewrite find_node_elem, bool_decide_eq_false_2 by done.
      apply find_map_fmap_commute. rewrite Forall_forall in IH. apply Forall_forall.
      intros k Hk. apply IH; [done|]. by apply (NoDup_forest_ids_elem kids).
Qed.

Lemma lookup_alter_dom c b fa d :
  wf_dom d → lookup c (alter_dom b fa id d) = alter_at b fa id <$> lookup c d.
Proof.
  intros [Hnd _]. unfold lookup. rewrite all_trees_alter_dom.
  apply find_map_fmap_commute, Forall_forall. intros t Ht.
  apply find_node_alter_attrs. by apply (NoDup_forest_ids_elem (all_trees d)).
Qed.

Lemma kids_of_alter_dom_outside c b fa d :
  wf_dom d → b ∉ forest_ids (kids_of c d) →
  kids_of c (alter_dom b fa id d) = kids_of c d.
Proof.
  intros Hwf Hb. unfold kids_of in *. rewrite lookup_alter_dom by done.
  destruct (lookup c d) as [n|] eqn:Hn; [|done].
  destruct (lookup_elem _ _ _ Hn) as (tag & a & kids & ->). simpl in Hb.
  cbn [fmap option_fmap option_map from_option]. rewrite alter_at_elem.
  case_bool_decide; [done|]. simpl. by apply alter_forest_absent.
Qed.

(** [b.disabled = v] leaves the content of [c] alone unless [b] is
    below [c]. *)
Lemma kids_of_set_disabled_outside c b (v : bool) d :
  wf_dom d → b ∉ forest_ids (kids_of c d) → kids_of c (set_disabled b v d) = kids_of c d.
Proof. apply kids_of_alter_dom_outside. Qed.

End Attributes.

(** ** Changes of children *)

Section Children.
Implicit Types (t n : tree) (f fresh : forest) (b c x : nat) (d : dom) (h : html).

Lemma ids_alter_at_absent c b fa fresh t :
  c ∉ forest_ids fresh → c ∉ ids t → c ∉ ids (alter_at b fa (λ _, fresh) t).
Proof.
  intros Hfresh. induction t as [s|j tag a kids IH] using tree_ind; [done|].
  rewrite alter_at_elem, ids_elem, not_elem_of_cons. intros [Hj Hk].
  case_bool_decide; rewrite ids_elem, not_elem_of_cons; (split; [done|]); [done|].
  unfold forest_ids in *. rewrite list_elem_of_bind.
  intros (k' & Hin & (k & -> & Hk')%list_elem_of_fmap).
  rewrite Forall_forall in IH. apply (IH k Hk'); [|done].
  intros Hc. apply Hk, list_elem_of_bind. eauto.
Qed.

(** The element [c] is found where it was after the children of [b]
    were replaced, when [b] is outside the subtree of [c] and [c] is
    not below [b]. *)
Definition outside_at (c b : nat) (fa : attrs → attrs) (fresh : forest) (t : tree) : Prop :=
  ∀ n, NoDup (ids t) → find_node c t = Some n → b ∉ ids n → c ∉ below b t →
  find_node c (alter_at b fa (λ _, fresh) t) = Some n.

Lemma below_forest_cons b u f :
  NoDup (forest_ids (u :: f)) →
  below_forest b (u :: f) = below b u ++ below_forest b f.
Proof.
  rewrite forest_ids_cons, NoDup_app. intros (_ & Hdisj & _).
  unfold below_forest, below. rewrite find_forest_cons.
  destruct (find_node b u) as [nb|] eqn:Hb; [|done].
  destruct (find_forest b f) as [nb'|] eqn:Hb'; [|by rewrite app_nil_r].
  destruct (Hdisj b); apply find_forest_is_Some || apply find_node_is_Some; eauto.
Qed.

Lemma find_forest_outside c b fa fresh f :
  Forall (outside_at c b fa fresh) f → c ∉ forest_ids fresh →
  ∀ n, NoDup (forest_ids f) → find_forest c f = Some n → b ∉ ids n →
  c ∉ below_forest b f →
  find_forest c (alter_at b fa (λ _, fresh) <$> f) = Some n.
Proof.
  induction 1 as [|u f Hu _ IH]; [done|]. intros Hfresh n Hnd.
  rewrite below_forest_cons, not_elem_of_app by done.
  rewrite forest_ids_cons, NoDup_app in Hnd. destruct Hnd as (Hnu & _ & Hnf).
  rewrite fmap_cons, !find_forest_cons. intros Hc Hb [Hbu Hbf].
  destruct (find_node c u) as [n'|] eqn:Hcu.
  - injection Hc as ->. by rewrite (Hu n).
  - destruct (find_node c (alter_at b fa (λ _, fresh) u)) as [n'|] eqn:Hc'; [|by apply IH].
    destruct (ids_alter_at_absent c b fa fresh u Hfresh).
    + rewrite <-find_node_is_Some, Hcu. by intros [? ?].
    + apply find_node_is_Some. eauto.
Qed.

Lemma find_node_outside c b fa fresh t : c ∉ forest_ids fresh → outside_at c b fa fresh t.
Proof.
  intros Hfresh. induction t as [s|j tag a kids IH] using tree_ind; [done|].
  intros n Hnd. rewrite ids_elem, NoDup_cons in Hnd. destruct Hnd as [Hj Hnd].
  unfold below. rewrite alter_at_elem, !find_node_elem. case_bool_decide as Ec.
  - intros [= <-] Hb _. rewrite ids_elem, not_elem_of_cons in Hb. destruct Hb as [Hne Hb].
    rewrite bool_decide_eq_false_2 by done.
    by rewrite find_node_elem, bool_decide_eq_true_2, alter_forest_absent.
  - intros Hc Hb. case_bool_decide as Eb.
    + intros Hbelow. destruct Hbelow. simpl. apply find_forest_is_Some. eauto.
    + intros Hbelow. rewrite find_node_elem, bool_decide_eq_false_2 by done.
      by apply find_forest_outside.
Qed.

Lemma lookup_replace_outside c b fresh d n :
  wf_dom d → c ∉ forest_ids fresh → lookup c d = Some n → b ∉ ids n →
  c ∉ forest_ids (kids_of b d) →
  find_forest c (alter_at b id (λ _, fresh) <$> all_trees d) = Some n.
Proof.
  intros [Hnd _] Hfresh Hc Hb Hbelow.
  apply find_forest_outside; [|done..|].
  - apply Forall_forall. intros t _. by apply find_node_outside.
  - unfold below_forest. unfold kids_of, lookup in Hbelow.
    by destruct (find_forest b (all_trees d)).
Qed.

(** An element below [b] is found among the old children of [b], which
    are kept as they were. *)
Lemma lookup_below c b d tag a old :
  wf_dom d → lookup b d = Some (TElem b tag a old) → c ∈ forest_ids old →
  lookup c d = find_forest c old.
Proof.
  intros Hwf Hb Hc. pose proof (lookup_NoDup b d _ Hwf Hb) as Hn.
  rewrite ids_elem, NoDup_cons in Hn. destruct Hn as [Hn _].
  destruct Hwf as [Hnd _]. unfold lookup.
  rewrite (find_forest_trans b c _ _ Hnd Hb) by (rewrite ids_elem; by right).
  rewrite find_node_elem, bool_decide_eq_false_2; [done|]. by intros ->.
Qed.

(** [b.innerHTML = h] leaves the subtree of [c] as it is unless [b] is
    [c] or below [c]. *)
Lemma lookup_set_innerHTML_outside c b h d n :
  wf_dom d → lookup c d = Some n → b ∉ ids n → lookup c (set_innerHTML b h d) = Some n.
Proof.
  intros Hwf Hc Hb. destruct (lookup b d) as [nb|] eqn:Hnb;
    [|by rewrite set_innerHTML_absent].
  destruct (lookup_elem _ _ _ Hnb) as (tag & a & old & ->).
  assert (c ∉ forest_ids (instantiate (d_next d) h)) as Hfresh
    by (apply fresh_ids_above, lookup_lt; [done|by eexists]).
  assert (kids_of b d = old) as Hold by (unfold kids_of; by rewrite Hnb).
  pose proof (wf_set_innerHTML b h d Hwf) as [Hnd' _].
  rewrite set_innerHTML_unfold in * by by eexists.
  unfold lookup at 1. unfold all_trees at 1 in Hnd'. unfold all_trees at 1.
  cbn [d_doc d_detached] in *. rewrite Hold, (assoc_L (++)), <-fmap_app in *.
  fold (all_trees d) in *. unfold find_forest.
  destruct (decide (c ∈ forest_ids old)) as [Hin|Hout].
  - rewrite find_map_app, (proj2 (find_map_None _ _)).
    + fold (find_forest c old). by rewrite <-(lookup_below c b d tag a old).
    + rewrite forest_ids_app, NoDup_app in Hnd'. destruct Hnd' as (_ & Hdisj & _).
      apply Forall_forall. intros t Ht. destruct (find_node c t) as [n'|] eqn:Hn'; [|done].
      destruct (Hdisj c); [|done]. apply list_elem_of_bind. exists t. split; [|done].
      apply find_node_is_Some. eauto.
  - apply find_map_app_l. apply (lookup_replace_outside c b _ d n); try done.
    by rewrite Hold.
Qed.

Lemma kids_of_set_innerHTML_outside c b h d :
  wf_dom d → c ≠ b → b ∉ forest_ids (kids_of c d) →
  is_Some (lookup c d) → kids_of c (set_innerHTML b h d) = kids_of c d.
Proof.
  intros Hwf Hne Hb [n Hn]. unfold kids_of in *. rewrite Hn in *.
  destruct (lookup_elem _ _ _ Hn) as (tag & a & kids & ->). simpl in Hb.
  rewrite (lookup_set_innerHTML_outside c b h d _ Hwf Hn); [done|].
  rewrite ids_elem, not_elem_of_cons. split; [congruence|done].
Qed.

End Children.

(** ** The elements below an element, from its markup *)

Section Markup.
Implicit Types (t n : tree) (f : forest) (c x : nat) (d : dom) (sel : selector).

(** A query finds as many elements as the markup has elements that pass
    the test. *)
Lemma select_forest_length_aux sel f :
  Forall (λ t, length (select sel t) = hcount sel (erase t)) f →
  length (f ≫= select sel) = hmatches sel (serialize f).
Proof.
  induction 1 as [|t f Ht _ IH]; [done|].
  rewrite bind_cons, length_app, Ht, IH. reflexivity.
Qed.

Lemma select_length sel t : length (select sel t) = hcount sel (erase t).
Proof.
  induction t as [s|j tag a kids IH] using tree_ind; [done|].
  cbn [select erase hcount]. rewrite length_app, (select_forest_length_aux sel kids IH).
  by destruct (matches sel tag a).
Qed.

Lemma select_forest_length sel f : length (f ≫= select sel) = hmatches sel (serialize f).
Proof. apply select_forest_length_aux, Forall_forall. intros t _. apply select_length. Qed.

(** Where the markup of [c] has no element that passes the test of
    [sel], no element below [c] passes it. *)
Lemma no_match_below sel c d x :
  wf_dom d → hmatches sel (get_innerHTML c d) = 0 →
  x ∈ forest_ids (kids_of c d) → matches_at sel x d = false.
Proof.
  intros Hwf H0 Hx. unfold get_innerHTML in H0.
  rewrite <-select_forest_length, element_select_filter in H0 by done.
  apply length_zero_iff_nil in H0. apply not_true_is_false. intros Hm.
  apply (filter_nil_not_elem_of _ _ x H0); done.
Qed.

(** A fragment has no element that passes the test when none of its
    nodes has. *)
Lemma hmatches_zero sel (h : html) :
  hmatches sel h = 0 ↔ Forall (λ y : hnode, hcount sel y = 0) h.
Proof.
  unfold hmatches. induction h as [|y h IH]; [by split|].
  rewrite fmap_cons, Forall_cons, <-IH. simpl. lia.
Qed.

End Markup.

(** ** What a write to one element leaves alone *)

(** [changes_only b d d']: from [d] to [d'] nothing but the element [b]
    was written.  [b] has the tag it had; the elements that were below
    it have left the document; every other element has the tag and the
    attributes it had; and an element that does not contain [b] has the
    children it had, whether it is in the document or not. *)
Definition changes_only (b : nat) (d d' : dom) : Prop :=
  tag_of b d' = tag_of b d ∧
  (∀ x, x ∈ forest_ids (kids_of b d) → attached x d' = false) ∧
  (∀ x, x ≠ b → x < d_next d → label_of x d' = label_of x d) ∧
  (∀ c, c ≠ b → is_Some (lookup c d) → b ∉ forest_ids (kids_of c d) →
     kids_of c d' = kids_of c d).

Section Frame.
Implicit Types (b c x : nat) (d : dom) (h : html) (v : bool).

(** The two writes of the script to a button, [innerHTML] and then
    [disabled], change only the button. *)
Lemma changes_only_write b h v d :
  wf_dom d → is_Some (lookup b d) →
  changes_only b d (set_disabled b v (set_innerHTML b h d)).
Proof.
  intros Hwf Hb. pose proof (lookup_lt _ _ Hwf Hb) as Hlt. split_and!.
  - by rewrite tag_of_set_disabled, tag_of_set_innerHTML.
  - intros x Hx. rewrite attached_set_disabled. by apply set_innerHTML_detaches.
  - intros x Hne Hx. unfold set_disabled.
    by rewrite label_of_alter_dom_other, label_of_set_innerHTML_other.
  - intros c Hne Hc Hout.
    rewrite kids_of_set_disabled_outside, kids_of_set_innerHTML_outside;
      rewrite ?kids_of_set_innerHTML_outside; auto using wf_set_innerHTML.
Qed.

(** So does one write to [innerHTML]. *)
Lemma changes_only_innerHTML b h d :
  wf_dom d → is_Some (lookup b d) → changes_only b d (set_innerHTML b h d).
Proof.
  intros Hwf Hb. pose proof (lookup_lt _ _ Hwf Hb) as Hlt. split_and!.
  - by rewrite tag_of_set_innerHTML.
  - intros x Hx. by apply set_innerHTML_detaches.
  - intros x Hne Hx. by rewrite label_of_set_innerHTML_other.
  - intros c Hne Hc Hout. by rewrite kids_of_set_innerHTML_outside.
Qed.

End Frame.
