(* ===== verification/EventLoop.v ===== *)
(** * The timer queue

    The part of the browser's event loop that the script uses: timers set
    by [setTimeout].  A [loop] has the current time in milliseconds, the
    pending timers in the order of their registration and the next timer
    handle.  [take_timer] removes the timer that fires next: the one with
    the least due time, the first registered among equals; the clock moves
    to its due time if it was behind.  The type of callbacks is a
    parameter: the script fixes it in [Page].  The invariants of the
    queue are stated here for any assignment of delays to callbacks:
    unique handles ([wf_loop]), no overdue timer ([punctual]), due times
    within the delay ([within]) and the order of the queue
    ([in_set_order]); the last section derives which timers the one that
    fires can overtake. *)

From Stdlib Require Import Ascii String.
From stdpp Require Import base strings option numbers list sorting.
From S2P Require Import Prelude.

Local Open Scope N_scope.

Section Loop.
Context {C : Type}.

Record timer : Type := Timer {
  t_id : nat;
  t_due : N;
  t_cb : C
}.

Record loop : Type := Loop {
  l_now : N;
  l_timers : list timer;
  l_next : nat
}.

Definition empty_loop : loop := {| l_now := 0; l_timers := []; l_next := 0%nat |}.

(** [setTimeout(cb, delay)]: the handle and the new queue. *)
Definition setTimeout (cb : C) (delay : N) (l : loop) : nat * loop :=
  (l_next l,
   {| l_now := l_now l;
      l_timers := l_timers l ++ [Timer (l_next l) (l_now l + delay) cb];
      l_next := S (l_next l) |}).

(** The timer of [best :: ts] that fires first. *)
Fixpoint earliest (best : timer) (ts : list timer) : timer :=
  match ts with
  | [] => best
  | t :: ts' => if t_due t <? t_due best then earliest t ts' else earliest best ts'
  end.

Definition next_timer (l : loop) : option timer :=
  match l_timers l with
  | [] => None
  | t :: ts => Some (earliest t ts)
  end.

Definition remove_timer (id : nat) (ts : list timer) : list timer :=
  filter (λ t, t_id t ≠ id) ts.

Definition take_timer (l : loop) : option (timer * loop) :=
  match next_timer l with
  | None => None
  | Some t =>
      Some (t, {| l_now := N.max (l_now l) (t_due t);
                  l_timers := remove_timer (t_id t) (l_timers l);
                  l_next := l_next l |})
  end.

(** Let the time pass until [t] (never backwards). *)
Definition wait_until (t : N) (l : loop) : loop :=
  {| l_now := N.max (l_now l) t; l_timers := l_timers l; l_next := l_next l |}.

(** Handles are unique and below the next handle. *)
Definition wf_loop (l : loop) : Prop :=
  NoDup (t_id <$> l_timers l) ∧ Forall (λ t, (t_id t < l_next l)%nat) (l_timers l).

(** No pending timer is overdue: the clock has not passed its due time. *)
Definition punctual (l : loop) : Prop :=
  Forall (λ t, l_now l ≤ t_due t) (l_timers l).

(** Every pending timer is due within the delay that [delay] gives for
    its callback. *)
Definition within (delay : C → N) (l : loop) : Prop :=
  Forall (λ t, t_due t ≤ l_now l + delay (t_cb t)) (l_timers l).

(** Timers sit in the queue in the order in which they were set.
    [delay cb] is the delay that a callback was set with, so a timer was
    set at its due time less that delay: [t] was set no later than [u]. *)
Definition set_before (delay : C → N) (t u : timer) : Prop :=
  t_due t + delay (t_cb u) ≤ t_due u + delay (t_cb t).

Definition in_set_order (delay : C → N) (l : loop) : Prop :=
  StronglySorted (set_before delay) (l_timers l).

(** ** Lemmas *)

Implicit Types (l : loop) (t : timer) (ts : list timer).

Lemma earliest_elem_of best ts : earliest best ts ∈ best :: ts.
Proof.
  revert best; induction ts as [|t ts IH]; intros best; simpl; [left|].
  destruct (t_due t <? t_due best).
  - right. apply IH.
  - specialize (IH best). apply elem_of_cons in IH as [->|H]; [left|by do 2 right].
Qed.

Lemma earliest_le_head best ts : t_due (earliest best ts) ≤ t_due best.
Proof.
  revert best; induction ts as [|u ts IH]; intros best; simpl; [lia|].
  destruct (N.ltb_spec (t_due u) (t_due best)); [|apply IH].
  pose proof (IH u). lia.
Qed.

(** No pending timer is due before the one that fires next. *)
Lemma earliest_le best ts t : t ∈ best :: ts → t_due (earliest best ts) ≤ t_due t.
Proof.
  revert best; induction ts as [|u ts IH]; intros best; simpl.
  - intros ->%list_elem_of_singleton. lia.
  - intros Ht. pose proof (earliest_le_head u ts). pose proof (earliest_le_head best ts).
    destruct (N.ltb_spec (t_due u) (t_due best)) as [Hlt|Hge];
      apply elem_of_cons in Ht as [->|[->|Ht]%elem_of_cons]; try lia;
      apply IH; by right.
Qed.

Lemma next_timer_elem_of l t : next_timer l = Some t → t ∈ l_timers l.
Proof.
  unfold next_timer. destruct (l_timers l) as [|u ts]; [done|].
  intros [= <-]. apply earliest_elem_of.
Qed.

Lemma next_timer_le l t u : next_timer l = Some t → u ∈ l_timers l → t_due t ≤ t_due u.
Proof.
  unfold next_timer. destruct (l_timers l) as [|v ts]; [done|].
  intros [= <-]. apply earliest_le.
Qed.

Lemma next_timer_None l : next_timer l = None ↔ l_timers l = [].
Proof. unfold next_timer. by destruct (l_timers l). Qed.

Lemma take_timer_None l : take_timer l = None ↔ l_timers l = [].
Proof. unfold take_timer. rewrite <-next_timer_None. by destruct (next_timer l). Qed.

Lemma take_timer_Some l t l' :
  take_timer l = Some (t, l') →
  t ∈ l_timers l ∧ l_timers l' = remove_timer (t_id t) (l_timers l) ∧
  l_now l' = N.max (l_now l) (t_due t) ∧ l_next l' = l_next l.
Proof.
  unfold take_timer. destruct (next_timer l) as [u|] eqn:E; [|done].
  intros [= <- <-]; simpl. split_and!; try done. by apply next_timer_elem_of.
Qed.

(** The clock never runs backwards, and a timer never fires early. *)
Lemma take_timer_now l t l' :
  take_timer l = Some (t, l') → l_now l ≤ l_now l' ∧ t_due t ≤ l_now l'.
Proof. intros (_ & _ & -> & _)%take_timer_Some. lia. Qed.

Lemma remove_timer_not_elem_of id ts t : t ∈ remove_timer id ts → t_id t ≠ id ∧ t ∈ ts.
Proof. unfold remove_timer. by rewrite list_elem_of_filter. Qed.

Lemma remove_timer_length ts t :
  NoDup (t_id <$> ts) → t ∈ ts → S (length (remove_timer (t_id t) ts)) = length ts.
Proof.
  unfold remove_timer. induction ts as [|u ts IH]; [by intros _ ?%elem_of_nil|].
  rewrite fmap_cons, NoDup_cons. intros [Hu Hnd] Ht. rewrite filter_cons.
  destruct (decide (t_id u = t_id t)) as [E|E].
  - rewrite decide_False by tauto. simpl. f_equal.
    rewrite filter_all; [done|].
    apply Forall_forall. intros v Hv Hvt. apply Hu. rewrite E, <-Hvt.
    by apply list_elem_of_fmap_2.
  - rewrite decide_True by done. simpl. f_equal. apply IH; [done|].
    apply elem_of_cons in Ht as [->|Ht]; [done|exact Ht].
Qed.

Lemma remove_timer_middle ts1 t ts2 :
  NoDup (t_id <$> ts1 ++ t :: ts2) → remove_timer (t_id t) (ts1 ++ t :: ts2) = ts1 ++ ts2.
Proof.
  rewrite fmap_app, fmap_cons. intros (_ & H1 & [H2 _]%NoDup_cons)%NoDup_app.
  unfold remove_timer. rewrite filter_app, filter_cons_False by (intros H; by apply H).
  rewrite !filter_all; [done| |].
  - apply Forall_forall. intros u Hu E. apply H2. rewrite <-E. by apply list_elem_of_fmap_2.
  - apply Forall_forall. intros u Hu E. apply (H1 (t_id u)).
    + by apply list_elem_of_fmap_2.
    + rewrite E. left.
Qed.

(** With unique handles, removing by handle takes out one timer and keeps
    the others in order. *)
Lemma remove_timer_split ts t :
  NoDup (t_id <$> ts) → t ∈ ts →
  ∃ ts1 ts2, ts = ts1 ++ t :: ts2 ∧ remove_timer (t_id t) ts = ts1 ++ ts2.
Proof.
  intros Hnd (ts1 & ts2 & ->)%list_elem_of_split. exists ts1, ts2.
  split; [done|by apply remove_timer_middle].
Qed.

(** Firing a timer removes exactly one timer from the queue. *)
Lemma take_timer_length l t l' :
  wf_loop l → take_timer l = Some (t, l') → S (length (l_timers l')) = length (l_timers l).
Proof.
  intros [Hnd _] (Hin & -> & _)%take_timer_Some. by apply remove_timer_length.
Qed.

Lemma wf_empty_loop : wf_loop empty_loop.
Proof. split; simpl; constructor. Qed.

Lemma wf_setTimeout cb delay l : wf_loop l → wf_loop (setTimeout cb delay l).2.
Proof.
  intros [Hnd Hlt]. rewrite Forall_forall in Hlt. split; simpl.
  - rewrite fmap_app. apply NoDup_app. split_and!; [done| |apply NoDup_singleton].
    intros x Hx Hx'. apply list_elem_of_singleton in Hx'. simpl in Hx'. subst x.
    apply list_elem_of_fmap in Hx as (t & Heq & Ht). apply Hlt in Ht. lia.
  - apply Forall_app. split; [|by repeat constructor; simpl; lia].
    apply Forall_forall. intros t Ht%Hlt. lia.
Qed.

Lemma wf_take_timer l t l' : wf_loop l → take_timer l = Some (t, l') → wf_loop l'.
Proof.
  intros [Hnd Hlt] (Hin & Hts & _ & Hn)%take_timer_Some. unfold wf_loop.
  rewrite Hts, Hn. unfold remove_timer. split.
  - by apply NoDup_fmap_filter.
  - rewrite Forall_forall in Hlt. apply Forall_forall.
    intros u [_ Hu]%list_elem_of_filter. by apply Hlt.
Qed.

Lemma wf_wait_until (n : N) l : wf_loop l → wf_loop (wait_until n l).
Proof. done. Qed.

Lemma punctual_empty_loop : punctual empty_loop.
Proof. constructor. Qed.

Lemma punctual_setTimeout cb delay l : punctual l → punctual (setTimeout cb delay l).2.
Proof.
  intros H. apply Forall_app. split; [done|]. repeat constructor; simpl. lia.
Qed.

(** On a punctual queue a timer fires exactly when it is due. *)
Lemma take_timer_punctual l t l' :
  punctual l → take_timer l = Some (t, l') → l_now l' = t_due t ∧ punctual l'.
Proof.
  intros Hp Ht. pose proof Ht as (Hin & Hts & Hnow & _)%take_timer_Some.
  unfold punctual in *. rewrite Forall_forall in Hp.
  assert (l_now l' = t_due t) as E by (specialize (Hp t Hin); lia).
  split; [done|]. rewrite E, Hts. apply Forall_forall.
  intros u [_ Hu]%remove_timer_not_elem_of.
  unfold take_timer in Ht. destruct (next_timer l) as [v|] eqn:Hn; [|done].
  injection Ht as <- _. by apply (next_timer_le l).
Qed.

Lemma punctual_wait_until (n : N) l :
  Forall (λ t, n ≤ t_due t) (l_timers l) → punctual l → punctual (wait_until n l).
Proof.
  unfold punctual; simpl. rewrite !Forall_forall. intros H1 H2 t Ht.
  specialize (H1 t Ht). specialize (H2 t Ht). lia.
Qed.

(** The clock only moves forward, so a timer that is due within its
    delay stays so. *)
Lemma within_later (delay : C → N) l l' :
  l_now l ≤ l_now l' → l_timers l' ⊆ l_timers l → within delay l → within delay l'.
Proof.
  unfold within. rewrite !Forall_forall. intros Hnow Hsub H t Ht.
  specialize (H t (Hsub t Ht)). lia.
Qed.

Lemma within_setTimeout (delay : C → N) cb n l :
  n ≤ delay cb → within delay l → within delay (setTimeout cb n l).2.
Proof.
  intros Hn H. apply Forall_app. split; [done|]. repeat constructor; simpl. lia.
Qed.

Lemma within_take_timer (delay : C → N) l t l' :
  within delay l → take_timer l = Some (t, l') → within delay l'.
Proof.
  intros H (_ & Hts & Hnow & _)%take_timer_Some. apply (within_later delay l); [lia| |done].
  rewrite Hts. intros u Hu. by apply list_elem_of_filter in Hu as [_ ?].
Qed.

Lemma within_wait_until (delay : C → N) (n : N) l :
  within delay l → within delay (wait_until n l).
Proof. apply within_later; simpl; [lia|done]. Qed.

(** ** The order of firing *)

(** The timer that fires next is the first of the least due time: those
    in front of it are due strictly later, those behind it no earlier. *)
Lemma earliest_split best ts :
  ∃ ts1 ts2, best :: ts = ts1 ++ earliest best ts :: ts2 ∧
    Forall (λ u, t_due (earliest best ts) < t_due u) ts1 ∧
    Forall (λ u, t_due (earliest best ts) ≤ t_due u) ts2.
Proof.
  revert best; induction ts as [|u ts IH]; intros best; simpl.
  { exists [], []. by repeat constructor. }
  destruct (N.ltb_spec (t_due u) (t_due best)) as [Hlt|Hge].
  - destruct (IH u) as (ts1 & ts2 & E & H1 & H2). exists (best :: ts1), ts2.
    rewrite E. split_and!; [done| |done]. constructor; [|done].
    pose proof (earliest_le_head u ts). lia.
  - destruct (IH best) as (ts1 & ts2 & E & H1 & H2).
    remember (earliest best ts) as e eqn:He. clear He IH. destruct ts1 as [|b ts1].
    + injection E as <- ->. exists [], (u :: ts2).
      split_and!; [done|constructor|]. by constructor.
    + injection E as <- ->. exists (best :: u :: ts1), ts2.
      apply Forall_cons in H1 as [Hb H1]. split_and!; [done| |done].
      apply Forall_cons; split; [done|]. apply Forall_cons; split; [lia|done].
Qed.

Lemma take_timer_split l t l' :
  wf_loop l → take_timer l = Some (t, l') →
  ∃ ts1 ts2, l_timers l = ts1 ++ t :: ts2 ∧ l_timers l' = ts1 ++ ts2 ∧
    Forall (λ u, t_due t < t_due u) ts1 ∧ Forall (λ u, t_due t ≤ t_due u) ts2.
Proof.
  intros [Hnd _]. unfold take_timer, next_timer.
  destruct (l_timers l) as [|best ts] eqn:E; [done|]. intros [= <- <-]; simpl.
  destruct (earliest_split best ts) as (ts1 & ts2 & Hs & H1 & H2).
  remember (earliest best ts) as e eqn:He. clear He.
  exists ts1, ts2. rewrite Hs in Hnd. rewrite Hs.
  split_and!; [done| |done..]. by apply remove_timer_middle.
Qed.

Lemma set_before_refl (delay : C → N) t : set_before delay t t.
Proof. unfold set_before. lia. Qed.

Lemma in_set_order_empty (delay : C → N) : in_set_order delay empty_loop.
Proof. constructor. Qed.

(** A timer set now with the delay of its callback goes behind the
    timers that are due within theirs. *)
Lemma in_set_order_setTimeout (delay : C → N) cb l :
  within delay l → in_set_order delay l →
  in_set_order delay (setTimeout cb (delay cb) l).2.
Proof.
  unfold within, in_set_order; simpl. intros Hw Hs.
  induction Hs as [|t ts Hs IH Ht]; simpl; [by repeat constructor|].
  apply Forall_cons in Hw as [Hw1 Hw]. constructor; [by apply IH|].
  apply Forall_app. split; [done|]. repeat constructor. unfold set_before; simpl. lia.
Qed.

Lemma in_set_order_sublist (delay : C → N) l l' :
  l_timers l' `sublist_of` l_timers l → in_set_order delay l → in_set_order delay l'.
Proof.
  unfold in_set_order. intros Hsub Hs. revert Hsub.
  generalize (l_timers l'). induction Hs as [|t ts Hs IH Ht]; intros ts' Hsub.
  - apply sublist_nil_r in Hsub as ->. constructor.
  - apply sublist_cons_r in Hsub as [Hsub|(ts'' & -> & Hsub)]; [by apply IH|].
    constructor; [by apply IH|]. rewrite Forall_forall in Ht. apply Forall_forall.
    intros u Hu. apply Ht. by eapply elem_of_sublist.
Qed.

Lemma in_set_order_take_timer (delay : C → N) l t l' :
  in_set_order delay l → take_timer l = Some (t, l') → in_set_order delay l'.
Proof.
  intros Hs (_ & Hts & _)%take_timer_Some. apply (in_set_order_sublist delay l); [|done].
  rewrite Hts. apply sublist_filter.
Qed.

(** Every timer that was set before the one that fires, and is still
    pending, was set with a strictly longer delay. *)
Lemma take_timer_oldest (delay : C → N) l t l' :
  wf_loop l → in_set_order delay l → take_timer l = Some (t, l') →
  ∃ ts1 ts2, l_timers l = ts1 ++ t :: ts2 ∧ l_timers l' = ts1 ++ ts2 ∧
    Forall (λ u, delay (t_cb t) < delay (t_cb u)) ts1.
Proof.
  intros Hwf Hs Ht. destruct (take_timer_split l t l' Hwf Ht) as (ts1 & ts2 & E & E' & H1 & _).
  exists ts1, ts2. split_and!; [done..|]. unfold in_set_order in Hs. rewrite E in Hs.
  rewrite Forall_forall in H1. apply Forall_forall. intros u Hu. specialize (H1 u Hu).
  assert (set_before delay u t) as Hb; [|unfold set_before in Hb; lia].
  clear E E' H1. induction ts1 as [|v ts1 IH]; [by apply elem_of_nil in Hu|].
  apply StronglySorted_inv in Hs as [Hs Hv]. apply elem_of_cons in Hu as [->|Hu]; [|by apply IH].
  rewrite Forall_forall in Hv. apply Hv, elem_of_app. right. left.
Qed.

(** The timer set last is pending, due after the delay. *)
Lemma setTimeout_timers cb delay l :
  l_timers (setTimeout cb delay l).2 =
  l_timers l ++ [Timer (l_next l) (l_now l + delay) cb].
Proof. reflexivity. Qed.

End Loop.

Arguments timer : clear implicits.
Arguments loop : clear implicits.
