(* ===== verification/Format.v ===== *)
(** * [formatDateTime]

    Lines 65-68 of the script.  The function builds a [Date] from its
    argument and joins the host's locale date and locale time with one
    space.  What the host's [Date] does is the interface [DateHost]: the
    function and its theorems are stated against it.  [en_US_host] is an
    instance for date-time strings of the form [YYYY-MM-DDThh:mm:ss], with
    the formats of the [en-US] locale; the examples run on it. *)

From Stdlib Require Import Ascii String.
From stdpp Require Import base strings option numbers list pretty.
From S2P Require Import Prelude.

Local Open Scope string_scope.

(** The [Date] object of the host.  [date_parse s] is the time value of
    [new Date(s)], [None] for an invalid date.  The two laws are those of
    the language standard: an invalid date prints as ["Invalid Date"]. *)
Class DateHost : Type := {
  instant : Type;
  date_parse : string → option instant;
  toLocaleDateString : option instant → string;
  toLocaleTimeString : option instant → string;
  toLocaleDateString_invalid : toLocaleDateString None = "Invalid Date";
  toLocaleTimeString_invalid : toLocaleTimeString None = "Invalid Date"
}.

(** Lines 65-68. *)
Definition formatDateTime `{DateHost} (dateString : string) : string :=
  let date := date_parse dateString in
  toLocaleDateString date +:+ " " +:+ toLocaleTimeString date.

(** ** A host for the examples *)

Record civil : Type := Civil {
  c_year : N; c_month : N; c_day : N; c_hour : N; c_minute : N; c_second : N
}.

Fixpoint digits (acc : N) (s : string) : option N :=
  match s with
  | EmptyString => Some acc
  | String c s' =>
      match Ascii.is_nat c with
      | Some d => digits (10 * acc + N.of_nat d)%N s'
      | None => None
      end
  end.

Definition number (s : string) : option N :=
  if bool_decide (s = "") then None else digits 0 s.

Definition in_range (lo hi n : N) : bool := (lo <=? n)%N && (n <=? hi)%N.

(** [YYYY-MM-DDThh:mm:ss], nineteen characters. *)
Definition parse_iso (s : string) : option civil :=
  if bool_decide (String.length s = 19%nat) &&
     bool_decide (substring 4 1 s = "-") && bool_decide (substring 7 1 s = "-") &&
     bool_decide (substring 10 1 s = "T") &&
     bool_decide (substring 13 1 s = ":") && bool_decide (substring 16 1 s = ":")
  then
    y ← number (substring 0 4 s); mo ← number (substring 5 2 s);
    d ← number (substring 8 2 s); h ← number (substring 11 2 s);
    mi ← number (substring 14 2 s); se ← number (substring 17 2 s);
    if in_range 1 12 mo && in_range 1 31 d && in_range 0 23 h &&
       in_range 0 59 mi && in_range 0 59 se
    then Some (Civil y mo d h mi se) else None
  else None.

Definition two_digits (n : N) : string :=
  if (n <? 10)%N then "0" +:+ pretty n else pretty n.

Definition en_US_date (o : option civil) : string :=
  match o with
  | Some c => pretty (c_month c) +:+ "/" +:+ pretty (c_day c) +:+ "/" +:+ pretty (c_year c)
  | None => "Invalid Date"
  end.

Definition en_US_time (o : option civil) : string :=
  match o with
  | Some c =>
      let h12 := if (c_hour c mod 12 =? 0)%N then 12%N else (c_hour c mod 12)%N in
      pretty h12 +:+ ":" +:+ two_digits (c_minute c) +:+ ":" +:+ two_digits (c_second c)
      +:+ (if (c_hour c <? 12)%N then " AM" else " PM")
  | None => "Invalid Date"
  end.

#[export] Instance en_US_host : DateHost := {|
  instant := civil;
  date_parse := parse_iso;
  toLocaleDateString := en_US_date;
  toLocaleTimeString := en_US_time;
  toLocaleDateString_invalid := eq_refl;
  toLocaleTimeString_invalid := eq_refl
|}.

(** ** Theorems *)

Section Format.
Context `{DateHost}.

Lemma string_app_length (s t : string) :
  String.length (s +:+ t) = (String.length s + String.length t)%nat.
Proof. induction s as [|c s IH]; simpl; [done|]. by rewrite IH. Qed.

Lemma substring_all (s : string) : substring 0 (String.length s) s = s.
Proof. induction s as [|c s IH]; simpl; [done|]. by rewrite IH. Qed.

(** What [d +:+ " " +:+ t] is made of. *)
Lemma joined_parts (d t : string) :
  String.prefix d (d +:+ " " +:+ t) = true ∧
  String.get (String.length d) (d +:+ " " +:+ t) = Some " "%char ∧
  substring (S (String.length d)) (String.length t) (d +:+ " " +:+ t) = t.
Proof.
  induction d as [|c d IH]; simpl.
  - split_and!; [by destruct t|done|apply substring_all].
  - destruct (ascii_dec c c); [apply IH|done].
Qed.

(** C39. The result is the locale date of the parsed argument, one space,
    and its locale time, whatever the host prints: its length is the sum
    of theirs plus one, it starts with the date, the character after the
    date is the space, and what follows the space is the time. *)
Theorem formatDateTime_shape (dateString : string) :
  let d := toLocaleDateString (date_parse dateString) in
  let t := toLocaleTimeString (date_parse dateString) in
  let r := formatDateTime dateString in
  String.length r = (String.length d + 1 + String.length t)%nat ∧
  String.prefix d r = true ∧
  String.get (String.length d) r = Some " "%char ∧
  substring (S (String.length d)) (String.length t) r = t.
Proof.
  unfold formatDateTime; simpl. split; [|apply joined_parts].
  rewrite !string_app_length. simpl. lia.
Qed.

(** C40. An argument that the host cannot parse gives no error: the result
    is the text ["Invalid Date Invalid Date"]. *)
Theorem formatDateTime_invalid (dateString : string) :
  date_parse dateString = None →
  formatDateTime dateString = "Invalid Date Invalid Date".
Proof.
  intros Hp. unfold formatDateTime. rewrite Hp; simpl.
  by rewrite toLocaleDateString_invalid, toLocaleTimeString_invalid.
Qed.

End Format.

Example formatDateTime_sample :
  formatDateTime "2024-01-15T10:30:00" = "1/15/2024 10:30:00 AM".
Proof. reflexivity. Qed.

Example formatDateTime_afternoon :
  formatDateTime "2023-12-31T23:05:09" = "12/31/2023 11:05:09 PM".
Proof. reflexivity. Qed.

Lemma formatDateTime_invalid_witness :
  date_parse "next tuesday" = None ∧
  formatDateTime "next tuesday" = "Invalid Date Invalid Date".
Proof.
  split; [reflexivity|]. apply (formatDateTime_invalid "next tuesday"). reflexivity.
Defined.
