(* ===== verification/Page.v ===== *)
(** * The script [static/js/main.js]

    The state of the page ([world]), the calls of the browser API that the
    script makes (the [js_] operations), and the script: its literals, its
    closures as data ([listener], [callback]) and one definition per
    function.  The one call that can throw, [new bootstrap.Tooltip(el)],
    returns an [outcome].  [dispatch] delivers an event to the listeners on
    its propagation path, [fire_click] adds the default action of a click
    (a submit button submits its form), [run_timer] fires the next timer. *)

From Stdlib Require Import Ascii String.
From stdpp Require Import base strings option numbers list.
From S2P Require Import Prelude Html Selector Dom EventLoop.

Local Open Scope string_scope.
Local Open Scope list_scope.

(** ** Literals of the script *)

Definition sel_tooltip : selector := [SAttrEq "data-bs-toggle" "tooltip"].
Definition sel_form : selector := [SType "form"].
Definition sel_submit : selector := [SType "button"; SAttrEq "type" "submit"].
Definition sel_alert : selector := [SClass "alert"].
Definition sel_close : selector := [SClass "btn-close"].
Definition sel_delete : selector := [SClass "btn-danger"; SAttrEq "data-action" "delete"].
Definition sel_container : selector := [SClass "container"].

Definition processing_html : html :=
  [HElem "span" [("class", "loading-spinner")] []; HText " Processing..."].

Definition submit_fallback_delay : N := 30000.
Definition alert_hide_delay : N := 5000.

Definition confirm_message : string :=
  "Are you sure you want to delete this item? This action cannot be undone.".

Definition indent (n : nat) : string := nl +:+ sconcat (replicate n " ").

Definition loading_html : html :=
  [HText (indent 8);
   HElem "div" [("class", "d-flex justify-content-center align-items-center");
                ("style", "height: 200px;")]
     [HText (indent 12);
      HElem "div" [("class", "text-center")]
        [HText (indent 16);
         HElem "div" [("class", "loading-spinner");
                      ("style", "width: 40px; height: 40px; border-width: 4px;")] [];
         HText (indent 16);
         HElem "p" [("class", "mt-3")] [HText "Processing..."];
         HText (indent 12)];
      HText (indent 8)];
   HText (indent 4)].

(** ** Events, closures and the state of the page *)

Inductive event_type : Type := DOMContentLoaded | Submit | Click.

Inductive target : Type := Document | Element (el : nat).

Record event : Type := Event {
  e_type : event_type;
  e_target : target;
  e_defaultPrevented : bool
}.

(** The three functions that the script registers as event listeners. *)
Inductive listener : Type :=
| OnDOMContentLoaded
| SubmitGuard
| ConfirmDelete.

(** The two arrow functions that the script passes to [setTimeout], with
    the variables they close over. *)
Inductive callback : Type :=
| RestoreButton (submitBtn : nat) (originalText : html)
| HideAlert (alert : nat).

(** The exception that the script can raise: a name that is not defined. *)
Inductive exn : Type := ReferenceError (name : string).

(** What the page shows to the outside: tooltip widgets created, dialogs
    shown with the answer given, clicks dispatched by the script, and
    exceptions that no one caught, which the browser reports. *)
Inductive obs : Type :=
| ObsTooltip (el : nat)
| ObsConfirm (message : string) (answer : bool)
| ObsClick (el : nat) (prevented : bool)
| ObsError (e : exn).

(** [w_bootstrap] tells whether the Bootstrap bundle has been evaluated,
    that is whether the global name [bootstrap] is defined; [w_invalid]
    lists the forms whose fields do not pass validation at the moment. *)
Record world : Type := World {
  w_dom : dom;
  w_loop : loop callback;
  w_listeners : list (target * event_type * listener);
  w_prompts : nat;
  w_log : list obs;
  w_bootstrap : bool;
  w_invalid : list nat
}.

Abbreviation prog := (state world).

#[export] Instance event_type_eq_dec : EqDecision event_type.
Proof. solve_decision. Defined.
#[export] Instance target_eq_dec : EqDecision target.
Proof. solve_decision. Defined.
#[export] Instance listener_eq_dec : EqDecision listener.
Proof. solve_decision. Defined.
#[export] Instance callback_eq_dec : EqDecision callback.
Proof. solve_decision. Defined.
#[export] Instance exn_eq_dec : EqDecision exn.
Proof. solve_decision. Defined.
#[export] Instance obs_eq_dec : EqDecision obs.
Proof. solve_decision. Defined.

Definition with_dom (f : dom → dom) (w : world) : world :=
  {| w_dom := f (w_dom w); w_loop := w_loop w; w_listeners := w_listeners w;
     w_prompts := w_prompts w; w_log := w_log w; w_bootstrap := w_bootstrap w;
     w_invalid := w_invalid w |}.

Definition with_loop (f : loop callback → loop callback) (w : world) : world :=
  {| w_dom := w_dom w; w_loop := f (w_loop w); w_listeners := w_listeners w;
     w_prompts := w_prompts w; w_log := w_log w; w_bootstrap := w_bootstrap w;
     w_invalid := w_invalid w |}.

Definition with_listeners (f : list (target * event_type * listener) →
                               list (target * event_type * listener)) (w : world) : world :=
  {| w_dom := w_dom w; w_loop := w_loop w; w_listeners := f (w_listeners w);
     w_prompts := w_prompts w; w_log := w_log w; w_bootstrap := w_bootstrap w;
     w_invalid := w_invalid w |}.

Definition with_log (o : obs) (w : world) : world :=
  {| w_dom := w_dom w; w_loop := w_loop w; w_listeners := w_listeners w;
     w_prompts := w_prompts w; w_log := w_log w ++ [o];
     w_bootstrap := w_bootstrap w; w_invalid := w_invalid w |}.

(** The page as the server sent it, before any script has run. *)
Definition initial_world (page : html) : world :=
  {| w_dom := load_document page; w_loop := empty_loop; w_listeners := [];
     w_prompts := 0; w_log := []; w_bootstrap := false; w_invalid := [] |}.

(** ** The browser API used by the script *)

Definition js_querySelectorAll (sel : selector) : prog (list nat) :=
  gets (λ w, document_querySelectorAll sel (w_dom w)).

(** [this.querySelector(sel)] for [this] the document or an element. *)
Definition js_querySelector (this : target) (sel : selector) : prog (option nat) :=
  match this with
  | Document => gets (λ w, document_querySelector sel (w_dom w))
  | Element el => gets (λ w, element_querySelector sel el (w_dom w))
  end.

Definition js_get_disabled (el : nat) : prog bool :=
  gets (λ w, get_disabled el (w_dom w)).

Definition js_set_disabled (el : nat) (b : bool) : prog unit :=
  modify (with_dom (set_disabled el b)).

Definition js_get_innerHTML (el : nat) : prog html :=
  gets (λ w, get_innerHTML el (w_dom w)).

Definition js_set_innerHTML (el : nat) (h : html) : prog unit :=
  modify (with_dom (set_innerHTML el h)).

Definition js_setTimeout (cb : callback) (delay : N) : prog nat :=
  λ w, ((setTimeout cb delay (w_loop w)).1,
        with_loop (λ l, (setTimeout cb delay l).2) w).

Definition js_addEventListener (tgt : target) (ty : event_type) (f : listener) : prog unit :=
  modify (with_listeners (λ ls, ls ++ [(tgt, ty, f)])).

(** The Bootstrap bundle, a script of the page that comes before this
    one, defines the global [bootstrap]. *)
Definition load_bootstrap : prog unit :=
  modify (λ w, {| w_dom := w_dom w; w_loop := w_loop w; w_listeners := w_listeners w;
                  w_prompts := w_prompts w; w_log := w_log w; w_bootstrap := true;
                  w_invalid := w_invalid w |}).

(** The user edits the fields of [form]: it passes validation or not. *)
Definition set_validity (form : nat) (ok : bool) : prog unit :=
  modify (λ w, {| w_dom := w_dom w; w_loop := w_loop w; w_listeners := w_listeners w;
                  w_prompts := w_prompts w; w_log := w_log w;
                  w_bootstrap := w_bootstrap w;
                  w_invalid := if ok then filter (λ f, f ≠ form) (w_invalid w)
                               else form :: w_invalid w |}).

(** [new bootstrap.Tooltip(el)]: the widget is identified by its element.
    When the bundle has not been evaluated the name [bootstrap] is not
    defined and the expression throws. *)
Definition js_new_Tooltip (el : nat) : prog (outcome exn nat) :=
  available <- gets w_bootstrap ;;
  if available then modify (with_log (ObsTooltip el)) ;; ret (Normal el)
  else ret (Throw (ReferenceError "bootstrap")).

(** An exception that leaves a listener is reported; the dispatch of the
    event goes on. *)
Definition report {A} (r : outcome exn A) : prog unit :=
  match r with
  | Normal _ => ret tt
  | Throw e => modify (with_log (ObsError e))
  end.

Definition load_event : event := Event DOMContentLoaded Document false.
Definition submit_event (form : nat) : event := Event Submit (Element form) false.
Definition click_event (el : nat) : event := Event Click (Element el) false.

Definition preventDefault (e : event) : event :=
  {| e_type := e_type e; e_target := e_target e; e_defaultPrevented := true |}.

Section Script.
(** The answer of the user to the [n]-th confirmation dialog of the page. *)
Context (user : nat → bool).

Definition js_confirm (message : string) : prog bool :=
  λ w, (user (w_prompts w),
        {| w_dom := w_dom w; w_loop := w_loop w; w_listeners := w_listeners w;
           w_prompts := S (w_prompts w);
           w_log := w_log w ++ [ObsConfirm message (user (w_prompts w))];
           w_bootstrap := w_bootstrap w; w_invalid := w_invalid w |}).

(** ** The script *)

(** Lines 4-7.  An exception of the constructor ends the loop. *)
Definition initTooltips : prog (outcome exn (list nat)) :=
  tooltipTriggerList <- js_querySelectorAll sel_tooltip ;;
  mapE js_new_Tooltip tooltipTriggerList.

(** Lines 20-23: the fallback. *)
Definition restoreButton (submitBtn : nat) (originalText : html) : prog unit :=
  js_set_innerHTML submitBtn originalText ;;
  js_set_disabled submitBtn false.

(** Lines 12-25: the [submit] listener of a form. *)
Definition submitListener (this : target) (e : event) : prog event :=
  submitBtn <- js_querySelector this sel_submit ;;
  match submitBtn with
  | Some submitBtn =>
      disabled <- js_get_disabled submitBtn ;;
      if negb disabled then
        originalText <- js_get_innerHTML submitBtn ;;
        js_set_innerHTML submitBtn processing_html ;;
        js_set_disabled submitBtn true ;;
        js_setTimeout (RestoreButton submitBtn originalText) submit_fallback_delay ;;
        ret e
      else ret e
  | None => ret e
  end.

(** Lines 10-26. *)
Definition bindForms : prog unit :=
  forms <- js_querySelectorAll sel_form ;;
  forEach forms (λ form, js_addEventListener (Element form) Submit SubmitGuard).

(** Lines 29-35. *)
Definition bindAlerts : prog unit :=
  alerts <- js_querySelectorAll sel_alert ;;
  forEach alerts (λ alert, js_setTimeout (HideAlert alert) alert_hide_delay ;; ret tt).

(** Lines 40-44: the [click] listener of a delete button. *)
Definition confirmListener (e : event) : prog event :=
  ok <- js_confirm confirm_message ;;
  if negb ok then ret (preventDefault e) else ret e.

(** Lines 38-45. *)
Definition bindDeleteButtons : prog unit :=
  deleteButtons <- js_querySelectorAll sel_delete ;;
  forEach deleteButtons (λ btn, js_addEventListener (Element btn) Click ConfirmDelete).

(** Lines 2-46: the body of the [DOMContentLoaded] listener.  The
    statements after the tooltips run only if creating them did not throw. *)
Definition onDOMContentLoaded : prog (outcome exn unit) :=
  tooltipList <-? initTooltips ;;
  lift (bindForms ;;
        bindAlerts ;;
        bindDeleteButtons).

(** Line 2: what running the script file does. *)
Definition main : prog unit :=
  js_addEventListener Document DOMContentLoaded OnDOMContentLoaded.

(** Lines 49-63. *)
Definition showLoading : prog unit :=
  container <- js_querySelector Document sel_container ;;
  match container with
  | Some container => js_set_innerHTML container loading_html
  | None => ret tt
  end.

(** ** Event dispatch *)

Definition run_listener (f : listener) (this : target) (e : event) : prog event :=
  match f with
  | OnDOMContentLoaded => r <- onDOMContentLoaded ;; report r ;; ret e
  | SubmitGuard => submitListener this e
  | ConfirmDelete => confirmListener e
  end.

(** The listeners registered on [tgt] for [ty], in registration order. *)
Definition listeners_for (tgt : target) (ty : event_type) (w : world) : list listener :=
  snd <$> filter (λ r, r.1 = (tgt, ty)) (w_listeners w).

(** Invoke the listeners of one target of the path. *)
Definition invoke (e : event) (this : target) : prog event :=
  fs <- gets (listeners_for this (e_type e)) ;;
  foldM (λ e f, run_listener f this e) e fs.

(** The target, its ancestors, and the document if the target is in it. *)
Definition propagation_path (tgt : target) (w : world) : list target :=
  match tgt with
  | Document => [Document]
  | Element el =>
      (Element <$> event_path el (w_dom w)) ++
      (if attached el (w_dom w) then [Document] else [])
  end.

(** Dispatch [e]: the path is fixed first, then the listeners of each
    target run in turn.  The result tells whether the event was cancelled. *)
Definition dispatch (e : event) : prog event :=
  path <- gets (propagation_path (e_target e)) ;;
  foldM invoke e path.

(** Elements that can be disabled; a disabled one receives no click. *)
Definition is_form_control (tag : string) : bool :=
  bool_decide (tag ∈ ["button"; "fieldset"; "input"; "optgroup"; "option";
                      "select"; "textarea"]).

Definition click_blocked (el : nat) (w : world) : bool :=
  is_form_control (tag_of el (w_dom w)) && get_disabled el (w_dom w).

(** ** The default action of a click

    A click that no listener cancelled activates the nearest element
    around the target that has an activation behaviour.  The one
    activation that reaches this script is that of a submit button: it
    submits the form that owns the button, which fires [submit] at the
    form if the form is in the document and its fields are valid. *)

Definition has_activation (tag : string) : bool :=
  bool_decide (tag ∈ ["a"; "area"; "button"; "input"; "label"; "summary"]).

(** A [button] is a submit button unless its [type] says otherwise. *)
Definition is_submit_button (tag : string) (a : attrs) : bool :=
  if bool_decide (tag = "button") then
    negb (bool_decide (attr_get "type" a ∈ [Some "button"; Some "reset"]))
  else if bool_decide (tag = "input") then
    bool_decide (attr_get "type" a ∈ [Some "submit"; Some "image"])
  else false.

Definition activation_target (el : nat) (d : dom) : option nat :=
  head (filter (λ x, has_activation (tag_of x d) = true) (event_path el d)).

(** The form that owns [el]: the nearest [form] around it. *)
Definition form_owner (el : nat) (d : dom) : option nat :=
  head (filter (λ x, tag_of x d = "form") (event_path el d)).

(** The form that activating [btn] submits, if any. *)
Definition submitted_by (btn : nat) (w : world) : option nat :=
  let d := w_dom w in
  if is_submit_button (tag_of btn d) (attrs_of btn d) && negb (get_disabled btn d) then
    match form_owner btn d with
    | Some form =>
        if attached form d && negb (bool_decide (form ∈ w_invalid w)) then Some form
        else None
    | None => None
    end
  else None.

Definition activate (tgt : option nat) : prog unit :=
  match tgt with
  | Some btn =>
      form <- gets (submitted_by btn) ;;
      match form with
      | Some form => dispatch (submit_event form) ;; ret tt
      | None => ret tt
      end
  | None => ret tt
  end.

(** Fire [click] at [el], then run the default action unless a listener
    cancelled the event.  The activation target is fixed with the path,
    before the listeners run. *)
Definition fire_click (el : nat) : prog event :=
  tgt <- gets (λ w, activation_target el (w_dom w)) ;;
  e <- dispatch (click_event el) ;;
  (if e_defaultPrevented e then ret tt else activate tgt) ;;
  ret e.

(** [el.click()]. *)
Definition js_click (el : nat) : prog unit :=
  blocked <- gets (click_blocked el) ;;
  if blocked then ret tt
  else
    e <- fire_click el ;;
    modify (with_log (ObsClick el (e_defaultPrevented e))).

(** Lines 31-34: the callback that closes an alert. *)
Definition hideAlert (alert : nat) : prog unit :=
  closeBtn <- js_querySelector (Element alert) sel_close ;;
  match closeBtn with
  | Some closeBtn => js_click closeBtn
  | None => ret tt
  end.

(** ** Timers *)

Definition run_callback (cb : callback) : prog unit :=
  match cb with
  | RestoreButton submitBtn originalText => restoreButton submitBtn originalText
  | HideAlert alert => hideAlert alert
  end.

(** Fire the next timer, if there is one. *)
Definition run_timer : prog bool :=
  l <- gets w_loop ;;
  match take_timer l with
  | Some (t, l') => modify (with_loop (λ _, l')) ;; run_callback (t_cb t) ;; ret true
  | None => ret false
  end.

End Script.

(** ** The literals are those of the source *)

Example show_sel_tooltip :
  show_selector sel_tooltip = "[data-bs-toggle=" +:+ dq +:+ "tooltip" +:+ dq +:+ "]".
Proof. reflexivity. Qed.

Example show_sel_form : show_selector sel_form = "form".
Proof. reflexivity. Qed.

Example show_sel_submit :
  show_selector sel_submit = "button[type=" +:+ dq +:+ "submit" +:+ dq +:+ "]".
Proof. reflexivity. Qed.

Example show_sel_alert : show_selector sel_alert = ".alert".
Proof. reflexivity. Qed.

Example show_sel_close : show_selector sel_close = ".btn-close".
Proof. reflexivity. Qed.

Example show_sel_delete :
  show_selector sel_delete = ".btn-danger[data-action=" +:+ dq +:+ "delete" +:+ dq +:+ "]".
Proof. reflexivity. Qed.

Example show_sel_container : show_selector sel_container = ".container".
Proof. reflexivity. Qed.

Example render_processing_html :
  render processing_html =
  "<span class=" +:+ dq +:+ "loading-spinner" +:+ dq +:+ "></span> Processing...".
Proof. reflexivity. Qed.

Example render_loading_html :
  render loading_html =
  nl +:+ "        <div class=" +:+ dq +:+ "d-flex justify-content-center align-items-center"
     +:+ dq +:+ " style=" +:+ dq +:+ "height: 200px;" +:+ dq +:+ ">" +:+
  nl +:+ "            <div class=" +:+ dq +:+ "text-center" +:+ dq +:+ ">" +:+
  nl +:+ "                <div class=" +:+ dq +:+ "loading-spinner" +:+ dq +:+ " style=" +:+ dq
     +:+ "width: 40px; height: 40px; border-width: 4px;" +:+ dq +:+ "></div>" +:+
  nl +:+ "                <p class=" +:+ dq +:+ "mt-3" +:+ dq +:+ ">Processing...</p>" +:+
  nl +:+ "            </div>" +:+
  nl +:+ "        </div>" +:+
  nl +:+ "    ".
Proof. reflexivity. Qed.
