(* ===== verification/Samples.v ===== *)
(** * Sample pages

    [sample_page] is a page of the application, as the server renders it,
    on which the theorems are tried: an alert with a close button, a form
    with a submit button that is also a tooltip trigger, and a form whose
    submit button is a delete button.  The identities are those that
    [load_document] gives: [html] 0, [body] 1, the container 2, the alert
    3, its close button 4, the first form 5, its input 6, its button 7,
    the second form 8, its button 9, a third form 10 whose button 11 has
    no [type].  [icon_page] is a form whose submit button holds an icon
    with a tooltip. *)

From Stdlib Require Import Ascii String.
From stdpp Require Import base strings option numbers list.
From S2P Require Import Prelude Html Selector Dom EventLoop Page.

Local Open Scope string_scope.
Local Open Scope list_scope.

Definition sample_page : html :=
  [HElem "html" []
    [HElem "body" []
      [HElem "div" [("class", "container")]
        [HElem "div" [("class", "alert alert-success")]
           [HText "Saved.";
            HElem "button" [("type", "button"); ("class", "btn-close")] []];
         HElem "form" [("method", "post")]
           [HElem "input" [("name", "title")] [];
            HElem "button" [("type", "submit"); ("class", "btn btn-primary");
                            ("data-bs-toggle", "tooltip")]
              [HText "Save"]];
         HElem "form" [("method", "post")]
           [HElem "button" [("type", "submit"); ("class", "btn btn-danger");
                            ("data-action", "delete")]
              [HText "Delete"]];
         HElem "form" [("method", "get")]
           [HElem "button" [("class", "btn")] [HText "Search"]]]]]].

(** The page before the script (with the Bootstrap bundle evaluated),
    after the script file has run and after [DOMContentLoaded]. *)
Definition sample_world : world := exec load_bootstrap (initial_world sample_page).

Definition sample_loaded : world :=
  exec (main ;; dispatch (λ _, true) (Event DOMContentLoaded Document false)) sample_world.

(** The loaded page after a submit of the first form. *)
Definition sample_submitted : world :=
  exec (dispatch (λ _, true) (Event Submit (Element 5) false)) sample_loaded.

(** A form whose submit button holds an icon with a tooltip: the form is
    0, the button 1, the icon 2. *)
Definition icon_page : html :=
  [HElem "form" [("method", "post")]
     [HElem "button" [("type", "submit")]
        [HElem "i" [("class", "bi bi-save"); ("data-bs-toggle", "tooltip");
                    ("title", "Save the timetable")] [];
         HText " Save"]]].

Definition icon_loaded : world :=
  exec (load_bootstrap ;; main ;;
        dispatch (λ _, true) (Event DOMContentLoaded Document false))
    (initial_world icon_page).

(** A user who declines every confirmation, and one who accepts. *)
Definition decliner : nat → bool := λ _, false.
Definition accepter : nat → bool := λ _, true.

Example sample_forms : document_querySelectorAll sel_form (w_dom sample_world) = [5; 8; 10].
Proof. reflexivity. Qed.

Example sample_listeners :
  w_listeners sample_loaded =
  [(Document, DOMContentLoaded, OnDOMContentLoaded);
   (Element 5, Submit, SubmitGuard); (Element 8, Submit, SubmitGuard);
   (Element 10, Submit, SubmitGuard);
   (Element 9, Click, ConfirmDelete)].
Proof. reflexivity. Qed.

Example sample_timers :
  l_timers (w_loop sample_loaded) = [Timer 0 5000 (HideAlert 3)].
Proof. reflexivity. Qed.

Example sample_tooltips : w_log sample_loaded = [ObsTooltip 7].
Proof. reflexivity. Qed.
