(* ===== verification/Guard.v ===== *)
(** * The submit guard

    Theorems on the [submit] listener of a form ([submitListener], lines
    12-25 of the script) and on its fallback ([restoreButton], lines
    20-23): the effect of one submit on each branch and what it leaves
    alone ([Subtree.changes_only]), that the listener never cancels the
    submission, that the fallback restores the content
    and the markup of the page but not the nodes themselves, and that the
    timer fires the fallback 30000 ms after the submit. *)

From Stdlib Require Import Ascii String.
From stdpp Require Import base strings option numbers list.
From S2P Require Import Prelude Html Selector Dom DomFacts Queries Subtree.
From S2P Require Import EventLoop Page Samples.

Local Open Scope string_scope.
Local Open Scope list_scope.

(** What the guard does to the page when it fires for the button [b]. *)
Definition guard_effect (b : nat) (w : world) : world :=
  with_loop
    (λ l, (setTimeout (RestoreButton b (get_innerHTML b (w_dom w)))
             submit_fallback_delay l).2)
    (with_dom (λ d, set_disabled b true (set_innerHTML b processing_html d)) w).

(** What the fallback does. *)
Definition restore_effect (b : nat) (h : html) (w : world) : world :=
  with_dom (λ d, set_disabled b false (set_innerHTML b h d)) w.

(** The button that a submit of [this] would guard. *)
Definition submit_button (this : target) (w : world) : option nat :=
  eval (js_querySelector this sel_submit) w.

Section Guard.
Implicit Types (w : world) (b : nat) (e : event) (this : target).

Lemma submitListener_run this e w :
  submitListener this e w =
  match submit_button this w with
  | Some b => if get_disabled b (w_dom w) then (e, w) else (e, guard_effect b w)
  | None => (e, w)
  end.
Proof.
  unfold submitListener, submit_button, eval, bind.
  destruct ((js_querySelector this sel_submit) w) as [[b|] w1] eqn:Hq;
    assert (w1 = w) as -> by (destruct this; by inversion Hq); simpl; [|done].
  unfold js_get_disabled, gets; simpl. by destruct (get_disabled b (w_dom w)).
Qed.

Lemma restoreButton_run b h w : restoreButton b h w = (tt, restore_effect b h w).
Proof. reflexivity. Qed.

Lemma submit_button_lookup this w b :
  submit_button this w = Some b → is_Some (lookup b (w_dom w)).
Proof.
  destruct this; simpl.
  - apply document_querySelector_lookup.
  - apply element_querySelector_lookup.
Qed.

(** C1. A submit event on a form whose first [button[type="submit"]] is
    enabled: the listener returns the event as it got it, the button is
    disabled, its content is the "Processing..." markup, and one timer is
    added, due 30000 ms from now, that carries the button and the content
    it had.  Nothing else changes: listeners, dialog count, log, the
    bundle, the validity of the fields and the clock are untouched, and
    in the document only the button was written ([changes_only]): it
    got the attribute [disabled] and lost its children, every other
    element has its tag and attributes, and the elements that do not
    contain the button have their content. *)
Theorem submitListener_guards this e w b :
  submit_button this w = Some b →
  get_disabled b (w_dom w) = false →
  let w' := exec (submitListener this e) w in
  eval (submitListener this e) w = e ∧
  get_disabled b (w_dom w') = true ∧
  get_innerHTML b (w_dom w') = processing_html ∧
  l_timers (w_loop w') =
    l_timers (w_loop w) ++
    [Timer (l_next (w_loop w)) (l_now (w_loop w) + 30000)
       (RestoreButton b (get_innerHTML b (w_dom w)))] ∧
  w_listeners w' = w_listeners w ∧ w_prompts w' = w_prompts w ∧ w_log w' = w_log w ∧
  w_bootstrap w' = w_bootstrap w ∧ w_invalid w' = w_invalid w ∧
  l_now (w_loop w') = l_now (w_loop w) ∧
  (wf_dom (w_dom w) →
   changes_only b (w_dom w) (w_dom w') ∧
   attrs_of b (w_dom w') = attr_set "disabled" "" (attrs_of b (w_dom w))).
Proof.
  intros Hb Hd. pose proof (submit_button_lookup _ _ _ Hb) as Hl.
  unfold exec, eval. rewrite submitListener_run, Hb, Hd; simpl.
  split_and!; try done.
  - apply get_disabled_set_disabled. by apply lookup_set_innerHTML_is_Some.
  - rewrite get_innerHTML_set_disabled. by apply get_innerHTML_set_innerHTML.
  - intros Hwf. split; [by apply changes_only_write|]. unfold set_disabled.
    rewrite attrs_of_alter_dom by (by apply lookup_set_innerHTML_is_Some).
    by rewrite attrs_of_set_innerHTML.
Qed.

(** The guard changes the page: it sets a timer. *)
Lemma guard_effect_changes b w : guard_effect b w ≠ w.
Proof.
  intros H. apply (f_equal (λ w', length (l_timers (w_loop w')))) in H. simpl in H.
  rewrite length_app in H. simpl in H. lia.
Qed.

(** C9. When the guard does nothing.  The submit listener leaves the page
    exactly as it is if and only if no descendant of the form matches
    [button[type="submit"]] or the first one that does is disabled: a
    submit while the guard is on schedules no second timer and does not
    touch the content, and a form without such a button gets no loading
    state. *)
Theorem submitListener_skips this e w :
  submitListener this e w = (e, w) ↔
  ∀ b, submit_button this w = Some b → get_disabled b (w_dom w) = true.
Proof.
  rewrite submitListener_run. destruct (submit_button this w) as [b|]; [|done].
  destruct (get_disabled b (w_dom w)) eqn:Hd; [by split; [intros _ ? [= <-]|]|].
  split; [intros [= H]; by apply guard_effect_changes in H|].
  intros H. specialize (H b eq_refl). congruence.
Qed.

(** C26. The submit listener never cancels the event: whatever the page,
    the event comes back with the flag it had, so the submission goes
    on; and the page is as it was or the first submit button of the form
    has been guarded, nothing else. *)
Theorem submitListener_never_cancels this e w :
  eval (submitListener this e) w = e ∧
  (exec (submitListener this e) w = w ∨
   ∃ b, submit_button this w = Some b ∧ get_disabled b (w_dom w) = false ∧
        exec (submitListener this e) w = guard_effect b w).
Proof.
  unfold eval, exec. rewrite submitListener_run.
  destruct (submit_button this w) as [b|]; [|by split; [|left]].
  destruct (get_disabled b (w_dom w)) eqn:Hd; (split; [done|]); [by left|right; eauto].
Qed.

(** What the page reads for [b] after the guard and then its fallback. *)
Lemma guard_restore_reads b w :
  is_Some (lookup b (w_dom w)) →
  let d := w_dom (restore_effect b (get_innerHTML b (w_dom w)) (guard_effect b w)) in
  get_disabled b d = false ∧ get_innerHTML b d = get_innerHTML b (w_dom w).
Proof.
  intros Hl; simpl.
  assert (is_Some (lookup b (set_disabled b true (set_innerHTML b processing_html (w_dom w))))).
  { apply lookup_set_disabled_is_Some. by apply lookup_set_innerHTML_is_Some. }
  split.
  - apply get_disabled_set_disabled. by apply lookup_set_innerHTML_is_Some.
  - rewrite get_innerHTML_set_disabled. by apply get_innerHTML_set_innerHTML.
Qed.

(** C11. The fallback undoes the guard: after the guard fired for [b] and
    the callback it scheduled has run, the button is enabled and its
    content reads as it did before the submit. *)
Theorem restore_after_guard this e w b :
  submit_button this w = Some b →
  get_disabled b (w_dom w) = false →
  let original := get_innerHTML b (w_dom w) in
  let w' := exec (submitListener this e) w in
  let w'' := exec (restoreButton b original) w' in
  get_disabled b (w_dom w'') = false ∧ get_innerHTML b (w_dom w'') = original.
Proof.
  intros Hb Hd. pose proof (submit_button_lookup _ _ _ Hb) as Hl.
  unfold exec. rewrite submitListener_run, Hb, Hd; simpl.
  by apply guard_restore_reads.
Qed.

(** C12. With unique identities, the guard followed by its fallback leaves
    the markup of the whole document exactly as it was before the submit. *)
Theorem restore_markup this e w b :
  wf_dom (w_dom w) →
  submit_button this w = Some b →
  get_disabled b (w_dom w) = false →
  let w' := exec (submitListener this e) w in
  let w'' := exec (restoreButton b (get_innerHTML b (w_dom w))) w' in
  serialize (d_doc (w_dom w'')) = serialize (d_doc (w_dom w)).
Proof.
  intros Hwf Hb Hd. pose proof (submit_button_lookup _ _ _ Hb) as Hl.
  unfold exec. rewrite submitListener_run, Hb, Hd; simpl.
  by apply serialize_guard_restore.
Qed.

(** C20. The restored content is made of new nodes: the elements that were
    inside the button when the guard fired are out of the document from
    then on, also after the fallback has put the same markup back.  What
    was bound to them (a tooltip, a listener) is gone. *)
Theorem guard_detaches_content this e w b x :
  wf_dom (w_dom w) →
  submit_button this w = Some b →
  get_disabled b (w_dom w) = false →
  x ∈ forest_ids (kids_of b (w_dom w)) →
  let w' := exec (submitListener this e) w in
  let w'' := exec (restoreButton b (get_innerHTML b (w_dom w))) w' in
  attached x (w_dom w') = false ∧ attached x (w_dom w'') = false.
Proof.
  intros Hwf Hb Hd Hx. unfold exec. rewrite submitListener_run, Hb, Hd; simpl.
  assert (attached x (set_disabled b true (set_innerHTML b processing_html (w_dom w)))
          = false) as H1.
  { rewrite attached_set_disabled. by apply set_innerHTML_detaches. }
  split; [done|]. rewrite attached_set_disabled.
  apply detached_set_innerHTML; [by apply wf_set_disabled, wf_set_innerHTML| |done].
  pose proof (d_next_set_innerHTML b processing_html (w_dom w)).
  apply kids_of_ids, lookup_is_Some, (lookup_lt _ _ Hwf) in Hx.
  rewrite d_next_set_disabled. lia.
Qed.

(** C21. The fallback of a button that has left the document is harmless:
    when the button is no longer in the document (another script
    replaced the content around it, as [showLoading] does), the fallback
    computes [restore_effect], which leaves the document as it is, node
    for node; it sets no timer, adds no listener, and the button that it
    re-enables stays out of the document. *)
Theorem restore_detached b h w :
  attached b (w_dom w) = false →
  let w' := exec (restoreButton b h) w in
  w' = restore_effect b h w ∧
  d_doc (w_dom w') = d_doc (w_dom w) ∧ attached b (w_dom w') = false ∧
  w_loop w' = w_loop w ∧ w_listeners w' = w_listeners w ∧ w_log w' = w_log w.
Proof.
  intros Hb. unfold exec. rewrite restoreButton_run. split; [done|]. unfold restore_effect.
  cbn [snd with_dom w_dom w_loop w_listeners w_log].
  assert (d_doc (set_innerHTML b h (w_dom w)) = d_doc (w_dom w)) as E
    by by apply doc_set_innerHTML_detached.
  assert (attached b (set_innerHTML b h (w_dom w)) = false) as Hb'
    by (unfold attached in *; by rewrite E).
  split_and!; try done.
  - by rewrite doc_set_disabled_detached.
  - by rewrite attached_set_disabled.
Qed.

End Guard.

Section Fallback.
Context (user : nat → bool).
Implicit Types (w : world) (b : nat) (e : event) (this : target).

Lemma run_timer_run w :
  run_timer user w =
  match take_timer (w_loop w) with
  | Some (t, l') => (true, exec (run_callback user (t_cb t)) (with_loop (λ _, l') w))
  | None => (false, w)
  end.
Proof.
  unfold run_timer, bind, gets; simpl.
  by destruct (take_timer (w_loop w)) as [[t l']|].
Qed.

(** C13. The fallback fires 30000 ms after the submit: from a page with no
    pending timer, a guarded submit followed by the next timer leaves the
    clock 30000 ms later, no timer pending, the button enabled and its
    content as it was. *)
Theorem fallback_fires this e w b :
  submit_button this w = Some b →
  get_disabled b (w_dom w) = false →
  l_timers (w_loop w) = [] →
  let w' := exec (submitListener this e) w in
  let w'' := exec (run_timer user) w' in
  eval (run_timer user) w' = true ∧
  l_now (w_loop w'') = (l_now (w_loop w) + 30000)%N ∧
  l_timers (w_loop w'') = [] ∧
  get_disabled b (w_dom w'') = false ∧
  get_innerHTML b (w_dom w'') = get_innerHTML b (w_dom w).
Proof.
  intros Hb Hd Ht.
  pose proof (guard_restore_reads b w (submit_button_lookup _ _ _ Hb)) as Hr.
  revert Hr. unfold exec, eval. rewrite run_timer_run, submitListener_run, Hb, Hd; simpl.
  unfold take_timer, next_timer; simpl. rewrite Ht; simpl.
  intros [H1 H2]. split_and!; try done; [unfold submit_fallback_delay; lia|].
  unfold remove_timer. by rewrite filter_cons_False by (simpl; tauto).
Qed.

End Fallback.

(** ** The theorems on the sample page *)

Definition sample_submit : event := Event Submit (Element 5) false.

Lemma submitListener_guards_witness :
  submit_button (Element 5) sample_loaded = Some 7 ∧
  get_disabled 7 (w_dom sample_loaded) = false ∧
  get_disabled 7 (w_dom (exec (submitListener (Element 5) sample_submit) sample_loaded))
    = true.
Proof.
  split; [reflexivity|]. split; [reflexivity|].
  apply (submitListener_guards (Element 5) sample_submit sample_loaded 7); reflexivity.
Defined.

(** A second submit of the first form of the sample page, and a submit
    of its third form, which has no submit button. *)
Example sample_second_submit :
  submit_button (Element 5) sample_submitted = Some 7 ∧
  get_disabled 7 (w_dom sample_submitted) = true ∧
  submitListener (Element 5) sample_submit sample_submitted =
    (sample_submit, sample_submitted).
Proof. vm_compute. done. Qed.

Example sample_no_button :
  submit_button (Element 10) sample_loaded = None ∧
  submitListener (Element 10) (Event Submit (Element 10) false) sample_loaded =
    (Event Submit (Element 10) false, sample_loaded).
Proof. vm_compute. done. Qed.

Lemma restore_after_guard_witness :
  submit_button (Element 5) sample_loaded = Some 7 ∧
  get_disabled 7 (w_dom sample_loaded) = false ∧
  get_innerHTML 7
    (w_dom (exec (restoreButton 7 [HText "Save"])
              (exec (submitListener (Element 5) sample_submit) sample_loaded)))
    = [HText "Save"].
Proof.
  split; [reflexivity|]. split; [reflexivity|].
  apply (restore_after_guard (Element 5) sample_submit sample_loaded 7); reflexivity.
Defined.

Lemma restore_markup_witness :
  wf_dom (w_dom sample_loaded) ∧
  serialize (d_doc (w_dom (exec (restoreButton 7 [HText "Save"])
              (exec (submitListener (Element 5) sample_submit) sample_loaded))))
    = sample_page.
Proof.
  assert (wf_dom (w_dom sample_loaded)) as Hwf by apply (wf_load_document sample_page).
  split; [exact Hwf|].
  apply (restore_markup (Element 5) sample_submit sample_loaded 7 Hwf); reflexivity.
Defined.

Lemma guard_detaches_content_witness :
  2 ∈ forest_ids (kids_of 1 (w_dom icon_loaded)) ∧
  attached 2 (w_dom icon_loaded) = true ∧
  attached 2
    (w_dom (exec (restoreButton 1 (get_innerHTML 1 (w_dom icon_loaded)))
              (exec (submitListener (Element 0) (Event Submit (Element 0) false))
                 icon_loaded))) = false.
Proof.
  assert (2 ∈ forest_ids (kids_of 1 (w_dom icon_loaded))) as Hx
    by (apply (bool_decide_unpack _); vm_compute; exact I).
  split; [exact Hx|]. split; [vm_compute; reflexivity|].
  apply (guard_detaches_content (Element 0) (Event Submit (Element 0) false) icon_loaded 1 2
           (wf_load_document icon_page) eq_refl eq_refl Hx).
Defined.

Lemma fallback_fires_witness :
  l_timers (w_loop sample_world) = [] ∧
  get_innerHTML 7
    (w_dom (exec (run_timer accepter)
              (exec (submitListener (Element 5) sample_submit) sample_world)))
    = [HText "Save"].
Proof.
  split; [reflexivity|].
  apply (fallback_fires accepter (Element 5) sample_submit sample_world 7); reflexivity.
Defined.

(** The sample page after the submit and a call of [showLoading]: the
    button 7 is out of the document, and its fallback leaves the spinner
    where it is. *)
Lemma restore_detached_witness :
  let w := exec showLoading sample_submitted in
  attached 7 (w_dom w) = false ∧
  serialize (d_doc (w_dom (exec (restoreButton 7 [HText "Save"]) w))) =
  serialize (d_doc (w_dom w)).
Proof.
  assert (attached 7 (w_dom (exec showLoading sample_submitted)) = false) as H
    by (vm_compute; reflexivity).
  split; [exact H|].
  by destruct (restore_detached 7 [HText "Save"] (exec showLoading sample_submitted) H)
    as (_ & -> & _).
Defined.
