(* ===== verification/Bindings.v ===== *)
(** * Initialisation and the other bindings

    Theorems on the body of the [DOMContentLoaded] listener (lines 2-46):
    one tooltip per trigger, one [submit] listener per form, one timer per
    alert, one [click] listener per delete button, all computed on the
    document as it is at that moment and leaving it unchanged; that the
    listener does none of this when the first tooltip cannot be created;
    on the delete confirmation (lines 40-44) and the alert callback
    (lines 31-34); what [showLoading] (lines 49-63) computes
    ([showLoading_run]; its theorems are in [Loading]). *)

From Stdlib Require Import Ascii String.
From stdpp Require Import base strings option numbers list.
From S2P Require Import Prelude Html Selector Dom DomFacts EventLoop Page Samples Guard.

Local Open Scope string_scope.
Local Open Scope list_scope.

(** ** The effects of the four loops *)

Definition add_logs (os : list obs) (w : world) : world :=
  {| w_dom := w_dom w; w_loop := w_loop w; w_listeners := w_listeners w;
     w_prompts := w_prompts w; w_log := w_log w ++ os;
     w_bootstrap := w_bootstrap w; w_invalid := w_invalid w |}.

Definition add_listeners (rs : list (target * event_type * listener)) (w : world) : world :=
  with_listeners (λ ls, ls ++ rs) w.

(** The queue after [setTimeout(cb, delay)] for each [cb] of a list. *)
Definition schedule_all (cbs : list callback) (delay : N) (l : loop callback) : loop callback :=
  foldl (λ l cb, (setTimeout cb delay l).2) l cbs.

(** The page after one confirmation dialog. *)
Definition asked (user : nat → bool) (message : string) (w : world) : world :=
  {| w_dom := w_dom w; w_loop := w_loop w; w_listeners := w_listeners w;
     w_prompts := S (w_prompts w);
     w_log := w_log w ++ [ObsConfirm message (user (w_prompts w))];
     w_bootstrap := w_bootstrap w; w_invalid := w_invalid w |}.

(** The clicks that the script has made so far. *)
Definition is_click (o : obs) : bool :=
  match o with ObsClick _ _ => true | _ => false end.

Definition clicks (w : world) : list obs := filter is_click (w_log w).

(** The page after the default action of a click whose activation target
    is [tgt]. *)
Definition activated (user : nat → bool) (tgt : option nat) (w : world) : world :=
  match tgt ≫= (λ btn, submitted_by btn w) with
  | Some form => exec (dispatch user (submit_event form)) w
  | None => w
  end.

Definition is_dialog (o : obs) : bool :=
  match o with ObsConfirm _ _ => true | _ => false end.

Definition submit_binding (form : nat) : target * event_type * listener :=
  (Element form, Submit, SubmitGuard).

Definition delete_binding (btn : nat) : target * event_type * listener :=
  (Element btn, Click, ConfirmDelete).

(** The page after the [DOMContentLoaded] listener has run on [w]. *)
Definition loaded (w : world) : world :=
  let d := w_dom w in
  {| w_dom := d;
     w_loop := schedule_all (HideAlert <$> document_querySelectorAll sel_alert d)
                 alert_hide_delay (w_loop w);
     w_listeners := w_listeners w
       ++ (submit_binding <$> document_querySelectorAll sel_form d)
       ++ (delete_binding <$> document_querySelectorAll sel_delete d);
     w_prompts := w_prompts w;
     w_log := w_log w ++ (ObsTooltip <$> document_querySelectorAll sel_tooltip d);
     w_bootstrap := w_bootstrap w; w_invalid := w_invalid w |}.

(** Whether the tooltips can be created: the library is there, or there is
    no trigger and the constructor is never reached. *)
Definition tooltips_possible (w : world) : bool :=
  w_bootstrap w || bool_decide (document_querySelectorAll sel_tooltip (w_dom w) = []).

Definition no_bootstrap : exn := ReferenceError "bootstrap".

(** The page after the browser has called the [DOMContentLoaded] listener
    and reported the exception, if there was one. *)
Definition after_load (w : world) : world :=
  if tooltips_possible w then loaded w else with_log (ObsError no_bootstrap) w.

Section Loops.
Implicit Types (w : world) (l : loop callback).

Lemma world_eq w1 w2 :
  w_dom w1 = w_dom w2 → w_loop w1 = w_loop w2 → w_listeners w1 = w_listeners w2 →
  w_prompts w1 = w_prompts w2 → w_log w1 = w_log w2 → w_bootstrap w1 = w_bootstrap w2 →
  w_invalid w1 = w_invalid w2 → w1 = w2.
Proof. destruct w1, w2; simpl; congruence. Qed.

Lemma add_logs_nil w : add_logs [] w = w.
Proof. apply world_eq; simpl; try done. by rewrite app_nil_r. Qed.

Lemma js_new_Tooltip_run el w :
  js_new_Tooltip el w =
  if w_bootstrap w then (Normal el, with_log (ObsTooltip el) w) else (Throw no_bootstrap, w).
Proof. unfold js_new_Tooltip, bind, gets; simpl. by destruct (w_bootstrap w). Qed.

Lemma mapE_new_Tooltip (els : list nat) w :
  w_bootstrap w = true →
  mapE js_new_Tooltip els w = (Normal els, add_logs (ObsTooltip <$> els) w).
Proof.
  revert w; induction els as [|el els IH]; intros w Hw.
  - simpl. unfold ret. by rewrite add_logs_nil.
  - cbn [mapE]. unfold try_bind at 1, bind at 1. rewrite js_new_Tooltip_run, Hw. cbn [fst snd].
    unfold try_bind, bind. rewrite IH by done. simpl. unfold ret. f_equal.
    apply world_eq; simpl; try done. by rewrite <-app_assoc.
Qed.

Lemma forEach_addEventListener {A} (g : A → target * event_type * listener) (xs : list A) w :
  forEach xs (λ x, js_addEventListener (g x).1.1 (g x).1.2 (g x).2) w =
  (tt, add_listeners (g <$> xs) w).
Proof.
  revert w; induction xs as [|x xs IH]; intros w; simpl.
  - unfold ret. f_equal. apply world_eq; simpl; try done. by rewrite app_nil_r.
  - unfold bind; simpl. rewrite IH. f_equal.
    apply world_eq; simpl; try done. rewrite <-app_assoc. simpl.
    by destruct (g x) as [[? ?] ?].
Qed.

Lemma forEach_setTimeout {A} (g : A → callback) (delay : N) (xs : list A) w :
  forEach xs (λ x, js_setTimeout (g x) delay ;; ret tt) w =
  (tt, with_loop (schedule_all (g <$> xs) delay) w).
Proof.
  revert w; induction xs as [|x xs IH]; intros w; simpl.
  - unfold ret. f_equal. by apply world_eq.
  - unfold bind at 1; simpl. by rewrite IH.
Qed.

(** What [schedule_all] leaves in the queue: the timers of before, then
    one per callback in order, with consecutive handles and the same due
    time. *)
Lemma schedule_all_spec (cbs : list callback) delay l :
  l_timers (schedule_all cbs delay l) =
    l_timers l ++ imap (λ k cb, Timer (l_next l + k) (l_now l + delay)%N cb) cbs ∧
  l_next (schedule_all cbs delay l) = l_next l + length cbs ∧
  l_now (schedule_all cbs delay l) = l_now l.
Proof.
  revert l; induction cbs as [|cb cbs IH]; intros l.
  - simpl. by rewrite app_nil_r, Nat.add_0_r.
  - change (schedule_all (cb :: cbs) delay l)
      with (schedule_all cbs delay (setTimeout cb delay l).2).
    destruct (IH (setTimeout cb delay l).2) as (-> & -> & ->); simpl.
    rewrite Nat.add_0_r, <-app_assoc. split_and!; [|lia|done]. simpl. do 2 f_equal.
    apply imap_ext. intros k c _. simpl. f_equal. lia.
Qed.

End Loops.

Section Init.
Implicit Types (w : world).

Lemma initTooltips_run w :
  initTooltips w =
  if tooltips_possible w then
    (Normal (document_querySelectorAll sel_tooltip (w_dom w)),
     add_logs (ObsTooltip <$> document_querySelectorAll sel_tooltip (w_dom w)) w)
  else (Throw no_bootstrap, w).
Proof.
  unfold initTooltips, tooltips_possible, bind, js_querySelectorAll, gets; simpl.
  destruct (w_bootstrap w) eqn:Hw; simpl; [by apply mapE_new_Tooltip|].
  destruct (document_querySelectorAll sel_tooltip (w_dom w)) as [|el els]; simpl.
  - unfold ret. by rewrite add_logs_nil.
  - apply mapE_throw. by rewrite js_new_Tooltip_run, Hw.
Qed.

Lemma bindForms_run w :
  bindForms w =
  (tt, add_listeners (submit_binding <$> document_querySelectorAll sel_form (w_dom w)) w).
Proof.
  unfold bindForms, bind, js_querySelectorAll, gets; simpl.
  apply (forEach_addEventListener submit_binding).
Qed.

Lemma bindAlerts_run w :
  bindAlerts w =
  (tt, with_loop (schedule_all (HideAlert <$> document_querySelectorAll sel_alert (w_dom w))
                    alert_hide_delay) w).
Proof.
  unfold bindAlerts, bind, js_querySelectorAll, gets; simpl.
  apply (forEach_setTimeout HideAlert).
Qed.

Lemma bindDeleteButtons_run w :
  bindDeleteButtons w =
  (tt, add_listeners (delete_binding <$> document_querySelectorAll sel_delete (w_dom w)) w).
Proof.
  unfold bindDeleteButtons, bind, js_querySelectorAll, gets; simpl.
  apply (forEach_addEventListener delete_binding).
Qed.

(** The body of the [DOMContentLoaded] listener computes [loaded]: the
    document is unchanged; the log gains one tooltip per element matching
    [[data-bs-toggle="tooltip"]], the registry one [submit] listener per
    [form] and then one [click] listener per
    [.btn-danger[data-action="delete"]], the queue one timer per [.alert];
    every list is in document order and taken from the document as it is
    when the listener starts.  If the first tooltip cannot be created the
    body throws and has done nothing. *)
Lemma onDOMContentLoaded_run w :
  onDOMContentLoaded w =
  if tooltips_possible w then (Normal tt, loaded w) else (Throw no_bootstrap, w).
Proof.
  unfold onDOMContentLoaded, try_bind, lift, bind.
  rewrite initTooltips_run. destruct (tooltips_possible w); [|done]. cbn [fst snd].
  rewrite bindForms_run; simpl. rewrite bindAlerts_run; simpl.
  rewrite bindDeleteButtons_run; simpl.
  unfold ret. f_equal. apply world_eq; simpl; try done. by rewrite <-app_assoc.
Qed.

Lemma run_load_listener user this e w :
  run_listener user OnDOMContentLoaded this e w = (e, after_load w).
Proof.
  unfold after_load. cbn [run_listener]. unfold bind.
  rewrite onDOMContentLoaded_run. by destruct (tooltips_possible w).
Qed.

(** C35. After initialisation there are as many tooltip widgets as there
    are trigger elements, or none.  When the library is loaded, or the
    page has no trigger, [initTooltips] returns one widget per trigger,
    in document order, and logs one creation for each; otherwise it
    throws the [ReferenceError] at the first trigger and has created
    nothing.  It leaves the document, the timers and the listeners as
    they are. *)
Theorem initTooltips_count w :
  let triggers := document_querySelectorAll sel_tooltip (w_dom w) in
  let w' := exec initTooltips w in
  w_dom w' = w_dom w ∧ w_loop w' = w_loop w ∧ w_listeners w' = w_listeners w ∧
  tooltips_possible w = w_bootstrap w || bool_decide (triggers = []) ∧
  if tooltips_possible w then
    eval initTooltips w = Normal triggers ∧ w_log w' = w_log w ++ (ObsTooltip <$> triggers)
  else eval initTooltips w = Throw (ReferenceError "bootstrap") ∧ w' = w.
Proof.
  unfold eval, exec. rewrite initTooltips_run.
  split_and!; [by destruct (tooltips_possible w)..|done|by destruct (tooltips_possible w)].
Qed.

(** C22. The bindings are not independent: when the tooltips cannot be
    created, that is when the library is not loaded and the page has a
    tooltip trigger, the [DOMContentLoaded] listener stops at the first
    statement.  The browser reports the exception; no
    form gets the guard, no alert gets a timer, no delete button gets the
    confirmation. *)
Theorem load_aborts_without_bootstrap user this e w :
  tooltips_possible w = false →
  let w' := exec (run_listener user OnDOMContentLoaded this e) w in
  w_bootstrap w = false ∧ document_querySelectorAll sel_tooltip (w_dom w) ≠ [] ∧
  w_listeners w' = w_listeners w ∧ w_loop w' = w_loop w ∧ w_dom w' = w_dom w ∧
  w_log w' = w_log w ++ [ObsError no_bootstrap].
Proof.
  intros Hw. unfold exec. rewrite run_load_listener. unfold after_load. rewrite Hw.
  unfold tooltips_possible in Hw. apply orb_false_iff in Hw as [Hb Ht].
  split_and!; try done. by apply bool_decide_eq_false in Ht.
Qed.

(** C36. Every alert present at load gets exactly one timer: the queue
    after [bindAlerts] is the queue of before followed by one
    [HideAlert] timer per alert, in document order, each due 5000 ms from
    now, with consecutive handles; the block is one call of
    [setTimeout] per alert ([schedule_all]) and changes nothing but the
    queue. *)
Theorem bindAlerts_timers w :
  let alerts := document_querySelectorAll sel_alert (w_dom w) in
  let l := w_loop w in
  l_timers (w_loop (exec bindAlerts w)) =
    l_timers l ++ imap (λ k a, Timer (l_next l + k) (l_now l + 5000)%N (HideAlert a)) alerts ∧
  l_next (w_loop (exec bindAlerts w)) = l_next l + length alerts ∧
  l_now (w_loop (exec bindAlerts w)) = l_now l ∧
  exec bindAlerts w = with_loop (schedule_all (HideAlert <$> alerts) alert_hide_delay) w.
Proof.
  unfold exec. rewrite bindAlerts_run; simpl.
  destruct (schedule_all_spec (HideAlert <$> document_querySelectorAll sel_alert (w_dom w))
              alert_hide_delay (w_loop w)) as (-> & -> & ->).
  rewrite length_fmap, imap_fmap. done.
Qed.

(** C37. Every form gets the guard and every delete button the
    confirmation, once each: [bindForms] adds to the registry one
    [SubmitGuard] on [submit] per [form] element of the document, and
    [bindDeleteButtons] one [ConfirmDelete] on [click] per
    [.btn-danger[data-action="delete"]], in document order, behind the
    listeners that were registered before; neither changes the
    document, the timers or the log. *)
Theorem bind_listeners w :
  let forms := document_querySelectorAll sel_form (w_dom w) in
  let buttons := document_querySelectorAll sel_delete (w_dom w) in
  let w1 := exec bindForms w in
  let w2 := exec bindDeleteButtons w in
  w_listeners w1 = w_listeners w ++ (submit_binding <$> forms) ∧
  w_listeners w2 = w_listeners w ++ (delete_binding <$> buttons) ∧
  (∀ form, submit_binding form = (Element form, Submit, SubmitGuard)) ∧
  (∀ btn, delete_binding btn = (Element btn, Click, ConfirmDelete)) ∧
  (w_dom w1, w_loop w1, w_log w1) = (w_dom w, w_loop w, w_log w) ∧
  (w_dom w2, w_loop w2, w_log w2) = (w_dom w, w_loop w, w_log w).
Proof. unfold exec. by rewrite bindForms_run, bindDeleteButtons_run. Qed.

End Init.

Section Confirm.
Context (user : nat → bool).
Implicit Types (w : world) (e : event).

Lemma confirmListener_run e w :
  confirmListener user e w =
  (if user (w_prompts w) then e else preventDefault e, asked user confirm_message w).
Proof.
  unfold confirmListener, bind, js_confirm, asked, ret; simpl.
  by destruct (user (w_prompts w)).
Qed.

(** C31. The delete confirmation: the listener shows one dialog; if the
    user declines, the event comes back cancelled; if the user accepts,
    the event comes back as it was.  The page is as it was but for the
    dialog ([asked]): one more dialog was shown, and the log has the
    message and the answer. *)
Theorem confirmListener_spec e w :
  let answer := user (w_prompts w) in
  eval (confirmListener user e) w = (if answer then e else preventDefault e) ∧
  exec (confirmListener user e) w = asked user confirm_message w ∧
  w_prompts (exec (confirmListener user e) w) = S (w_prompts w) ∧
  w_log (exec (confirmListener user e) w) = w_log w ++ [ObsConfirm confirm_message answer] ∧
  w_dom (exec (confirmListener user e) w) = w_dom w ∧
  w_loop (exec (confirmListener user e) w) = w_loop w ∧
  w_listeners (exec (confirmListener user e) w) = w_listeners w.
Proof. unfold eval, exec. by rewrite confirmListener_run. Qed.

Lemma dispatch_run e w :
  dispatch user e w = foldM (invoke user) e (propagation_path (e_target e) w) w.
Proof. reflexivity. Qed.

Lemma invoke_run e this w :
  invoke user e this w =
  foldM (λ e f, run_listener user f this e) e (listeners_for this (e_type e) w) w.
Proof. reflexivity. Qed.

Lemma invoke_none e this w :
  listeners_for this (e_type e) w = [] → invoke user e this w = (e, w).
Proof. intros H. by rewrite invoke_run, H. Qed.

Lemma foldM_invoke_none e path w :
  Forall (λ t, listeners_for t (e_type e) w = []) path →
  foldM (invoke user) e path w = (e, w).
Proof.
  induction 1 as [|t path Ht _ IH]; [done|]. simpl. unfold bind.
  by rewrite invoke_none.
Qed.

(** An event that nobody listens to changes nothing: if no target of
    the propagation path has a listener for the type of the event,
    [dispatch] returns the event and the page as they were. *)
Lemma dispatch_unheard e w :
  Forall (λ t, listeners_for t (e_type e) w = []) (propagation_path (e_target e) w) →
  dispatch user e w = (e, w).
Proof. intros H. rewrite dispatch_run. by apply foldM_invoke_none. Qed.

(** A click on a delete button whose only listener on the path is
    the confirmation: the event is cancelled exactly when the user
    declines, and exactly one dialog is shown. *)
Lemma click_delete btn rest w :
  propagation_path (Element btn) w = Element btn :: rest →
  listeners_for (Element btn) Click w = [ConfirmDelete] →
  Forall (λ t, listeners_for t Click w = []) rest →
  let e := Event Click (Element btn) false in
  e_defaultPrevented (eval (dispatch user e) w) = negb (user (w_prompts w)) ∧
  w_prompts (exec (dispatch user e) w) = S (w_prompts w) ∧
  w_dom (exec (dispatch user e) w) = w_dom w.
Proof.
  intros Hp Hl Hr. unfold eval, exec. rewrite dispatch_run. cbn [e_target]. rewrite Hp.
  cbn [foldM]. unfold bind. rewrite invoke_run. cbn [e_type]. rewrite Hl.
  cbn [foldM run_listener]. unfold bind. rewrite confirmListener_run. cbn [fst snd ret].
  rewrite foldM_invoke_none; [by destruct (user (w_prompts w))|].
  by destruct (user (w_prompts w)).
Qed.

End Confirm.

Section Alerts.
Context (user : nat → bool).
Implicit Types (w : world) (e : event) (alert c : nat).

Lemma clicks_add_logs os w :
  Forall (λ o, is_click o = false) os → clicks (add_logs os w) = clicks w.
Proof.
  intros H. unfold clicks; simpl. rewrite filter_app, (filter_none _ os), app_nil_r; [done|].
  eapply Forall_impl; [exact H|]. intros o Ho Hc. simpl in Hc. by rewrite Ho in Hc.
Qed.

(** No listener of the script makes a click. *)
Lemma run_listener_clicks cs f this e :
  preserves (λ w, clicks w = cs) (run_listener user f this e).
Proof.
  intros w <-. destruct f; [rewrite run_load_listener|simpl..].
  - unfold after_load. destruct (tooltips_possible w).
    + apply (clicks_add_logs (ObsTooltip <$> _)), Forall_fmap, Forall_true. done.
    + by apply (clicks_add_logs [_]), Forall_singleton.
  - rewrite submitListener_run. destruct (submit_button this w) as [b|]; [|done].
    by destruct (get_disabled b (w_dom w)).
  - rewrite confirmListener_run; simpl.
    apply (clicks_add_logs [_]). by repeat constructor.
Qed.

(** What every listener preserves, a dispatch preserves. *)
Lemma dispatch_preserves (I : world → Prop) e :
  (∀ f this e', preserves I (run_listener user f this e')) →
  preserves I (dispatch user e).
Proof.
  intros Hf. apply preserves_bind; [by apply preserves_readonly|]. intros path.
  apply preserves_foldM. intros e' this _.
  apply preserves_bind; [by apply preserves_readonly|]. intros fs.
  apply preserves_foldM. intros e'' f _. apply Hf.
Qed.

Lemma dispatch_clicks cs e : preserves (λ w, clicks w = cs) (dispatch user e).
Proof. apply dispatch_preserves. intros f this e'. apply run_listener_clicks. Qed.

Lemma activate_run tgt w : activate user tgt w = (tt, activated user tgt w).
Proof.
  unfold activated. destruct tgt as [btn|]; [|done]. simpl. unfold bind, gets. simpl.
  by destruct (submitted_by btn w).
Qed.

(** A click: the listeners run, then the default action unless they
    cancelled the event. *)
Lemma fire_click_run el w :
  fire_click user el w =
  ((dispatch user (click_event el) w).1,
   if e_defaultPrevented (dispatch user (click_event el) w).1
   then (dispatch user (click_event el) w).2
   else activated user (activation_target el (w_dom w)) (dispatch user (click_event el) w).2).
Proof.
  unfold fire_click, bind, gets. simpl.
  destruct (e_defaultPrevented (dispatch user (click_event el) w).1); [done|].
  by rewrite activate_run.
Qed.

Lemma activate_preserves (I : world → Prop) tgt :
  (∀ f this e', preserves I (run_listener user f this e')) →
  preserves I (activate user tgt).
Proof.
  intros Hf w Hw. rewrite activate_run. unfold activated. simpl.
  destruct (tgt ≫= _); [|done]. by apply (dispatch_preserves I).
Qed.

Lemma fire_click_preserves (I : world → Prop) el :
  (∀ f this e', preserves I (run_listener user f this e')) →
  preserves I (fire_click user el).
Proof.
  intros Hf. apply preserves_bind; [by apply preserves_readonly|]. intros tgt.
  apply preserves_bind; [by apply dispatch_preserves|]. intros e.
  apply preserves_bind; [|intros _; apply preserves_ret].
  destruct (e_defaultPrevented e); [apply preserves_ret|by apply activate_preserves].
Qed.

Lemma js_click_run c w :
  js_click user c w =
  if click_blocked c w then (tt, w)
  else (tt, with_log (ObsClick c (e_defaultPrevented (eval (fire_click user c) w)))
              (exec (fire_click user c) w)).
Proof.
  unfold js_click, bind, gets; simpl. by destruct (click_blocked c w).
Qed.

Lemma hideAlert_run alert w :
  hideAlert user alert w =
  match element_querySelector sel_close alert (w_dom w) with
  | Some c => js_click user c w
  | None => (tt, w)
  end.
Proof.
  unfold hideAlert, bind, js_querySelector, gets; simpl.
  by destruct (element_querySelector sel_close alert (w_dom w)).
Qed.

Lemma hideAlert_run_click alert c w :
  element_querySelector sel_close alert (w_dom w) = Some c → click_blocked c w = false →
  hideAlert user alert w =
  (tt, with_log (ObsClick c (e_defaultPrevented (eval (fire_click user c) w)))
         (exec (fire_click user c) w)).
Proof. intros Hc Hb. by rewrite hideAlert_run, Hc, js_click_run, Hb. Qed.

(** The two outcomes of a click: the listeners only, or the listeners
    and then the [submit] of a form. *)
Lemma fire_click_cases el w :
  exec (fire_click user el) w = exec (dispatch user (click_event el)) w ∨
  ∃ form,
    exec (fire_click user el) w =
    exec (dispatch user (submit_event form)) (exec (dispatch user (click_event el)) w).
Proof.
  unfold exec. rewrite fire_click_run. simpl.
  destruct (e_defaultPrevented _); [by left|]. unfold activated.
  destruct (_ ≫= _) as [form|]; [right; by exists form|by left].
Qed.

(** The two outcomes of the alert callback: nothing, or one click. *)
Lemma hideAlert_cases alert w :
  exec (hideAlert user alert) w = w ∨
  ∃ c o, is_dialog o = false ∧
    exec (hideAlert user alert) w = with_log o (exec (fire_click user c) w).
Proof.
  unfold exec. rewrite hideAlert_run.
  destruct (element_querySelector sel_close alert (w_dom w)) as [c|]; [|by left].
  rewrite js_click_run. destruct (click_blocked c w); [by left|].
  right. by exists c, (ObsClick c (e_defaultPrevented (eval (fire_click user c) w))).
Qed.

(** C30. What the alert callback does.  On an alert with a close control
    that can be clicked the script makes exactly one click, on the first
    [.btn-close] among the descendants of the alert; on an alert without
    a close control, or whose close control is a disabled button, it
    does nothing at all. *)
Theorem hideAlert_clicks_once alert w :
  match element_querySelector sel_close alert (w_dom w) with
  | Some c =>
      if click_blocked c w then hideAlert user alert w = (tt, w)
      else ∃ prevented,
        clicks (exec (hideAlert user alert) w) = clicks w ++ [ObsClick c prevented]
  | None => hideAlert user alert w = (tt, w)
  end.
Proof.
  destruct (element_querySelector sel_close alert (w_dom w)) as [c|] eqn:Hc;
    [|by rewrite hideAlert_run, Hc].
  destruct (click_blocked c w) eqn:Hb; [by rewrite hideAlert_run, Hc, js_click_run, Hb|].
  unfold exec. rewrite (hideAlert_run_click alert c w Hc Hb). simpl.
  eexists. unfold clicks at 1; simpl. rewrite filter_app, filter_cons_True by done.
  rewrite filter_nil. f_equal.
  apply (fire_click_preserves (λ w', clicks w' = clicks w)); [|done].
  intros f this e'. apply run_listener_clicks.
Qed.

End Alerts.

Section Loading.
Implicit Types (w : world).

Lemma showLoading_run w :
  showLoading w =
  match document_querySelector sel_container (w_dom w) with
  | Some c => (tt, with_dom (set_innerHTML c loading_html) w)
  | None => (tt, w)
  end.
Proof.
  unfold showLoading, bind, js_querySelector, gets; simpl.
  by destruct (document_querySelector sel_container (w_dom w)).
Qed.

End Loading.

(** ** The theorems on the sample page *)

Definition sample_click (el : nat) : event := Event Click (Element el) false.

Example sample_click_input :
  dispatch accepter (sample_click 6) sample_loaded = (sample_click 6, sample_loaded).
Proof.
  apply (dispatch_unheard accepter (sample_click 6) sample_loaded).
  repeat constructor.
Qed.

Example sample_click_delete :
  propagation_path (Element 9) sample_loaded =
    Element 9 :: [Element 8; Element 2; Element 1; Element 0; Document] ∧
  e_defaultPrevented (eval (dispatch decliner (sample_click 9)) sample_loaded) = true.
Proof.
  split; [reflexivity|].
  apply (click_delete decliner 9 [Element 8; Element 2; Element 1; Element 0; Document]
           sample_loaded); [reflexivity|reflexivity|repeat constructor].
Qed.

(** The first form of the sample page is no alert with a close control;
    the alert 3 has the close control 4. *)
Example sample_no_close :
  element_querySelector sel_close 5 (w_dom sample_loaded) = None ∧
  hideAlert accepter 5 sample_loaded = (tt, sample_loaded).
Proof. vm_compute. done. Qed.

Example sample_close_click :
  element_querySelector sel_close 3 (w_dom sample_loaded) = Some 4 ∧
  clicks (exec (hideAlert accepter 3) sample_loaded) = [ObsClick 4 false].
Proof. vm_compute. done. Qed.

Example sample_no_container :
  showLoading (initial_world [HElem "p" [] []]) = (tt, initial_world [HElem "p" [] []]).
Proof. reflexivity. Qed.

(** The alert of the sample page is closed by the timer: one click on its
    close button, not cancelled. *)
Example sample_alert_closed :
  w_log (exec (run_timer accepter) sample_loaded) = [ObsTooltip 7; ObsClick 4 false].
Proof. reflexivity. Qed.

(** After [showLoading] the alert is no longer in the document, and the
    timer still clicks its close button. *)
Example sample_alert_detached :
  let w := exec showLoading sample_loaded in
  attached 3 (w_dom w) = false ∧
  w_log (exec (run_timer accepter) w) = [ObsTooltip 7; ObsClick 4 false].
Proof. split; reflexivity. Qed.

(** A script that runs after [DOMContentLoaded] has fired binds nothing. *)
Example sample_late_script :
  let w := exec (dispatch accepter (Event DOMContentLoaded Document false) ;; main)
             sample_world in
  w_listeners w = [(Document, DOMContentLoaded, OnDOMContentLoaded)] ∧
  l_timers (w_loop w) = [] ∧ w_log w = [].
Proof. split_and!; reflexivity. Qed.

Example sample_initTooltips :
  eval initTooltips sample_world = Normal [7] ∧
  initTooltips (initial_world sample_page) =
    (Throw (ReferenceError "bootstrap"), initial_world sample_page).
Proof. by vm_compute. Qed.

(** The sample page when the Bootstrap bundle failed to load: after
    [DOMContentLoaded] no form is guarded and no alert has a timer. *)
Lemma load_aborts_without_bootstrap_witness :
  w_bootstrap (exec main (initial_world sample_page)) = false ∧
  w_listeners (exec (run_listener accepter OnDOMContentLoaded Document
                       (Event DOMContentLoaded Document false))
                 (exec main (initial_world sample_page))) =
    [(Document, DOMContentLoaded, OnDOMContentLoaded)].
Proof.
  split; [reflexivity|].
  apply (load_aborts_without_bootstrap accepter Document
           (Event DOMContentLoaded Document false) (exec main (initial_world sample_page))).
  reflexivity.
Defined.
