(* ===== verification/Activation.v ===== *)
(** * The default action of a click

    A click that no listener cancels activates the element: a submit
    button submits the form that owns it.  This is how the two features
    of the script on a delete form meet: the click listener of the delete
    button asks for confirmation (lines 40-44), and only if the user
    accepts does the form fire [submit], whose listener puts the same
    button in its loading state (lines 12-25).  The theorems follow one
    click from the dialog to the timer. *)

From Stdlib Require Import Ascii String.
From stdpp Require Import base strings option numbers list.
From S2P Require Import Prelude Html Selector Dom DomFacts EventLoop Page Samples Guard Bindings.

Local Open Scope string_scope.
Local Open Scope list_scope.

(** ** Which elements submit *)

Section Buttons.
Implicit Types (w : world) (d : dom) (tag : string) (a : attrs) (el btn form : nat).

(** What [button[type="submit"]] selects is a submit button. *)
Lemma sel_submit_is_submit_button tag a :
  matches sel_submit tag a = true → is_submit_button tag a = true.
Proof.
  intros H. pose proof (matches_type _ _ _ _ H) as ->.
  apply matches_tail, matches_attr in H. unfold is_submit_button. by rewrite H.
Qed.

(** So is a [button] without a [type], which the selector misses. *)
Lemma untyped_button_submits a :
  attr_get "type" a = None →
  is_submit_button "button" a = true ∧ matches sel_submit "button" a = false.
Proof.
  intros H. split; [unfold is_submit_button; by rewrite H|].
  apply (matches_attr_absent "type" "submit"); [done|]. by right; left.
Qed.

Lemma submitted_by_Some btn form w :
  submitted_by btn w = Some form →
  is_submit_button (tag_of btn (w_dom w)) (attrs_of btn (w_dom w)) = true ∧
  get_disabled btn (w_dom w) = false ∧
  form_owner btn (w_dom w) = Some form ∧
  attached form (w_dom w) = true ∧ form ∉ w_invalid w.
Proof.
  unfold submitted_by.
  destruct (is_submit_button _ _), (get_disabled btn _), (form_owner btn _) as [f|];
    simpl; try done.
  destruct (attached f _) eqn:Hf; [|done]. simpl. case_bool_decide; [done|].
  intros [= ->]. by split_and!.
Qed.

(** A disabled button submits nothing. *)
Lemma submitted_by_disabled btn w :
  get_disabled btn (w_dom w) = true → submitted_by btn w = None.
Proof. intros H. unfold submitted_by. by rewrite H, andb_false_r. Qed.

(** Nor does a button of a form with an invalid field. *)
Lemma submitted_by_invalid btn form w :
  form_owner btn (w_dom w) = Some form → form ∈ w_invalid w → submitted_by btn w = None.
Proof.
  intros Hf Hin. unfold submitted_by. rewrite Hf.
  destruct (_ && _); [|done]. rewrite bool_decide_eq_true_2 by done.
  by rewrite andb_false_r.
Qed.

End Buttons.

(** ** One listener on the path *)

(** The only listener that an event of type [ty] at [this] reaches is
    [f], bound to [this] itself. *)
Definition sole_listener (this : target) (ty : event_type) (f : listener) (w : world) : Prop :=
  ∃ rest,
    propagation_path this w = this :: rest ∧
    listeners_for this ty w = [f] ∧
    Forall (λ t, listeners_for t ty w = []) rest.

(** [btn] is the delete button of [form]: a click on it reaches the
    confirmation only and would submit [form], and a submit of [form]
    reaches the guard only, which guards [btn]. *)
Definition delete_form (btn form : nat) (w : world) : Prop :=
  sole_listener (Element btn) Click ConfirmDelete w ∧
  activation_target btn (w_dom w) = Some btn ∧
  submitted_by btn w = Some form ∧
  sole_listener (Element form) Submit SubmitGuard w ∧
  submit_button (Element form) w = Some btn.

Section Dispatch.
Context (user : nat → bool).
Implicit Types (w : world) (e : event) (f : listener) (this : target).

Lemma run_listener_type f this e w : e_type (run_listener user f this e w).1 = e_type e.
Proof.
  destruct f; [by rewrite run_load_listener| |].
  - simpl. rewrite submitListener_run. destruct (submit_button this w) as [b|]; [|done].
    by destruct (get_disabled b (w_dom w)).
  - simpl. rewrite confirmListener_run. simpl. by destruct (user (w_prompts w)).
Qed.

(** An event whose only listener is [f], on the target itself. *)
Lemma dispatch_one e this rest f w :
  propagation_path (e_target e) w = this :: rest →
  listeners_for this (e_type e) w = [f] →
  Forall (λ t, listeners_for t (e_type e) (exec (run_listener user f this e) w) = []) rest →
  dispatch user e w = run_listener user f this e w.
Proof.
  intros Hp Hl Hr. rewrite dispatch_run, Hp. cbn [foldM]. unfold bind.
  rewrite invoke_run, Hl. cbn [foldM]. unfold bind, exec in *.
  pose proof (run_listener_type f this e w) as Hty.
  destruct (run_listener user f this e w) as [e1 w1]. simpl in *.
  rewrite foldM_invoke_none; [done|]. by rewrite Hty.
Qed.

End Dispatch.

(** ** From the click to the guard *)

Section Click.
Context (user : nat → bool).
Implicit Types (w : world) (btn form : nat).

(** A click on a submit button that nobody listens to submits the form. *)
Lemma click_submits btn form w :
  Forall (λ t, listeners_for t Click w = []) (propagation_path (Element btn) w) →
  activation_target btn (w_dom w) = Some btn →
  submitted_by btn w = Some form →
  exec (fire_click user btn) w = exec (dispatch user (submit_event form)) w.
Proof.
  intros Hp Ha Hs. unfold exec. rewrite fire_click_run.
  rewrite (dispatch_unheard user (click_event btn) w Hp). simpl.
  unfold activated. rewrite Ha. simpl. by rewrite Hs.
Qed.

(** A submit of a form whose only listener is the guard. *)
Lemma submit_guards form rest btn w :
  propagation_path (Element form) w = Element form :: rest →
  listeners_for (Element form) Submit w = [SubmitGuard] →
  Forall (λ t, listeners_for t Submit w = []) rest →
  submit_button (Element form) w = Some btn →
  get_disabled btn (w_dom w) = false →
  exec (dispatch user (submit_event form)) w = guard_effect btn w.
Proof.
  intros Hp Hl Hr Hb Hd. unfold exec.
  assert (run_listener user SubmitGuard (Element form) (submit_event form) w =
          (submit_event form, guard_effect btn w)) as Hrun
    by (simpl; by rewrite submitListener_run, Hb, Hd).
  rewrite (dispatch_one user (submit_event form) (Element form) rest SubmitGuard w);
    [by rewrite Hrun|done..|]. unfold exec. by rewrite Hrun.
Qed.

(** C6. A click on the delete button of a form, from the dialog to the
    timer: the confirmation is shown; if the user declines, the click is
    cancelled and nothing else happens (no submit, no loading state, no
    timer); if the user accepts, the form fires [submit] and its guard
    puts the button in the loading state with its fallback timer. *)
Theorem delete_click btn form w :
  delete_form btn form w →
  exec (fire_click user btn) w =
    if user (w_prompts w) then guard_effect btn (asked user confirm_message w)
    else asked user confirm_message w.
Proof.
  intros ((rest & Hp & Hl & Hr) & Ha & Hs & (rest' & Hp' & Hl' & Hr') & Hb).
  unfold exec. rewrite fire_click_run.
  rewrite (dispatch_one user (click_event btn) (Element btn) rest ConfirmDelete w);
    [|done..|by unfold exec; simpl; rewrite confirmListener_run].
  simpl. rewrite confirmListener_run. simpl.
  destruct (user (w_prompts w)) eqn:Hu; simpl; [|done].
  unfold activated. rewrite Ha. simpl.
  change (submitted_by btn (asked user confirm_message w)) with (submitted_by btn w).
  rewrite Hs. apply (submit_guards form rest'); try done.
  by apply submitted_by_Some in Hs as (_ & ? & _).
Qed.

End Click.

(** ** On the sample page *)

(** The user clicks "Save": the first form is submitted. *)
Example sample_click_save : exec (fire_click accepter 7) sample_loaded = sample_submitted.
Proof. vm_compute. reflexivity. Qed.

(** The button of the third form has no [type]: it submits the form, and
    the guard does not find it. *)
Example sample_untyped_button :
  submitted_by 11 sample_loaded = Some 10 ∧
  submit_button (Element 10) sample_loaded = None ∧
  exec (fire_click accepter 11) sample_loaded = sample_loaded.
Proof. vm_compute. by split_and!. Qed.

(** A field of the first form is invalid: the click submits nothing. *)
Example sample_invalid_form :
  exec (fire_click accepter 7) (exec (set_validity 5 false) sample_loaded) =
  exec (set_validity 5 false) sample_loaded.
Proof. vm_compute. reflexivity. Qed.

Lemma sample_delete_form : delete_form 9 8 sample_loaded.
Proof.
  split_and!; try (vm_compute; reflexivity).
  - exists [Element 8; Element 2; Element 1; Element 0; Document].
    split_and!; [vm_compute; reflexivity..|repeat constructor].
  - exists [Element 2; Element 1; Element 0; Document].
    split_and!; [vm_compute; reflexivity..|repeat constructor].
Qed.

Lemma delete_click_witness :
  exec (fire_click decliner 9) sample_loaded = asked decliner confirm_message sample_loaded.
Proof. apply (delete_click decliner 9 8 sample_loaded sample_delete_form). Defined.

(** The same click, accepted: the guard of the delete form fires. *)
Example sample_delete_accepted :
  exec (fire_click accepter 9) sample_loaded =
  guard_effect 9 (asked accepter confirm_message sample_loaded).
Proof. vm_compute. reflexivity. Qed.

(** An alert inside a form whose close control has no [type]: the alert,
    the control, the form and its submit button.  The form is 0, the
    alert 1, the control 2, the submit button 3. *)
Definition closing_form_page : html :=
  [HElem "form" [("method", "post")]
     [HElem "div" [("class", "alert alert-info")]
        [HText "Draft restored.";
         HElem "button" [("class", "btn-close")] []];
      HElem "button" [("type", "submit")] [HText "Save"]]].

(** On that page the alert timer submits the form: after five seconds
    the callback clicks the control, the click submits the form and the
    guard puts the submit button in its loading state. *)
Example alert_timer_submits :
  let w := exec (load_bootstrap ;; main ;; dispatch accepter load_event ;;
                 run_timer accepter) (initial_world closing_form_page) in
  t_cb <$> l_timers (w_loop w) = [RestoreButton 3 [HText "Save"]] ∧
  get_disabled 3 (w_dom w) = true.
Proof. vm_compute. by split. Qed.
