(* ===== verification/Machine.v ===== *)
(** * The page as a transition system

    What can happen to a page that loads the script: the Bootstrap bundle
    is evaluated, the script file is evaluated, the browser fires
    [DOMContentLoaded], the user edits a field, submits a
    form or clicks an element, a timer fires, time passes, another script
    of the page calls [showLoading].  [step] is the transition relation,
    one rule per kind of move; [enabled] and [perform] are its executable
    form and [run] executes a whole trace.  [stable_reachable] is the
    induction principle for invariants, and the class [Stable] states what
    a predicate on pages must be preserved by for it to be an invariant:
    the functions of the script, one at a time, the firing of a timer and
    the passing of time. *)

From Stdlib Require Import Ascii String.
From stdpp Require Import base strings option numbers list.
From S2P Require Import Prelude Html Selector Dom DomFacts Queries EventLoop Page.
From S2P Require Import Samples Guard Bindings.

Local Open Scope string_scope.
Local Open Scope list_scope.

Inductive label : Type :=
| LBootstrap
| LScript
| LContentLoaded
| LSubmit (form : nat)
| LClick (el : nat)
| LInput (form : nat) (ok : bool)
| LTimer
| LWait (t : N)
| LShowLoading.

#[export] Instance label_eq_dec : EqDecision label.
Proof. solve_decision. Defined.

(** Time may pass until [t] when no pending timer is due before [t]. *)
Definition may_wait (t : N) (w : world) : bool :=
  forallb (λ tm, (t <=? t_due tm)%N) (l_timers (w_loop w)).

Section Machine.
Context (user : nat → bool).

(** When a move is possible: a submit event goes to a form, a click to
    an element that exists and is not a disabled control, a timer fires
    when one is pending. *)
Definition enabled (a : label) (w : world) : bool :=
  match a with
  | LBootstrap | LScript | LContentLoaded | LShowLoading | LInput _ _ => true
  | LSubmit form => bool_decide (tag_of form (w_dom w) = "form")
  | LClick el => bool_decide (is_Some (lookup el (w_dom w))) && negb (click_blocked el w)
  | LTimer => bool_decide (is_Some (take_timer (w_loop w)))
  | LWait t => may_wait t w
  end.

Definition perform (a : label) : prog unit :=
  match a with
  | LBootstrap => load_bootstrap
  | LScript => main
  | LContentLoaded => dispatch user load_event ;; ret tt
  | LSubmit form => dispatch user (submit_event form) ;; ret tt
  | LClick el => fire_click user el ;; ret tt
  | LInput form ok => set_validity form ok
  | LTimer => run_timer user ;; ret tt
  | LWait t => modify (with_loop (wait_until t))
  | LShowLoading => showLoading
  end.

Inductive step : world → label → world → Prop :=
| step_bootstrap w :
    step w LBootstrap (exec load_bootstrap w)
| step_script w :
    step w LScript (exec main w)
| step_loaded w :
    step w LContentLoaded (exec (dispatch user load_event) w)
| step_submit w form :
    tag_of form (w_dom w) = "form" →
    step w (LSubmit form) (exec (dispatch user (submit_event form)) w)
| step_click w el :
    is_Some (lookup el (w_dom w)) →
    click_blocked el w = false →
    step w (LClick el) (exec (fire_click user el) w)
| step_input w form ok :
    step w (LInput form ok) (exec (set_validity form ok) w)
| step_timer w t l' :
    take_timer (w_loop w) = Some (t, l') →
    step w LTimer (exec (run_callback user (t_cb t)) (with_loop (λ _, l') w))
| step_wait w t :
    Forall (λ tm, (t ≤ t_due tm)%N) (l_timers (w_loop w)) →
    step w (LWait t) (with_loop (wait_until t) w)
| step_showLoading w :
    step w LShowLoading (exec showLoading w).

Definition run_label (a : label) (w : world) : option world :=
  if enabled a w then Some (exec (perform a) w) else None.

(** Execute a trace; [None] when a move of the trace is not possible. *)
Fixpoint run (tr : list label) (w : world) : option world :=
  match tr with
  | [] => Some w
  | a :: tr' => run_label a w ≫= run tr'
  end.

Inductive reachable (w0 : world) : world → Prop :=
| reach_start : reachable w0 w0
| reach_step w a w' : reachable w0 w → step w a w' → reachable w0 w'.

Definition invariant (I : world → Prop) : Prop :=
  ∀ w a w', I w → step w a w' → I w'.

(** [Stable A I]: on pages that satisfy [A], the predicate [I] survives
    each effect that a function of the script can have, the removal of
    the timer that fires and the passing of time.  [A] is an invariant
    already known. *)
Class Stable (A I : world → Prop) : Prop := {
  stable_bootstrap w : A w → I w → I (exec load_bootstrap w);
  stable_input w form ok : A w → I w → I (exec (set_validity form ok) w);
  stable_main w : A w → I w → I (exec main w);
  stable_loaded w : A w → I w → I (loaded w);
  stable_guard w this b :
    A w → I w → submit_button this w = Some b → get_disabled b (w_dom w) = false →
    I (guard_effect b w);
  stable_asked w : A w → I w → I (asked user confirm_message w);
  stable_restore w t l' b h :
    A w → I w → take_timer (w_loop w) = Some (t, l') → t_cb t = RestoreButton b h →
    I (restore_effect b h (with_loop (λ _, l') w));
  stable_hide w t l' alert :
    A w → I w → take_timer (w_loop w) = Some (t, l') → t_cb t = HideAlert alert →
    I (with_loop (λ _, l') w);
  stable_log w o : A w → I w → is_dialog o = false → I (with_log o w);
  stable_loading w c :
    A w → I w → document_querySelector sel_container (w_dom w) = Some c →
    I (with_dom (set_innerHTML c loading_html) w);
  stable_wait w t :
    A w → I w → Forall (λ tm, (t ≤ t_due tm)%N) (l_timers (w_loop w)) →
    I (with_loop (wait_until t) w)
}.

Definition anywhere : world → Prop := λ _, True.

(** The page the server sent, with the Bootstrap bundle evaluated. *)
Definition served (page : html) : world := exec load_bootstrap (initial_world page).

(** ** The relation and its executable form *)

Lemma may_wait_spec t w :
  may_wait t w = true ↔ Forall (λ tm, (t ≤ t_due tm)%N) (l_timers (w_loop w)).
Proof.
  unfold may_wait. rewrite forallb_forall, Forall_forall.
  split; intros H tm Htm.
  - apply N.leb_le, H. by apply list_elem_of_In.
  - apply N.leb_le, H. by apply list_elem_of_In.
Qed.

Lemma run_timer_exec w t l' :
  take_timer (w_loop w) = Some (t, l') →
  exec (run_timer user) w = exec (run_callback user (t_cb t)) (with_loop (λ _, l') w).
Proof. intros H. unfold exec, run_timer, bind, gets, modify; simpl. by rewrite H. Qed.

Lemma exec_then_ret {A} (c : prog A) w : exec (c ;; ret tt) w = exec c w.
Proof. reflexivity. Qed.

Lemma step_enabled w a w' : step w a w' → enabled a w = true.
Proof.
  destruct 1; simpl; try done.
  - by apply bool_decide_eq_true.
  - apply andb_true_iff. split; [by apply bool_decide_eq_true|by apply negb_true_iff].
  - apply bool_decide_eq_true. by eexists.
  - by apply may_wait_spec.
Qed.

Lemma step_exec w a w' : step w a w' → w' = exec (perform a) w.
Proof. destruct 1; simpl; try done. by erewrite exec_then_ret, run_timer_exec. Qed.

Lemma perform_step w a : enabled a w = true → step w a (exec (perform a) w).
Proof.
  destruct a; simpl; intros H; try constructor.
  - by apply bool_decide_eq_true in H.
  - apply andb_true_iff in H as [H _]. by apply bool_decide_eq_true in H.
  - apply andb_true_iff in H as [_ H]. by apply negb_true_iff.
  - apply bool_decide_eq_true in H as [[t l'] H].
    rewrite exec_then_ret, (run_timer_exec _ _ _ H). by constructor.
  - by apply may_wait_spec.
Qed.

Lemma run_label_step w a w' : run_label a w = Some w' ↔ step w a w'.
Proof.
  unfold run_label. split.
  - destruct (enabled a w) eqn:E; [|done]. intros [= <-]. by apply perform_step.
  - intros H. by rewrite (step_enabled _ _ _ H), (step_exec _ _ _ H).
Qed.

Lemma run_app tr1 tr2 w : run (tr1 ++ tr2) w = run tr1 w ≫= run tr2.
Proof.
  revert w; induction tr1 as [|a tr1 IH]; intros w; simpl; [done|].
  destruct (run_label a w) as [w1|]; simpl; [apply IH|done].
Qed.

Lemma run_snoc tr a w w1 w2 :
  run tr w = Some w1 → step w1 a w2 → run (tr ++ [a]) w = Some w2.
Proof.
  intros H1 H2%run_label_step. rewrite run_app, H1; simpl. by rewrite H2.
Qed.

Lemma reachable_trans w0 w1 w2 : reachable w0 w1 → reachable w1 w2 → reachable w0 w2.
Proof. intros H1 H2. induction H2; [done|]. by eapply reach_step. Qed.

Lemma run_reachable tr w0 w : run tr w0 = Some w → reachable w0 w.
Proof.
  revert w0; induction tr as [|a tr IH]; intros w0; simpl.
  - intros [= <-]. constructor.
  - destruct (run_label a w0) as [w1|] eqn:E; [|done]; simpl. intros H%IH.
    apply run_label_step in E. eapply reachable_trans; [|done].
    eapply reach_step; [constructor|done].
Qed.

Lemma reachable_run_trace w0 w : reachable w0 w → ∃ tr, run tr w0 = Some w.
Proof.
  induction 1 as [|w a w' _ [tr Htr] Hstep]; [by exists []|].
  exists (tr ++ [a]). by eapply run_snoc.
Qed.

(** The [DOMContentLoaded] event on a page whose only listener for it is
    the one of the script. *)
Lemma dispatch_load w :
  listeners_for Document DOMContentLoaded w = [OnDOMContentLoaded] →
  exec (dispatch user load_event) w = after_load w.
Proof.
  intros H. unfold exec. rewrite dispatch_run. cbn [propagation_path load_event e_target foldM].
  unfold bind at 1. rewrite invoke_run.
  change (e_type load_event) with DOMContentLoaded. rewrite H. cbn [foldM].
  unfold bind. by rewrite run_load_listener.
Qed.

Section Stability.
Context (I : world → Prop) `{!Stable anywhere I}.

Lemma listener_preserves f this e : preserves I (run_listener user f this e).
Proof.
  intros w HI. destruct f; [rewrite run_load_listener|simpl..].
  - unfold after_load. destruct (tooltips_possible w);
      [by apply stable_loaded|by apply stable_log].
  - rewrite submitListener_run. destruct (submit_button this w) as [b|] eqn:Hb; [|done].
    destruct (get_disabled b (w_dom w)) eqn:Hd; [done|]. by eapply stable_guard.
  - rewrite confirmListener_run. by apply stable_asked.
Qed.

Lemma dispatch_stable e w : I w → I (exec (dispatch user e) w).
Proof. apply preserves_exec, dispatch_preserves, listener_preserves. Qed.

Lemma fire_click_stable el w : I w → I (exec (fire_click user el) w).
Proof. apply preserves_exec, fire_click_preserves, listener_preserves. Qed.

Lemma click_preserves el : preserves I (js_click user el).
Proof.
  intros w HI. rewrite js_click_run. destruct (click_blocked el w); [done|].
  apply stable_log; [done| |done]. by apply fire_click_stable.
Qed.

Lemma fire_preserves w t l' :
  I w → take_timer (w_loop w) = Some (t, l') →
  I (exec (run_callback user (t_cb t)) (with_loop (λ _, l') w)).
Proof.
  intros HI Ht. destruct (t_cb t) as [b h|alert] eqn:Hcb; simpl.
  - by eapply stable_restore.
  - unfold exec. rewrite hideAlert_run.
    assert (I (with_loop (λ _, l') w)) as HI' by by eapply stable_hide.
    destruct (element_querySelector _ _ _) as [c|]; [|done].
    by apply click_preserves.
Qed.

Lemma showLoading_preserves : preserves I showLoading.
Proof.
  intros w HI. rewrite showLoading_run.
  destruct (document_querySelector _ _) as [c|] eqn:Hc; [|done]. by apply stable_loading.
Qed.

(** A stable predicate is preserved by every move of the page. *)
Lemma stable_invariant : invariant I.
Proof.
  intros w a w' HI Hstep. destruct Hstep.
  - by apply stable_bootstrap.
  - by apply stable_main.
  - by apply dispatch_stable.
  - by apply dispatch_stable.
  - by apply fire_click_stable.
  - by apply stable_input.
  - by apply fire_preserves.
  - by apply stable_wait.
  - by apply showLoading_preserves.
Qed.

(** What holds of a page and is stable holds of every page reachable
    from it. *)
Lemma stable_reachable w0 w : I w0 → reachable w0 w → I w.
Proof.
  intros H0 Hr. induction Hr as [|w a w' _ IH Hstep]; [done|].
  by eapply stable_invariant.
Qed.

End Stability.

(** An invariant can be used to establish the next one. *)
Lemma Stable_under (A I : world → Prop) :
  Stable anywhere A → Stable A I → Stable anywhere (λ w, A w ∧ I w).
Proof.
  intros HA HI. split.
  - intros w _ [Ha Hi]. split; by apply stable_bootstrap.
  - intros w form ok _ [Ha Hi]. split; by apply stable_input.
  - intros w _ [Ha Hi]. split; by apply stable_main.
  - intros w _ [Ha Hi]. split; by apply stable_loaded.
  - intros w this b _ [Ha Hi] Hb Hd. split; by eapply stable_guard.
  - intros w _ [Ha Hi]. split; by apply stable_asked.
  - intros w t l' b h _ [Ha Hi] Ht Hcb. split; by eapply stable_restore.
  - intros w t l' alert _ [Ha Hi] Ht Hcb. split; by eapply stable_hide.
  - intros w o _ [Ha Hi] Ho. split; by apply stable_log.
  - intros w c _ [Ha Hi] Hc. split; by apply stable_loading.
  - intros w t _ [Ha Hi] Ht. split; by apply stable_wait.
Qed.

(** What is stable everywhere is stable on the pages that satisfy [A]. *)
Lemma Stable_weaken (A I : world → Prop) : Stable anywhere I → Stable A I.
Proof.
  intros HI. split.
  - intros w _ Hi. by apply stable_bootstrap.
  - intros w form ok _ Hi. by apply stable_input.
  - intros w _ Hi. by apply stable_main.
  - intros w _ Hi. by apply stable_loaded.
  - intros w this b _ Hi Hb Hd. by eapply stable_guard.
  - intros w _ Hi. by apply stable_asked.
  - intros w t l' b h _ Hi Ht Hcb. by eapply stable_restore.
  - intros w t l' alert _ Hi Ht Hcb. by eapply stable_hide.
  - intros w o _ Hi Ho. by apply stable_log.
  - intros w c _ Hi Hc. by apply stable_loading.
  - intros w t _ Hi Ht. by apply stable_wait.
Qed.

Lemma Stable_and (I J : world → Prop) :
  Stable anywhere I → Stable anywhere J → Stable anywhere (λ w, I w ∧ J w).
Proof. intros HI HJ. by apply Stable_under, Stable_weaken. Qed.

(** The transition relation and the interpreter agree: a move from [w]
    to [w'] with label [a] is possible exactly when [a] is enabled in
    [w] and [w'] is the page that executing [a] gives. *)
Lemma step_iff_perform w a w' :
  step w a w' ↔ enabled a w = true ∧ w' = exec (perform a) w.
Proof.
  split; [intros H; split; [by eapply step_enabled|by apply step_exec]|].
  intros [H ->]. by apply perform_step.
Qed.

(** A page is reachable from [w0] exactly when some trace of moves
    executes from [w0] to it. *)
Theorem reachable_iff_run w0 w : reachable w0 w ↔ ∃ tr, run tr w0 = Some w.
Proof.
  split; [apply reachable_run_trace|]. intros [tr H]. by eapply run_reachable.
Qed.

(** Loading a page: after the Bootstrap bundle and the script file have
    been evaluated and the browser has fired [DOMContentLoaded], the page
    is [loaded] of the page with the listener registered. *)
Lemma page_load page :
  run [LBootstrap; LScript; LContentLoaded] (initial_world page) =
  Some (loaded (exec main (served page))).
Proof.
  change (run _ _) with (Some (exec (dispatch user load_event) (exec main (served page)))).
  f_equal. by rewrite dispatch_load.
Qed.

(** The elements of the page the server sent that pass the test of a
    selector, in document order. *)
Definition found (sel : selector) (page : html) : list nat :=
  filter (λ x, matches_at sel x (load_document page) = true)
    (forest_ids (d_doc (load_document page))).

(** C15. What loading a page sets up.  After the Bootstrap bundle and the
    script file have been evaluated and the browser has fired
    [DOMContentLoaded], the document is as the server sent it; the
    registry holds the load listener, then the submit guard on every
    [form] of the document, then the confirmation on every element that
    matches [.btn-danger[data-action="delete"]]; the queue holds one
    timer for every element of class [alert], due at 5000 ms; and the
    log says that one tooltip was created for every element that
    matches [[data-bs-toggle="tooltip"]]: all of them, once each, in
    document order, and nothing else. *)
Theorem page_setup page w :
  run [LBootstrap; LScript; LContentLoaded] (initial_world page) = Some w →
  w_dom w = load_document page ∧
  w_listeners w =
    (Document, DOMContentLoaded, OnDOMContentLoaded) ::
    (submit_binding <$> found sel_form page) ++ (delete_binding <$> found sel_delete page) ∧
  l_timers (w_loop w) =
    imap (λ k x, Timer k alert_hide_delay (HideAlert x)) (found sel_alert page) ∧
  w_log w = ObsTooltip <$> found sel_tooltip page.
Proof.
  rewrite page_load. intros [= <-]. unfold found.
  rewrite <-!document_querySelectorAll_filter by apply wf_load_document.
  split_and!; [done..| |done]. cbn [loaded w_loop].
  change (w_dom (exec main (served page))) with (load_document page).
  change (w_loop (exec main (served page))) with (@empty_loop callback).
  destruct (schedule_all_spec (HideAlert <$> document_querySelectorAll sel_alert
              (load_document page)) alert_hide_delay empty_loop) as (-> & _).
  simpl. rewrite imap_fmap. by apply imap_ext.
Qed.

End Machine.

(** ** On the sample page *)

Example sample_found :
  found sel_form sample_page = [5; 8; 10] ∧ found sel_alert sample_page = [3] ∧
  found sel_delete sample_page = [9] ∧ found sel_tooltip sample_page = [7].
Proof. vm_compute. done. Qed.

Lemma page_setup_witness :
  w_dom sample_loaded = load_document sample_page ∧
  w_listeners sample_loaded =
    (Document, DOMContentLoaded, OnDOMContentLoaded) ::
    (submit_binding <$> found sel_form sample_page) ++
    (delete_binding <$> found sel_delete sample_page) ∧
  l_timers (w_loop sample_loaded) =
    imap (λ k x, Timer k alert_hide_delay (HideAlert x)) (found sel_alert sample_page) ∧
  w_log sample_loaded = ObsTooltip <$> found sel_tooltip sample_page.
Proof. apply (page_setup accepter sample_page sample_loaded). vm_compute. reflexivity. Defined.
