(* ===== verification/Invariants.v ===== *)
(** * Invariants of the page

    Predicates that hold of every page reachable from the page the server
    sent, each proved stable in the sense of [Machine.Stable]:

    - [wf_world]: element identities and timer handles are unique;
    - [guarded]: no button has two pending fallbacks, and a button with a
      pending fallback is disabled (the invariant of the submit guard);
    - [typed]: the registry holds only the three kinds of binding that
      the script makes;
    - [on_time]: no pending timer is overdue;
    - [due_soon]: every pending timer is due within the delay that the
      script gave it;
    - [prompts_logged]: the dialog counter is the number of dialogs in
      the log. *)

From Stdlib Require Import Ascii String.
From stdpp Require Import base strings option numbers list.
From S2P Require Import Prelude Html Selector Dom DomFacts EventLoop Page Samples.
From S2P Require Import Guard Bindings Machine.

Local Open Scope string_scope.
Local Open Scope list_scope.

Definition wf_world (w : world) : Prop := wf_dom (w_dom w) ∧ wf_loop (w_loop w).

(** The callbacks that are pending, in the order of their registration. *)
Definition callbacks (w : world) : list callback := t_cb <$> l_timers (w_loop w).

(** The button that a callback will re-enable. *)
Definition cb_button (cb : callback) : option nat :=
  match cb with
  | RestoreButton submitBtn _ => Some submitBtn
  | HideAlert _ => None
  end.

(** The alert that a callback dismisses. *)
Definition cb_alert (cb : callback) : option nat :=
  match cb with
  | HideAlert alert => Some alert
  | RestoreButton _ _ => None
  end.

(** The buttons with a pending fallback, the alerts with a pending
    dismissal. *)
Definition pending_restores (w : world) : list nat := omap cb_button (callbacks w).

Definition pending_alerts (w : world) : list nat := omap cb_alert (callbacks w).

Definition guarded (w : world) : Prop :=
  NoDup (pending_restores w) ∧
  Forall (λ b, get_disabled b (w_dom w) = true) (pending_restores w).

(** The bindings that the script makes. *)
Definition typed_binding (r : target * event_type * listener) : bool :=
  match r with
  | (Document, DOMContentLoaded, OnDOMContentLoaded) => true
  | (Element _, Submit, SubmitGuard) => true
  | (Element _, Click, ConfirmDelete) => true
  | _ => false
  end.

Definition typed (w : world) : Prop :=
  Forall (λ r, typed_binding r = true) (w_listeners w).

Definition on_time (w : world) : Prop := punctual (w_loop w).

(** The delay that the script gives to each callback, in milliseconds. *)
Definition delay_of (cb : callback) : N :=
  match cb with
  | RestoreButton _ _ => submit_fallback_delay
  | HideAlert _ => alert_hide_delay
  end.

(** Every pending timer is due within the delay of its callback. *)
Definition due_soon (w : world) : Prop := within delay_of (w_loop w).

Definition prompts_logged (w : world) : Prop :=
  w_prompts w = length (filter is_dialog (w_log w)).

(** The invariant of the page: all of the above. *)
Definition page_inv (w : world) : Prop :=
  (wf_world w ∧ guarded w) ∧ typed w ∧ on_time w ∧ prompts_logged w.

#[export] Instance wf_world_dec w : Decision (wf_world w).
Proof. unfold wf_world, wf_dom, wf_loop. apply _. Defined.

#[export] Instance guarded_dec w : Decision (guarded w).
Proof. unfold guarded. apply _. Defined.

#[export] Instance typed_dec w : Decision (typed w).
Proof. unfold typed. apply _. Defined.

(** ** The timer queue under the effects of the script *)

Section Queue.
Implicit Types (w : world) (l : loop callback) (cbs : list callback).

Lemma schedule_all_cons cb cbs delay l :
  schedule_all (cb :: cbs) delay l = schedule_all cbs delay (setTimeout cb delay l).2.
Proof. reflexivity. Qed.

Lemma wf_schedule_all cbs delay l : wf_loop l → wf_loop (schedule_all cbs delay l).
Proof.
  revert l; induction cbs as [|cb cbs IH]; intros l Hl; [done|].
  rewrite schedule_all_cons. by apply IH, wf_setTimeout.
Qed.

Lemma punctual_schedule_all cbs delay l : punctual l → punctual (schedule_all cbs delay l).
Proof.
  revert l; induction cbs as [|cb cbs IH]; intros l Hl; [done|].
  rewrite schedule_all_cons. by apply IH, punctual_setTimeout.
Qed.

Lemma within_schedule_all cbs delay l :
  Forall (λ cb, (delay ≤ delay_of cb)%N) cbs →
  within delay_of l → within delay_of (schedule_all cbs delay l).
Proof.
  intros Hcbs. revert l; induction Hcbs as [|cb cbs Hcb _ IH]; intros l Hl; [done|].
  rewrite schedule_all_cons. by apply IH, within_setTimeout.
Qed.

Lemma callbacks_schedule_all cbs delay l :
  t_cb <$> l_timers (schedule_all cbs delay l) = (t_cb <$> l_timers l) ++ cbs.
Proof.
  revert l; induction cbs as [|cb cbs IH]; intros l; [by rewrite app_nil_r|].
  rewrite schedule_all_cons, IH; simpl. by rewrite fmap_app, <-app_assoc.
Qed.

Lemma omap_cb_button_HideAlert (els : list nat) : omap cb_button (HideAlert <$> els) = [].
Proof. by induction els. Qed.

Lemma pending_restores_loaded w : pending_restores (loaded w) = pending_restores w.
Proof.
  unfold pending_restores, callbacks; simpl.
  by rewrite callbacks_schedule_all, omap_app, omap_cb_button_HideAlert, app_nil_r.
Qed.

Lemma pending_restores_guard b w :
  pending_restores (guard_effect b w) = pending_restores w ++ [b].
Proof. unfold pending_restores, callbacks; simpl. by rewrite fmap_app, omap_app. Qed.

Lemma cb_alert_HideAlert (els : list nat) : omap cb_alert (HideAlert <$> els) = els.
Proof. induction els as [|el els IH]; [done|]. simpl. f_equal. apply IH. Qed.

Lemma pending_alerts_guard b w : pending_alerts (guard_effect b w) = pending_alerts w.
Proof.
  unfold pending_alerts, callbacks; simpl. by rewrite fmap_app, omap_app, app_nil_r.
Qed.

(** Taking the timer that fires out of the queue takes its callback out
    of the pending ones, and nothing else. *)
Lemma callbacks_take w t l' :
  wf_loop (w_loop w) → take_timer (w_loop w) = Some (t, l') →
  ∃ c1 c2, callbacks w = c1 ++ t_cb t :: c2 ∧ callbacks (with_loop (λ _, l') w) = c1 ++ c2.
Proof.
  intros [Hnd _] (Hin & Hts & _)%take_timer_Some.
  destruct (remove_timer_split _ _ Hnd Hin) as (ts1 & ts2 & E1 & E2).
  exists (t_cb <$> ts1), (t_cb <$> ts2). unfold callbacks; simpl.
  by rewrite Hts, E2, E1, !fmap_app.
Qed.

Lemma omap_take {B} (f : callback → option B) w t l' :
  wf_loop (w_loop w) → take_timer (w_loop w) = Some (t, l') →
  ∃ p1 p2,
    omap f (callbacks w) = p1 ++ option_list (f (t_cb t)) ++ p2 ∧
    omap f (callbacks (with_loop (λ _, l') w)) = p1 ++ p2.
Proof.
  intros Hl Ht. destruct (callbacks_take w t l' Hl Ht) as (c1 & c2 & -> & ->).
  exists (omap f c1), (omap f c2). rewrite !omap_app. split; [|done]. f_equal.
  simpl. by destruct (f (t_cb t)).
Qed.

Lemma pending_restores_take w t l' :
  wf_loop (w_loop w) → take_timer (w_loop w) = Some (t, l') →
  ∃ p1 p2,
    pending_restores w = p1 ++ option_list (cb_button (t_cb t)) ++ p2 ∧
    pending_restores (with_loop (λ _, l') w) = p1 ++ p2.
Proof. apply omap_take. Qed.

Lemma pending_alerts_take w t l' :
  wf_loop (w_loop w) → take_timer (w_loop w) = Some (t, l') →
  ∃ p1 p2,
    pending_alerts w = p1 ++ option_list (cb_alert (t_cb t)) ++ p2 ∧
    pending_alerts (with_loop (λ _, l') w) = p1 ++ p2.
Proof. apply omap_take. Qed.

End Queue.

(** ** Disabled buttons under the effects of the script *)

Section Disabled.
Implicit Types (d : dom) (i j : nat).

(** The guard does not fire for a button that waits: it is disabled. *)
Lemma enabled_not_pending w b :
  guarded w → get_disabled b (w_dom w) = false → b ∉ pending_restores w.
Proof.
  intros [_ Hdis] Hd Hin. rewrite Forall_forall in Hdis. apply Hdis in Hin. congruence.
Qed.

Lemma get_disabled_lookup j d : get_disabled j d = true → is_Some (lookup j d).
Proof.
  unfold get_disabled, attrs_of. destruct (lookup j d); [by eauto|]. simpl.
  intros H. by apply bool_decide_eq_true in H as [? ?].
Qed.

(** Assigning to [innerHTML] anywhere leaves a disabled element disabled. *)
Lemma disabled_set_innerHTML i j h d :
  wf_dom d → get_disabled j d = true → get_disabled j (set_innerHTML i h d) = true.
Proof.
  intros Hwf Hj. rewrite get_disabled_set_innerHTML_any; [done..|].
  by apply lookup_lt, get_disabled_lookup.
Qed.

Lemma disabled_other i j h b d :
  wf_dom d → j ≠ i → get_disabled j d = true →
  get_disabled j (set_disabled i b (set_innerHTML i h d)) = true.
Proof.
  intros Hwf Hne Hj. rewrite get_disabled_set_disabled_other by done.
  by apply disabled_set_innerHTML.
Qed.

End Disabled.

(** ** Stability *)

Section Stable.
Context (user : nat → bool).

#[export] Instance wf_world_stable : Stable user anywhere wf_world.
Proof.
  split; try done.
  - intros w _ [Hd Hl]. split; [done|]. by apply wf_schedule_all.
  - intros w this b _ [Hd Hl] _ _. split; simpl.
    + by apply wf_set_disabled, wf_set_innerHTML.
    + by apply (wf_setTimeout _ _ (w_loop w)).
  - intros w t l' b h _ [Hd Hl] Ht _. split; simpl.
    + by apply wf_set_disabled, wf_set_innerHTML.
    + by eapply wf_take_timer.
  - intros w t l' alert _ [Hd Hl] Ht _. split; [done|]. by eapply wf_take_timer.
  - intros w c _ [Hd Hl] _. split; [|done]. by apply wf_set_innerHTML.
Qed.

#[export] Instance typed_stable : Stable user anywhere typed.
Proof.
  split; try done.
  - intros w _ H. apply Forall_app. split; [done|]. by repeat constructor.
  - intros w _ H. unfold typed; simpl. rewrite !Forall_app, !Forall_fmap.
    split_and!; [done|by apply Forall_true..].
Qed.

#[export] Instance on_time_stable : Stable user anywhere on_time.
Proof.
  split; try done.
  - intros w _ H. by apply punctual_schedule_all.
  - intros w this b _ H _ _. by apply (punctual_setTimeout _ _ (w_loop w)).
  - intros w t l' b h _ H Ht _. by apply (take_timer_punctual _ _ _ H Ht).
  - intros w t l' alert _ H Ht _. by apply (take_timer_punctual _ _ _ H Ht).
  - intros w t _ H Ht. by apply punctual_wait_until.
Qed.

#[export] Instance due_soon_stable : Stable user anywhere due_soon.
Proof.
  split; try done.
  - intros w _ H. apply within_schedule_all; [|done].
    by apply Forall_fmap, Forall_true.
  - intros w this b _ H _ _. by apply (within_setTimeout delay_of _ _ (w_loop w)).
  - intros w t l' b h _ H Ht _. by apply (within_take_timer _ _ _ _ H Ht).
  - intros w t l' alert _ H Ht _. by apply (within_take_timer _ _ _ _ H Ht).
  - intros w t _ H _. by apply within_wait_until.
Qed.

#[export] Instance prompts_logged_stable : Stable user anywhere prompts_logged.
Proof.
  split; try done.
  - intros w _ H. unfold prompts_logged in *; simpl. rewrite filter_app, length_app.
    rewrite (filter_none _ (ObsTooltip <$> _)); [simpl; lia|].
    apply Forall_fmap, Forall_true. by intros x Hx.
  - intros w _ H. unfold prompts_logged in *; simpl.
    rewrite filter_app, length_app. simpl. lia.
  - intros w o _ H Ho. unfold prompts_logged in *; simpl.
    rewrite filter_app, length_app, (filter_none _ [o]); [simpl; lia|].
    apply Forall_singleton. intros Hd. by rewrite Ho in Hd.
Qed.

(** The invariant of the submit guard, on well-formed pages. *)
#[export] Instance guarded_stable : Stable user wf_world guarded.
Proof.
  split; try done.
  - intros w _ H. unfold guarded. by rewrite pending_restores_loaded.
  - intros w this b [Hwf _] [Hnd Hdis] Hb Hd. unfold guarded.
    rewrite pending_restores_guard. rewrite Forall_forall in Hdis. split.
    + apply NoDup_app. split_and!; [done| |apply NoDup_singleton].
      intros x Hx ->%list_elem_of_singleton. apply Hdis in Hx. congruence.
    + apply Forall_app. split.
      * apply Forall_forall. intros x Hx. simpl. apply disabled_other; [done| |by apply Hdis].
        intros ->. apply Hdis in Hx. congruence.
      * repeat constructor. simpl. apply get_disabled_set_disabled.
        by eapply lookup_set_innerHTML_is_Some, submit_button_lookup.
  - intros w t l' b h [Hwf Hl] [Hnd Hdis] Ht Hcb.
    destruct (pending_restores_take w t l' Hl Ht) as (p1 & p2 & E1 & E2).
    rewrite Hcb in E1. simpl in E1. rewrite E1 in Hnd, Hdis.
    apply NoDup_app in Hnd as (Hn1 & Hn12 & [Hb2 Hn2]%NoDup_cons).
    apply Forall_app in Hdis as [Hd1 [_ Hd2]%Forall_cons].
    unfold guarded. change (pending_restores (restore_effect b h ?x)) with (pending_restores x).
    rewrite E2. split.
    + apply NoDup_app. split_and!; [done| |done]. intros x Hx Hx2. apply (Hn12 x Hx). by right.
    + rewrite Forall_forall in Hd1, Hd2. apply Forall_app. split; apply Forall_forall;
        intros x Hx; simpl; apply disabled_other; auto.
      * intros ->. apply (Hn12 b Hx). left.
      * by intros ->.
  - intros w t l' alert [Hwf Hl] [Hnd Hdis] Ht Hcb.
    destruct (pending_restores_take w t l' Hl Ht) as (p1 & p2 & E1 & E2).
    rewrite Hcb in E1. simpl in E1. unfold guarded.
    change (w_dom (with_loop _ w)) with (w_dom w). by rewrite E2, <-E1.
  - intros w c [Hwf _] [Hnd Hdis] _. split; [done|].
    eapply Forall_impl; [exact Hdis|]. intros x Hx. by apply disabled_set_innerHTML.
Qed.

#[export] Instance guard_invariant_stable :
  Stable user anywhere (λ w, wf_world w ∧ guarded w).
Proof. apply Stable_under; apply _. Qed.

#[export] Instance page_inv_stable : Stable user anywhere page_inv.
Proof.
  apply (Stable_and user (λ w, wf_world w ∧ guarded w)
           (λ w, typed w ∧ on_time w ∧ prompts_logged w)); [apply _|].
  apply (Stable_and user typed (λ w, on_time w ∧ prompts_logged w)); [apply _|].
  apply (Stable_and user on_time prompts_logged); apply _.
Qed.

End Stable.

(** The page between the removal of the timer that fires and the call
    of its callback. *)
Lemma page_inv_take w t l' :
  page_inv w → take_timer (w_loop w) = Some (t, l') → page_inv (with_loop (λ _, l') w).
Proof.
  intros ([[Hwf Hl] [Hnd Hdis]] & Hty & Hp & Hlog) Ht.
  destruct (pending_restores_take w t l' Hl Ht) as (p1 & p2 & E1 & E2).
  assert (p1 ++ p2 `sublist_of` pending_restores w) as Hsub.
  { rewrite E1. apply sublist_app; [done|]. by apply sublist_inserts_l. }
  split_and!; try done.
  - split; [done|]. by eapply wf_take_timer.
  - split; rewrite E2; [by eapply sublist_NoDup|].
    rewrite Forall_forall in Hdis. apply Forall_forall. intros x Hx.
    apply Hdis. by eapply elem_of_sublist.
  - by apply (take_timer_punctual _ _ _ Hp Ht).
Qed.

(** ** The invariants on reachable pages *)

Section Reachable.
Context (user : nat → bool) (page : html).
Implicit Types (w : world) (b : nat).

Lemma wf_initial_world : wf_world (initial_world page).
Proof. split; [apply wf_load_document|apply wf_empty_loop]. Qed.

Lemma guarded_initial_world : guarded (initial_world page).
Proof. split; constructor. Qed.

Lemma page_inv_initial_world : page_inv (initial_world page).
Proof.
  split_and!; [apply wf_initial_world|apply guarded_initial_world|constructor..|done].
Qed.

(** Every reachable page satisfies the invariant. *)
Lemma reachable_page_inv w : reachable user (initial_world page) w → page_inv w.
Proof. apply (stable_reachable user page_inv), page_inv_initial_world. Qed.

(** The representation invariant of the host: element identities are
    unique and below the next identity, timer handles are unique and
    below the next handle.  Every call of the host keeps it, whatever
    the script does; the proofs about the script rely on it. *)
Lemma reachable_wf w : reachable user (initial_world page) w → wf_world w.
Proof. by intros [[H _] _]%reachable_page_inv. Qed.

(** C2. The invariant of the submit guard: on every reachable page, each
    button has at most one pending fallback timer, and a button with a
    pending fallback is disabled. *)
Theorem one_fallback_per_button w b :
  reachable user (initial_world page) w →
  (length (filter (λ cb, cb_button cb = Some b) (callbacks w)) ≤ 1)%nat ∧
  (b ∈ pending_restores w → get_disabled b (w_dom w) = true).
Proof.
  intros [[_ [Hnd Hdis]] _]%reachable_page_inv.
  split; [by apply NoDup_omap_filter|]. rewrite Forall_forall in Hdis. apply Hdis.
Qed.

(** C34. On every reachable page the registry holds only the bindings
    that the script makes: the load listener on the document, the guard
    on elements for [submit], the confirmation on elements for [click]. *)
Theorem reachable_typed w r :
  reachable user (initial_world page) w → r ∈ w_listeners w → typed_binding r = true.
Proof.
  intros (_ & H & _)%reachable_page_inv. unfold typed in H.
  rewrite Forall_forall in H. apply H.
Qed.

(** Timers fire on time: on every reachable page the timer that fires
    next is not overdue, and firing it puts the clock at its due time. *)
Lemma timer_fires_when_due w t l' :
  reachable user (initial_world page) w →
  take_timer (w_loop w) = Some (t, l') →
  (l_now (w_loop w) ≤ t_due t)%N ∧ l_now l' = t_due t.
Proof.
  intros (_ & _ & Hp & _)%reachable_page_inv Ht.
  split; [|by apply (take_timer_punctual _ _ _ Hp Ht)].
  apply take_timer_Some in Ht as [Hin _]. unfold on_time, punctual in Hp.
  rewrite Forall_forall in Hp. by apply Hp.
Qed.

(** C32. Bounds of the timers: on every reachable page, a pending timer
    is due no earlier than now and no later than the delay of its
    callback from now (30 s for a fallback, 5 s for an alert); both
    delays fit the signed 32-bit integer that [setTimeout] keeps, and
    the handle of the timer is below the next handle. *)
Theorem timer_due_bounds w t :
  reachable user (initial_world page) w → t ∈ l_timers (w_loop w) →
  (l_now (w_loop w) ≤ t_due t ≤ l_now (w_loop w) + delay_of (t_cb t))%N ∧
  (delay_of (t_cb t) < 2 ^ 31)%N ∧ (t_id t < l_next (w_loop w))%nat.
Proof.
  intros Hr Ht. pose proof (reachable_page_inv w Hr) as ([[_ [_ Hid]] _] & _ & Hp & _).
  assert (due_soon w) as Hs
    by (apply (stable_reachable user due_soon (initial_world page)); [constructor|done]).
  unfold on_time, punctual, due_soon, within in *. rewrite Forall_forall in Hid, Hp, Hs.
  split_and!; [by apply Hp|by apply Hs|by destruct (t_cb t)|by apply Hid].
Qed.

(** The number of dialogs shown is the number of dialogs in the log
    of every reachable page. *)
Lemma reachable_prompts_logged w :
  reachable user (initial_world page) w →
  w_prompts w = length (filter is_dialog (w_log w)).
Proof. by intros (_ & _ & _ & H)%reachable_page_inv. Qed.

End Reachable.

(** ** The invariants on the sample page *)

Definition sample_trace : list label := [LBootstrap; LScript; LContentLoaded; LSubmit 5].

Lemma sample_reachable : reachable accepter (initial_world sample_page) sample_submitted.
Proof. apply (run_reachable accepter sample_trace). vm_compute. reflexivity. Qed.

Lemma one_fallback_per_button_witness :
  (length (filter (λ cb, cb_button cb = Some 7) (callbacks sample_submitted)) ≤ 1)%nat ∧
  (7 ∈ pending_restores sample_submitted → get_disabled 7 (w_dom sample_submitted) = true).
Proof. apply (one_fallback_per_button accepter sample_page), sample_reachable. Defined.

Lemma reachable_typed_witness :
  (Element 5, Submit, SubmitGuard) ∈ w_listeners sample_submitted ∧
  typed_binding (Element 5, Submit, SubmitGuard) = true.
Proof.
  assert ((Element 5, Submit, SubmitGuard) ∈ w_listeners sample_submitted) as H
    by (apply (bool_decide_unpack _); vm_compute; exact I).
  split; [exact H|].
  exact (reachable_typed accepter sample_page sample_submitted _ sample_reachable H).
Defined.

Example sample_timer_fires :
  take_timer (w_loop sample_submitted) =
    Some (Timer 0 5000 (HideAlert 3),
          Loop 5000 [Timer 1 30000 (RestoreButton 7 [HText "Save"])] 2) ∧
  (l_now (w_loop sample_submitted) ≤ 5000)%N.
Proof.
  assert (take_timer (w_loop sample_submitted) =
    Some (Timer 0 5000 (HideAlert 3),
          Loop 5000 [Timer 1 30000 (RestoreButton 7 [HText "Save"])] 2)) as H
    by (vm_compute; reflexivity).
  split; [exact H|].
  apply (timer_fires_when_due accepter sample_page sample_submitted _ _ sample_reachable H).
Qed.

Example sample_prompts_logged : w_prompts (exec (fire_click decliner 9) sample_loaded) = 1.
Proof.
  apply (reachable_prompts_logged decliner sample_page).
  apply (run_reachable decliner [LBootstrap; LScript; LContentLoaded; LClick 9]).
  vm_compute. reflexivity.
Qed.

Lemma timer_due_bounds_witness :
  Timer 1 30000 (RestoreButton 7 [HText "Save"]) ∈ l_timers (w_loop sample_submitted) ∧
  (l_now (w_loop sample_submitted) ≤ 30000 ≤ l_now (w_loop sample_submitted) + 30000)%N.
Proof.
  assert (Timer 1 30000 (RestoreButton 7 [HText "Save"]) ∈ l_timers (w_loop sample_submitted))
    as H by (vm_compute; right; left).
  split; [exact H|].
  apply (timer_due_bounds accepter sample_page sample_submitted _ sample_reachable H).
Defined.
