(* ===== verification/Kinds.v ===== *)
(** * The elements that the closures of the script hold

    Each closure of the script holds an element that a query returned:
    the guard listener a form, the confirmation a delete button, a
    fallback a submit button, an alert callback an alert.  [kinded]
    states that each of these elements exists and still passes the test
    of the selector that found it, whatever the script did to the
    document since; it is stable on well-formed pages.  So a button with
    a pending fallback is a [button] of type [submit]: being disabled, it
    cannot be clicked and submits nothing until its fallback has fired. *)

From Stdlib Require Import Ascii String.
From stdpp Require Import base strings option numbers list.
From S2P Require Import Prelude Html Selector Dom DomFacts Queries EventLoop Page Samples.
From S2P Require Import Guard Bindings Machine Invariants.

Local Open Scope list_scope.

(** The four kinds of element that the script keeps, and the selector
    that finds each. *)
Inductive kind : Type := KForm | KDelete | KSubmit | KAlert.

#[export] Instance kind_eq_dec : EqDecision kind.
Proof. solve_decision. Defined.

Definition kind_sel (k : kind) : selector :=
  match k with
  | KForm => sel_form
  | KDelete => sel_delete
  | KSubmit => sel_submit
  | KAlert => sel_alert
  end.

(** The element that a binding or a callback holds, with its kind. *)
Definition binding_kind (r : target * event_type * listener) : option (nat * kind) :=
  match r with
  | (Element form, Submit, SubmitGuard) => Some (form, KForm)
  | (Element btn, Click, ConfirmDelete) => Some (btn, KDelete)
  | _ => None
  end.

Definition callback_kind (cb : callback) : nat * kind :=
  match cb with
  | RestoreButton submitBtn _ => (submitBtn, KSubmit)
  | HideAlert alert => (alert, KAlert)
  end.

Definition held (w : world) : list (nat * kind) :=
  omap binding_kind (w_listeners w) ++ (callback_kind <$> callbacks w).

(** The element exists and passes the test of its kind. *)
Definition is_kind (d : dom) (xk : nat * kind) : Prop :=
  xk.1 < d_next d ∧ matches_at (kind_sel xk.2) xk.1 d = true.

Definition kinded (w : world) : Prop := Forall (is_kind (w_dom w)) (held w).

#[export] Instance is_kind_dec d xk : Decision (is_kind d xk).
Proof. unfold is_kind. apply _. Defined.

#[export] Instance kinded_dec w : Decision (kinded w).
Proof. unfold kinded. apply _. Defined.

(** ** The kinds under the effects of the script *)

Section Kinds.
Implicit Types (w : world) (d : dom) (xk : nat * kind) (k : kind) (x i : nat).

Lemma kind_sel_disabled k : reads "disabled" (kind_sel k) = false.
Proof. by destruct k. Qed.

(** An element of some kind exists: no selector of the script matches
    the element that is not there. *)
Lemma is_kind_lookup d x k : is_kind d (x, k) → is_Some (lookup x d).
Proof.
  intros [_ Hm]. simpl in Hm. unfold matches_at, tag_of, attrs_of in Hm.
  destruct (lookup x d); [done|]. by destruct k.
Qed.

Lemma is_kind_set_innerHTML d i h xk :
  wf_dom d → is_kind d xk → is_kind (set_innerHTML i h d) xk.
Proof.
  intros Hwf [Hlt Hm]. split.
  - pose proof (d_next_set_innerHTML i h d). lia.
  - by rewrite matches_at_set_innerHTML.
Qed.

Lemma is_kind_set_disabled d i b xk : is_kind d xk → is_kind (set_disabled i b d) xk.
Proof.
  intros [Hlt Hm]. split; [done|].
  by rewrite matches_at_set_disabled by apply kind_sel_disabled.
Qed.

(** What a query of the document returns is of the kind of its selector. *)
Lemma selected_is_kind d k x :
  wf_dom d → x ∈ document_querySelectorAll (kind_sel k) d → is_kind d (x, k).
Proof.
  intros Hwf Hx. split; [|by apply document_querySelectorAll_matches].
  by eapply lookup_lt, document_querySelectorAll_lookup.
Qed.

Lemma submit_button_is_kind this w b :
  wf_dom (w_dom w) → submit_button this w = Some b → is_kind (w_dom w) (b, KSubmit).
Proof.
  intros Hwf Hb. split; [apply lookup_lt; [done|by apply (submit_button_lookup this)]|].
  destruct this as [|el].
  - exact (document_querySelector_matches sel_submit (w_dom w) b Hwf Hb).
  - exact (element_querySelector_matches sel_submit el (w_dom w) b Hwf Hb).
Qed.

(** A change of the document that keeps the kinds, with fewer timers. *)
Lemma kinded_change w w' :
  (∀ xk, is_kind (w_dom w) xk → is_kind (w_dom w') xk) →
  held w' ⊆ held w → kinded w → kinded w'.
Proof.
  unfold kinded. rewrite !Forall_forall. intros Hd Hsub Hk xk Hx. by apply Hd, Hk, Hsub.
Qed.

Lemma held_take w t l' :
  wf_loop (w_loop w) → take_timer (w_loop w) = Some (t, l') →
  held (with_loop (λ _, l') w) ⊆ held w.
Proof.
  intros Hl Ht. destruct (callbacks_take w t l' Hl Ht) as (c1 & c2 & E1 & E2).
  unfold held. rewrite E1, E2. simpl. intros xk.
  rewrite !fmap_app, fmap_cons, !elem_of_app, elem_of_cons. tauto.
Qed.

Lemma held_binding w r xk : r ∈ w_listeners w → binding_kind r = Some xk → xk ∈ held w.
Proof. intros Hr Hk. apply elem_of_app. left. apply list_elem_of_omap. by exists r. Qed.

Lemma held_pending w b : b ∈ pending_restores w → (b, KSubmit) ∈ held w.
Proof.
  intros (cb & Hcb & Hb)%list_elem_of_omap. apply elem_of_app. right.
  apply list_elem_of_fmap. exists cb. split; [|done]. by destruct cb; simplify_eq/=.
Qed.

End Kinds.

(** ** Stability *)

Section Stable.
Context (user : nat → bool).

#[export] Instance kinded_stable : Stable user wf_world kinded.
Proof.
  split; try done.
  - intros w _ H. unfold kinded, held in *. simpl.
    by rewrite omap_app, app_nil_r.
  - intros w [Hwf _] H. unfold kinded, held, callbacks in *. simpl.
    rewrite callbacks_schedule_all, !omap_app, !fmap_app, !Forall_app in *.
    destruct H as [H1 H2]. split_and!; try done; apply Forall_forall; intros xk.
    + intros (r & (x & -> & Hx)%list_elem_of_fmap & Hr)%list_elem_of_omap.
      simpl in Hr. injection Hr as <-. by apply (selected_is_kind _ KForm).
    + intros (r & (x & -> & Hx)%list_elem_of_fmap & Hr)%list_elem_of_omap.
      simpl in Hr. injection Hr as <-. by apply (selected_is_kind _ KDelete).
    + intros (cb & -> & (x & -> & Hx)%list_elem_of_fmap)%list_elem_of_fmap.
      by apply (selected_is_kind _ KAlert).
  - intros w this b [Hwf _] H Hb Hd. unfold kinded, held, callbacks in *. simpl.
    rewrite !fmap_app, (assoc_L (++)), Forall_app. split.
    + eapply Forall_impl; [exact H|]. intros xk Hxk.
      by apply is_kind_set_disabled, is_kind_set_innerHTML.
    + repeat constructor; simpl.
      * pose proof (submit_button_is_kind this w b Hwf Hb) as [Hlt _].
        pose proof (d_next_set_innerHTML b processing_html (w_dom w)). simpl in *. lia.
      * apply (is_kind_set_disabled _ _ _ (b, KSubmit)), is_kind_set_innerHTML; [done|].
        by eapply submit_button_is_kind.
  - intros w t l' b h [Hwf Hl] H Ht Hcb.
    apply (kinded_change w); [|by apply (held_take w t l')|done].
    intros xk Hxk. by apply is_kind_set_disabled, is_kind_set_innerHTML.
  - intros w t l' alert [Hwf Hl] H Ht Hcb.
    by apply (kinded_change w); [|apply (held_take w t l')|].
  - intros w c [Hwf _] H Hc. apply (kinded_change w); [|done..].
    intros xk Hxk. by apply is_kind_set_innerHTML.
Qed.

#[export] Instance wf_kinded_stable : Stable user anywhere (λ w, wf_world w ∧ kinded w).
Proof. apply Stable_under; apply _. Qed.

End Stable.

(** ** On reachable pages *)

Section Reachable.
Context (user : nat → bool) (page : html).
Implicit Types (w : world) (b x : nat) (k : kind).

Lemma reachable_held w : reachable user (initial_world page) w → kinded w.
Proof.
  intros Hr. apply (stable_reachable user (λ w, wf_world w ∧ kinded w) (initial_world page));
    [|done].
  split; [apply wf_initial_world|constructor].
Qed.

(** C23. The closures of the script hold elements of the right kind: on
    every reachable page, an element that a listener or a pending
    callback holds exists and passes the test of the selector that found
    it (the guard a [form], the confirmation a
    [.btn-danger[data-action="delete"]], a fallback a
    [button[type="submit"]], an alert callback an [.alert]). *)
Theorem reachable_kinded w x k :
  reachable user (initial_world page) w → (x, k) ∈ held w →
  is_Some (lookup x (w_dom w)) ∧ matches (kind_sel k) (tag_of x (w_dom w)) (attrs_of x (w_dom w)) = true.
Proof.
  intros Hr Hx. pose proof (reachable_held w Hr) as Hk. unfold kinded in Hk.
  rewrite Forall_forall in Hk. specialize (Hk _ Hx).
  split; [by apply (is_kind_lookup _ _ k)|apply Hk].
Qed.

(** C7. No double submission through a busy button: on every reachable
    page, a button that waits for its fallback is an existing
    [button[type="submit"]] that cannot be clicked by the user; a click
    by a script does nothing, and the button submits no form. *)
Theorem pending_button_inert w b :
  reachable user (initial_world page) w → b ∈ pending_restores w →
  is_kind (w_dom w) (b, KSubmit) ∧
  enabled (LClick b) w = false ∧ js_click user b w = (tt, w) ∧ submitted_by b w = None.
Proof.
  intros Hr Hb. pose proof (reachable_page_inv user page w Hr) as [[_ [_ Hdis]] _].
  pose proof (reachable_held w Hr) as Hk. unfold kinded in Hk.
  rewrite Forall_forall in Hdis. rewrite Forall_forall in Hk. specialize (Hdis b Hb).
  pose proof (Hk _ (held_pending w b Hb)) as Hkind.
  destruct Hkind as [Hlt Hm]. pose proof Hm as Hm'%matches_type. simpl in Hm'.
  assert (click_blocked b w = true) as Hc by (unfold click_blocked; by rewrite Hm', Hdis).
  split_and!; [done..| | |].
  - simpl. rewrite Hc. apply andb_false_r.
  - by rewrite js_click_run, Hc.
  - unfold submitted_by. by rewrite Hdis, andb_false_r.
Qed.

End Reachable.

(** ** On the sample page *)

Example sample_held :
  held sample_submitted =
  [(5, KForm); (8, KForm); (10, KForm); (9, KDelete); (3, KAlert); (7, KSubmit)].
Proof. vm_compute. reflexivity. Qed.

Lemma reachable_kinded_witness :
  (7, KSubmit) ∈ held sample_submitted ∧
  is_Some (lookup 7 (w_dom sample_submitted)) ∧
  matches sel_submit (tag_of 7 (w_dom sample_submitted))
    (attrs_of 7 (w_dom sample_submitted)) = true.
Proof.
  assert ((7, KSubmit) ∈ held sample_submitted) as H
    by (apply (bool_decide_unpack _); vm_compute; exact I).
  split; [exact H|].
  exact (reachable_kinded accepter sample_page sample_submitted 7 KSubmit sample_reachable H).
Defined.

Lemma pending_button_inert_witness :
  7 ∈ pending_restores sample_submitted ∧
  is_kind (w_dom sample_submitted) (7, KSubmit) ∧
  enabled (LClick 7) sample_submitted = false ∧
  js_click accepter 7 sample_submitted = (tt, sample_submitted) ∧
  submitted_by 7 sample_submitted = None.
Proof.
  assert (7 ∈ pending_restores sample_submitted) as H
    by (apply (bool_decide_unpack _); vm_compute; exact I).
  split; [exact H|].
  exact (pending_button_inert accepter sample_page sample_submitted 7 sample_reachable H).
Defined.
