(* ===== verification/Loading.v ===== *)
(** * The placeholder of [showLoading] stays

    [showLoading] (lines 49-63) overwrites the content of the first
    [.container] with the placeholder ([showLoading_replaces] says what
    one call does); the script has no function that takes it away.  Yet
    the page goes on: forms that were in the container are still held by
    their listeners, buttons that were guarded have their fallbacks
    pending, alerts their timers.  [frozen c] states that the element
    [c] is not a button and has the placeholder as its content.  It is
    stable on pages whose closures hold elements of the right kind
    ([Kinds.kinded]): the functions of the script write to submit
    buttons and to containers only, the placeholder has neither below
    it, and a submit button that loses or gets back its content is not
    below [c] or takes [c] along.  So once the placeholder is shown, it
    is the content of that element for ever ([loading_persists]): no
    fallback brings back what [showLoading] overwrote. *)

From Stdlib Require Import Ascii String.
From stdpp Require Import base strings option numbers list.
From S2P Require Import Prelude Html Selector Dom DomFacts Queries Subtree EventLoop Page.
From S2P Require Import Samples Guard Bindings Machine Invariants Kinds.

Local Open Scope string_scope.
Local Open Scope list_scope.

(** The element [c] shows the placeholder, and is not a button. *)
Definition frozen (c : nat) (d : dom) : Prop :=
  is_Some (lookup c d) ∧ tag_of c d ≠ "button" ∧ get_innerHTML c d = loading_html.

#[export] Instance frozen_dec c d : Decision (frozen c d).
Proof. unfold frozen. apply _. Defined.

(** ** The writes of the script *)

Section Writes.
Implicit Types (d : dom) (b c x : nat) (h : html) (v : bool).

(** The placeholder has no submit button and no container in it. *)
Lemma loading_html_inert :
  hmatches sel_submit loading_html = 0 ∧ hmatches sel_container loading_html = 0.
Proof. by vm_compute. Qed.

Lemma frozen_lt c d : wf_dom d → frozen c d → c < d_next d.
Proof. intros Hwf [Hc _]. by apply lookup_lt. Qed.

(** Below a frozen element nothing passes the tests of the selectors
    with which the script finds the elements it writes to. *)
Lemma frozen_below c d x sel :
  wf_dom d → frozen c d → hmatches sel loading_html = 0 →
  matches_at sel x d = true → x ∉ forest_ids (kids_of c d).
Proof.
  intros Hwf (_ & _ & Hh) H0 Hm Hx.
  rewrite (no_match_below sel c d x) in Hm; [done..| |done]. by rewrite Hh.
Qed.

(** An assignment to [innerHTML] outside of [c]. *)
Lemma frozen_set_innerHTML c b h d :
  wf_dom d → frozen c d → c ≠ b → b ∉ forest_ids (kids_of c d) →
  frozen c (set_innerHTML b h d).
Proof.
  intros Hwf Hf Hne Hb. pose proof (frozen_lt c d Hwf Hf) as Hlt.
  destruct Hf as ([n Hn] & Htag & Hh). unfold frozen, get_innerHTML.
  rewrite tag_of_set_innerHTML, kids_of_set_innerHTML_outside by eauto.
  split_and!; [|done..]. exists n.
  apply lookup_set_innerHTML_outside; [done..|].
  destruct (lookup_elem _ _ _ Hn) as (tag & a & kids & ->).
  unfold kids_of in Hb. rewrite Hn in Hb. rewrite ids_elem, not_elem_of_cons.
  split; [congruence|done].
Qed.

Lemma frozen_set_disabled c b v d :
  wf_dom d → frozen c d → b ∉ forest_ids (kids_of c d) → frozen c (set_disabled b v d).
Proof.
  intros Hwf ([n Hn] & Htag & Hh) Hb. unfold frozen, get_innerHTML.
  rewrite tag_of_set_disabled, kids_of_set_disabled_outside by done.
  split_and!; [|done..]. unfold set_disabled. rewrite lookup_alter_dom, Hn by done. eauto.
Qed.

(** The two assignments of the guard and of the fallback, to a button
    that passes the test of [button[type="submit"]]. *)
Lemma frozen_button c b h v d :
  wf_dom d → frozen c d → matches_at sel_submit b d = true →
  frozen c (set_disabled b v (set_innerHTML b h d)).
Proof.
  intros Hwf Hf Hm.
  pose proof (frozen_below c d b sel_submit Hwf Hf (proj1 loading_html_inert) Hm) as Hb.
  assert (c ≠ b) as Hne.
  { intros ->. destruct Hf as (_ & Htag & _). by apply matches_type in Hm. }
  apply frozen_set_disabled; [by apply wf_set_innerHTML|by apply frozen_set_innerHTML|].
  by rewrite kids_of_set_innerHTML_outside by (destruct Hf; eauto).
Qed.

(** The assignment of [showLoading], to the first container. *)
Lemma frozen_loading c c' d :
  wf_dom d → frozen c d → document_querySelector sel_container d = Some c' →
  frozen c (set_innerHTML c' loading_html d).
Proof.
  intros Hwf Hf Hc'. destruct (decide (c = c')) as [<-|Hne].
  - pose proof (frozen_lt c d Hwf Hf) as Hlt. destruct Hf as (Hc & Htag & _).
    unfold frozen. rewrite tag_of_set_innerHTML, get_innerHTML_set_innerHTML by done.
    split_and!; [|done..]. by apply lookup_set_innerHTML_is_Some.
  - apply frozen_set_innerHTML; [done..|].
    apply (frozen_below c d c' sel_container); [done..|apply loading_html_inert|].
    by apply document_querySelector_matches.
Qed.

End Writes.

(** ** Stability *)

Section Stable.
Context (user : nat → bool) (c : nat).

Lemma held_fires w t l' :
  take_timer (w_loop w) = Some (t, l') → callback_kind (t_cb t) ∈ held w.
Proof.
  intros (Ht & _)%take_timer_Some. apply elem_of_app. right.
  unfold callbacks. rewrite <-list_fmap_compose. apply list_elem_of_fmap. by exists t.
Qed.

#[export] Instance frozen_stable :
  Stable user (λ w, wf_world w ∧ kinded w) (λ w, frozen c (w_dom w)).
Proof.
  split; try done.
  - intros w this b [[Hwf _] _] H Hb _. apply frozen_button; [done..|].
    by destruct (submit_button_is_kind this w b Hwf Hb).
  - intros w t l' b h [[Hwf _] Hk] H Ht Hcb. apply frozen_button; [done..|].
    unfold kinded in Hk. rewrite Forall_forall in Hk.
    destruct (Hk _ (held_fires w t l' Ht)) as [_ Hm]. by rewrite Hcb in Hm.
  - intros w c' [[Hwf _] _] H Hc'. by apply frozen_loading.
Qed.

#[export] Instance kinded_frozen_stable :
  Stable user anywhere (λ w, (wf_world w ∧ kinded w) ∧ frozen c (w_dom w)).
Proof. apply Stable_under; apply _. Qed.

End Stable.

(** ** One call *)

Section Call.
Implicit Types (w : world) (c x : nat).

Lemma showLoading_frozen w c :
  wf_dom (w_dom w) → document_querySelector sel_container (w_dom w) = Some c →
  tag_of c (w_dom w) ≠ "button" → frozen c (w_dom (exec showLoading w)).
Proof.
  intros Hwf Hc Htag. pose proof (document_querySelector_lookup _ _ _ Hc) as Hl.
  unfold exec. rewrite showLoading_run, Hc. simpl. unfold frozen.
  rewrite tag_of_set_innerHTML, get_innerHTML_set_innerHTML by (try apply lookup_lt; done).
  split_and!; [|done..]. by apply lookup_set_innerHTML_is_Some.
Qed.

(** C38. What [showLoading] does.  It leaves timers, listeners and log
    alone.  On a page with a [.container] the content of the first one
    becomes the spinner markup, whatever it was: the elements that were
    inside it are out of the document, every other element keeps its
    tag and its attributes, the elements that do not contain the
    container keep their children ([changes_only]), the container
    keeps its attributes, and it is [frozen] unless it is a button.  On
    a page without a container nothing changes. *)
Theorem showLoading_replaces w :
  wf_dom (w_dom w) →
  let w' := exec showLoading w in
  w_loop w' = w_loop w ∧ w_listeners w' = w_listeners w ∧ w_log w' = w_log w ∧
  match document_querySelector sel_container (w_dom w) with
  | Some c =>
      get_innerHTML c (w_dom w') = loading_html ∧
      (tag_of c (w_dom w) ≠ "button" → frozen c (w_dom w')) ∧
      changes_only c (w_dom w) (w_dom w') ∧
      attrs_of c (w_dom w') = attrs_of c (w_dom w)
  | None => w' = w
  end.
Proof.
  intros Hwf. pose proof (showLoading_frozen w) as Hf. unfold exec in *.
  rewrite showLoading_run in *.
  destruct (document_querySelector sel_container (w_dom w)) as [c|] eqn:Hc; [|done].
  pose proof (document_querySelector_lookup _ _ _ Hc) as Hl.
  simpl. split_and!; try done.
  - by apply get_innerHTML_set_innerHTML.
  - by apply Hf.
  - by apply changes_only_innerHTML.
  - apply attrs_of_set_innerHTML.
Qed.

End Call.

(** ** Along every run *)

Section Runs.
Context (user : nat → bool) (page : html).
Implicit Types (w : world) (c : nat) (tr : list label).

Lemma frozen_reachable w w' c :
  reachable user (initial_world page) w → frozen c (w_dom w) → reachable user w w' →
  frozen c (w_dom w').
Proof.
  intros Hr Hf Hr'.
  apply (stable_reachable user (λ w, (wf_world w ∧ kinded w) ∧ frozen c (w_dom w)) w);
    [|done]. split_and!; [|by apply (reachable_held user page)|done].
  by apply (reachable_page_inv user page).
Qed.

(** C28. The placeholder stays.  On a reachable page whose first
    container is not a button, after [showLoading] that container is
    [frozen], and it is so after every move that follows (a click, a
    submit of a form that was in the container, the fallback of a button
    that was guarded, the timer of an alert, another call of
    [showLoading]): its content is the placeholder. *)
Theorem loading_persists w c tr w' :
  reachable user (initial_world page) w →
  document_querySelector sel_container (w_dom w) = Some c →
  tag_of c (w_dom w) ≠ "button" →
  run user tr (exec showLoading w) = Some w' →
  frozen c (w_dom w') ∧ get_innerHTML c (w_dom w') = loading_html.
Proof.
  intros Hr Hc Htag Hrun.
  cut (frozen c (w_dom w')); [by intros Hf; split; [|apply Hf]|].
  apply (frozen_reachable (exec showLoading w) w' c); [| |by apply (run_reachable user tr)].
  - eapply reach_step; [done|constructor].
  - apply showLoading_frozen; [|done..]. by apply (reachable_page_inv user page).
Qed.

End Runs.

(** ** On the sample page *)

(** After the first form was submitted the placeholder is shown; then
    the alert timer and the fallback of the button fire, the placeholder
    is shown again, and the form, which has left the document, is
    submitted once more. *)
Definition sample_loading_trace : list label :=
  [LWait 5000; LTimer; LWait 30000; LTimer; LShowLoading; LSubmit 5; LClick 9].

Lemma showLoading_replaces_witness :
  document_querySelector sel_container (w_dom sample_loaded) = Some 2 ∧
  get_innerHTML 2 (w_dom (exec showLoading sample_loaded)) = loading_html.
Proof.
  split; [reflexivity|].
  assert (wf_dom (w_dom sample_loaded)) as Hwf by apply wf_load_document.
  pose proof (showLoading_replaces sample_loaded Hwf) as H.
  change (document_querySelector sel_container (w_dom sample_loaded)) with (Some 2) in H.
  exact (proj1 (proj2 (proj2 (proj2 H)))).
Defined.

Lemma loading_persists_witness :
  document_querySelector sel_container (w_dom sample_submitted) = Some 2 ∧
  ∃ w', run accepter sample_loading_trace (exec showLoading sample_submitted) = Some w' ∧
    get_innerHTML 2 (w_dom w') = loading_html.
Proof.
  split; [vm_compute; reflexivity|].
  destruct (run accepter sample_loading_trace (exec showLoading sample_submitted))
    as [w'|] eqn:Hrun; [|by vm_compute in Hrun].
  exists w'. split; [done|].
  apply (loading_persists accepter sample_page sample_submitted 2 sample_loading_trace w'
           sample_reachable); [vm_compute; reflexivity|by vm_compute|done].
Defined.

(** The hypothesis on the container is needed: when the container is
    itself the submit button of a form, the guard overwrites the
    placeholder at the next submit. *)
Definition button_container_page : html :=
  [HElem "form" []
     [HElem "button" [("type", "submit"); ("class", "container")] [HText "Go"]]].

Example sample_button_container :
  let w := exec showLoading (exec (dispatch accepter load_event)
                               (exec main (served button_container_page))) in
  get_innerHTML 1 (w_dom w) = loading_html ∧
  get_innerHTML 1 (w_dom (exec (dispatch accepter (submit_event 0)) w)) = processing_html.
Proof. vm_compute. done. Qed.
