(* ===== verification/Clicks.v ===== *)
(** * Events on a page set up by the script

    On a page whose registry holds only the bindings of the script
    ([typed]), the listeners that an event reaches are known from its
    type: a click reaches delete confirmations only.  [invoke_fold] is
    the induction principle for a dispatch on such a page, with an
    invariant on the event and the page.  It gives what a click does
    whatever the document looks like: the page is the same but for the
    dialogs ([same_page], an equivalence that the readers of the page
    respect), and the click is cancelled exactly when the user declined
    one of them; so a declined click on a delete button submits nothing
    and starts no guard, and an accepted one submits what the button
    submits. *)

From Stdlib Require Import Ascii String.
From stdpp Require Import base strings option numbers list.
From S2P Require Import Prelude Html Selector Dom DomFacts EventLoop Page Samples.
From S2P Require Import Guard Bindings Activation Machine Invariants Kinds.

Local Open Scope list_scope.

(** [w'] differs from [w] at most in the dialogs shown and in the log. *)
Definition same_page (w w' : world) : Prop :=
  w_dom w' = w_dom w ∧ w_loop w' = w_loop w ∧ w_listeners w' = w_listeners w ∧
  w_bootstrap w' = w_bootstrap w ∧ w_invalid w' = w_invalid w.

(** Whether the user declines one of the [n] dialogs from the [p]-th on. *)
Definition declines (user : nat → bool) (p n : nat) : bool := negb (forallb user (seq p n)).

#[export] Instance same_page_equiv : Equivalence same_page.
Proof.
  split.
  - by intros w.
  - intros w1 w2 (H1 & H2 & H3 & H4 & H5). by split_and!.
  - intros w1 w2 w3 (H1 & H2 & H3 & H4 & H5) (H1' & H2' & H3' & H4' & H5').
    unfold same_page. by rewrite H1', H2', H3', H4', H5'.
Qed.

(** What reads the document, the timers, the registry or the validity
    of the forms cannot tell two such pages apart. *)
#[export] Instance w_dom_proper : Proper (same_page ==> eq) w_dom.
Proof. by intros w w' (-> & _). Qed.

#[export] Instance w_loop_proper : Proper (same_page ==> eq) w_loop.
Proof. by intros w w' (_ & -> & _). Qed.

#[export] Instance w_listeners_proper : Proper (same_page ==> eq) w_listeners.
Proof. by intros w w' (_ & _ & -> & _). Qed.

#[export] Instance w_invalid_proper : Proper (same_page ==> eq) w_invalid.
Proof. by intros w w' (_ & _ & _ & _ & ->). Qed.

#[export] Instance typed_proper : Proper (same_page ==> iff) typed.
Proof. intros w w' H. unfold typed. rewrite H. reflexivity. Qed.

#[export] Instance callbacks_proper : Proper (same_page ==> eq) callbacks.
Proof. intros w w' H. unfold callbacks. by rewrite H. Qed.

#[export] Instance submitted_by_proper btn : Proper (same_page ==> eq) (submitted_by btn).
Proof. intros w w' (Hd & _ & _ & _ & Hi). unfold submitted_by. by rewrite Hd, Hi. Qed.

#[export] Instance kinded_proper : Proper (same_page ==> iff) kinded.
Proof. intros w w' H. unfold kinded, held. rewrite H. reflexivity. Qed.

Lemma listeners_for_typed w this ty f :
  typed w → f ∈ listeners_for this ty w → typed_binding (this, ty, f) = true.
Proof.
  unfold typed, listeners_for. rewrite Forall_forall. intros Hty Hf.
  apply list_elem_of_fmap in Hf as ([[this' ty'] f'] & -> & [Hr Hin]%list_elem_of_filter).
  simpl in Hr. injection Hr as -> ->. by apply Hty.
Qed.

Lemma listeners_for_elem_of w this ty f :
  (this, ty, f) ∈ w_listeners w → f ∈ listeners_for this ty w.
Proof.
  intros H. apply list_elem_of_fmap. exists (this, ty, f). split; [done|].
  by apply list_elem_of_filter.
Qed.

(** ** Induction on a dispatch *)

Section Folds.
Context (user : nat → bool) (ty : event_type) (I : event → world → Prop).
Context (I_typed : ∀ e w, I e w → typed w ∧ e_type e = ty).
Context (I_step : ∀ f this e w,
  typed_binding (this, ty, f) = true → I e w →
  I (run_listener user f this e w).1 (run_listener user f this e w).2).
Implicit Types (w : world) (e : event) (this : target).

(** The listeners of one target. *)
Lemma listeners_fold this fs e w :
  Forall (λ f, typed_binding (this, ty, f) = true) fs → I e w →
  I (foldM (λ e f, run_listener user f this e) e fs w).1
    (foldM (λ e f, run_listener user f this e) e fs w).2.
Proof.
  rewrite Forall_forall. intros Hfs HI. apply (hoare_foldM I); [|done].
  intros e' f Hf w' HI'. apply I_step; [by apply Hfs|done].
Qed.

(** The targets of a path. *)
Lemma invoke_fold path e w :
  I e w → I (foldM (invoke user) e path w).1 (foldM (invoke user) e path w).2.
Proof.
  intros HI. apply (hoare_foldM I); [|done]. intros e1 this _ w1 HI1.
  rewrite invoke_run. destruct (I_typed _ _ HI1) as [Hty He]. rewrite He.
  apply listeners_fold; [|done]. apply Forall_forall. intros f Hf.
  by apply (listeners_for_typed w1).
Qed.

End Folds.

Section Typed.
Context (user : nat → bool).
Implicit Types (w : world) (e : event) (f : listener) (this : target).

(** What the listeners bound for the type of [e] preserve, the dispatch
    of [e] preserves, as long as the registry stays typed. *)
Lemma dispatch_typed (I : world → Prop) e :
  (∀ w, I w → typed w) →
  (∀ f this e', typed_binding (this, e_type e, f) = true →
     preserves I (run_listener user f this e')) →
  preserves I (dispatch user e).
Proof.
  intros Hty Hf w Hw. rewrite dispatch_run.
  assert (I (foldM (invoke user) e (propagation_path (e_target e) w) w).2 ∧
          e_type (foldM (invoke user) e (propagation_path (e_target e) w) w).1 = e_type e)
    as [H _]; [|exact H].
  apply (invoke_fold user (e_type e) (λ e' w', I w' ∧ e_type e' = e_type e)); [| |done].
  - intros e' w' [HI He]. auto.
  - intros f this e' w' Hb [HI He]. split; [by apply Hf|]. by rewrite run_listener_type.
Qed.

(** The first listener of an event, then the others. *)
Lemma dispatch_head e this rest f fs w :
  propagation_path (e_target e) w = this :: rest →
  listeners_for this (e_type e) w = f :: fs →
  dispatch user e w =
  (e1 <- run_listener user f this e ;;
   e2 <- foldM (λ e' f', run_listener user f' this e') e1 fs ;;
   foldM (invoke user) e2 rest) w.
Proof.
  intros Hp Hl. rewrite dispatch_run, Hp. cbn [foldM]. unfold bind at 1.
  rewrite invoke_run, Hl. cbn [foldM]. unfold bind.
  by destruct (run_listener user f this e w) as [e1 w1].
Qed.

End Typed.

(** ** Clicks *)

Section Clicks.
Context (user : nat → bool).
Implicit Types (w : world) (e : event) (el : nat).

Lemma declines_S p n : declines user p (S n) = declines user p n || negb (user (p + n)).
Proof.
  unfold declines. rewrite seq_S, forallb_app. simpl.
  by rewrite andb_true_r, negb_andb.
Qed.

(** The state of a click among the listeners: the page is [w] but for
    the dialogs, and the click is cancelled if it was before or if the
    user has declined a dialog since. *)
Definition clicking (w : world) (e0 e : event) (w' : world) : Prop :=
  (typed w' ∧ e_type e = Click) ∧ same_page w w' ∧ w_prompts w ≤ w_prompts w' ∧
  e_defaultPrevented e =
    e_defaultPrevented e0 || declines user (w_prompts w) (w_prompts w' - w_prompts w).

Lemma clicking_start w e : typed w → e_type e = Click → clicking w e e w.
Proof.
  intros Hty He. split_and!; try done. rewrite Nat.sub_diag. unfold declines. simpl.
  by rewrite orb_false_r.
Qed.

Lemma clicking_step w e0 f this e w' :
  typed_binding (this, Click, f) = true → clicking w e0 e w' →
  clicking w e0 (run_listener user f this e w').1 (run_listener user f this e w').2.
Proof.
  intros Hb ([Hty He] & Hsp & Hle & Hp). destruct this as [|x], f; try done.
  simpl. rewrite confirmListener_run. simpl.
  split_and!; [done|by destruct (user _)|by transitivity w'|simpl; lia|]. simpl.
  replace (S (w_prompts w') - w_prompts w) with (S (w_prompts w' - w_prompts w)) by lia.
  rewrite declines_S. replace (w_prompts w + (w_prompts w' - w_prompts w)) with (w_prompts w')
    by lia.
  destruct (user (w_prompts w')); simpl; [by rewrite Hp, orb_false_r|].
  by rewrite !orb_true_r.
Qed.

Lemma dispatch_clicking el w :
  typed w →
  clicking w (click_event el) (eval (dispatch user (click_event el)) w)
    (exec (dispatch user (click_event el)) w).
Proof.
  intros Hty. unfold eval, exec. rewrite dispatch_run.
  apply (invoke_fold user Click (clicking w (click_event el)));
    [by intros e w' [? _]|intros f this e w'; apply clicking_step|by apply clicking_start].
Qed.

(** The listeners of a click are delete confirmations: they leave the
    document, the timers and the registry alone. *)
Lemma click_same_page el w :
  typed w → same_page w (exec (dispatch user (click_event el)) w).
Proof. by intros (_ & ? & _)%(dispatch_clicking el). Qed.

(** The form that a click submits, if any: none if the user declines a
    dialog, else the one that the activation target submits. *)
Definition click_submits_form (el : nat) (w : world) : option nat :=
  let w1 := exec (dispatch user (click_event el)) w in
  if declines user (w_prompts w) (w_prompts w1 - w_prompts w) then None
  else activation_target el (w_dom w) ≫= (λ btn, submitted_by btn w).

(** A click, whole: the listeners, then the submit of that form. *)
Lemma fire_click_decides el w :
  typed w →
  exec (fire_click user el) w =
  let w1 := exec (dispatch user (click_event el)) w in
  match click_submits_form el w with
  | Some form => exec (dispatch user (submit_event form)) w1
  | None => w1
  end.
Proof.
  intros Hty. destruct (dispatch_clicking el w Hty) as (_ & Hsp & _ & Hp).
  unfold exec, eval, click_submits_form in *. rewrite fire_click_run. simpl in *.
  rewrite Hp. destruct (declines _ _ _); [done|]. unfold activated.
  destruct (activation_target el (w_dom w)) as [btn|]; [|done]. simpl.
  by rewrite <-Hsp.
Qed.

(** A click on an element with a confirmation whose first dialog the
    user declines is cancelled. *)
Lemma declined_cancels el w :
  typed w → is_Some (lookup el (w_dom w)) →
  (Element el, Click, ConfirmDelete) ∈ w_listeners w → user (w_prompts w) = false →
  e_defaultPrevented (eval (dispatch user (click_event el)) w) = true.
Proof.
  intros Hty [rest Hrest]%event_path_cons Hin%listeners_for_elem_of Hu.
  destruct (listeners_for (Element el) Click w) as [|f fs] eqn:Hl; [by apply elem_of_nil in Hin|].
  assert (Forall (λ f', typed_binding (Element el, Click, f') = true) (f :: fs)) as Hfs.
  { apply Forall_forall. intros f' Hf'. apply (listeners_for_typed w); [done|]. by rewrite Hl. }
  apply Forall_cons in Hfs as [Hf Hfs]. destruct f; try done.
  pose (I := λ (e : event) (w' : world),
    (typed w' ∧ e_type e = Click) ∧ e_defaultPrevented e = true).
  assert (∀ f this e w', typed_binding (this, Click, f) = true → I e w' →
            I (run_listener user f this e w').1 (run_listener user f this e w').2) as Hstep.
  { intros f [|x] e w' Hb [[Hty' He] Hp]; destruct f; try done. simpl.
    rewrite confirmListener_run. unfold I. simpl. destruct (user (w_prompts w')); by split_and!. }
  unfold eval.
  rewrite (dispatch_head user (click_event el) (Element el)
             ((Element <$> rest) ++ (if attached el (w_dom w) then [Document] else []))
             ConfirmDelete fs w); [|by simpl; rewrite Hrest|exact Hl].
  unfold bind. simpl. rewrite confirmListener_run, Hu. cbn [fst snd].
  assert (I (preventDefault (click_event el)) (asked user confirm_message w)) as HI1 by done.
  pose proof (listeners_fold user Click I Hstep (Element el) fs _ _ Hfs HI1) as HI2.
  revert HI2. destruct (foldM _ _ fs _) as [e2 w2]. simpl. intros HI2.
  by apply (invoke_fold user Click I); [intros e w' [? _]| |].
Qed.

Context (page : html).

(** C29. What a click does to a reachable page, whatever the document:
    the listeners leave the document, the timers and the registry as
    they are; the click comes back cancelled exactly when the user
    declined one of the dialogs that it opened; and if it was not
    cancelled and the element activated is a submit button that submits
    a form, that form fires [submit] on the page that the listeners
    left, and nothing else happens. *)
Theorem click_outcome w el :
  reachable user (initial_world page) w →
  let w1 := exec (dispatch user (click_event el)) w in
  same_page w w1 ∧
  e_defaultPrevented (eval (fire_click user el) w) =
    declines user (w_prompts w) (w_prompts w1 - w_prompts w) ∧
  exec (fire_click user el) w =
    match click_submits_form el w with
    | Some form => exec (dispatch user (submit_event form)) w1
    | None => w1
    end.
Proof.
  intros (_ & Hty & _)%reachable_page_inv.
  destruct (dispatch_clicking el w Hty) as (_ & Hsp & _ & Hp).
  split_and!; [done| |by apply fire_click_decides].
  unfold eval. by rewrite fire_click_run.
Qed.

(** C8. Declining protects: on every reachable page, a click on an
    element that carries the delete confirmation, when the user declines
    the dialog, is cancelled and changes nothing but the log and the
    number of dialogs: no form is submitted and no guard starts. *)
Theorem declined_click_inert w el :
  reachable user (initial_world page) w →
  (Element el, Click, ConfirmDelete) ∈ w_listeners w →
  user (w_prompts w) = false →
  e_defaultPrevented (eval (fire_click user el) w) = true ∧
  same_page w (exec (fire_click user el) w).
Proof.
  intros Hr Hin Hu. pose proof (reachable_page_inv user page w Hr) as (_ & Hty & _).
  assert (e_defaultPrevented (eval (dispatch user (click_event el)) w) = true) as Hp.
  { apply declined_cancels; [done| |done..]. apply (is_kind_lookup _ _ KDelete).
    pose proof (reachable_held user page w Hr) as Hk. unfold kinded in Hk.
    rewrite Forall_forall in Hk. apply Hk.
    by apply (held_binding w (Element el, Click, ConfirmDelete)). }
  unfold eval, exec in *. rewrite fire_click_run. simpl. rewrite Hp.
  split; [done|]. by apply click_same_page.
Qed.

End Clicks.

(** ** On the sample page *)

Lemma sample_loaded_reach (user : nat → bool) :
  reachable user (initial_world sample_page) sample_loaded.
Proof.
  apply (run_reachable user [LBootstrap; LScript; LContentLoaded]).
  vm_compute. reflexivity.
Qed.

Lemma click_outcome_witness :
  click_submits_form accepter 9 sample_loaded = Some 8 ∧
  exec (fire_click accepter 9) sample_loaded =
  exec (dispatch accepter (submit_event 8))
    (exec (dispatch accepter (click_event 9)) sample_loaded).
Proof.
  assert (click_submits_form accepter 9 sample_loaded = Some 8) as H
    by (vm_compute; reflexivity).
  split; [exact H|].
  destruct (click_outcome accepter sample_page sample_loaded 9 (sample_loaded_reach accepter))
    as (_ & _ & E).
  rewrite H in E. exact E.
Defined.

Lemma declined_click_inert_witness :
  (Element 9, Click, ConfirmDelete) ∈ w_listeners sample_loaded ∧
  e_defaultPrevented (eval (fire_click decliner 9) sample_loaded) = true ∧
  same_page sample_loaded (exec (fire_click decliner 9) sample_loaded).
Proof.
  assert ((Element 9, Click, ConfirmDelete) ∈ w_listeners sample_loaded) as H
    by (apply (bool_decide_unpack _); vm_compute; exact I).
  split; [exact H|].
  exact (declined_click_inert decliner sample_page sample_loaded 9
           (sample_loaded_reach decliner) H eq_refl).
Defined.
