(* ===== verification/Timers.v ===== *)
(** * Timers and clicks on a page set up by the script

    On a page whose registry holds only the bindings of the script
    ([typed]), a click reaches only delete confirmations and, through the
    default action of a submit button, the submit guards.  So a predicate
    that the guard, the dialog and the log preserve survives every click
    and every alert callback, and every event if the set-up of the page
    preserves it too (Section [Events]); the callback of an alert
    sets no alert timer and at most one fallback timer for each binding
    of the registry, a fallback sets none (Section [Cost]); and the
    timers that are pending all fire: [drain] with [drain_fuel] units of
    fuel empties the queue, and every button that the guard has disabled
    is enabled again once it has (Section [Liveness]). *)

From Stdlib Require Import Ascii String.
From stdpp Require Import base strings option numbers list.
From S2P Require Import Prelude Html Selector Dom DomFacts EventLoop Page Samples.
From S2P Require Import Guard Bindings Activation Machine Invariants Kinds Clicks.

Local Open Scope list_scope.

(** [w'] has the registry and the alert timers of [w]. *)
Definition quiet (w w' : world) : Prop :=
  w_listeners w' = w_listeners w ∧ pending_alerts w' = pending_alerts w.

(** The number of pending timers. *)
Definition queue_size (w : world) : nat := length (l_timers (w_loop w)).

(** The firings that empty the queue: one for each pending timer, and
    for each pending alert one more for each binding, whose guard the
    click on the close control may start. *)
Definition drain_fuel (w : world) : nat :=
  length (pending_alerts w) * length (w_listeners w) + queue_size w.

Section Drain.
Context (user : nat → bool).

(** Let the timers fire, one after the other, at most [fuel] of them. *)
Fixpoint drain (fuel : nat) : prog unit :=
  match fuel with
  | 0 => ret tt
  | S fuel' =>
      fired <- run_timer user ;;
      if fired then drain fuel' else ret tt
  end.

End Drain.

#[export] Instance queue_size_proper : Proper (same_page ==> eq) queue_size.
Proof. intros w w' H. unfold queue_size. by rewrite H. Qed.

(** ** What survives a click or a submit

    A predicate on pages that the guard, the confirmation dialog and the
    log preserve is preserved by every event that is not the load event,
    by the click with its default action, and by the callback of an
    alert. *)

Section Events.
Context (user : nat → bool) (J : world → Prop).
Context (J_guard : ∀ w this b,
  page_inv w → J w → submit_button this w = Some b → get_disabled b (w_dom w) = false →
  J (guard_effect b w)).
Context (J_asked : ∀ w, page_inv w → J w → J (asked user confirm_message w)).
Context (J_log : ∀ w o, page_inv w → J w → is_dialog o = false → J (with_log o w)).
Implicit Types (w : world) (e : event).

Lemma dispatch_event e w :
  e_type e ≠ DOMContentLoaded → page_inv w → J w → J (exec (dispatch user e) w).
Proof.
  intros He Hinv HJ.
  apply (dispatch_typed user (λ w', page_inv w' ∧ J w') e); [by intros w' [(_ & ? & _) _]| |done].
  intros f this e' Hb w1 [Hinv1 HJ1]. split; [by apply (listener_preserves user page_inv)|].
  destruct this as [|x], f, (e_type e); try done; simpl.
  - rewrite submitListener_run. destruct (submit_button _ w1) as [b|] eqn:Hq; [|done].
    destruct (get_disabled b (w_dom w1)) eqn:Hd; [done|]. by eapply J_guard.
  - rewrite confirmListener_run. by apply J_asked.
Qed.

Lemma fire_click_event el w : page_inv w → J w → J (exec (fire_click user el) w).
Proof.
  intros Hinv HJ. destruct (fire_click_cases user el w) as [->|[form ->]].
  - by apply dispatch_event.
  - apply dispatch_event; [done|by apply (dispatch_stable user page_inv)|].
    by apply dispatch_event.
Qed.

Lemma hideAlert_event alert w : page_inv w → J w → J (exec (hideAlert user alert) w).
Proof.
  intros Hinv HJ. destruct (hideAlert_cases user alert w) as [->|(c & o & Ho & ->)]; [done|].
  apply J_log; [|by apply fire_click_event|done].
  by apply (fire_click_stable user page_inv).
Qed.

Lemma run_callback_event cb w :
  (∀ b h, cb = RestoreButton b h → J (restore_effect b h w)) →
  page_inv w → J w → J (exec (run_callback user cb) w).
Proof. destruct cb as [b h|alert]; [by intros H _ _; apply H|intros _; apply hideAlert_event]. Qed.

(** The load event, when the set-up of the page preserves the predicate
    as well. *)
Context (J_loaded : ∀ w, page_inv w → J w → J (loaded w)).

(** An event other than a submit reaches no guard. *)
Lemma unguarded_event e w :
  e_type e ≠ Submit → page_inv w → J w → J (exec (dispatch user e) w).
Proof.
  intros He Hinv HJ.
  apply (dispatch_typed user (λ w', page_inv w' ∧ J w') e);
    [by intros w' [(_ & ? & _) _]| |done].
  intros f this e' Hb w1 [Hinv1 HJ1]. split; [by apply (listener_preserves user page_inv)|].
  destruct this, f, (e_type e); try done.
  - rewrite run_load_listener. simpl. unfold after_load.
    destruct (tooltips_possible w1); [by apply J_loaded|by apply J_log].
  - simpl. rewrite confirmListener_run. by apply J_asked.
Qed.

(** So every event preserves it. *)
Lemma any_event e w : page_inv w → J w → J (exec (dispatch user e) w).
Proof.
  destruct (decide (e_type e = Submit)) as [He|He]; [|by apply unguarded_event].
  apply dispatch_event. by rewrite He.
Qed.

End Events.

(** ** The registry and the alert timers *)

Section Quiet.
Context (user : nat → bool).
Implicit Types (w : world).

Lemma quiet_guard w0 w b : quiet w0 w → quiet w0 (guard_effect b w).
Proof. intros [Hl Ha]. split; [done|]. by rewrite pending_alerts_guard. Qed.

Lemma dispatch_quiet e w :
  e_type e ≠ DOMContentLoaded → page_inv w → quiet w (exec (dispatch user e) w).
Proof.
  intros He Hinv. apply (dispatch_event user (quiet w)); try done.
  intros w1 this b _ H _ _. by apply quiet_guard.
Qed.

Lemma fire_click_quiet el w : page_inv w → quiet w (exec (fire_click user el) w).
Proof.
  intros Hinv. apply (fire_click_event user (quiet w)); try done.
  intros w1 this b _ H _ _. by apply quiet_guard.
Qed.

Lemma hideAlert_quiet alert w : page_inv w → quiet w (exec (hideAlert user alert) w).
Proof.
  intros Hinv. apply (hideAlert_event user (quiet w)); try done.
  intros w1 this b _ H _ _. by apply quiet_guard.
Qed.

Lemma run_callback_quiet cb w : page_inv w → quiet w (exec (run_callback user cb) w).
Proof. destruct cb as [b h|alert]; [done|]. apply hideAlert_quiet. Qed.

End Quiet.

(** ** How many timers an event sets *)

Section Cost.
Context (user : nat → bool).
Implicit Types (w : world) (e : event) (f : listener) (this : target).

Lemma propagation_path_NoDup this w : wf_dom (w_dom w) → NoDup (propagation_path this w).
Proof.
  intros Hwf. destruct this as [|el]; simpl; [apply NoDup_singleton|].
  apply NoDup_app. split_and!.
  - apply NoDup_fmap_2; [by intros ?? [= ->]|by apply event_path_NoDup].
  - intros x (y & -> & _)%list_elem_of_fmap Hx.
    destruct (attached el (w_dom w)); [by apply list_elem_of_singleton in Hx|].
    by apply elem_of_nil in Hx.
  - destruct (attached el (w_dom w)); [apply NoDup_singleton|constructor].
Qed.

(** Distinct targets have distinct bindings. *)
Lemma listeners_for_sum ty w (path : list target) :
  NoDup path →
  sum_list ((λ this, length (listeners_for this ty w)) <$> path) ≤ length (w_listeners w).
Proof.
  intros Hnd.
  pose proof (sum_filter_key fst ((λ this, (this, ty)) <$> path) (w_listeners w)) as H.
  rewrite <-list_fmap_compose in H.
  etrans; [|apply H, NoDup_fmap_2; [by intros ?? [= ->]|done]].
  apply Nat.eq_le_incl. f_equal. apply list_fmap_ext. intros i this _.
  unfold listeners_for. by rewrite length_fmap.
Qed.

(** A listener of the script other than the load listener sets at most
    one timer and binds nothing. *)
Lemma listener_cost f this ty e w :
  ty ≠ DOMContentLoaded → typed_binding (this, ty, f) = true →
  w_listeners (run_listener user f this e w).2 = w_listeners w ∧
  queue_size (run_listener user f this e w).2 ≤ queue_size w + 1.
Proof.
  unfold queue_size. intros Hty Hb. destruct this as [|x], f, ty; try done; simpl.
  - rewrite submitListener_run. destruct (submit_button _ w) as [b|]; [|simpl; split; [done|lia]].
    destruct (get_disabled b (w_dom w)); simpl; [split; [done|lia]|].
    split; [done|]. rewrite length_app. simpl. lia.
  - rewrite confirmListener_run. simpl. split; [done|lia].
Qed.

(** An event that is not the load event sets at most one timer for each
    binding of the registry. *)
Lemma dispatch_cost e w :
  e_type e ≠ DOMContentLoaded → typed w → wf_dom (w_dom w) →
  queue_size (exec (dispatch user e) w) ≤ queue_size w + length (w_listeners w).
Proof.
  intros He Hty Hwf. unfold exec. rewrite dispatch_run.
  pose (I := λ (e' : event) (w' : world),
    e_type e' = e_type e ∧ w_listeners w' = w_listeners w).
  destruct (foldM_cost I queue_size (λ this, length (listeners_for this (e_type e) w))
              (invoke user) (propagation_path (e_target e) w) e w) as [_ H]; [|done|].
  - intros e1 this w1 _ [He1 Hl1]. rewrite invoke_run, He1.
    assert (listeners_for this (e_type e) w1 = listeners_for this (e_type e) w) as ->
      by (unfold listeners_for; by rewrite Hl1).
    destruct (foldM_cost I queue_size (λ _, 1) (λ e' f, run_listener user f this e')
                (listeners_for this (e_type e) w) e1 w1) as [HI Hm]; [|done|].
    + intros e2 f w2 Hf [He2 Hl2].
      destruct (listener_cost f this (e_type e) e2 w2) as [Hl Hc];
        [done|by eapply listeners_for_typed|].
      split; [split; [by rewrite run_listener_type|by rewrite Hl]|done].
    + split; [done|]. rewrite sum_list_fmap_const in Hm. lia.
  - etrans; [exact H|]. by apply Nat.add_le_mono_l, listeners_for_sum, propagation_path_NoDup.
Qed.

Lemma fire_click_cost el w :
  typed w → wf_dom (w_dom w) →
  queue_size (exec (fire_click user el) w) ≤ queue_size w + length (w_listeners w).
Proof.
  intros Hty Hwf. pose proof (click_same_page user el w Hty) as Hsp.
  destruct (fire_click_cases user el w) as [->|[form ->]].
  - rewrite <-Hsp. lia.
  - etrans; [apply dispatch_cost; [done|by rewrite <-Hsp..]|]. by rewrite <-Hsp.
Qed.

Lemma hideAlert_cost alert w :
  typed w → wf_dom (w_dom w) →
  queue_size (exec (hideAlert user alert) w) ≤ queue_size w + length (w_listeners w).
Proof.
  intros Hty Hwf. destruct (hideAlert_cases user alert w) as [->|(c & o & _ & ->)]; [lia|].
  by apply fire_click_cost.
Qed.

Lemma run_callback_cost cb w :
  typed w → wf_dom (w_dom w) →
  queue_size (exec (run_callback user cb) w) ≤ queue_size w + length (w_listeners w).
Proof.
  destruct cb as [b h|alert]; [unfold queue_size; simpl; lia|]. apply hideAlert_cost.
Qed.

End Cost.

(** ** All timers fire *)

Section Liveness.
Context (user : nat → bool).
Implicit Types (w : world) (b : nat).

(** [b] is waiting for its fallback, or is an enabled element. *)
Definition recovering (b : nat) (w : world) : Prop :=
  b ∈ pending_restores w ∨
  (get_disabled b (w_dom w) = false ∧ b < d_next (w_dom w)).

Lemma drain_S n w :
  drain user (S n) w =
  match take_timer (w_loop w) with
  | Some (t, l') => drain user n (exec (run_callback user (t_cb t)) (with_loop (λ _, l') w))
  | None => (tt, w)
  end.
Proof.
  cbn [drain]. unfold bind. rewrite run_timer_run.
  by destruct (take_timer (w_loop w)) as [[t l']|].
Qed.

(** Each firing uses up one unit of fuel. *)
Lemma fire_fuel w t l' :
  page_inv w → take_timer (w_loop w) = Some (t, l') →
  drain_fuel (exec (run_callback user (t_cb t)) (with_loop (λ _, l') w)) < drain_fuel w.
Proof.
  intros Hinv Ht. pose proof Hinv as ([[Hwf Hl] _] & Hty & _).
  pose proof (take_timer_length _ _ _ Hl Ht) as Hlen.
  destruct (pending_alerts_take w t l' Hl Ht) as (a1 & a2 & E1 & E2).
  pose proof (page_inv_take w t l' Hinv Ht) as Hinv1.
  destruct (run_callback_quiet user (t_cb t) _ Hinv1) as [Hq1 Hq2].
  unfold drain_fuel. rewrite Hq1, Hq2, E2, E1, !length_app. simpl w_listeners.
  destruct (t_cb t) as [b h|alert]; unfold queue_size in *; simpl in *; [lia|].
  pose proof (hideAlert_cost user alert (with_loop (λ _, l') w) Hty Hwf) as Hc.
  unfold queue_size in Hc. simpl in Hc. lia.
Qed.

Lemma drain_empties_inv n w :
  page_inv w → drain_fuel w ≤ n → l_timers (w_loop (exec (drain user n) w)) = [].
Proof.
  revert w; induction n as [|n IH]; intros w Hinv Hlen.
  - apply nil_length_inv. unfold drain_fuel, queue_size in Hlen. cbn [drain exec ret snd]. lia.
  - unfold exec. rewrite drain_S.
    destruct (take_timer (w_loop w)) as [[t l']|] eqn:Ht; [|by apply take_timer_None].
    apply IH; [by apply (fire_preserves user page_inv)|].
    pose proof (fire_fuel w t l' Hinv Ht). lia.
Qed.

(** The guard of [b'] leaves [b] recovering: it makes [b'] wait for its
    fallback and touches the attributes of no other element. *)
Lemma guard_recovering w b b' :
  page_inv w → recovering b w → recovering b (guard_effect b' w).
Proof.
  intros ([[Hwf _] _] & _) Hb. unfold recovering. rewrite pending_restores_guard.
  destruct (decide (b = b')) as [->|Hne]; [left; apply elem_of_app; right; left|].
  destruct Hb as [Hb|[Hb Hlt]]; [left; apply elem_of_app; by left|right]. simpl.
  rewrite get_disabled_set_disabled_other, get_disabled_set_innerHTML_any by done.
  split; [done|].
  pose proof (d_next_set_innerHTML b' processing_html (w_dom w)). lia.
Qed.

(** Firing the fallback of [b] enables [b]; firing anything else leaves
    [b] as it is. *)
Lemma restore_recovering w b b' h p1 p2 :
  wf_world w → guarded w →
  pending_restores w = p1 ++ p2 → NoDup (p1 ++ b' :: p2) →
  get_disabled b' (w_dom w) = true →
  b ∈ p1 ++ b' :: p2 ∨ (get_disabled b (w_dom w) = false ∧ b < d_next (w_dom w)) →
  recovering b (restore_effect b' h w).
Proof.
  intros [Hwf _] _ Hp Hnd Hb' Hb. unfold recovering.
  change (pending_restores (restore_effect b' h w)) with (pending_restores w). rewrite Hp.
  pose proof (d_next_set_innerHTML b' h (w_dom w)) as Hnext.
  assert (is_Some (lookup b' (w_dom w))) as Hl by by apply get_disabled_lookup.
  destruct (decide (b = b')) as [->|Hne].
  - right. simpl. split.
    + by apply get_disabled_set_disabled, lookup_set_innerHTML_is_Some.
    + apply (lookup_lt _ _ Hwf) in Hl. lia.
  - destruct Hb as [Hb|[Hb Hlt]]; [left|right].
    + rewrite elem_of_app, elem_of_cons in Hb. rewrite elem_of_app. tauto.
    + simpl. rewrite get_disabled_set_disabled_other, get_disabled_set_innerHTML_any by done.
      split; [done|lia].
Qed.

Lemma fire_recovering w t l' b :
  page_inv w → take_timer (w_loop w) = Some (t, l') → recovering b w →
  recovering b (exec (run_callback user (t_cb t)) (with_loop (λ _, l') w)).
Proof.
  intros Hinv Ht Hb. pose proof Hinv as ([[Hwf Hl] [Hnd Hdis]] & Hty & _).
  destruct (pending_restores_take w t l' Hl Ht) as (p1 & p2 & E1 & E2).
  destruct (t_cb t) as [b' h|alert] eqn:Hcb; simpl in E1.
  - unfold recovering in Hb. rewrite E1 in Hnd, Hdis, Hb. simpl.
    apply (restore_recovering (with_loop (λ _, l') w) b b' h p1 p2); try done.
    + split; [done|]. by eapply wf_take_timer.
    + split; rewrite E2; [by apply NoDup_remove_middle in Hnd as [? _]|].
      apply Forall_app in Hdis as [? [_ ?]%Forall_cons]. by apply Forall_app.
    + rewrite Forall_forall in Hdis. apply Hdis. rewrite elem_of_app, elem_of_cons. tauto.
  - apply (hideAlert_event user (recovering b)); try done.
    + intros w1 this b1 Hinv1 Hb1 _ _. by apply guard_recovering.
    + eapply page_inv_take; [done|exact Ht].
    + unfold recovering in *. by rewrite E2, <-E1.
Qed.

Lemma drain_recovers_inv n w b :
  page_inv w → drain_fuel w ≤ n → recovering b w →
  get_disabled b (w_dom (exec (drain user n) w)) = false.
Proof.
  assert (∀ w, l_timers (w_loop w) = [] → recovering b w → get_disabled b (w_dom w) = false)
    as Hnil.
  { intros w' Hts [Hb|[Hb _]]; [|done]. unfold pending_restores, callbacks in Hb.
    rewrite Hts in Hb. by apply elem_of_nil in Hb. }
  revert w; induction n as [|n IH]; intros w Hinv Hlen Hb.
  - apply Hnil; [|done]. apply nil_length_inv. unfold drain_fuel, queue_size in Hlen.
    cbn [drain exec ret snd]. lia.
  - unfold exec. rewrite drain_S.
    destruct (take_timer (w_loop w)) as [[t l']|] eqn:Ht;
      [|by apply Hnil; [apply take_timer_None|]].
    apply IH; [by apply (fire_preserves user page_inv)| |by apply fire_recovering].
    pose proof (fire_fuel w t l' Hinv Ht). lia.
Qed.

Context (page : html).

(** The timers terminate: on every reachable page, if nothing else
    happens, the pending timers fire one after the other and the queue is
    empty after [drain_fuel] firings.  A fallback sets no timer; the
    callback of an alert sets no alert timer and, through the click on
    the close control, at most one fallback for each binding. *)
Lemma timers_all_fire w :
  reachable user (initial_world page) w →
  l_timers (w_loop (exec (drain user (drain_fuel w)) w)) = [].
Proof. intros Hinv%reachable_page_inv. by apply drain_empties_inv. Qed.

(** C4. Every guarded button recovers: on every reachable page, a button
    that waits for its fallback is enabled once the pending timers have
    fired, whatever else the other callbacks did. *)
Theorem guarded_button_recovers w b :
  reachable user (initial_world page) w →
  b ∈ pending_restores w →
  get_disabled b (w_dom (exec (drain user (drain_fuel w)) w)) = false.
Proof. intros Hinv%reachable_page_inv Hb. apply drain_recovers_inv; [done..|by left]. Qed.

(** C33. How many timers a move sets: on every reachable page, a move
    other than the load event leaves at most one more pending timer for
    each binding of the registry. *)
Theorem step_queue_bound w a w' :
  reachable user (initial_world page) w → step user w a w' → a ≠ LContentLoaded →
  queue_size w' ≤ queue_size w + length (w_listeners w).
Proof.
  intros Hinv%reachable_page_inv Hstep Ha.
  pose proof Hinv as ([[Hwf Hl] _] & Hty & _). destruct Hstep; try done.
  - unfold queue_size; simpl; lia.
  - unfold queue_size; simpl; lia.
  - by apply dispatch_cost.
  - by apply fire_click_cost.
  - unfold queue_size; simpl; lia.
  - pose proof (take_timer_length _ _ _ Hl H) as Hlen.
    pose proof (run_callback_cost user (t_cb t) (with_loop (λ _, l') w) Hty Hwf) as Hc.
    unfold queue_size in *. simpl in Hc. lia.
  - unfold queue_size; simpl; lia.
  - unfold exec. rewrite showLoading_run.
    destruct (document_querySelector _ _); unfold queue_size; simpl; lia.
Qed.

End Liveness.

(** ** On the sample page *)

Example sample_timers_all_fire :
  l_timers (w_loop (exec (drain accepter (drain_fuel sample_submitted)) sample_submitted)) = [].
Proof. apply (timers_all_fire accepter sample_page sample_submitted sample_reachable). Qed.

Lemma guarded_button_recovers_witness :
  7 ∈ pending_restores sample_submitted ∧
  get_disabled 7
    (w_dom (exec (drain accepter (drain_fuel sample_submitted)) sample_submitted)) = false.
Proof.
  assert (7 ∈ pending_restores sample_submitted) as H
    by (apply (bool_decide_unpack _); vm_compute; exact I).
  split; [exact H|].
  apply (guarded_button_recovers accepter sample_page sample_submitted 7 sample_reachable H).
Defined.

Example sample_drain_fuel : drain_fuel sample_submitted = 7.
Proof. vm_compute. reflexivity. Qed.

Lemma step_queue_bound_witness :
  queue_size sample_submitted ≤ queue_size sample_loaded + length (w_listeners sample_loaded).
Proof.
  apply (step_queue_bound accepter sample_page sample_loaded (LSubmit 5) sample_submitted).
  - apply sample_loaded_reach.
  - apply run_label_step. vm_compute. reflexivity.
  - discriminate.
Defined.
