(* ===== verification/GuardTable.v ===== *)
(** * The submit guards of a page as a table

    The specification of the loading state for the whole page, without
    the document, the listeners and the alert timers: the time, and a
    finite map from the buttons that wait for their fallback to the
    content that they will get back and the time at which they get it
    ([guards]).  [guards_step] says what each move of the page may do to
    this table: a submit or a click adds entries, each due 30000 ms
    later; a timer removes the entry that is due first, at its due time,
    or, when it is the timer of an alert, adds entries like a click;
    nothing else touches it.  [guards_wf] is the invariant of this
    machine, proved of the machine alone.

    [guards_of] reads the table off the timer queue of a page, and
    [page_refinement] shows that every move of a reachable page is a
    move of the table; so what holds of every run of the table holds of
    every run of the page ([table_invariant]). *)

From Stdlib Require Import Ascii String.
From stdpp Require Import base strings option numbers list gmap.
From S2P Require Import Prelude Html Selector Dom DomFacts EventLoop Page Samples.
From S2P Require Import Guard Bindings Machine Invariants Clicks Timers.

Local Open Scope list_scope.

(** ** The table *)

Record entry : Type := Entry {
  e_original : html;
  e_due : N
}.

Record guards : Type := Guards {
  g_now : N;
  g_busy : gmap nat entry
}.

(** No entry is due before [t]. *)
Definition first_due (t : N) (g : guards) : Prop :=
  map_Forall (λ _ e, (t ≤ e_due e)%N) (g_busy g).

(** [g'] has the entries of [g] and new ones, due after the delay of the
    fallback from the time of [g']. *)
Definition extends (g g' : guards) : Prop :=
  g_busy g ⊆ g_busy g' ∧
  ∀ b e, g_busy g' !! b = Some e → g_busy g !! b = None →
    e_due e = (g_now g' + submit_fallback_delay)%N.

(** The moves that leave the table alone. *)
Definition idle_move (a : label) : bool :=
  match a with
  | LBootstrap | LScript | LContentLoaded | LInput _ _ | LShowLoading => true
  | _ => false
  end.

Inductive guards_step : guards → label → guards → Prop :=
| guards_submit form g g' :
    g_now g' = g_now g → extends g g' → guards_step g (LSubmit form) g'
| guards_click el g g' :
    g_now g' = g_now g → extends g g' → guards_step g (LClick el) g'
| guards_timeout b e g :
    g_busy g !! b = Some e → first_due (e_due e) g →
    guards_step g LTimer (Guards (e_due e) (delete b (g_busy g)))
| guards_alert g g' :
    (g_now g ≤ g_now g')%N → first_due (g_now g') g → extends g g' →
    guards_step g LTimer g'
| guards_wait t g :
    first_due t g → guards_step g (LWait t) (Guards (N.max (g_now g) t) (g_busy g))
| guards_idle a g :
    idle_move a = true → guards_step g a g.

(** Runs of the table. *)
Inductive guards_run : guards → list label → guards → Prop :=
| guards_run_nil g : guards_run g [] g
| guards_run_cons g a g1 tr g' :
    guards_step g a g1 → guards_run g1 tr g' → guards_run g (a :: tr) g'.

(** Every entry is due, and no later than the delay of the fallback
    from now. *)
Definition guards_wf (g : guards) : Prop :=
  map_Forall (λ _ e, (g_now g ≤ e_due e ≤ g_now g + submit_fallback_delay)%N) (g_busy g).

(** ** The table of a page *)

Definition entry_of (t : timer callback) : option (nat * entry) :=
  match t_cb t with
  | RestoreButton b h => Some (b, Entry h (t_due t))
  | HideAlert _ => None
  end.

Definition entries (l : loop callback) : list (nat * entry) := omap entry_of (l_timers l).

Definition guards_of (w : world) : guards :=
  Guards (l_now (w_loop w)) (list_to_map (entries (w_loop w))).

(** ** The invariant of the table *)

Section Table.
Implicit Types (g : guards) (a : label) (b : nat) (e : entry).

Lemma extends_refl g : extends g g.
Proof. split; [done|]. intros b e H1 H2. congruence. Qed.

Lemma extends_wf g g' :
  guards_wf g → (g_now g ≤ g_now g')%N → first_due (g_now g') g → extends g g' →
  guards_wf g'.
Proof.
  unfold guards_wf, first_due. rewrite !map_Forall_lookup.
  intros Hwf Hnow Hfirst [Hsub Hnew] b e Hb.
  destruct (g_busy g !! b) as [e0|] eqn:H0; [|rewrite (Hnew b e Hb H0); lia].
  pose proof (lookup_weaken _ _ _ _ H0 Hsub) as H1. assert (e0 = e) as -> by congruence.
  specialize (Hwf b e H0). specialize (Hfirst b e H0). lia.
Qed.

Lemma guards_wf_first g : guards_wf g → first_due (g_now g) g.
Proof.
  unfold guards_wf, first_due. rewrite !map_Forall_lookup.
  intros H b e Hb. specialize (H b e Hb). lia.
Qed.

(** Every move of the table preserves its invariant. *)
Lemma guards_step_wf g a g' : guards_wf g → guards_step g a g' → guards_wf g'.
Proof.
  intros Hwf Hstep. destruct Hstep as [form g g' Hn He|el g g' Hn He|b e g Hb Hf|
                                       g g' Hn Hf He|t g Hf|a g _]; [..|done].
  - apply (extends_wf g); [done|lia|rewrite Hn; by apply guards_wf_first|done].
  - apply (extends_wf g); [done|lia|rewrite Hn; by apply guards_wf_first|done].
  - unfold guards_wf, first_due in *. rewrite map_Forall_lookup in Hwf, Hf.
    apply map_Forall_lookup. simpl. intros b' e' [_ Hb']%lookup_delete_Some.
    pose proof (Hwf b e Hb). pose proof (Hf b' e' Hb'). pose proof (Hwf b' e' Hb'). lia.
  - by apply (extends_wf g).
  - unfold guards_wf, first_due in *. rewrite map_Forall_lookup in Hwf, Hf.
    apply map_Forall_lookup. intros b e Hb. simpl.
    specialize (Hwf b e Hb). specialize (Hf b e Hb). lia.
Qed.

Lemma guards_run_wf g tr g' : guards_wf g → guards_run g tr g' → guards_wf g'.
Proof. intros Hwf Hrun. induction Hrun; [done|]. eauto using guards_step_wf. Qed.

(** A run never shortens the time, and an entry stays in the table, as
    it is, as long as no timer fires. *)
Lemma guards_step_now g a g' : guards_wf g → guards_step g a g' → (g_now g ≤ g_now g')%N.
Proof.
  intros Hwf Hstep. destruct Hstep as [form g g' Hn He|el g g' Hn He|b e g Hb Hf|
                                       g g' Hn Hf He|t g Hf|a g _]; simpl; try lia.
  unfold guards_wf in Hwf. rewrite map_Forall_lookup in Hwf. specialize (Hwf b e Hb). lia.
Qed.

Lemma guards_step_keeps g a g' b e :
  guards_step g a g' → a ≠ LTimer → g_busy g !! b = Some e → g_busy g' !! b = Some e.
Proof.
  intros Hstep Ha Hb. destruct Hstep as [form g g' Hn [He _]|el g g' Hn [He _]|b' e' g Hb' Hf|
                                         g g' Hn Hf He|t g Hf|a g _]; try done.
  - by eapply lookup_weaken.
  - by eapply lookup_weaken.
Qed.

End Table.

(** ** Reading the table off the queue *)

Section Entries.
Implicit Types (w : world) (l : loop callback) (t : timer callback) (b : nat) (e : entry).

Lemma entries_keys (ts : list (timer callback)) :
  (omap entry_of ts).*1 = omap cb_button (t_cb <$> ts).
Proof.
  induction ts as [|t ts IH]; [done|]. rewrite fmap_cons. simpl. unfold entry_of at 1.
  destruct (t_cb t); simpl; [f_equal|]; exact IH.
Qed.

Lemma keys_pending w : (entries (w_loop w)).*1 = pending_restores w.
Proof. apply entries_keys. Qed.

Lemma guards_lookup_None w b : g_busy (guards_of w) !! b = None ↔ b ∉ pending_restores w.
Proof. simpl. by rewrite <-not_elem_of_list_to_map, keys_pending. Qed.

(** An entry of the table is a fallback timer of the queue. *)
Lemma guards_lookup w b e :
  guarded w →
  g_busy (guards_of w) !! b = Some e ↔
  ∃ t, t ∈ l_timers (w_loop w) ∧ t_cb t = RestoreButton b (e_original e) ∧ t_due t = e_due e.
Proof.
  intros [Hnd _]. simpl. rewrite <-elem_of_list_to_map by by rewrite keys_pending.
  unfold entries. rewrite list_elem_of_omap. unfold entry_of.
  split; intros (t & Ht & H); exists t.
  - destruct (t_cb t); [|done]. by injection H as -> <-.
  - destruct H as [-> ->]. by destruct e.
Qed.

Lemma entries_setTimeout_restore b h n l :
  entries (setTimeout (RestoreButton b h) n l).2 = entries l ++ [(b, Entry h (l_now l + n))].
Proof. unfold entries; simpl. by rewrite omap_app. Qed.

Lemma entries_setTimeout_alert x n l : entries (setTimeout (HideAlert x) n l).2 = entries l.
Proof. unfold entries; simpl. by rewrite omap_app, app_nil_r. Qed.

Lemma entries_schedule_alerts (xs : list nat) n l :
  entries (schedule_all (HideAlert <$> xs) n l) = entries l.
Proof.
  revert l; induction xs as [|x xs IH]; intros l; [done|].
  rewrite fmap_cons, schedule_all_cons, IH. apply entries_setTimeout_alert.
Qed.

Lemma guards_of_loaded w : guards_of (loaded w) = guards_of w.
Proof.
  unfold guards_of; simpl. rewrite entries_schedule_alerts. f_equal.
  apply (schedule_all_spec _ _ (w_loop w)).
Qed.

End Entries.

(** ** The table under the effects of the script *)

Section Effects.
Implicit Types (w : world) (l : loop callback) (t : timer callback) (b : nat) (e : entry).

(** The guard of a button that is not waiting adds its entry. *)
Lemma guards_of_guard b w :
  b ∉ pending_restores w →
  guards_of (guard_effect b w) =
  Guards (l_now (w_loop w))
    (<[b := Entry (get_innerHTML b (w_dom w)) (l_now (w_loop w) + submit_fallback_delay)]>
       (g_busy (guards_of w))).
Proof.
  intros Hb. unfold guards_of, guard_effect. cbn [w_loop with_loop with_dom].
  rewrite entries_setTimeout_restore. simpl. f_equal.
  apply list_to_map_snoc. by rewrite keys_pending.
Qed.

Lemma list_to_map_delete_middle {A} (l1 l2 : list (nat * A)) i x :
  NoDup (l1 ++ (i, x) :: l2).*1 →
  (list_to_map (l1 ++ l2) : gmap nat A) = delete i (list_to_map (l1 ++ (i, x) :: l2)).
Proof.
  rewrite fmap_app, fmap_cons. simpl. intros (_ & H1 & [H2 _]%NoDup_cons)%NoDup_app.
  rewrite !list_to_map_app, list_to_map_cons, delete_union, delete_insert_eq, !delete_id;
    [done|by apply not_elem_of_list_to_map|].
  apply not_elem_of_list_to_map. intros Hi. apply (H1 i Hi). left.
Qed.

(** The entries of the queue when the next timer is taken out. *)
Lemma entries_take l t l' :
  wf_loop l → take_timer l = Some (t, l') →
  ∃ p1 p2, entries l = p1 ++ option_list (entry_of t) ++ p2 ∧ entries l' = p1 ++ p2.
Proof.
  intros Hwf Ht. destruct (take_timer_split l t l' Hwf Ht) as (ts1 & ts2 & E & E' & _).
  exists (omap entry_of ts1), (omap entry_of ts2). unfold entries.
  rewrite E, E', !omap_app. split; [|done]. f_equal. simpl. by destruct (entry_of t).
Qed.

(** No entry is due before the timer that fires. *)
Lemma first_due_take w t l' :
  guarded w → take_timer (w_loop w) = Some (t, l') → first_due (t_due t) (guards_of w).
Proof.
  intros Hg Ht. apply map_Forall_lookup. intros b e (u & Hu & _ & <-)%guards_lookup; [|done].
  unfold take_timer in Ht. destruct (next_timer (w_loop w)) as [v|] eqn:Hv; [|done].
  injection Ht as <- _. by apply (next_timer_le (w_loop w)).
Qed.

(** Taking out a fallback removes its entry; taking out the timer of an
    alert leaves the table as it is. *)
Lemma guards_of_take w t l' :
  wf_loop (w_loop w) → guarded w → take_timer (w_loop w) = Some (t, l') →
  match entry_of t with
  | Some (b, e) =>
      g_busy (guards_of w) !! b = Some e ∧
      g_busy (guards_of (with_loop (λ _, l') w)) = delete b (g_busy (guards_of w))
  | None => g_busy (guards_of (with_loop (λ _, l') w)) = g_busy (guards_of w)
  end.
Proof.
  intros Hwf [Hnd _] Ht. destruct (entries_take _ t l' Hwf Ht) as (e1 & e2 & E & E').
  rewrite <-keys_pending, E in Hnd. simpl. rewrite E, E'.
  destruct (entry_of t) as [[b e]|]; [|done]. simpl in *. split.
  - apply elem_of_list_to_map; [done|]. apply elem_of_app. right. left.
  - by apply list_to_map_delete_middle.
Qed.

End Effects.

(** ** Every move of the page is a move of the table *)

Section Simulation.
Context (user : nat → bool).
Implicit Types (w : world) (a : label) (b : nat).

(** [w'] has the time of [w], the entries of [w] and new ones. *)
Definition adds (w w' : world) : Prop :=
  l_now (w_loop w') = l_now (w_loop w) ∧ extends (guards_of w) (guards_of w').

Lemma adds_refl w : adds w w.
Proof. split; [done|apply extends_refl]. Qed.

Lemma adds_guard w0 w this b :
  page_inv w → adds w0 w → submit_button this w = Some b →
  get_disabled b (w_dom w) = false → adds w0 (guard_effect b w).
Proof.
  intros [[_ Hg] _] [Hnow [Hsub Hnew]] _ Hd.
  pose proof (enabled_not_pending w b Hg Hd) as Hb.
  split; [done|]. rewrite (guards_of_guard b w Hb). split; simpl.
  - etransitivity; [exact Hsub|]. apply insert_subseteq. by apply guards_lookup_None.
  - intros b' e. rewrite lookup_insert_Some. intros [[<- <-]|[Hne He]] H0; [done|].
    by apply (Hnew b' e).
Qed.

(** A submit, a click and the callback of an alert add entries. *)
Lemma dispatch_adds e w :
  e_type e ≠ DOMContentLoaded → page_inv w → adds w (exec (dispatch user e) w).
Proof.
  intros He Hinv. apply (dispatch_event user (adds w)); try done; [|apply adds_refl].
  intros w1 this b. apply adds_guard.
Qed.

Lemma fire_click_adds el w : page_inv w → adds w (exec (fire_click user el) w).
Proof.
  intros Hinv. apply (fire_click_event user (adds w)); try done; [|apply adds_refl].
  intros w1 this b. apply adds_guard.
Qed.

Lemma hideAlert_adds alert w : page_inv w → adds w (exec (hideAlert user alert) w).
Proof.
  intros Hinv. apply (hideAlert_event user (adds w)); try done; [|apply adds_refl].
  intros w1 this b. apply adds_guard.
Qed.

(** The load event leaves the table alone. *)
Lemma load_guards w :
  page_inv w → guards_of (exec (dispatch user load_event) w) = guards_of w.
Proof.
  intros Hinv. apply (unguarded_event user (λ w', guards_of w' = guards_of w)); try done.
  intros w1 _ <-. apply guards_of_loaded.
Qed.

(** A timer removes the entry of the fallback that fires, or adds
    entries when it is the timer of an alert. *)
Lemma timer_guards w t l' :
  page_inv w → take_timer (w_loop w) = Some (t, l') →
  guards_step (guards_of w) LTimer
    (guards_of (exec (run_callback user (t_cb t)) (with_loop (λ _, l') w))).
Proof.
  intros Hinv Ht. pose proof Hinv as ([[_ Hl] Hg] & _ & Hot & _).
  pose proof (guards_of_take w t l' Hl Hg Ht) as Htake.
  pose proof (first_due_take w t l' Hg Ht) as Hfirst.
  destruct (take_timer_punctual _ _ _ Hot Ht) as [Hnow _].
  destruct (take_timer_now _ _ _ Ht) as [Hle _].
  unfold entry_of in Htake. destruct (t_cb t) as [b h|alert] eqn:Hcb.
  - destruct Htake as [Hb Hdel].
    replace (guards_of (exec _ _))
      with (Guards (e_due (Entry h (t_due t))) (delete b (g_busy (guards_of w)))).
    + by apply guards_timeout.
    + rewrite <-Hdel. simpl. unfold exec, guards_of. rewrite restoreButton_run. simpl.
      by rewrite Hnow.
  - destruct (hideAlert_adds alert _ (page_inv_take w t l' Hinv Ht)) as [Hn [Hsub Hnew]].
    rewrite Htake in Hsub, Hnew. apply guards_alert.
    + simpl. rewrite Hn. exact Hle.
    + simpl. rewrite Hn. simpl. by rewrite Hnow.
    + by split.
Qed.

(** Time passes. *)
Lemma wait_guards w t :
  guarded w → Forall (λ tm, (t ≤ t_due tm)%N) (l_timers (w_loop w)) →
  guards_step (guards_of w) (LWait t) (guards_of (with_loop (wait_until t) w)).
Proof.
  intros Hg Ht. apply (guards_wait t (guards_of w)). apply map_Forall_lookup.
  intros b e (u & Hu & _ & <-)%guards_lookup; [|done].
  rewrite Forall_forall in Ht. by apply Ht.
Qed.

Lemma step_guards w a w' : page_inv w → step user w a w' → guards_step (guards_of w) a (guards_of w').
Proof.
  intros Hinv Hstep. pose proof Hinv as ([_ Hg] & _).
  destruct Hstep; try by apply guards_idle.
  - rewrite load_guards by done. by apply guards_idle.
  - by apply guards_submit; apply dispatch_adds.
  - by apply guards_click; apply fire_click_adds.
  - by apply timer_guards.
  - by apply wait_guards.
  - replace (guards_of (exec showLoading w)) with (guards_of w); [by apply guards_idle|].
    unfold exec. rewrite showLoading_run. by destruct (document_querySelector _ _).
Qed.

Lemma run_guards tr w w' :
  page_inv w → run user tr w = Some w' → guards_run (guards_of w) tr (guards_of w').
Proof.
  revert w; induction tr as [|a tr IH]; intros w Hinv; simpl.
  - intros [= <-]. constructor.
  - destruct (run_label user a w) as [w1|] eqn:Ha; [|done]. simpl. intros Hrun.
    apply run_label_step in Ha. apply (guards_run_cons _ _ (guards_of w1)).
    + by apply step_guards.
    + apply IH; [|done]. by apply (stable_invariant user page_inv w a).
Qed.

Context (page : html).

(** C3. The page refines the table of guards: every move of a page
    reachable from the page the server sent is a move of [guards_step]
    between the tables of the two pages.  A submit and a click leave the
    time and the entries as they are and may add entries due 30000 ms
    later; a timer removes exactly the entry of the fallback that fires,
    which is due first, and sets the time to its due time, or is the
    timer of an alert and adds entries like a click; the passing of time
    stops at the first due time; no other move changes the table. *)
Theorem page_refinement w a w' :
  reachable user (initial_world page) w → step user w a w' →
  guards_step (guards_of w) a (guards_of w').
Proof. intros Hinv%reachable_page_inv. by apply step_guards. Qed.

(** What holds of the empty table and is preserved by the moves of the
    table holds of the table of every reachable page. *)
Lemma table_invariant (P : guards → Prop) w :
  P (Guards 0 ∅) → (∀ g a g', P g → guards_step g a g' → P g') →
  reachable user (initial_world page) w → P (guards_of w).
Proof.
  intros H0 HP Hr. induction Hr as [|w a w' Hr IH Hstep]; [done|].
  apply (HP (guards_of w) a); [done|]. apply step_guards; [|done].
  by apply (reachable_page_inv user page).
Qed.

(** A guard lasts 30000 ms at most: on every reachable page each
    button that waits for its fallback gets its content back at a time
    that is not past and at most 30000 ms ahead.  The bound is proved
    of the table alone and holds of the page because the page refines
    the table. *)
Theorem guard_due_within w b e :
  reachable user (initial_world page) w → g_busy (guards_of w) !! b = Some e →
  (l_now (w_loop w) ≤ e_due e ≤ l_now (w_loop w) + 30000)%N.
Proof.
  intros Hr Hb.
  assert (guards_wf (guards_of w)) as Hwf.
  { apply table_invariant; [apply map_Forall_empty|apply guards_step_wf|done]. }
  by apply (map_Forall_lookup_1 _ _ _ _ Hwf Hb).
Qed.

End Simulation.

(** ** On the sample page *)

Lemma sample_loaded_reachable : reachable accepter (initial_world sample_page) sample_loaded.
Proof. apply sample_loaded_reach. Qed.

Lemma sample_submit_step : step accepter sample_loaded (LSubmit 5) sample_submitted.
Proof. apply run_label_step. vm_compute. reflexivity. Qed.

(** After the submit the table has one entry: the button 7 gets its
    label back at 30000. *)
Example sample_table :
  guards_of sample_loaded = Guards 0 ∅ ∧
  guards_of sample_submitted = Guards 0 {[7 := Entry [HText "Save"] 30000]}.
Proof. split; vm_compute; reflexivity. Qed.

Lemma page_refinement_witness :
  guards_step (guards_of sample_loaded) (LSubmit 5) (guards_of sample_submitted).
Proof.
  apply (page_refinement accepter sample_page sample_loaded (LSubmit 5) sample_submitted
           sample_loaded_reachable sample_submit_step).
Defined.
