(* ===== verification/Refinement.v ===== *)
(** * The submit guard as a state machine

    What the guard promises for one button, stated without the DOM and
    the timer queue: the button is [Idle] or [Busy] with the content to
    restore; a move that can submit a form may take it from [Idle] to
    [Busy], only the timer takes it back, and nothing changes the content
    that a busy button will get back.  [phase_of] reads the phase of a
    button off the page; it is the phase of the button in the table of
    guards of the page ([phase_of_table]).  The table refines the machine
    of each of its buttons ([table_refines_button]) and the page refines
    the table ([GuardTable.step_guards]); [guard_refinement] composes the
    two: every move of a reachable page is a move of this machine, for
    every button. *)

From Stdlib Require Import Ascii String.
From stdpp Require Import base strings option numbers list gmap.
From S2P Require Import Prelude Html Selector Dom DomFacts EventLoop Page Samples.
From S2P Require Import Guard Bindings Machine Invariants Clicks Timers GuardTable.

Local Open Scope list_scope.

Inductive phase : Type :=
| Idle
| Busy (original : html).

#[export] Instance phase_eq_dec : EqDecision phase.
Proof. solve_decision. Defined.

(** The moves that can submit a form: a submit, a click (on a submit
    button) and a timer (the alert callback clicks the close control). *)
Definition may_submit (a : label) : bool :=
  match a with
  | LSubmit _ | LClick _ | LTimer => true
  | _ => false
  end.

(** The specification of the guard of one button. *)
Inductive guard_step : phase → label → phase → Prop :=
| guard_start a h : may_submit a = true → guard_step Idle a (Busy h)
| guard_timeout h : guard_step (Busy h) LTimer Idle
| guard_stay s a : guard_step s a s.

(** The content that a callback restores to [b]. *)
Definition restore_text (b : nat) (cb : callback) : option html :=
  match cb with
  | RestoreButton submitBtn originalText =>
      if bool_decide (submitBtn = b) then Some originalText else None
  | HideAlert _ => None
  end.

(** The phase of the button [b] on the page [w]. *)
Definition phase_of (b : nat) (w : world) : phase :=
  match omap (restore_text b) (callbacks w) with
  | h :: _ => Busy h
  | [] => Idle
  end.

(** The phase of [b] in a table of guards. *)
Definition phase_in (b : nat) (g : guards) : phase :=
  match g_busy g !! b with
  | Some e => Busy (e_original e)
  | None => Idle
  end.

(** ** The button in the table *)

Section Phase.
Implicit Types (w : world) (b : nat) (g : guards).

#[export] Instance phase_of_proper b : Proper (same_page ==> eq) (phase_of b).
Proof. intros w w' H. unfold phase_of. by rewrite H. Qed.

(** The phase of a button on a page is its phase in the table of the
    page. *)
Lemma phase_of_table b w : phase_of b w = phase_in b (guards_of w).
Proof.
  unfold phase_of, phase_in, guards_of, callbacks, entries; simpl.
  induction (l_timers (w_loop w)) as [|t ts IH]; [done|].
  rewrite fmap_cons. simpl. unfold entry_of at 1. destruct (t_cb t) as [b' h|alert]; [|done].
  simpl. case_bool_decide as Hb.
  - subst b'. by rewrite lookup_insert_eq.
  - by rewrite lookup_insert_ne.
Qed.

Lemma phase_of_Idle b w : phase_of b w = Idle ↔ b ∉ pending_restores w.
Proof.
  rewrite phase_of_table, <-guards_lookup_None. unfold phase_in.
  by destruct (g_busy (guards_of w) !! b).
Qed.

Lemma busy_pending b h w : phase_of b w = Busy h → b ∈ pending_restores w.
Proof.
  intros H. destruct (decide (b ∈ pending_restores w)) as [|Hn]; [done|].
  apply phase_of_Idle in Hn. congruence.
Qed.

Lemma guard_stay_eq s s' a : s' = s → guard_step s a s'.
Proof. intros ->. constructor. Qed.

(** New entries start the guard of their buttons, the others stay. *)
Lemma extends_phase b g g' a :
  may_submit a = true → extends g g' → guard_step (phase_in b g) a (phase_in b g').
Proof.
  intros Ha [Hsub _]. unfold phase_in. destruct (g_busy g !! b) as [e|] eqn:Hb.
  - rewrite (lookup_weaken _ _ _ _ Hb Hsub). constructor.
  - destruct (g_busy g' !! b); by constructor.
Qed.

(** The table refines the machine of each of its buttons. *)
Lemma table_refines_button b g a g' :
  guards_step g a g' → guard_step (phase_in b g) a (phase_in b g').
Proof.
  intros Hstep. destruct Hstep as [form g g' Hn He|el g g' Hn He|b' e g Hb Hf|
                                    g g' Hn Hf He|t g Hf|a g _];
    try (by apply extends_phase); try (by apply guard_stay_eq).
  unfold phase_in; simpl. destruct (decide (b' = b)) as [->|Hne].
  - rewrite Hb, lookup_delete_eq. constructor.
  - rewrite lookup_delete_ne by done. constructor.
Qed.

End Phase.

(** ** Every move of the page is a move of the guard *)

Section Simulation.
Context (user : nat → bool) (page : html).
Implicit Types (w : world) (b : nat) (s : phase).

(** C10. The page refines the guard machine: for every button, every move
    of a reachable page is a move of [guard_step].  Only a move that can
    submit a form makes a button busy (a submit, a click, the click of
    an alert timer), only a timer makes it idle again, and while a button
    is busy the content that it will get back does not change. *)
Theorem guard_refinement b w a w' :
  reachable user (initial_world page) w → step user w a w' →
  guard_step (phase_of b w) a (phase_of b w').
Proof.
  intros Hinv%reachable_page_inv Hstep. rewrite !phase_of_table.
  by apply table_refines_button, (step_guards user).
Qed.

Lemma busy_disabled b h w :
  page_inv w → phase_of b w = Busy h → get_disabled b (w_dom w) = true.
Proof.
  intros [[_ [_ Hdis]] _] Hb%busy_pending. rewrite Forall_forall in Hdis. by apply Hdis.
Qed.

(** The fallback of [b] takes [b] from busy to idle. *)
Lemma restore_phase b h w t l' :
  page_inv w → take_timer (w_loop w) = Some (t, l') → restore_text b (t_cb t) = Some h →
  t_cb t = RestoreButton b h ∧ phase_of b w = Busy h ∧
  phase_of b (with_loop (λ _, l') w) = Idle.
Proof.
  intros ([[_ Hl] Hg] & _) Ht Hcb. pose proof (guards_of_take w t l' Hl Hg Ht) as Htake.
  unfold entry_of in Htake. destruct (t_cb t) as [b' h'|alert]; [|done]. simpl in Hcb.
  case_bool_decide; [|done]. injection Hcb as ->. subst b'. destruct Htake as [Hb Hdel].
  rewrite !phase_of_table. unfold phase_in. by rewrite Hdel, Hb, lookup_delete_eq.
Qed.

(** C24. When the fallback of a busy button fires, the button is enabled
    and its content is the one recorded when the guard started. *)
Theorem timeout_restores b h w t l' :
  reachable user (initial_world page) w →
  take_timer (w_loop w) = Some (t, l') →
  restore_text b (t_cb t) = Some h →
  let w' := exec (run_callback user (t_cb t)) (with_loop (λ _, l') w) in
  phase_of b w = Busy h ∧ phase_of b w' = Idle ∧
  get_disabled b (w_dom w') = false ∧ get_innerHTML b (w_dom w') = h.
Proof.
  intros Hr Ht Hcb. pose proof (reachable_page_inv user page w Hr) as Hinv.
  destruct (restore_phase b h w t l' Hinv Ht Hcb) as (-> & Hbusy & Hidle).
  pose proof (get_disabled_lookup _ _ (busy_disabled b h w Hinv Hbusy)) as Hl.
  split_and!; [done..| |]; simpl.
  - by apply get_disabled_set_disabled, lookup_set_innerHTML_is_Some.
  - rewrite get_innerHTML_set_disabled. by apply get_innerHTML_set_innerHTML.
Qed.

End Simulation.

(** ** On the sample page *)

(** The sample page after the submit and after the alert timer has fired. *)
Definition sample_waiting : world := exec (perform accepter LTimer) sample_submitted.

Lemma sample_waiting_reachable :
  reachable accepter (initial_world sample_page) sample_waiting.
Proof.
  apply (run_reachable accepter (sample_trace ++ [LTimer])). vm_compute. reflexivity.
Qed.

Lemma guard_refinement_witness :
  guard_step (phase_of 7 sample_loaded) (LSubmit 5) (phase_of 7 sample_submitted).
Proof.
  apply (guard_refinement accepter sample_page 7 sample_loaded (LSubmit 5) sample_submitted
           sample_loaded_reachable sample_submit_step).
Defined.

Lemma timeout_restores_witness :
  take_timer (w_loop sample_waiting) =
    Some (Timer 1 30000 (RestoreButton 7 [HText "Save"]), Loop 30000 [] 2) ∧
  get_innerHTML 7
    (w_dom (exec (restoreButton 7 [HText "Save"])
              (with_loop (λ _, Loop 30000 [] 2) sample_waiting))) = [HText "Save"].
Proof.
  assert (take_timer (w_loop sample_waiting) =
    Some (Timer 1 30000 (RestoreButton 7 [HText "Save"]), Loop 30000 [] 2)) as H
    by (vm_compute; reflexivity).
  split; [exact H|].
  apply (timeout_restores accepter sample_page 7 [HText "Save"] sample_waiting _ _
           sample_waiting_reachable H eq_refl).
Defined.
