(* ===== verification/Alerts.v ===== *)
(** * Each alert is dismissed at most once

    Along a run of the page, [fired] collects the callbacks that the
    timers have run.  If the script file is evaluated at most once and
    [DOMContentLoaded] fires at most once, the callback of an alert is
    scheduled at most once in the whole run: it is pending or it has
    fired, never twice.  Both conditions are needed: a page that includes
    the script twice sets two timers for every alert. *)

From Stdlib Require Import Ascii String.
From stdpp Require Import base strings option numbers list.
From S2P Require Import Prelude Html Selector Dom DomFacts EventLoop Page Samples.
From S2P Require Import Guard Bindings Machine Invariants Clicks Timers.

Local Open Scope list_scope.

(** The callback that the move [a] runs on the page [w]. *)
Definition fired_by (a : label) (w : world) : list callback :=
  match a with
  | LTimer =>
      match take_timer (w_loop w) with
      | Some (t, _) => [t_cb t]
      | None => []
      end
  | _ => []
  end.

(** How often the move [a] occurs in a trace. *)
Definition count (a : label) (tr : list label) : nat := length (filter (a =.) tr).

Definition uses_script (a : label) : nat := match a with LScript => 1 | _ => 0 end.
Definition uses_load (a : label) : nat := match a with LContentLoaded => 1 | _ => 0 end.

(** The alerts whose callback has fired ([hist]) or is pending. *)
Definition alerts_seen (hist : list callback) (w : world) : list nat :=
  omap cb_alert (hist ++ callbacks w).

(** The registrations of the load listener. *)
Definition load_listeners (w : world) : list listener :=
  listeners_for Document DOMContentLoaded w.

(** With [scripts] evaluations of the script and [loads] load events to
    come: no alert has a callback yet and at most one load listener will
    run, or the load is over and no alert has two callbacks. *)
Definition alerts_fresh (hist : list callback) (w : world) (scripts loads : nat) : Prop :=
  (alerts_seen hist w = [] ∧ loads ≤ 1 ∧ length (load_listeners w) + scripts ≤ 1) ∨
  (NoDup (alerts_seen hist w) ∧ loads = 0).

Section Fired.
Context (user : nat → bool).

(** The callbacks that fire along a trace, in order. *)
Fixpoint fired (tr : list label) (w : world) : list callback :=
  match tr with
  | [] => []
  | a :: tr' =>
      match run_label user a w with
      | Some w' => fired_by a w ++ fired tr' w'
      | None => []
      end
  end.

End Fired.

Section Alerts.
Context (user : nat → bool).
Implicit Types (w : world) (hist : list callback) (a : label).

Lemma count_cons a b tr :
  count a (b :: tr) = (if bool_decide (a = b) then 1 else 0) + count a tr.
Proof.
  unfold count. rewrite filter_cons. case_bool_decide.
  - by rewrite decide_True.
  - by rewrite decide_False.
Qed.

(** The load event on a page with at most one load listener. *)
Lemma load_alerts w :
  typed w → wf_dom (w_dom w) → length (load_listeners w) ≤ 1 →
  omap cb_alert (callbacks w) = [] →
  NoDup (omap cb_alert (callbacks (exec (dispatch user load_event) w))).
Proof.
  intros Hty Hwf Hlen Hnone. destruct (load_listeners w) as [|f [|??]] eqn:Hf; simpl in Hlen.
  - unfold exec. rewrite dispatch_run, foldM_invoke_none
      by (constructor; [exact Hf|constructor]).
    simpl. rewrite Hnone. constructor.
  - assert (f = OnDOMContentLoaded) as ->.
    { assert (f ∈ load_listeners w) as Hin by (rewrite Hf; left).
      apply (listeners_for_typed _ _ _ _ Hty) in Hin. by destruct f. }
    rewrite dispatch_load by done. unfold after_load, callbacks in *.
    destruct (tooltips_possible w); simpl; [|rewrite Hnone; constructor].
    rewrite callbacks_schedule_all, omap_app, Hnone. simpl.
    rewrite cb_alert_HideAlert. by apply document_querySelectorAll_NoDup.
  - lia.
Qed.

End Alerts.

(** ** Along a run *)

Section Once.
Context (user : nat → bool).
Implicit Types (w : world) (hist : list callback) (a : label) (tr : list label).

Lemma count_script a tr : count LScript (a :: tr) = uses_script a + count LScript tr.
Proof. rewrite count_cons. by destruct a. Qed.

Lemma count_load a tr : count LContentLoaded (a :: tr) = uses_load a + count LContentLoaded tr.
Proof. rewrite count_cons. by destruct a. Qed.

Lemma alerts_seen_app hist w : alerts_seen hist w = omap cb_alert hist ++ pending_alerts w.
Proof. apply omap_app. Qed.

(** A move that sets no alert timer and leaves the registry alone. *)
Lemma alerts_fresh_same hist w w' s c :
  quiet w w' → alerts_fresh hist w s c → alerts_fresh hist w' s c.
Proof.
  intros [Hl Hc]. unfold alerts_fresh, load_listeners, listeners_for.
  by rewrite !alerts_seen_app, Hc, Hl.
Qed.

Lemma load_listeners_main w :
  load_listeners (exec main w) = load_listeners w ++ [OnDOMContentLoaded].
Proof.
  unfold load_listeners, listeners_for. simpl.
  by rewrite filter_app, fmap_app, filter_cons_True.
Qed.

(** Firing a timer moves its callback from the queue to the history. *)
Lemma timer_alerts hist w t l' :
  page_inv w → take_timer (w_loop w) = Some (t, l') →
  alerts_seen (hist ++ [t_cb t]) (exec (run_callback user (t_cb t)) (with_loop (λ _, l') w))
    ≡ₚ alerts_seen hist w.
Proof.
  intros Hinv Ht. pose proof Hinv as ([[_ Hl] _] & _).
  destruct (pending_alerts_take w t l' Hl Ht) as (a1 & a2 & E1 & E2).
  destruct (run_callback_quiet user (t_cb t) _ (page_inv_take w t l' Hinv Ht)) as [_ Hq].
  rewrite !alerts_seen_app, omap_app, Hq, E2, E1. simpl.
  destruct (cb_alert (t_cb t)); simpl; solve_Permutation.
Qed.

(** One move. *)
Lemma step_alerts hist w a w' s c :
  page_inv w → step user w a w' →
  alerts_fresh hist w (uses_script a + s) (uses_load a + c) →
  alerts_fresh (hist ++ fired_by a w) w' s c.
Proof.
  intros Hinv Hstep. pose proof Hinv as ([[Hwf _] _] & Hty & _).
  destruct Hstep; simpl; rewrite ?app_nil_r.
  - by apply alerts_fresh_same.
  - unfold alerts_fresh. rewrite load_listeners_main, length_app. simpl.
    intros [(? & ? & ?)|?]; [left; split_and!; [done..|lia]|by right].
  - intros [(HX & Hc & Hs)|[_ ?]]; [right|lia]. split; [|lia].
    rewrite alerts_seen_app in *. apply app_eq_nil in HX as [-> HX]. simpl.
    apply load_alerts; [done..|lia|done].
  - by apply alerts_fresh_same, dispatch_quiet.
  - by apply alerts_fresh_same, fire_click_quiet.
  - by apply alerts_fresh_same.
  - rewrite H. pose proof (timer_alerts hist w t l' Hinv H) as Hp.
    destruct (run_callback_quiet user (t_cb t) _ (page_inv_take w t l' Hinv H)) as [Hq _].
    unfold alerts_fresh, load_listeners, listeners_for. rewrite Hq. simpl.
    intros [(HX & ?)|[? ?]]; [left|right]; split; try done.
    + rewrite HX in Hp. by apply Permutation_nil_r in Hp.
    + by rewrite Hp.
  - by apply alerts_fresh_same.
  - apply alerts_fresh_same; unfold quiet, exec; rewrite showLoading_run;
      by destruct (document_querySelector _ _).
Qed.

(** A whole run. *)
Lemma run_alerts tr hist w w' :
  page_inv w → run user tr w = Some w' →
  alerts_fresh hist w (count LScript tr) (count LContentLoaded tr) →
  NoDup (alerts_seen (hist ++ fired user tr w) w').
Proof.
  revert hist w; induction tr as [|a tr IH]; intros hist w Hinv; simpl.
  - rewrite app_nil_r. intros [= <-] [(HX & _)|[? _]]; [rewrite HX; constructor|done].
  - destruct (run_label user a w) as [w1|] eqn:Ha; [|done]. simpl.
    apply run_label_step in Ha. rewrite count_script, count_load, app_assoc.
    intros Hrun Hfresh. apply IH; [|done|by apply step_alerts].
    by apply (stable_invariant user page_inv w a).
Qed.

Context (page : html).

(** C14. Each alert is dismissed at most once: along a run in which the
    script file is evaluated at most once and [DOMContentLoaded] fires at
    most once, the callback of an alert fires or is pending at most once
    in all. *)
Theorem alert_dismissed_once tr w alert :
  run user tr (initial_world page) = Some w →
  count LScript tr ≤ 1 → count LContentLoaded tr ≤ 1 →
  length (filter (λ cb, cb_alert cb = Some alert)
            (fired user tr (initial_world page) ++ callbacks w)) ≤ 1.
Proof.
  intros Hrun Hs Hc. apply NoDup_omap_filter.
  apply (run_alerts tr [] (initial_world page) w);
    [apply page_inv_initial_world|done|].
  left. split_and!; [done..|simpl; lia].
Qed.

End Once.

(** ** On the sample page *)

(** The sample page, the guard fired, both timers fired. *)
Definition sample_run : list label :=
  [LBootstrap; LScript; LContentLoaded; LSubmit 5; LTimer; LTimer].

Lemma alert_dismissed_once_witness :
  fired accepter sample_run (initial_world sample_page) =
    [HideAlert 3; RestoreButton 7 [HText "Save"]] ∧
  length (filter (λ cb, cb_alert cb = Some 3)
            (fired accepter sample_run (initial_world sample_page) ++ [])) ≤ 1.
Proof.
  split; [vm_compute; reflexivity|].
  apply (alert_dismissed_once accepter sample_page sample_run
           (exec (drain accepter 2) sample_submitted) 3);
    vm_compute; (reflexivity || lia).
Defined.

(** A page that includes the script twice: every alert gets two timers. *)
Example script_twice_two_timers :
  callbacks <$> run accepter [LBootstrap; LScript; LScript; LContentLoaded]
                  (initial_world sample_page) =
  Some [HideAlert 3; HideAlert 3].
Proof. vm_compute. reflexivity. Qed.
