(* ===== verification/Order.v ===== *)
(** * The order in which timers fire

    The browser fires the timer that is due first, and among timers due
    at the same time the one set first.  The script sets its timers with
    two delays only, 5000 ms for an alert and 30000 ms for a fallback,
    and the clock never runs backwards; so the queue holds the timers in
    the order in which they were set ([set_order]), and a timer that
    fires overtakes only timers set with a longer delay: an alert timer
    may overtake fallbacks, nothing overtakes an alert timer, and a
    fallback overtakes nothing.  Hence the alerts are dismissed in the
    order in which their timers were set, which is document order, and
    the buttons are restored in the order in which they were guarded.
    Seen from the rest of the page the alert timers are a first-in
    first-out queue ([alerts_step]), which every move of a reachable
    page follows ([alerts_queue]). *)

From Stdlib Require Import Ascii String.
From stdpp Require Import base strings option numbers list sorting.
From S2P Require Import Prelude Html Selector Dom DomFacts Queries EventLoop Page Samples.
From S2P Require Import Guard Bindings Machine Invariants Clicks Timers Alerts.

Local Open Scope list_scope.

(** The queue is in the order in which the timers were set. *)
Definition set_order (w : world) : Prop := in_set_order delay_of (w_loop w).

(** The buttons that the callbacks that fire along a trace restore. *)
Definition restored (hist : list callback) : list nat := omap cb_button hist.

(** The alerts that the callbacks that fire along a trace dismiss. *)
Definition dismissed (hist : list callback) : list nat := omap cb_alert hist.

Section Queue.
Implicit Types (w : world) (l : loop callback) (t : timer callback).

Lemma set_order_schedule_all cbs delay l :
  Forall (λ cb, delay_of cb = delay) cbs →
  within delay_of l → in_set_order delay_of l →
  in_set_order delay_of (schedule_all cbs delay l).
Proof.
  intros Hcbs. revert l.
  induction Hcbs as [|cb cbs Hcb _ IH]; intros l Hw Hs; [done|].
  rewrite schedule_all_cons. apply IH.
  - apply within_setTimeout; [by rewrite Hcb|done].
  - rewrite <-Hcb. by apply in_set_order_setTimeout.
Qed.

(** The two delays of the script: what has the shorter one is an alert
    timer, what has the longer one a fallback. *)
Lemma delay_of_lt cb cb' :
  (delay_of cb < delay_of cb')%N → cb_button cb = None ∧ cb_alert cb' = None.
Proof. by destruct cb, cb'. Qed.

(** On a queue in set order the timer that fires is the first of its
    kind: in front of it are fallbacks only, and only if it is an alert
    timer. *)
Lemma take_timer_first w t l' :
  wf_loop (w_loop w) → set_order w → take_timer (w_loop w) = Some (t, l') →
  ∃ ts1 ts2, l_timers (w_loop w) = ts1 ++ t :: ts2 ∧ l_timers l' = ts1 ++ ts2 ∧
    Forall (λ u, cb_button (t_cb t) = None ∧ cb_alert (t_cb u) = None) ts1.
Proof.
  intros Hwf Hs Ht.
  destruct (take_timer_oldest delay_of _ t l' Hwf Hs Ht) as (ts1 & ts2 & E & E' & H).
  exists ts1, ts2. split_and!; [done..|].
  eapply Forall_impl; [exact H|]. intros u. apply delay_of_lt.
Qed.

(** [f] reads the callbacks of one kind: they have one delay. *)
Definition one_kind {B} (f : callback → option B) : Prop :=
  ∀ cb cb', is_Some (f cb) → is_Some (f cb') → delay_of cb = delay_of cb'.

Lemma cb_alert_one_kind : one_kind cb_alert.
Proof. intros [] [] [? ?] [? ?]; done. Qed.

Lemma cb_button_one_kind : one_kind cb_button.
Proof. intros [] [] [? ?] [? ?]; done. Qed.

(** The timer that fires is the first pending one of its kind. *)
Lemma omap_fire {B} (f : callback → option B) w t l' :
  one_kind f → wf_loop (w_loop w) → set_order w → take_timer (w_loop w) = Some (t, l') →
  omap f (callbacks w) = omap f [t_cb t] ++ omap f (callbacks (with_loop (λ _, l') w)).
Proof.
  intros Hf Hwf Hs Ht.
  destruct (take_timer_oldest delay_of _ t l' Hwf Hs Ht) as (ts1 & ts2 & E & E' & H).
  unfold callbacks; simpl. rewrite E, E', !fmap_app, !omap_app, fmap_cons. simpl.
  destruct (f (t_cb t)) as [y|] eqn:Hy; [|done]. simpl.
  rewrite (omap_none f (t_cb <$> ts1)); [done|].
  apply Forall_fmap. eapply Forall_impl; [exact H|]. intros u Hu. simpl.
  destruct (f (t_cb u)) eqn:Hu'; [|done].
  assert (delay_of (t_cb t) = delay_of (t_cb u)) as E1 by (apply Hf; by eauto).
  simpl in Hu. lia.
Qed.

End Queue.

(** ** Stability *)

Section Stable.
Context (user : nat → bool).

#[export] Instance set_order_stable : Stable user due_soon set_order.
Proof.
  split; try done.
  - intros w Hw Hs. apply set_order_schedule_all; [|done..].
    by apply Forall_fmap, Forall_true.
  - intros w this b Hw Hs _ _.
    by apply (in_set_order_setTimeout delay_of (RestoreButton b _) (w_loop w)).
  - intros w t l' b h _ Hs Ht _. by apply (in_set_order_take_timer _ _ _ _ Hs Ht).
  - intros w t l' alert _ Hs Ht _. by apply (in_set_order_take_timer _ _ _ _ Hs Ht).
Qed.

#[export] Instance due_order_stable : Stable user anywhere (λ w, due_soon w ∧ set_order w).
Proof. apply Stable_under; apply _. Qed.

End Stable.

(** ** Along a run *)

Section Runs.
Context (user : nat → bool).
Implicit Types (w : world) (a : label) (tr : list label) (hist : list callback).

(** What a page keeps in order: the invariant of the page and the order
    of its queue. *)
Definition orderly (w : world) : Prop := page_inv w ∧ due_soon w ∧ set_order w.

Lemma orderly_step w a w' : orderly w → step user w a w' → orderly w'.
Proof.
  intros [Hinv Ho] Hstep. split.
  - by apply (stable_invariant user page_inv w a).
  - by apply (stable_invariant user (λ w, due_soon w ∧ set_order w) w a).
Qed.

Lemma orderly_initial_world page : orderly (initial_world page).
Proof. split; [apply page_inv_initial_world|]. split; constructor. Qed.

Lemma reachable_orderly page w : reachable user (initial_world page) w → orderly w.
Proof.
  induction 1 as [|w a w' _ IH Hstep]; [apply orderly_initial_world|].
  by eapply orderly_step.
Qed.

(** The queue of [w'] is that of [w] with new timers behind. *)
Definition grows (w w' : world) : Prop := callbacks w `prefix_of` callbacks w'.

#[export] Instance grows_preorder : PreOrder grows.
Proof.
  split; [intros w|intros w1 w2 w3 H1 H2]; unfold grows in *; [reflexivity|by etransitivity].
Qed.

Lemma grows_guard w0 w b : grows w0 w → grows w0 (guard_effect b w).
Proof.
  intros H. etransitivity; [exact H|]. unfold grows, callbacks; simpl. rewrite fmap_app.
  by apply prefix_app_r.
Qed.

Lemma grows_loaded w0 w : grows w0 w → grows w0 (loaded w).
Proof.
  intros H. etransitivity; [exact H|]. unfold grows, callbacks; simpl.
  rewrite callbacks_schedule_all. by apply prefix_app_r.
Qed.

(** An event only sets timers. *)
Lemma dispatch_grows e w : page_inv w → grows w (exec (dispatch user e) w).
Proof.
  intros Hinv. apply (any_event user (grows w)); try done.
  - intros w1 this b _ H _ _. by apply grows_guard.
  - intros w1 _ H. by apply grows_loaded.
Qed.

Lemma fire_click_grows el w : page_inv w → grows w (exec (fire_click user el) w).
Proof.
  intros Hinv. apply (fire_click_event user (grows w)); try done.
  intros w1 this b _ H _ _. by apply grows_guard.
Qed.

Lemma run_callback_grows cb w : page_inv w → grows w (exec (run_callback user cb) w).
Proof.
  intros Hinv. apply (run_callback_event user (grows w)); try done.
  - intros w1 this b _ H _ _. by apply grows_guard.
  - intros b h _. by unfold grows.
Qed.

(** What is left of the queue after a move: the timer that fired is
    gone, the others are where they were, new ones are behind them. *)
Lemma step_grows w a w' :
  page_inv w → step user w a w' →
  match a with
  | LTimer => ∃ t l', take_timer (w_loop w) = Some (t, l') ∧ grows (with_loop (λ _, l') w) w'
  | _ => grows w w'
  end.
Proof.
  intros Hinv Hstep. destruct Hstep; try (by unfold grows).
  - by apply dispatch_grows.
  - by apply dispatch_grows.
  - by apply fire_click_grows.
  - exists t, l'. split; [done|]. by apply run_callback_grows, (page_inv_take w t l').
  - unfold exec, grows. rewrite showLoading_run. by destruct (document_querySelector _ _).
Qed.

Section Kind.
Context {B : Type} (f : callback → option B) (Hf : one_kind f).

(** One move: the pending callbacks of a kind are the one that fires, if
    it is of that kind, and then those pending afterwards, in the same
    order; what the move sets is behind them. *)
Lemma step_fired_order w a w' :
  orderly w → step user w a w' →
  omap f (callbacks w) `prefix_of` omap f (fired_by a w) ++ omap f (callbacks w').
Proof.
  intros (Hinv & _ & Hs) Hstep. pose proof Hinv as ([[_ Hl] _] & _).
  pose proof (step_grows w a w' Hinv Hstep) as Hg. unfold grows in Hg.
  destruct a; try (destruct Hg as [new ->]; simpl; rewrite omap_app; by apply prefix_app_r).
  destruct Hg as (t & l' & Ht & [new ->]). simpl. rewrite Ht.
  rewrite (omap_fire f w t l' Hf Hl Hs Ht), omap_app, app_assoc. by apply prefix_app_r.
Qed.

(** A run. *)
Lemma run_fired_order tr w w' :
  orderly w → run user tr w = Some w' →
  omap f (callbacks w) `prefix_of` omap f (fired user tr w) ++ omap f (callbacks w').
Proof.
  revert w; induction tr as [|a tr IH]; intros w Ho; simpl; [by intros [= <-]|].
  destruct (run_label user a w) as [w1|] eqn:Ha; [|done]. simpl. intros Hrun.
  apply run_label_step in Ha. rewrite omap_app, <-app_assoc.
  etransitivity; [by apply step_fired_order|].
  apply prefix_app, IH; [by eapply orderly_step|done].
Qed.

End Kind.

(** Without a load event no alert timer is set: the pending alerts are
    the one that fires and then those pending afterwards. *)
Lemma step_alerts_exact w a w' :
  orderly w → step user w a w' → a ≠ LContentLoaded →
  pending_alerts w = dismissed (fired_by a w) ++ pending_alerts w'.
Proof.
  intros (Hinv & _ & Hs) Hstep Ha. pose proof Hinv as ([[_ Hl] _] & _).
  destruct Hstep; simpl; try done.
  - symmetry. by apply dispatch_quiet.
  - symmetry. by apply fire_click_quiet.
  - rewrite H. unfold pending_alerts at 1.
    rewrite (omap_fire cb_alert w t l' cb_alert_one_kind Hl Hs H). f_equal. symmetry.
    by apply run_callback_quiet, (page_inv_take w t l').
  - unfold exec. rewrite showLoading_run. by destruct (document_querySelector _ _).
Qed.

Lemma run_alerts_exact tr w w' :
  orderly w → run user tr w = Some w' → count LContentLoaded tr = 0 →
  pending_alerts w = dismissed (fired user tr w) ++ pending_alerts w'.
Proof.
  revert w; induction tr as [|a tr IH]; intros w Ho; simpl; [by intros [= <-]|].
  destruct (run_label user a w) as [w1|] eqn:Ha; [|done]. simpl. intros Hrun.
  rewrite count_load. intros Hc. apply run_label_step in Ha.
  unfold dismissed in *. rewrite omap_app, <-app_assoc.
  rewrite <-(IH w1); [|by eapply orderly_step|done|lia].
  apply step_alerts_exact; [done..|]. intros ->. simpl in Hc. lia.
Qed.

Lemma fired_app tr1 tr2 w w1 :
  run user tr1 w = Some w1 → fired user (tr1 ++ tr2) w = fired user tr1 w ++ fired user tr2 w1.
Proof.
  revert w; induction tr1 as [|a tr1 IH]; intros w; simpl; [by intros [= <-]|].
  destruct (run_label user a w) as [w2|]; [|done]. simpl. intros Hrun.
  by rewrite (IH w2), app_assoc.
Qed.

Lemma pending_alerts_loaded w :
  pending_alerts (loaded w) = pending_alerts w ++ document_querySelectorAll sel_alert (w_dom w).
Proof.
  unfold pending_alerts, callbacks; simpl.
  by rewrite callbacks_schedule_all, omap_app, cb_alert_HideAlert.
Qed.

(** The alert timers as a queue, which is all the rest of the page can
    tell of them: the load event puts the alerts it finds behind those
    that wait, a timer move takes the first one or leaves the queue alone
    (a fallback fired), and no other move changes it. *)
Inductive alerts_step : list nat → label → list nat → Prop :=
  | alerts_found q new : alerts_step q LContentLoaded (q ++ new)
  | alerts_first alert q : alerts_step (alert :: q) LTimer q
  | alerts_wait q a : a ≠ LContentLoaded → alerts_step q a q.

Lemma dismissed_fired_by a w :
  dismissed (fired_by a w) = [] ∨ a = LTimer ∧ ∃ alert, dismissed (fired_by a w) = [alert].
Proof.
  destruct a; simpl; auto. destruct (take_timer (w_loop w)) as [[t ?]|]; simpl; auto.
  unfold dismissed; simpl. destruct (cb_alert (t_cb t)); eauto.
Qed.

Lemma step_alerts_queue w a w' :
  orderly w → step user w a w' → alerts_step (pending_alerts w) a (pending_alerts w').
Proof.
  intros Ho Hstep. destruct (decide (a = LContentLoaded)) as [->|Ha].
  - destruct Ho as (Hinv & _). destruct (step_grows _ _ _ Hinv Hstep) as [new Hnew].
    unfold pending_alerts. rewrite Hnew, omap_app. constructor.
  - rewrite (step_alerts_exact _ _ _ Ho Hstep Ha).
    destruct (dismissed_fired_by a w) as [->|(-> & alert & ->)]; by constructor.
Qed.

Context (page : html).

(** A timer overtakes only timers set with a longer delay.  On every
    reachable page the timer that fires leaves the others in their
    order; those in front of it are fallbacks and it is an alert timer
    then: a fallback fires only when it is the first of the queue, and
    an alert timer only when no alert timer is in front of it. *)
Lemma timer_overtakes_fallbacks w t l' :
  reachable user (initial_world page) w → take_timer (w_loop w) = Some (t, l') →
  ∃ ts1 ts2, l_timers (w_loop w) = ts1 ++ t :: ts2 ∧ l_timers l' = ts1 ++ ts2 ∧
    Forall (λ u, cb_button (t_cb t) = None ∧ cb_alert (t_cb u) = None) ts1.
Proof.
  intros (Hinv & _ & Hs)%reachable_orderly. pose proof Hinv as ([[_ Hl] _] & _).
  by apply take_timer_first.
Qed.

Lemma alerts_after_load tr w :
  run user ([LBootstrap; LScript; LContentLoaded] ++ tr) (initial_world page) = Some w →
  count LContentLoaded tr = 0 →
  dismissed (fired user ([LBootstrap; LScript; LContentLoaded] ++ tr) (initial_world page))
    ++ pending_alerts w = found sel_alert page.
Proof.
  intros Hrun Hc. pose proof (page_load user page) as Hload.
  rewrite run_app, Hload in Hrun. simpl in Hrun.
  rewrite (fired_app _ tr _ _ Hload).
  change (fired user [LBootstrap; LScript; LContentLoaded] (initial_world page)) with
    (@nil callback). simpl.
  rewrite <-(run_alerts_exact tr _ w); [|by eapply reachable_orderly, run_reachable|done..].
  rewrite pending_alerts_loaded. unfold found.
  by rewrite <-document_querySelectorAll_filter by apply wf_load_document.
Qed.

(** C18. Alerts are dismissed in document order.  Along every run that
    starts with loading the page and has no second load event, the
    alerts dismissed so far, in the order of their dismissal, followed
    by the alerts whose timer is pending are the elements of class
    [alert] of the document that the server sent, in document order:
    each alert has its turn once, after those before it in the
    document. *)
Theorem alerts_in_document_order tr w :
  run user ([LBootstrap; LScript; LContentLoaded] ++ tr) (initial_world page) = Some w →
  count LContentLoaded tr = 0 →
  dismissed (fired user ([LBootstrap; LScript; LContentLoaded] ++ tr) (initial_world page))
    ++ pending_alerts w = found sel_alert page.
Proof. apply alerts_after_load. Qed.

(** C19. The alert timers of a page are a first-in first-out queue:
    every move of a reachable page is a move of [alerts_step] on the
    alerts whose timers wait.  The load event only appends, a timer move
    removes at most the first, the other moves leave them alone; so no
    alert is dismissed before one that was found earlier and none is
    forgotten. *)
Theorem alerts_queue w a w' :
  reachable user (initial_world page) w → step user w a w' →
  alerts_step (pending_alerts w) a (pending_alerts w').
Proof. intros Hr. by apply step_alerts_queue, (reachable_orderly page). Qed.

(** C16. Timers fire in the order in which they were set, kind by kind.
    Along every run from a reachable page, the alerts dismissed so far
    followed by those pending begin with the alerts that were pending at
    the start, in their order, which is document order; and the buttons
    restored so far followed by those waiting begin with the buttons
    that were waiting at the start, in the order in which they were
    guarded. *)
Theorem timers_fire_in_order tr w w' :
  reachable user (initial_world page) w → run user tr w = Some w' →
  pending_alerts w `prefix_of` dismissed (fired user tr w) ++ pending_alerts w' ∧
  pending_restores w `prefix_of` restored (fired user tr w) ++ pending_restores w'.
Proof.
  intros Ho%reachable_orderly Hrun. split.
  - by apply (run_fired_order cb_alert cb_alert_one_kind).
  - by apply (run_fired_order cb_button cb_button_one_kind).
Qed.

End Runs.

(** ** On the sample page *)

(** The sample page loaded twice with a submit in between: the second
    alert timer is set after the fallback and fires before it. *)
Definition sample_reloaded : world :=
  exec (perform accepter LTimer)
    (exec (perform accepter LContentLoaded) sample_submitted).

Lemma sample_reloaded_reachable :
  reachable accepter (initial_world sample_page) sample_reloaded.
Proof.
  apply (run_reachable accepter (sample_trace ++ [LContentLoaded; LTimer])).
  vm_compute. reflexivity.
Qed.

Example sample_reloaded_queue :
  l_timers (w_loop sample_reloaded) =
  [Timer 1 30000 (RestoreButton 7 [HText "Save"]); Timer 2 5000 (HideAlert 3)].
Proof. vm_compute. reflexivity. Qed.

Example sample_overtakes :
  take_timer (w_loop sample_reloaded) =
    Some (Timer 2 5000 (HideAlert 3),
          Loop 5000 [Timer 1 30000 (RestoreButton 7 [HText "Save"])] 3) ∧
  ∃ ts1 ts2,
    l_timers (w_loop sample_reloaded) = ts1 ++ Timer 2 5000 (HideAlert 3) :: ts2 ∧
    [Timer 1 30000 (RestoreButton 7 [HText "Save"])] = ts1 ++ ts2 ∧
    Forall (λ u, cb_button (HideAlert 3) = None ∧ cb_alert (t_cb u) = None) ts1.
Proof.
  assert (take_timer (w_loop sample_reloaded) =
    Some (Timer 2 5000 (HideAlert 3),
          Loop 5000 [Timer 1 30000 (RestoreButton 7 [HText "Save"])] 3)) as H
    by (vm_compute; reflexivity).
  split; [exact H|].
  apply (timer_overtakes_fallbacks accepter sample_page sample_reloaded _ _
           sample_reloaded_reachable H).
Qed.

(** A page with three alerts; the second is closed by the user before
    its timer fires. *)
Definition sample_alerts : html :=
  [HElem "body" []
    [HElem "div" [("class", "alert alert-info")] [HText "One"];
     HElem "div" [("class", "alert")]
       [HText "Two"; HElem "button" [("class", "btn-close")] []];
     HElem "p" [] [HText "Text"];
     HElem "div" [("class", "alert alert-danger")] [HText "Three"]]].

Definition sample_alerts_trace : list label := [LClick 3; LWait 5000; LTimer; LTimer].

Lemma alerts_in_document_order_witness :
  found sel_alert sample_alerts = [1; 2; 5] ∧
  fired accepter ([LBootstrap; LScript; LContentLoaded] ++ sample_alerts_trace)
    (initial_world sample_alerts) = [HideAlert 1; HideAlert 2] ∧
  ∃ w, run accepter ([LBootstrap; LScript; LContentLoaded] ++ sample_alerts_trace)
         (initial_world sample_alerts) = Some w ∧
    dismissed (fired accepter ([LBootstrap; LScript; LContentLoaded] ++ sample_alerts_trace)
                 (initial_world sample_alerts)) ++ pending_alerts w =
    found sel_alert sample_alerts.
Proof.
  split; [vm_compute; reflexivity|]. split; [vm_compute; reflexivity|].
  destruct (run accepter ([LBootstrap; LScript; LContentLoaded] ++ sample_alerts_trace)
              (initial_world sample_alerts)) as [w|] eqn:Hrun; [|by vm_compute in Hrun].
  exists w. split; [done|].
  apply (alerts_in_document_order accepter sample_alerts sample_alerts_trace w Hrun).
  vm_compute. reflexivity.
Defined.

Lemma timers_fire_in_order_witness :
  fired accepter [LTimer; LTimer] sample_submitted =
    [HideAlert 3; RestoreButton 7 [HText "Save"]] ∧
  pending_alerts sample_submitted `prefix_of`
    dismissed (fired accepter [LTimer; LTimer] sample_submitted) ++
    pending_alerts (exec (drain accepter 2) sample_submitted) ∧
  pending_restores sample_submitted `prefix_of`
    restored (fired accepter [LTimer; LTimer] sample_submitted) ++
    pending_restores (exec (drain accepter 2) sample_submitted).
Proof.
  split; [vm_compute; reflexivity|].
  apply (timers_fire_in_order accepter sample_page [LTimer; LTimer] sample_submitted
           (exec (drain accepter 2) sample_submitted) sample_reachable).
  vm_compute. reflexivity.
Defined.

Lemma sample_timer_step : step accepter sample_submitted LTimer (exec (drain accepter 1) sample_submitted).
Proof. apply run_label_step. vm_compute. reflexivity. Qed.

Lemma alerts_queue_witness :
  pending_alerts sample_submitted = [3] ∧
  alerts_step (pending_alerts sample_submitted) LTimer
    (pending_alerts (exec (drain accepter 1) sample_submitted)).
Proof.
  split; [vm_compute; reflexivity|].
  apply (alerts_queue accepter sample_page sample_submitted LTimer _ sample_reachable
           sample_timer_step).
Defined.
