(* ===== verification/Quiescence.v ===== *)
(** * The page comes to rest

    The callbacks of the script set no timer of their own, save the
    guard that the click of an alert callback may start; so the timers
    that are pending after any run fire one after the other and none is
    left ([Timers.drain]).  Draining is a run of the page
    ([drain_run]): a trace of timer moves.  At its end every alert of
    that was pending has had its callback, once and in the order of
    the queue, which is document order ([Order.alerts_in_document_order]),
    and every button that was guarded is enabled again
    ([page_comes_to_rest]). *)

From Stdlib Require Import Ascii String.
From stdpp Require Import base strings option numbers list.
From S2P Require Import Prelude Html Selector Dom DomFacts EventLoop Page Samples.
From S2P Require Import Guard Bindings Machine Invariants Timers Alerts Order.

Local Open Scope list_scope.

(** No timer is pending. *)
Definition at_rest (w : world) : Prop := l_timers (w_loop w) = [].

#[export] Instance at_rest_dec w : Decision (at_rest w).
Proof. unfold at_rest. apply _. Defined.

Section Rest.
Context (user : nat → bool).
Implicit Types (w : world) (tr : list label) (n k : nat).

(** Letting the timers fire is a run of timer moves, at most as many as
    there was fuel. *)
Lemma drain_run n w :
  ∃ k, k ≤ n ∧ run user (replicate k LTimer) w = Some (exec (drain user n) w).
Proof.
  revert w; induction n as [|n IH]; intros w; [by exists 0|].
  unfold exec. rewrite drain_S.
  destruct (take_timer (w_loop w)) as [[t l']|] eqn:Ht; [|by exists 0; split; [lia|]].
  destruct (IH (exec (run_callback user (t_cb t)) (with_loop (λ _, l') w))) as (k & Hk & Hrun).
  exists (S k). split; [lia|]. cbn [replicate run].
  by rewrite (proj2 (run_label_step user w LTimer _) (step_timer user w t l' Ht)).
Qed.

Lemma count_timers k : count LContentLoaded (replicate k LTimer) = 0.
Proof. induction k as [|k IH]; [done|]. by rewrite replicate_S, count_cons, IH. Qed.

Context (page : html).

(** C25. The page comes to rest.  From every reachable page finitely
    many timer moves, at most [drain_fuel], lead to a page on which no
    timer is pending.  Along them the callbacks of the alerts that were
    pending run, each once and in their order, and no other; the
    fallbacks of the buttons that were waiting run first among the
    fallbacks, in their order; at the end each of these buttons is
    enabled. *)
Theorem page_comes_to_rest w :
  reachable user (initial_world page) w →
  ∃ k w', k ≤ drain_fuel w ∧
    run user (replicate k LTimer) w = Some w' ∧ at_rest w' ∧
    dismissed (fired user (replicate k LTimer) w) = pending_alerts w ∧
    pending_restores w `prefix_of` restored (fired user (replicate k LTimer) w) ∧
    ∀ b, b ∈ pending_restores w → get_disabled b (w_dom w') = false.
Proof.
  intros Hr. pose proof (reachable_page_inv user page w Hr) as Hinv.
  pose proof (reachable_orderly user page w Hr) as Ho.
  destruct (drain_run (drain_fuel w) w) as (k & Hk & Hk').
  set (w' := exec (drain user (drain_fuel w)) w) in *.
  assert (l_timers (w_loop w') = []) as Hnil by by apply drain_empties_inv.
  exists k, w'. split_and!; [done..| | |].
  - rewrite (run_alerts_exact user _ w w' Ho Hk') by apply count_timers.
    unfold pending_alerts, callbacks. by rewrite Hnil, app_nil_r.
  - pose proof (run_fired_order user cb_button cb_button_one_kind _ w w' Ho Hk') as Hp.
    unfold callbacks in Hp at 2. by rewrite Hnil, app_nil_r in Hp.
  - intros b Hb. apply drain_recovers_inv; [done..|by left].
Qed.

End Rest.

(** ** On the sample page *)

Lemma page_comes_to_rest_witness :
  ∃ k w', k ≤ drain_fuel sample_submitted ∧
    run accepter (replicate k LTimer) sample_submitted = Some w' ∧ at_rest w' ∧
    dismissed (fired accepter (replicate k LTimer) sample_submitted) =
      pending_alerts sample_submitted ∧
    pending_restores sample_submitted `prefix_of`
      restored (fired accepter (replicate k LTimer) sample_submitted) ∧
    ∀ b, b ∈ pending_restores sample_submitted → get_disabled b (w_dom w') = false.
Proof. exact (page_comes_to_rest accepter sample_page sample_submitted sample_reachable). Defined.

Example sample_rest :
  drain_fuel sample_submitted = 7 ∧
  run accepter [LTimer; LTimer] sample_submitted =
    Some (exec (drain accepter 7) sample_submitted) ∧
  fired accepter [LTimer; LTimer] sample_submitted =
    [HideAlert 3; RestoreButton 7 [HText "Save"]].
Proof. vm_compute. done. Qed.
