(* ===== verification/Served.v ===== *)
(** * What the script leaves of the served page

    The script writes to the document in three places: the guard (lines
    15-17), its fallback (lines 21-22) and [showLoading] (line 61).
    None of them touches a tag or an attribute other than [disabled],
    and [disabled] is set on a button exactly while its fallback waits.
    So on every reachable page each element of the served document has
    the tag and the attributes it was served with, but for [disabled]
    on the buttons that wait ([served_attributes]). *)

From Stdlib Require Import Ascii String.
From stdpp Require Import base strings option numbers list.
From S2P Require Import Prelude Html Selector Dom DomFacts Queries Subtree.
From S2P Require Import EventLoop Page Samples Guard Bindings Machine Invariants.

Local Open Scope string_scope.
Local Open Scope list_scope.

(** The element [x] of [d] is as in [d0], but for the attribute
    [disabled] that it has got when [busy]. *)
Definition as_in (d0 : dom) (busy : bool) (x : nat) (d : dom) : Prop :=
  tag_of x d = tag_of x d0 ∧
  attrs_of x d = (if busy then attr_set "disabled" "" (attrs_of x d0) else attrs_of x d0) ∧
  (busy = true → get_disabled x d0 = false).

(** Every element of the served page is as it was served, but for the
    buttons that wait for their fallback. *)
Definition as_served (page : html) (w : world) : Prop :=
  (d_next (load_document page) ≤ d_next (w_dom w))%nat ∧
  ∀ x, (x < d_next (load_document page))%nat →
    as_in (load_document page) (bool_decide (x ∈ pending_restores w)) x (w_dom w).

Section Writes.
Context (d0 : dom).
Implicit Types (d : dom) (b x : nat) (h : html) (busy : bool).

(** A write to another element. *)
Lemma as_in_other b x h v busy d :
  wf_dom d → x ≠ b → (x < d_next d)%nat →
  as_in d0 busy x d → as_in d0 busy x (set_disabled b v (set_innerHTML b h d)).
Proof.
  intros Hwf Hne Hlt (Htag & Ha & Hd). split_and!; [| |done].
  - by rewrite tag_of_set_disabled, tag_of_set_innerHTML.
  - unfold set_disabled. by rewrite attrs_of_alter_dom_other, attrs_of_set_innerHTML_other.
Qed.

(** The guard of an enabled button that does not wait. *)
Lemma as_in_guard b h d :
  wf_dom d → is_Some (lookup b d) → get_disabled b d = false →
  as_in d0 false b d → as_in d0 true b (set_disabled b true (set_innerHTML b h d)).
Proof.
  intros Hwf Hb Hdis (Htag & Ha & _). pose proof (lookup_lt _ _ Hwf Hb).
  split_and!.
  - by rewrite tag_of_set_disabled, tag_of_set_innerHTML.
  - unfold set_disabled. rewrite attrs_of_alter_dom by by apply lookup_set_innerHTML_is_Some.
    by rewrite attrs_of_set_innerHTML, Ha.
  - intros _. unfold get_disabled in *. by rewrite <-Ha.
Qed.

(** The fallback of a button that waits. *)
Lemma as_in_restore b h d :
  wf_dom d → is_Some (lookup b d) →
  as_in d0 true b d → as_in d0 false b (set_disabled b false (set_innerHTML b h d)).
Proof.
  intros Hwf Hb (Htag & Ha & Hd). pose proof (lookup_lt _ _ Hwf Hb).
  split_and!; [| |done].
  - by rewrite tag_of_set_disabled, tag_of_set_innerHTML.
  - unfold set_disabled. rewrite attrs_of_alter_dom by by apply lookup_set_innerHTML_is_Some.
    rewrite attrs_of_set_innerHTML, Ha. apply attr_remove_set_absent, attr_has_false.
    by apply Hd.
Qed.

(** [showLoading]. *)
Lemma as_in_innerHTML b x h busy d :
  wf_dom d → (x < d_next d)%nat → as_in d0 busy x d → as_in d0 busy x (set_innerHTML b h d).
Proof.
  intros Hwf Hlt (Htag & Ha & Hd). split_and!; [| |done].
  - by rewrite tag_of_set_innerHTML.
  - by rewrite attrs_of_set_innerHTML_any.
Qed.

End Writes.

(** ** Stability *)

Section Stable.
Context (user : nat → bool) (page : html).
Implicit Types (w : world) (b x : nat).

Lemma as_served_same w w' :
  w_dom w' = w_dom w → pending_restores w' = pending_restores w →
  as_served page w → as_served page w'.
Proof. unfold as_served. by intros -> ->. Qed.

Lemma as_served_guard w this b :
  page_inv w → as_served page w → submit_button this w = Some b →
  get_disabled b (w_dom w) = false → as_served page (guard_effect b w).
Proof.
  intros [[[Hwf _] Hg] _] [Hn H] Hb Hd.
  pose proof (enabled_not_pending w b Hg Hd) as Hnb.
  pose proof (submit_button_lookup _ _ _ Hb) as Hl.
  pose proof (d_next_set_innerHTML b processing_html (w_dom w)) as Hle.
  split; [unfold guard_effect; cbn [w_dom with_loop with_dom];
          rewrite d_next_set_disabled; lia|].
  intros x Hx. specialize (H x Hx). rewrite (pending_restores_guard b w).
  unfold guard_effect. cbn [w_dom with_loop with_dom]. destruct (decide (x = b)) as [->|Hne].
  - rewrite bool_decide_eq_false_2 in H by done.
    rewrite bool_decide_eq_true_2 by (apply elem_of_app; right; left). by apply as_in_guard.
  - rewrite (bool_decide_ext _ (x ∈ pending_restores w))
      by (rewrite elem_of_app, list_elem_of_singleton; tauto).
    apply as_in_other; [done..|lia|done].
Qed.

Lemma as_served_restore w t l' b h :
  page_inv w → as_served page w → take_timer (w_loop w) = Some (t, l') →
  t_cb t = RestoreButton b h → as_served page (restore_effect b h (with_loop (λ _, l') w)).
Proof.
  intros [[[Hwf Hl] [Hnd Hdis]] _] [Hn H] Ht Hcb.
  destruct (pending_restores_take w t l' Hl Ht) as (p1 & p2 & E1 & E2).
  rewrite Hcb in E1. simpl in E1. rewrite E1 in Hnd, Hdis.
  assert (is_Some (lookup b (w_dom w))) as Hb.
  { apply get_disabled_lookup. rewrite Forall_forall in Hdis. apply Hdis.
    apply elem_of_app. right. left. }
  apply NoDup_app in Hnd as (_ & Hp1 & [Hp2 _]%NoDup_cons).
  pose proof (d_next_set_innerHTML b h (w_dom w)) as Hle.
  split; [unfold restore_effect; cbn [w_dom with_loop with_dom];
          rewrite d_next_set_disabled; lia|].
  intros x Hx. specialize (H x Hx). rewrite E1 in H.
  change (pending_restores (restore_effect b h (with_loop (λ _, l') w)))
    with (pending_restores (with_loop (λ _, l') w)). rewrite E2.
  unfold restore_effect. cbn [w_dom with_loop with_dom]. destruct (decide (x = b)) as [->|Hne].
  - rewrite bool_decide_eq_true_2 in H by (apply elem_of_app; right; left).
    rewrite bool_decide_eq_false_2; [by apply as_in_restore|].
    rewrite elem_of_app. intros [Hin|Hin]; [|done]. apply (Hp1 b Hin). left.
  - rewrite (bool_decide_ext _ (x ∈ p1 ++ b :: p2))
      by (rewrite !elem_of_app, elem_of_cons; tauto).
    apply as_in_other; [done..|lia|done].
Qed.

#[export] Instance as_served_stable : Stable user page_inv (as_served page).
Proof.
  split; try done.
  - intros w _ H. apply (as_served_same w); [done|apply pending_restores_loaded|done].
  - apply as_served_guard.
  - apply as_served_restore.
  - intros w t l' alert [[[_ Hl] _] _] H Ht Hcb. apply (as_served_same w); [done| |done].
    destruct (pending_restores_take w t l' Hl Ht) as (p1 & p2 & E1 & E2).
    rewrite Hcb in E1. by rewrite E1, E2.
  - intros w c [[[Hwf _] _] _] [Hn H] Hc.
    pose proof (d_next_set_innerHTML c loading_html (w_dom w)) as Hle.
    split; [cbn [w_dom with_dom]; lia|]. intros x Hx. apply as_in_innerHTML; [done|lia|by apply H].
Qed.

#[export] Instance page_inv_as_served_stable :
  Stable user anywhere (λ w, page_inv w ∧ as_served page w).
Proof. apply Stable_under; apply _. Qed.

End Stable.

(** ** On reachable pages *)

Section Reachable.
Context (user : nat → bool) (page : html).
Implicit Types (w : world) (x : nat).

Lemma as_served_initial_world : as_served page (initial_world page).
Proof. split; [done|]. intros x Hx. by rewrite bool_decide_eq_false_2 by apply not_elem_of_nil. Qed.

Lemma reachable_as_served w : reachable user (initial_world page) w → as_served page w.
Proof.
  intros Hr. enough (page_inv w ∧ as_served page w) as [_ H] by done.
  apply (stable_reachable user (λ w, page_inv w ∧ as_served page w) (initial_world page));
    [|done].
  split; [apply page_inv_initial_world|apply as_served_initial_world].
Qed.

(** C17. The script leaves the served elements as they are, but for
    [disabled].  On every reachable page, whatever was submitted,
    clicked, confirmed or timed out and whether [showLoading] ran or
    not, an element of the served document has the tag it was served
    with, and the attributes it was served with: exactly those when no
    fallback waits for it, and those with [disabled] added when one
    does.  A button that was served disabled never waits: the guard
    does not fire for it. *)
Theorem served_attributes w x :
  reachable user (initial_world page) w → is_Some (lookup x (load_document page)) →
  tag_of x (w_dom w) = tag_of x (load_document page) ∧
  attrs_of x (w_dom w) =
    (if bool_decide (x ∈ pending_restores w)
     then attr_set "disabled" "" (attrs_of x (load_document page))
     else attrs_of x (load_document page)) ∧
  (x ∈ pending_restores w → get_disabled x (load_document page) = false).
Proof.
  intros [_ H]%reachable_as_served Hx%lookup_lt; [|apply wf_load_document].
  destruct (H x Hx) as (Htag & Ha & Hd). split_and!; [done..|].
  intros Hin. apply Hd. by apply bool_decide_eq_true_2.
Qed.

End Reachable.

(** ** On the sample page *)

Lemma served_attributes_witness :
  pending_restores sample_submitted = [7] ∧
  attrs_of 7 (w_dom sample_submitted) =
    [("type", "submit"); ("class", "btn btn-primary"); ("data-bs-toggle", "tooltip");
     ("disabled", "")] ∧
  attrs_of 7 (w_dom sample_submitted) =
    attr_set "disabled" "" (attrs_of 7 (load_document sample_page)).
Proof.
  split; [vm_compute; reflexivity|]. split; [vm_compute; reflexivity|].
  assert (is_Some (lookup 7 (load_document sample_page))) as H7 by (vm_compute; eauto).
  exact (proj1 (proj2 (served_attributes accepter sample_page sample_submitted 7
                         sample_reachable H7))).
Defined.
