(* ===== verification/Settled.v ===== *)
(** * The document once the fallbacks have fired

    The guard overwrites the content of a button and its fallback puts
    back the markup that the guard read.  [undo] is the markup of the
    document with every pending fallback carried out: a button of the
    table of guards ([GuardTable.guards_of]) gets the content that the
    table holds for it and loses [disabled].  As long as [showLoading]
    has not run, this markup is the markup of the served page after
    every move ([settled]); so once the timers have fired the document
    is, as markup, the document that the server sent
    ([document_as_served]).

    The served page must not have a [button[type="submit"]] inside
    another ([flat]), which HTML does not allow: the content that the
    outer guard reads would hold the inner button while it is disabled
    and shows "Processing...", and the outer fallback would put that
    back ([sample_nested_stuck]). *)

From Stdlib Require Import Ascii String.
From stdpp Require Import base strings option numbers list gmap.
From S2P Require Import Prelude Html Selector Dom DomFacts Queries Subtree.
From S2P Require Import EventLoop Page Samples Guard Bindings Machine Invariants.
From S2P Require Import Kinds Clicks Timers GuardTable Quiescence.

Local Open Scope string_scope.
Local Open Scope list_scope.

(** The markup of a tree once the fallbacks of the table [g] have
    fired: a button of the table has the content that the table holds
    for it and no attribute [disabled]; what is below it now will be
    gone. *)
Fixpoint undo (g : gmap nat entry) (t : tree) : hnode :=
  match t with
  | TText s => HText s
  | TElem i tag a kids =>
      match g !! i with
      | Some e => HElem tag (attr_remove "disabled" a) (e_original e)
      | None => HElem tag a (undo g <$> kids)
      end
  end.

Definition settled (w : world) : html :=
  undo (g_busy (guards_of w)) <$> d_doc (w_dom w).

(** No [button[type="submit"]] inside a [button[type="submit"]]. *)
Fixpoint flat_node (n : hnode) : bool :=
  match n with
  | HText _ => true
  | HElem tag a kids =>
      (negb (matches sel_submit tag a) || bool_decide (hmatches sel_submit kids = 0))
      && forallb flat_node kids
  end.

Definition flat (h : html) : bool := forallb flat_node h.

(** ** Trees of a document *)

Section Part.
Context (d : dom).
Implicit Types (t n : tree) (x i : nat).

(** [t] is a tree of [d]: its elements are those that [lookup] finds. *)
Definition part_of (t : tree) : Prop :=
  NoDup (ids t) ∧ ∀ x n, find_node x t = Some n → lookup x d = Some n.

Lemma part_of_doc t : wf_dom d → t ∈ d_doc d → part_of t.
Proof.
  intros Hwf Ht. pose proof (wf_dom_doc d Hwf) as Hnd. split.
  - by apply (NoDup_forest_ids_elem (d_doc d)).
  - intros x n Hx. by apply lookup_doc, (find_forest_NoDup x (d_doc d) t).
Qed.

Lemma part_of_elem i tag a kids :
  part_of (TElem i tag a kids) →
  lookup i d = Some (TElem i tag a kids) ∧ Forall part_of kids.
Proof.
  intros [Hnd H]. split; [apply H; by rewrite find_node_elem, bool_decide_eq_true_2|].
  rewrite ids_elem, NoDup_cons in Hnd. destruct Hnd as [Hi Hnd].
  apply Forall_forall. intros k Hk. split; [by apply (NoDup_forest_ids_elem kids)|].
  intros x n Hx. pose proof (find_forest_NoDup x kids k n Hnd Hk Hx) as Hf.
  apply H. rewrite find_node_elem, bool_decide_eq_false_2; [done|].
  intros ->. apply Hi, find_forest_is_Some. eauto.
Qed.

End Part.

(** ** The markup and the table *)

Section Undo.
Context (g : gmap nat entry).
Implicit Types (t : tree) (f : forest) (b x i : nat) (e : entry) (d : dom).

Lemma matches_submit_enabled tag a :
  matches sel_submit tag (attr_remove "disabled" a) = matches sel_submit tag a.
Proof.
  apply (matches_irrelevant "disabled"); [done|]. intros m Hm. by apply attr_get_remove_ne.
Qed.

(** Without a button of the table in it, a tree is its own markup. *)
Lemma undo_erase t : (∀ x, x ∈ ids t → g !! x = None) → undo g t = erase t.
Proof.
  induction t as [s|i tag a kids IH] using tree_ind; [done|].
  intros H. cbn [undo erase]. rewrite H by (rewrite ids_elem; left). f_equal.
  apply Forall_fmap_ext_1, Forall_forall. intros k Hk. rewrite Forall_forall in IH.
  apply (IH k Hk). intros x Hx. apply H. rewrite ids_elem. right.
  apply list_elem_of_bind. eauto.
Qed.

(** A write to a button of the table does not show. *)
Lemma undo_alter b fa fk t :
  is_Some (g !! b) → (∀ a, attr_remove "disabled" (fa a) = attr_remove "disabled" a) →
  undo g (alter_at b fa fk t) = undo g t.
Proof.
  intros [e Hb] Hfa. induction t as [s|i tag a kids IH] using tree_ind; [done|].
  rewrite alter_at_elem. case_bool_decide as Hi.
  - subst i. cbn [undo]. by rewrite Hb, Hfa.
  - cbn [undo]. destruct (g !! i); [done|]. f_equal. rewrite <-list_fmap_compose.
    by apply Forall_fmap_ext_1.
Qed.

(** The entry of a button whose content is its markup and that is
    enabled does not show either. *)
Lemma undo_insert_here b e tag a kids :
  g !! b = None → attr_has "disabled" a = false → e_original e = serialize kids →
  (∀ x, x ∈ forest_ids kids → g !! x = None) →
  undo (<[b:=e]> g) (TElem b tag a kids) = undo g (TElem b tag a kids).
Proof.
  intros Hb Ha He Hk. cbn [undo]. rewrite lookup_insert_eq, Hb, He.
  rewrite attr_remove_absent by by apply attr_has_false. f_equal. unfold serialize.
  apply Forall_fmap_ext_1, Forall_forall. intros k Hin. symmetry. apply undo_erase.
  intros x Hx. apply Hk, list_elem_of_bind. eauto.
Qed.

Section Document.
Context (d : dom) (Hkeys : ∀ x, is_Some (g !! x) → matches_at sel_submit x d = true).

(** Where the markup shows no submit button, no button of the table
    is. *)
Lemma undo_no_keys t :
  part_of d t → hcount sel_submit (undo g t) = 0 → ∀ x, x ∈ ids t → g !! x = None.
Proof.
  induction t as [s|i tag a kids IH] using tree_ind; [by intros _ _ x ?%elem_of_nil|].
  intros [Hl Hk]%part_of_elem. cbn [undo]. destruct (g !! i) as [e|] eqn:Hg.
  - cbn [hcount]. rewrite matches_submit_enabled, <-(matches_at_lookup _ _ _ _ _ _ Hl).
    by rewrite Hkeys by eauto.
  - cbn [hcount]. intros H0 x. rewrite ids_elem, elem_of_cons. intros [->|Hx]; [done|].
    apply list_elem_of_bind in Hx as (k & Hx & Hin).
    assert (hmatches sel_submit (undo g <$> kids) = 0) as Hz by (unfold hmatches; lia).
    rewrite hmatches_zero, Forall_fmap, Forall_forall in Hz.
    rewrite Forall_forall in IH, Hk. apply (IH k Hin); [by apply Hk|by apply Hz|done].
Qed.

(** The guard of [b]: an enabled submit button gets an entry with its
    content. *)
Lemma undo_insert_guard b e t :
  part_of d t → g !! b = None → matches_at sel_submit b d = true →
  get_disabled b d = false → e_original e = get_innerHTML b d →
  flat_node (undo g t) = true → undo (<[b:=e]> g) t = undo g t.
Proof.
  intros Hp Hb Hm Hdis He. induction t as [s|i tag a kids IH] using tree_ind; [done|].
  apply part_of_elem in Hp as [Hl Hk]. intros Hflat.
  destruct (decide (i = b)) as [->|Hne].
  - cbn [undo] in Hflat. rewrite Hb in Hflat. cbn [flat_node] in Hflat.
    rewrite (matches_at_lookup _ _ _ _ _ _ Hl) in Hm. rewrite Hm in Hflat.
    cbn [negb orb] in Hflat. apply andb_true_iff in Hflat as [Hz%bool_decide_eq_true _].
    unfold get_disabled, get_innerHTML, attrs_of, kids_of in *. rewrite Hl in *.
    apply undo_insert_here; [done..|]. intros x (k & Hx & Hin)%list_elem_of_bind.
    rewrite hmatches_zero, Forall_fmap, Forall_forall in Hz. rewrite Forall_forall in Hk.
    apply (undo_no_keys k); [by apply Hk|by apply Hz|done].
  - revert Hflat. cbn [undo]. rewrite lookup_insert_ne by done.
    destruct (g !! i); [done|]. cbn [flat_node]. intros [_ Hf]%andb_true_iff. f_equal.
    apply Forall_fmap_ext_1. rewrite forallb_forall in Hf.
    rewrite Forall_forall in IH, Hk |- *. intros k Hin.
    apply (IH k Hin); [by apply Hk|]. apply Hf, list_elem_of_In, list_elem_of_fmap. eauto.
Qed.

(** The fallback of [b]: the entry of an enabled button with fresh
    content. *)
Lemma undo_insert_fresh b e t :
  part_of d t → g !! b = None → get_disabled b d = false →
  e_original e = get_innerHTML b d →
  (∀ x, x ∈ forest_ids (kids_of b d) → g !! x = None) →
  undo (<[b:=e]> g) t = undo g t.
Proof.
  intros Hp Hb Hdis He Hfresh. induction t as [s|i tag a kids IH] using tree_ind; [done|].
  apply part_of_elem in Hp as [Hl Hk]. destruct (decide (i = b)) as [->|Hne].
  - unfold get_disabled, get_innerHTML, attrs_of, kids_of in *. rewrite Hl in *.
    by apply undo_insert_here.
  - cbn [undo]. rewrite lookup_insert_ne by done. destruct (g !! i); [done|]. f_equal.
    apply Forall_fmap_ext_1. rewrite Forall_forall in IH, Hk |- *. intros k Hin.
    apply (IH k Hin). by apply Hk.
Qed.

End Document.

End Undo.

(** ** The markup under the effects of the script *)

Section Effects.
Implicit Types (w : world) (d : dom) (b x : nat) (h : html) (g : gmap nat entry).

(** The two writes to a button of the table do not show. *)
Lemma undo_write g b h v d :
  is_Some (g !! b) →
  undo g <$> d_doc (set_disabled b v (set_innerHTML b h d)) = undo g <$> d_doc d.
Proof.
  intros Hg. unfold set_disabled. cbn [alter_dom d_doc]. rewrite <-list_fmap_compose.
  transitivity (undo g <$> d_doc (set_innerHTML b h d)).
  - apply list_fmap_ext. intros _ t _. cbn [compose]. apply undo_alter; [done|].
    intros a. destruct v; [apply attr_remove_set|apply attr_remove_idemp].
  - destruct (lookup b d) as [n|] eqn:Hl; [|by rewrite set_innerHTML_absent].
    rewrite set_innerHTML_unfold by eauto. cbn [d_doc]. rewrite <-list_fmap_compose.
    apply list_fmap_ext. intros _ t _. cbn [compose]. by apply undo_alter.
Qed.

(** The children that the two writes give to a button are new. *)
Lemma kids_of_restored b h v d x :
  is_Some (lookup b d) →
  x ∈ forest_ids (kids_of b (set_disabled b v (set_innerHTML b h d))) →
  (d_next d ≤ x)%nat.
Proof.
  intros [n Hn]. destruct (lookup_elem _ _ _ Hn) as (tag & a & old & ->).
  unfold set_disabled. rewrite kids_of_alter_dom. unfold kids_of.
  rewrite (lookup_set_innerHTML_same _ _ _ _ _ _ Hn). simpl.
  rewrite forest_ids_instantiate, elem_of_seq. lia.
Qed.

(** The buttons of the table are submit buttons of the document. *)
Lemma table_kinded w x :
  kinded w → is_Some (g_busy (guards_of w) !! x) →
  (x < d_next (w_dom w))%nat ∧ matches_at sel_submit x (w_dom w) = true.
Proof.
  intros Hk Hx. apply (proj1 (Forall_forall _ _) Hk (x, KSubmit)), held_pending.
  destruct (decide (x ∈ pending_restores w)) as [|Hn]; [done|].
  apply guards_lookup_None in Hn. rewrite Hn in Hx. by destruct Hx.
Qed.

Lemma settled_guard w this b :
  page_inv w → kinded w → flat (settled w) = true →
  submit_button this w = Some b → get_disabled b (w_dom w) = false →
  settled (guard_effect b w) = settled w.
Proof.
  intros [[[Hwf _] Hg] _] Hk Hflat Hb Hd.
  pose proof (enabled_not_pending w b Hg Hd) as Hnb. unfold settled.
  rewrite (guards_of_guard b w Hnb). unfold guard_effect. cbn [g_busy w_dom with_loop with_dom].
  rewrite undo_write by (rewrite lookup_insert_eq; eauto).
  apply Forall_fmap_ext_1, Forall_forall. intros t Ht.
  apply (undo_insert_guard _ (w_dom w)); try done.
  - intros x Hx. by apply table_kinded.
  - by apply part_of_doc.
  - by apply guards_lookup_None.
  - by apply (submit_button_is_kind this).
  - unfold flat, settled in Hflat. rewrite forallb_forall in Hflat.
    apply Hflat, list_elem_of_In, list_elem_of_fmap. eauto.
Qed.

Lemma settled_restore w t l' b h :
  page_inv w → kinded w → take_timer (w_loop w) = Some (t, l') →
  t_cb t = RestoreButton b h →
  settled (restore_effect b h (with_loop (λ _, l') w)) = settled w.
Proof.
  intros [[[Hwf Hl] Hg] _] Hk Ht Hcb.
  pose proof (guards_of_take w t l' Hl Hg Ht) as Htake. unfold entry_of in Htake.
  rewrite Hcb in Htake. destruct Htake as [He Hdel].
  destruct (table_kinded w b Hk) as [Hlt Hm]; [eauto|].
  assert (is_Some (lookup b (w_dom w))) as Hb by by apply (is_kind_lookup _ _ KSubmit).
  unfold settled, restore_effect. cbn [w_dom w_loop with_loop with_dom].
  change (guards_of (with_dom _ (with_loop (λ _, l') w)))
    with (guards_of (with_loop (λ _, l') w)). rewrite Hdel.
  rewrite <-(undo_write (g_busy (guards_of w)) b h false (w_dom w)) by eauto.
  rewrite <-(insert_delete_id (g_busy (guards_of w)) b _ He) at 2.
  symmetry. apply Forall_fmap_ext_1, Forall_forall. intros u Hu.
  apply (undo_insert_fresh _ (set_disabled b false (set_innerHTML b h (w_dom w)))).
  - apply part_of_doc; [by apply wf_set_disabled, wf_set_innerHTML|done].
  - apply lookup_delete_eq.
  - apply get_disabled_set_disabled. by apply lookup_set_innerHTML_is_Some.
  - simpl. by rewrite get_innerHTML_set_disabled, get_innerHTML_set_innerHTML.
  - intros x Hx%kids_of_restored; [|done]. rewrite lookup_delete_ne.
    + destruct (g_busy (guards_of w) !! x) eqn:Hgx; [|done].
      destruct (table_kinded w x Hk) as [Hxlt _]; [eauto|]. lia.
    + intros <-. lia.
Qed.

End Effects.

(** ** Along a run without [showLoading] *)

Section Runs.
Context (user : nat → bool) (page : html) (Hflat : flat page = true).
Implicit Types (w : world) (a : label) (tr : list label).

(** The closures hold elements of their kinds, and with the fallbacks
    carried out the document is the served page. *)
Definition as_sent (w : world) : Prop := kinded w ∧ settled w = page.

Lemma as_sent_guard w this b :
  page_inv w → as_sent w → submit_button this w = Some b →
  get_disabled b (w_dom w) = false → as_sent (guard_effect b w).
Proof.
  intros Hinv [Hk Hs] Hb Hd. pose proof Hinv as [[Hwf _] _]. split.
  - by apply (stable_guard user (A := wf_world) w this).
  - rewrite (settled_guard w this); [done..|by rewrite Hs|done|done].
Qed.

Lemma as_sent_asked w : page_inv w → as_sent w → as_sent (asked user confirm_message w).
Proof. intros [[Hwf _] _] [Hk Hs]. split; [by apply (stable_asked user (A := wf_world))|done]. Qed.

Lemma as_sent_log w o : page_inv w → as_sent w → is_dialog o = false → as_sent (with_log o w).
Proof. intros [[Hwf _] _] [Hk Hs] Ho. split; [by apply (stable_log user (A := wf_world))|done]. Qed.

Lemma as_sent_loaded w : page_inv w → as_sent w → as_sent (loaded w).
Proof.
  intros [[Hwf _] _] [Hk Hs]. split; [by apply (stable_loaded user (A := wf_world))|].
  unfold settled. by rewrite guards_of_loaded.
Qed.

Lemma as_sent_timer w t l' :
  page_inv w → as_sent w → take_timer (w_loop w) = Some (t, l') →
  as_sent (exec (run_callback user (t_cb t)) (with_loop (λ _, l') w)).
Proof.
  intros Hinv [Hk Hs] Ht. pose proof Hinv as [[Hwf Hg] _].
  destruct (t_cb t) as [b h|alert] eqn:Hcb.
  - split; [by apply (stable_restore user (A := wf_world) w t)|].
    by rewrite <-Hs, <-(settled_restore w t l' b h).
  - apply (hideAlert_event user as_sent as_sent_guard as_sent_asked as_sent_log);
      [by apply (page_inv_take w t)|].
    split; [by apply (stable_hide user (A := wf_world) w t l' alert)|].
    pose proof (guards_of_take w t l' (proj2 Hwf) Hg Ht) as Htake. unfold entry_of in Htake.
    rewrite Hcb in Htake. unfold settled. by rewrite Htake.
Qed.

(** Every move but a call of [showLoading] keeps it. *)
Lemma step_as_sent w a w' :
  a ≠ LShowLoading → page_inv w → as_sent w → step user w a w' → as_sent w'.
Proof.
  intros Ha Hinv HJ Hstep. pose proof Hinv as [[Hwf _] _]. pose proof HJ as [Hk Hs].
  destruct Hstep; [| | | | | | |  |done].
  - split; [by apply (stable_bootstrap user (A := wf_world))|done].
  - split; [by apply (stable_main user (A := wf_world))|done].
  - by apply (any_event user as_sent as_sent_guard as_sent_asked as_sent_log as_sent_loaded).
  - by apply (any_event user as_sent as_sent_guard as_sent_asked as_sent_log as_sent_loaded).
  - by apply (fire_click_event user as_sent as_sent_guard as_sent_asked).
  - split; [by apply (stable_input user (A := wf_world))|done].
  - by apply as_sent_timer.
  - split; [by apply (stable_wait user (A := wf_world))|done].
Qed.

Lemma not_showLoading k : LShowLoading ∉ replicate k LTimer.
Proof. by intros [? _]%elem_of_replicate. Qed.

Lemma as_sent_initial_world : as_sent (initial_world page).
Proof.
  split; [constructor|]. unfold settled. simpl. rewrite <-(serialize_instantiate 0 page) at 2.
  apply Forall_fmap_ext_1, Forall_forall. intros t _. by apply undo_erase.
Qed.

Lemma run_as_sent tr w w' :
  LShowLoading ∉ tr → page_inv w → as_sent w → run user tr w = Some w' →
  page_inv w' ∧ as_sent w'.
Proof.
  revert w; induction tr as [|a tr IH]; intros w Htr Hinv HJ; simpl; [by intros [= <-]|].
  apply not_elem_of_cons in Htr as [Ha Htr].
  destruct (run_label user a w) as [w1|] eqn:Hw1; [|done]. simpl.
  apply run_label_step in Hw1.
  apply IH; [done| |by apply (step_as_sent w a)].
  by apply (stable_invariant user page_inv w a).
Qed.

(** With no fallback pending, the settled markup is the markup of the
    document. *)
Lemma settled_at_rest w :
  pending_restores w = [] → settled w = serialize (d_doc (w_dom w)).
Proof.
  intros Hnil. apply Forall_fmap_ext_1, Forall_forall. intros t _. apply undo_erase.
  intros x _. apply guards_lookup_None. rewrite Hnil. apply not_elem_of_nil.
Qed.

(** C5. The script leaves no trace in the document.  On a served page
    that has no [button[type="submit"]] inside another, after any run
    in which [showLoading] was not called - any submits, clicks,
    confirmations, edits, timers and waiting, in any order - the
    document with the pending fallbacks carried out is, as markup, the
    served page ([settled]).  So the document is the served page
    whenever no fallback is pending, and it is the served page once
    the timers that are pending have fired. *)
Theorem document_as_served tr w :
  run user tr (initial_world page) = Some w → LShowLoading ∉ tr →
  settled w = page ∧
  (pending_restores w = [] → serialize (d_doc (w_dom w)) = page) ∧
  serialize (d_doc (w_dom (exec (drain user (drain_fuel w)) w))) = page.
Proof.
  intros Hrun Htr.
  destruct (run_as_sent tr _ w Htr (page_inv_initial_world page) as_sent_initial_world Hrun)
    as [Hinv HJ].
  split; [apply HJ|]. split; [intros Hnil; rewrite <-settled_at_rest by done; apply HJ|].
  destruct (drain_run user (drain_fuel w) w) as (k & _ & Hk).
  destruct (run_as_sent (replicate k LTimer) w _ (not_showLoading k) Hinv HJ Hk) as [_ [_ Hs]].
  rewrite <-settled_at_rest; [done|]. unfold pending_restores, callbacks.
  by rewrite (drain_empties_inv user (drain_fuel w) w Hinv).
Qed.

End Runs.

(** ** On the sample page, and a page with nested buttons *)

Lemma document_as_served_witness :
  pending_restores sample_submitted = [7] ∧
  settled sample_submitted = sample_page ∧
  serialize
    (d_doc (w_dom (exec (drain accepter (drain_fuel sample_submitted)) sample_submitted)))
  = sample_page.
Proof.
  split; [vm_compute; reflexivity|].
  assert (flat sample_page = true) as Hflat by (vm_compute; reflexivity).
  assert (run accepter sample_trace (initial_world sample_page) = Some sample_submitted)
    as Hrun by (vm_compute; reflexivity).
  assert (LShowLoading ∉ sample_trace) as Htr
    by exact (bool_decide_unpack (LShowLoading ∉ sample_trace) I).
  pose proof (document_as_served accepter sample_page Hflat sample_trace sample_submitted
                Hrun Htr) as H.
  split; [exact (proj1 H)|exact (proj2 (proj2 H))].
Defined.

(** A submit button inside a submit button, which HTML does not allow:
    one submit of the inner form guards both buttons, the outer guard
    reads the inner button while it is disabled, and when both
    fallbacks have fired the inner button of the document is a copy
    that is disabled and says "Processing..." for good. *)
Definition sample_nested : html :=
  [HElem "form" []
     [HElem "button" [("type", "submit")]
        [HText "Outer";
         HElem "form" [] [HElem "button" [("type", "submit")] [HText "Inner"]]]]].

Definition sample_nested_trace : list label :=
  [LScript; LContentLoaded; LSubmit 2; LWait 30000; LTimer; LTimer].

Example sample_nested_stuck :
  flat sample_nested = false ∧
  ∃ w, run accepter sample_nested_trace (initial_world sample_nested) = Some w ∧
    l_timers (w_loop w) = [] ∧
    serialize (d_doc (w_dom w)) =
      [HElem "form" []
         [HElem "button" [("type", "submit")]
            [HText "Outer";
             HElem "form" []
               [HElem "button" [("type", "submit"); ("disabled", "")] processing_html]]]].
Proof. split; [vm_compute; reflexivity|]. eexists. vm_compute. done. Qed.
