(* ===== verification/Bisim.v ===== *)
(** * The order of the blocks of the load listener

    The load listener creates the tooltips, then binds the forms, the
    alerts and the delete buttons ([block], [run_block],
    [script_order]).  The four blocks are independent: each queries the
    document, which none of them changes, and they write to the log,
    register listeners for different events or set timers.  Running
    them in another order ([load_in_order]) gives a page whose registry
    lists the same bindings in another order.  [same_registry] relates
    two pages that differ at most in that: every target has the same
    listeners for every event, in the same order.  It is an equivalence
    that every function of the script and every call of the browser
    respects ([respects], with the database [respects]), hence a
    bisimulation of the page ([step_same_registry]): the two pages make
    the same moves, show the same dialogs and log the same observations
    for ever.  The one dependency between the blocks is the exception of
    the tooltips, which ends the listener: the blocks after the tooltips
    run only where the tooltips can be created ([binding_order]). *)

From Stdlib Require Import Ascii String.
From stdpp Require Import base strings option numbers list.
From S2P Require Import Prelude Html Selector Dom DomFacts EventLoop Page Samples.
From S2P Require Import Guard Bindings Machine.

Local Open Scope list_scope.

(** [w'] is [w] but for the order of the registry between different
    targets and events. *)
Definition same_registry (w w' : world) : Prop :=
  w_dom w' = w_dom w ∧ w_loop w' = w_loop w ∧ w_prompts w' = w_prompts w ∧
  w_log w' = w_log w ∧ w_bootstrap w' = w_bootstrap w ∧ w_invalid w' = w_invalid w ∧
  ∀ tgt ty, listeners_for tgt ty w' = listeners_for tgt ty w.

(** The four blocks of the load listener, by the comments that open them
    in the source: tooltips, forms, alerts, delete buttons. *)
Inductive block : Type := Tooltips | Forms | Alerts | Deletes.

#[export] Instance block_eq_dec : EqDecision block.
Proof. solve_decision. Defined.

(** The statements of a block.  Only the tooltips can throw. *)
Definition run_block (b : block) : prog (outcome exn unit) :=
  match b with
  | Tooltips => tooltipList <-? initTooltips ;; ret (Normal tt)
  | Forms => lift bindForms
  | Alerts => lift bindAlerts
  | Deletes => lift bindDeleteButtons
  end.

(** The load listener with its blocks in the order [bs]: a block runs
    when no block before it has thrown. *)
Fixpoint load_in_order (bs : list block) : prog (outcome exn unit) :=
  match bs with
  | [] => ret (Normal tt)
  | b :: bs' => _ <-? run_block b ;; load_in_order bs'
  end.

(** The order of the source. *)
Definition script_order : list block := [Tooltips; Forms; Alerts; Deletes].

(** What a block does to the page when it does not throw. *)
Definition block_effect (b : block) : prog unit :=
  match b with
  | Tooltips => tooltipList <- initTooltips ;; ret tt
  | Forms => bindForms
  | Alerts => bindAlerts
  | Deletes => bindDeleteButtons
  end.

#[export] Instance same_registry_equiv : Equivalence same_registry.
Proof.
  split.
  - by intros w.
  - intros w1 w2 (H1 & H2 & H3 & H4 & H5 & H6 & H7). by split_and!.
  - intros w1 w2 w3 (H1 & H2 & H3 & H4 & H5 & H6 & H7) (H1' & H2' & H3' & H4' & H5' & H6' & H7').
    unfold same_registry. rewrite H1', H2', H3', H4', H5', H6'. split_and!; try done.
    intros tgt ty. by rewrite H7'.
Qed.

(** ** What reads the page *)

#[export] Instance registry_dom : Proper (same_registry ==> eq) w_dom.
Proof. by intros w w' (-> & _). Qed.

#[export] Instance registry_loop : Proper (same_registry ==> eq) w_loop.
Proof. by intros w w' (_ & -> & _). Qed.

#[export] Instance registry_listeners_for tgt ty :
  Proper (same_registry ==> eq) (listeners_for tgt ty).
Proof. intros w w' H. by destruct H as (_ & _ & _ & _ & _ & _ & ->). Qed.

#[export] Instance registry_propagation_path tgt :
  Proper (same_registry ==> eq) (propagation_path tgt).
Proof. intros w w' (Hd & _). unfold propagation_path. by rewrite Hd. Qed.

#[export] Instance registry_click_blocked el : Proper (same_registry ==> eq) (click_blocked el).
Proof. intros w w' (Hd & _). unfold click_blocked. by rewrite Hd. Qed.

#[export] Instance registry_submitted_by btn : Proper (same_registry ==> eq) (submitted_by btn).
Proof.
  intros w w' (Hd & _ & _ & _ & _ & Hi & _). unfold submitted_by. by rewrite Hd, Hi.
Qed.

#[export] Instance registry_enabled a : Proper (same_registry ==> eq) (enabled a).
Proof.
  intros w w' H. pose proof H as (Hd & Hl & _). destruct a; simpl; try done.
  - by rewrite Hd.
  - by rewrite Hd, (registry_click_blocked el _ _ H).
  - by rewrite Hl.
  - unfold may_wait. by rewrite Hl.
Qed.

(** ** What writes the page *)

(** The fields other than the registry are the same after the same
    change. *)
Ltac same_fields :=
  intros ?? (? & ? & ? & ? & ? & ? & _); simpl; split_and!; congruence.

Section Writes.
Implicit Types (w : world).

Lemma same_registry_fields (f : world → world) :
  (∀ w, w_listeners (f w) = w_listeners w) →
  (∀ w1 w2, same_registry w1 w2 →
     w_dom (f w2) = w_dom (f w1) ∧ w_loop (f w2) = w_loop (f w1) ∧
     w_prompts (f w2) = w_prompts (f w1) ∧ w_log (f w2) = w_log (f w1) ∧
     w_bootstrap (f w2) = w_bootstrap (f w1) ∧ w_invalid (f w2) = w_invalid (f w1)) →
  ∀ w1 w2, same_registry w1 w2 → same_registry (f w1) (f w2).
Proof.
  intros Hl Hf w1 w2 H. destruct (Hf w1 w2 H) as (? & ? & ? & ? & ? & ?).
  split_and!; try done. intros tgt ty. unfold listeners_for. rewrite !Hl.
  destruct H as (_ & _ & _ & _ & _ & _ & H7). apply H7.
Qed.

Lemma listeners_for_app tgt ty w rs :
  listeners_for tgt ty (with_listeners (λ ls, ls ++ rs) w) =
  listeners_for tgt ty w ++ (snd <$> filter (λ r, r.1 = (tgt, ty)) rs).
Proof. unfold listeners_for. simpl. by rewrite filter_app, fmap_app. Qed.

Lemma same_registry_add rs w1 w2 :
  same_registry w1 w2 →
  same_registry (with_listeners (λ ls, ls ++ rs) w1) (with_listeners (λ ls, ls ++ rs) w2).
Proof.
  intros (H1 & H2 & H3 & H4 & H5 & H6 & H7). split_and!; try done.
  intros tgt ty. by rewrite !listeners_for_app, H7.
Qed.

End Writes.

(** ** The calls of the browser respect the equivalence *)

Section Calls.
Context (user : nat → bool).
Implicit Types (w : world).

Lemma respects_reads {A} (f : world → A) :
  Proper (same_registry ==> eq) f → respects same_registry (gets f).
Proof. intros Hf. apply respects_gets. intros w1 w2 H. by apply Hf. Qed.

Lemma respects_dom_read {A} (f : dom → A) : respects same_registry (gets (λ w, f (w_dom w))).
Proof. apply respects_gets. by intros w1 w2 (-> & _). Qed.

Lemma respects_with_dom f : respects same_registry (modify (with_dom f)).
Proof.
  apply respects_modify, same_registry_fields; [done|].
  same_fields.
Qed.

Lemma respects_with_loop f : respects same_registry (modify (with_loop f)).
Proof.
  apply respects_modify, same_registry_fields; [done|].
  same_fields.
Qed.

Lemma respects_with_log o : respects same_registry (modify (with_log o)).
Proof.
  apply respects_modify, same_registry_fields; [done|].
  same_fields.
Qed.

Lemma respects_querySelectorAll sel : respects same_registry (js_querySelectorAll sel).
Proof. apply respects_dom_read. Qed.

Lemma respects_querySelector this sel : respects same_registry (js_querySelector this sel).
Proof. destruct this; apply respects_dom_read. Qed.

Lemma respects_get_disabled el : respects same_registry (js_get_disabled el).
Proof. apply respects_dom_read. Qed.

Lemma respects_get_innerHTML el : respects same_registry (js_get_innerHTML el).
Proof. apply respects_dom_read. Qed.

Lemma respects_set_disabled el b : respects same_registry (js_set_disabled el b).
Proof. apply respects_with_dom. Qed.

Lemma respects_set_innerHTML el h : respects same_registry (js_set_innerHTML el h).
Proof. apply respects_with_dom. Qed.

Lemma respects_setTimeout cb delay : respects same_registry (js_setTimeout cb delay).
Proof.
  intros w1 w2 H. split; [simpl; by destruct H as (_ & -> & _)|].
  by apply (respects_with_loop (λ l, (setTimeout cb delay l).2)).
Qed.

Lemma respects_addEventListener tgt ty f :
  respects same_registry (js_addEventListener tgt ty f).
Proof. apply respects_modify. intros w1 w2. apply same_registry_add. Qed.

Lemma respects_bootstrap : respects same_registry (gets w_bootstrap).
Proof. apply respects_gets. by intros w1 w2 (_ & _ & _ & _ & -> & _). Qed.

Lemma respects_load_bootstrap : respects same_registry load_bootstrap.
Proof.
  apply respects_modify, same_registry_fields; [done|].
  same_fields.
Qed.

Lemma respects_set_validity form ok : respects same_registry (set_validity form ok).
Proof.
  apply respects_modify, (same_registry_fields (λ w, exec (set_validity form ok) w)); [done|].
  intros ?? (? & ? & ? & ? & ? & Hi & _); simpl. rewrite Hi. split_and!; congruence.
Qed.

Lemma respects_confirm message : respects same_registry (js_confirm user message).
Proof.
  intros w1 w2 H. split; [simpl; by destruct H as (_ & _ & -> & _)|].
  apply (same_registry_fields (λ w, exec (js_confirm user message) w)); [done| |done].
  same_fields.
Qed.

Lemma respects_report {A} (r : outcome exn A) : respects same_registry (report r).
Proof. destruct r; [apply respects_ret|apply respects_with_log]. Qed.

Lemma respects_wait t : respects same_registry (modify (with_loop (wait_until t))).
Proof. apply respects_with_loop. Qed.

End Calls.

#[export] Hint Resolve respects_reads respects_dom_read respects_with_dom respects_with_loop
  respects_with_log respects_querySelectorAll respects_querySelector respects_get_disabled
  respects_get_innerHTML respects_set_disabled respects_set_innerHTML respects_setTimeout
  respects_addEventListener respects_bootstrap respects_load_bootstrap
  respects_set_validity respects_confirm respects_report respects_wait : respects.

(** ** The script respects the equivalence *)

Section Script.
Context (user : nat → bool).
Implicit Types (w : world) (e : event).

Lemma respects_new_Tooltip el : respects same_registry (js_new_Tooltip el).
Proof. unfold js_new_Tooltip. respect. Qed.

Lemma respects_initTooltips : respects same_registry initTooltips.
Proof. unfold initTooltips. respect. apply respects_new_Tooltip. Qed.

Lemma respects_restoreButton b h : respects same_registry (restoreButton b h).
Proof. unfold restoreButton. respect. Qed.

Lemma respects_submitListener this e : respects same_registry (submitListener this e).
Proof. unfold submitListener. respect. Qed.

Lemma respects_bindForms : respects same_registry bindForms.
Proof. unfold bindForms. respect. Qed.

Lemma respects_bindAlerts : respects same_registry bindAlerts.
Proof. unfold bindAlerts. respect. Qed.

Lemma respects_bindDeleteButtons : respects same_registry bindDeleteButtons.
Proof. unfold bindDeleteButtons. respect. Qed.

Lemma respects_confirmListener e : respects same_registry (confirmListener user e).
Proof. unfold confirmListener. respect. Qed.

Lemma respects_onDOMContentLoaded : respects same_registry onDOMContentLoaded.
Proof.
  unfold onDOMContentLoaded.
  respect; auto using respects_initTooltips, respects_bindForms, respects_bindAlerts,
    respects_bindDeleteButtons.
Qed.

Lemma respects_main : respects same_registry main.
Proof. unfold main. respect. Qed.

Lemma respects_showLoading : respects same_registry showLoading.
Proof. unfold showLoading. respect. Qed.

Lemma respects_run_listener f this e : respects same_registry (run_listener user f this e).
Proof.
  destruct f; simpl; [|apply respects_submitListener|apply respects_confirmListener].
  respect. apply respects_onDOMContentLoaded.
Qed.

Lemma respects_invoke e this : respects same_registry (invoke user e this).
Proof. unfold invoke. respect; [apply respects_reads, _|apply respects_run_listener]. Qed.

Lemma respects_dispatch e : respects same_registry (dispatch user e).
Proof. unfold dispatch. respect; [apply respects_reads, _|apply respects_invoke]. Qed.

Lemma respects_activate tgt : respects same_registry (activate user tgt).
Proof. unfold activate. respect; [apply respects_reads, _|apply respects_dispatch]. Qed.

Lemma respects_fire_click el : respects same_registry (fire_click user el).
Proof.
  unfold fire_click. respect; [apply respects_dispatch|apply respects_activate].
Qed.

Lemma respects_click el : respects same_registry (js_click user el).
Proof. unfold js_click. respect; [apply respects_reads, _|apply respects_fire_click]. Qed.

Lemma respects_hideAlert alert : respects same_registry (hideAlert user alert).
Proof. unfold hideAlert. respect. apply respects_click. Qed.

Lemma respects_run_callback cb : respects same_registry (run_callback user cb).
Proof. destruct cb; [apply respects_restoreButton|apply respects_hideAlert]. Qed.

Lemma respects_run_timer : respects same_registry (run_timer user).
Proof.
  unfold run_timer. respect; [apply respects_reads, _|apply respects_run_callback].
Qed.

(** Every move of the page. *)
Lemma respects_perform a : respects same_registry (perform user a).
Proof.
  destruct a; simpl; respect;
    auto using respects_main, respects_dispatch, respects_fire_click, respects_run_timer,
      respects_showLoading.
Qed.

End Script.

(** ** The equivalence is a bisimulation *)

Section Bisimulation.
Context (user : nat → bool).
Implicit Types (w : world) (a : label) (tr : list label).

Lemma step_same_registry w1 w2 a w1' :
  same_registry w1 w2 → step user w1 a w1' →
  ∃ w2', step user w2 a w2' ∧ same_registry w1' w2'.
Proof.
  intros H [He ->]%step_iff_perform. exists (exec (perform user a) w2). split.
  - apply step_iff_perform. split; [by rewrite <-(registry_enabled a _ _ H)|done].
  - apply (respects_exec same_registry); [apply respects_perform|done].
Qed.

Lemma run_same_registry tr w1 w2 w1' :
  same_registry w1 w2 → run user tr w1 = Some w1' →
  ∃ w2', run user tr w2 = Some w2' ∧ same_registry w1' w2'.
Proof.
  revert w1 w2; induction tr as [|a tr IH]; intros w1 w2 H; simpl.
  - intros [= <-]. by exists w2.
  - destruct (run_label user a w1) as [w|] eqn:Ha; [|done]. simpl. intros Hrun.
    apply run_label_step in Ha.
    destruct (step_same_registry w1 w2 a w H Ha) as (w' & Hs%run_label_step & H').
    rewrite Hs. simpl. by apply (IH w).
Qed.

End Bisimulation.

(** ** The three blocks in any order *)

(** Replace the blocks by what they compute. *)
Ltac block_run :=
  rewrite ?initTooltips_run, ?bindForms_run, ?bindAlerts_run, ?bindDeleteButtons_run.

Section Order.
Implicit Types (w : world) (b : block) (bs : list block).

Lemma load_in_order_script w : load_in_order script_order w = onDOMContentLoaded w.
Proof.
  unfold onDOMContentLoaded, script_order, load_in_order, run_block, try_bind, lift, bind.
  destruct (initTooltips w) as [[ts|e] w1]; [|done]. simpl.
  rewrite !bindForms_run. simpl. rewrite !bindAlerts_run. simpl.
  by rewrite !bindDeleteButtons_run.
Qed.

(** No block changes what decides whether the tooltips throw. *)
Lemma block_effect_possible b w :
  tooltips_possible (exec (block_effect b) w) = tooltips_possible w.
Proof.
  unfold exec. destruct b; simpl; unfold bind;
    block_run;
    [|done..].
  by destruct (tooltips_possible w) eqn:Hw.
Qed.

(** A block other than the tooltips never throws, and the tooltips do
    not where they are possible. *)
Lemma run_block_normal b w :
  b ≠ Tooltips ∨ tooltips_possible w = true →
  run_block b w = (Normal tt, exec (block_effect b) w).
Proof.
  unfold exec. intros H. destruct b; simpl; unfold try_bind, lift, bind;
    block_run;
    try done.
  by destruct H as [?| ->].
Qed.

Lemma run_tooltips_throws w :
  tooltips_possible w = false → run_block Tooltips w = (Throw no_bootstrap, w).
Proof. intros H. simpl. unfold try_bind, bind. by rewrite initTooltips_run, H. Qed.

Lemma load_in_order_cons b bs w :
  b ≠ Tooltips ∨ tooltips_possible w = true →
  load_in_order (b :: bs) w = load_in_order bs (exec (block_effect b) w).
Proof.
  intros H. cbn [load_in_order]. unfold try_bind, bind. by rewrite run_block_normal.
Qed.

(** Where the tooltips are possible every block runs. *)
Lemma load_in_order_normal bs w :
  tooltips_possible w = true →
  load_in_order bs w = (Normal tt, exec (forEach (block_effect <$> bs) id) w).
Proof.
  revert w; induction bs as [|b bs IH]; intros w Hw; [done|].
  rewrite load_in_order_cons by by right.
  rewrite IH by by rewrite block_effect_possible. done.
Qed.

(** Where they are not, the blocks before the tooltips run and those
    after them do not. *)
Lemma load_in_order_throws pre post w :
  tooltips_possible w = false → Tooltips ∉ pre →
  load_in_order (pre ++ Tooltips :: post) w =
  (Throw no_bootstrap, exec (forEach (block_effect <$> pre) id) w).
Proof.
  revert w; induction pre as [|b pre IH]; intros w Hw Hpre.
  - cbn [app load_in_order]. unfold try_bind, bind. by rewrite run_tooltips_throws.
  - apply not_elem_of_cons in Hpre as [Hb Hpre]. cbn [app].
    rewrite load_in_order_cons by (left; congruence).
    by rewrite IH by by rewrite ?block_effect_possible.
Qed.

Lemma load_in_order_before pre w :
  Tooltips ∉ pre →
  load_in_order pre w = (Normal tt, exec (forEach (block_effect <$> pre) id) w).
Proof.
  revert w; induction pre as [|b pre IH]; intros w Hpre; [done|].
  apply not_elem_of_cons in Hpre as [Hb Hpre].
  rewrite load_in_order_cons by (left; congruence). by rewrite IH.
Qed.

(** The forms and the alerts: a listener and a timer. *)
Lemma forms_alerts_commute : commute same_registry bindForms bindAlerts.
Proof.
  intros w. unfold exec, bind. rewrite bindForms_run, bindAlerts_run. simpl.
  by rewrite bindAlerts_run, bindForms_run.
Qed.

Lemma alerts_delete_commute : commute same_registry bindAlerts bindDeleteButtons.
Proof.
  intros w. unfold exec, bind. rewrite bindAlerts_run, bindDeleteButtons_run. simpl.
  by rewrite bindAlerts_run, bindDeleteButtons_run.
Qed.

(** The forms and the delete buttons: listeners for different events. *)
Lemma forms_delete_commute : commute same_registry bindForms bindDeleteButtons.
Proof.
  intros w. unfold exec, bind. rewrite bindForms_run, bindDeleteButtons_run. simpl.
  rewrite bindForms_run, bindDeleteButtons_run. simpl.
  split_and!; try done. intros tgt ty. unfold listeners_for, add_listeners. simpl.
  rewrite !filter_app, !fmap_app, <-!app_assoc. f_equal.
  destruct ty.
  - rewrite !(filter_none _ (_ <$> _)); [done|apply Forall_fmap, Forall_true..];
      by intros x [= _ ?].
  - rewrite (filter_none _ (delete_binding <$> _)); [by rewrite app_nil_r|].
    apply Forall_fmap, Forall_true. by intros x [= _ ?].
  - rewrite (filter_none _ (submit_binding <$> _)); [by rewrite app_nil_r|].
    apply Forall_fmap, Forall_true. by intros x [= _ ?].
Qed.

(** The tooltips write to the log only, the other blocks never. *)
Lemma tooltips_commute b : commute same_registry (block_effect Tooltips) (block_effect b).
Proof.
  destruct b; [apply commute_refl, _|..]; intros w; unfold exec; simpl; unfold bind;
    block_run; simpl; block_run; unfold tooltips_possible; simpl;
    by destruct (_ || _).
Qed.

Lemma blocks_commute b1 b2 : commute same_registry (block_effect b1) (block_effect b2).
Proof.
  pose proof forms_alerts_commute. pose proof alerts_delete_commute.
  pose proof forms_delete_commute. pose proof tooltips_commute as Ht.
  destruct b1, b2;
    first [apply commute_refl, _|apply Ht|by apply commute_sym; [apply _|apply Ht]
          |assumption|by apply commute_sym; [apply _|]].
Qed.

Lemma blocks_respect b : respects same_registry (block_effect b).
Proof.
  destruct b; simpl;
    [respect; apply respects_initTooltips|apply respects_bindForms|apply respects_bindAlerts|
     apply respects_bindDeleteButtons].
Qed.

(** Where the tooltips are possible the order of the four blocks is
    immaterial. *)
Lemma load_in_order_same bs w :
  bs ≡ₚ script_order → tooltips_possible w = true →
  eval (load_in_order bs) w = eval onDOMContentLoaded w ∧
  same_registry (exec onDOMContentLoaded w) (exec (load_in_order bs) w).
Proof.
  intros Hp Hw. unfold eval, exec.
  rewrite <-load_in_order_script, !load_in_order_normal by done. split; [done|].
  apply (sequence_Permutation same_registry (block_effect <$> script_order));
    [by rewrite Hp|apply Forall_fmap, Forall_true, blocks_respect| |done].
  intros c1 c2 (b1 & -> & _)%list_elem_of_fmap (b2 & -> & _)%list_elem_of_fmap.
  apply blocks_commute.
Qed.

Lemma tooltips_once pre post : pre ++ Tooltips :: post ≡ₚ script_order → Tooltips ∉ pre.
Proof.
  intros Hp.
  assert (NoDup (pre ++ Tooltips :: post)) as Hnd
    by (rewrite Hp; exact (bool_decide_unpack (NoDup script_order) I)).
  apply NoDup_app in Hnd as (_ & Hnd & _). intros Hin. apply (Hnd _ Hin). by left.
Qed.

(** C27. The order of the blocks of the load listener is immaterial
    unless the tooltips throw.  Take the four blocks in any order.
    Where the tooltips can be created the listener returns the same
    result and leaves a page with the same document, timers, log and
    dialogs, on which every target has the same listeners for every
    event, in the same order; and from there on the two pages make the
    same moves and stay so related.  Where they cannot, the blocks
    before the tooltips run and no block after them: the script, which
    has the tooltips first, binds nothing. *)
Theorem binding_order (user : nat → bool) pre post w tr w1 :
  pre ++ Tooltips :: post ≡ₚ script_order →
  let load := load_in_order (pre ++ Tooltips :: post) in
  if tooltips_possible w then
    eval load w = eval onDOMContentLoaded w ∧
    same_registry (exec onDOMContentLoaded w) (exec load w) ∧
    (run user tr (exec onDOMContentLoaded w) = Some w1 →
     ∃ w2, run user tr (exec load w) = Some w2 ∧ same_registry w1 w2)
  else
    onDOMContentLoaded w = (Throw no_bootstrap, w) ∧
    load_in_order pre w = (Normal tt, exec (load_in_order pre) w) ∧
    load w = (Throw no_bootstrap, exec (load_in_order pre) w).
Proof.
  intros Hp load. pose proof (tooltips_once pre post Hp) as Hpre.
  destruct (tooltips_possible w) eqn:Hw.
  - destruct (load_in_order_same _ w Hp Hw) as [He Hs].
    split_and!; [done..|by apply run_same_registry].
  - rewrite onDOMContentLoaded_run, Hw. unfold load, exec.
    by rewrite load_in_order_throws, load_in_order_before.
Qed.

End Order.

(** ** On the sample page *)

(** The blocks in the reverse order: the delete buttons are bound before
    the forms, and every target has the listeners that the script gives
    it. *)
Example sample_reverse_registry :
  w_listeners (exec (load_in_order [Deletes; Alerts; Forms; Tooltips]) (exec main sample_world)) =
  [(Document, DOMContentLoaded, OnDOMContentLoaded); delete_binding 9;
   submit_binding 5; submit_binding 8; submit_binding 10].
Proof. vm_compute. reflexivity. Qed.

(** The sample page without the bundle: with the tooltips last the page
    has its listeners and its timer when the exception is thrown; the
    script leaves it without any. *)
Example sample_tooltips_last :
  let w := exec main (initial_world sample_page) in
  eval (load_in_order [Forms; Alerts; Deletes; Tooltips]) w = Throw no_bootstrap ∧
  length (w_listeners (exec (load_in_order [Forms; Alerts; Deletes; Tooltips]) w)) = 5 ∧
  w_listeners (exec onDOMContentLoaded w) = w_listeners w.
Proof. vm_compute. done. Qed.

Lemma binding_order_witness :
  same_registry (exec onDOMContentLoaded (exec main sample_world))
    (exec (load_in_order [Deletes; Alerts; Forms; Tooltips]) (exec main sample_world)) ∧
  load_in_order [Forms; Alerts; Deletes; Tooltips] (exec main (initial_world sample_page)) =
    (Throw no_bootstrap,
     exec (load_in_order [Forms; Alerts; Deletes]) (exec main (initial_world sample_page))).
Proof.
  split.
  - apply (binding_order accepter [Deletes; Alerts; Forms] [] (exec main sample_world) []
             (exec onDOMContentLoaded (exec main sample_world))).
    exact (reverse_Permutation script_order).
  - apply (binding_order accepter [Forms; Alerts; Deletes] []
             (exec main (initial_world sample_page)) [] (initial_world sample_page)).
    change ([Forms; Alerts; Deletes] ++ [Tooltips]) with
      (tail script_order ++ [hd Tooltips script_order]).
    by rewrite <-Permutation_cons_append.
Defined.
